(** * XAI_Persistence: the session core of [persistent_chat]

    A shallow embedding of the two versions of [persistent_chat.py] kept under
    [backups/]: [persistent_chat-QwenEdited.py] (an [httpx] client, module
    [Httpx] below) and [persistent_chat - Copy.py] (the OpenAI client with the
    persona preamble, module [OpenAIClient] below).  The rate limiter and the
    memory store are the same text in both files and are embedded once.

    Conventions.
    - A Python [str] is a list of code points ([text]); file contents are
      bytes.  Files opened in text mode with [encoding='utf-8'] go through
      [utf8_encode] / [utf8_decode] and the newline translation of the
      platform.
    - Instants ([datetime.now()] as compared by the rate limiter) are
      microseconds on a clock held in the session state; [time.sleep]
      advances that clock.
    - Exceptions are values of [exn]; a computation that can raise returns a
      [result].  State is passed explicitly.
    - What depends on the installation (platform, pydantic's coercions, the
      extra formats [datetime.fromisoformat] accepts, the text of library
      error messages, the conversion of the clock to calendar fields, the
      transport) is a field of [Env]. *)

From Stdlib Require Import ZArith Lia List Bool Ascii String.
From stdpp Require Import base option list gmap strings.
Import ListNotations.

Local Open Scope Z_scope.
Local Set Warnings "-register-all".

(* ===================================================================== *)
(** * Part I: definitions                                                 *)
(* ===================================================================== *)

(** ** Text and bytes *)

Abbreviation codepoint := Z.
Abbreviation text := (list Z).
Abbreviation bytes := (list Byte.byte).

(** A Rocq string literal read as ASCII text. *)
Definition txt (s : string) : text :=
  map (fun a => Z.of_N (N_of_ascii a)) (list_ascii_of_string s).

Definition byte_of_Z (z : Z) : Byte.byte :=
  match Byte.of_N (Z.to_N z) with
  | Some b => b
  | None => Byte.x00
  end.

Definition Z_of_byte (b : Byte.byte) : Z := Z.of_N (Byte.to_N b).

(** The ASCII bytes of a literal, for building file contents. *)
Definition raw (s : string) : bytes := map byte_of_Z (txt s).

(** A literal in which an apostrophe stands for a double quote, for writing
    JSON texts. *)
Definition quoted (s : string) : text :=
  map (fun c => if c =? 39 then 34 else c) (txt s).
Definition raw_quoted (s : string) : bytes := map byte_of_Z (quoted s).

Definition text_eqb (a b : text) : bool := bool_decide (a = b).

(** [str.encode('utf-8')], one code point: surrogates (U+D800..U+DFFF) and
    values outside the Unicode range raise [UnicodeEncodeError]. *)
Definition utf8_encode_cp (c : codepoint) : option (list Z) :=
  if (c <? 0) then None
  else if (c <? 128) then Some [c]
  else if (c <? 2048) then Some [192 + c / 64; 128 + c mod 64]
  else if (c <? 65536) then
    if (55296 <=? c) && (c <=? 57343) then None
    else Some [224 + c / 4096; 128 + (c / 64) mod 64; 128 + c mod 64]
  else if (c <? 1114112) then
    Some [240 + c / 262144; 128 + (c / 4096) mod 64;
          128 + (c / 64) mod 64; 128 + c mod 64]
  else None.

Fixpoint utf8_encode (t : text) : option bytes :=
  match t with
  | [] => Some []
  | c :: rest =>
      match utf8_encode_cp c, utf8_encode rest with
      | Some bs, Some out => Some (map byte_of_Z bs ++ out)
      | _, _ => None
      end
  end.

Definition is_cont (z : Z) : bool := (128 <=? z) && (z <? 192).

(** [bytes.decode('utf-8')], strict: truncated or overlong sequences,
    encoded surrogates and values above U+10FFFF raise
    [UnicodeDecodeError]. *)
Fixpoint utf8_decode (bs : bytes) : option text :=
  match bs with
  | [] => Some []
  | b0 :: r0 =>
      let z0 := Z_of_byte b0 in
      if z0 <? 128 then option_map (cons z0) (utf8_decode r0)
      else if z0 <? 192 then None
      else if z0 <? 224 then
        match r0 with
        | b1 :: r1 =>
            let z1 := Z_of_byte b1 in
            let c := (z0 - 192) * 64 + (z1 - 128) in
            if is_cont z1 && (128 <=? c)
            then option_map (cons c) (utf8_decode r1) else None
        | _ => None
        end
      else if z0 <? 240 then
        match r0 with
        | b1 :: b2 :: r2 =>
            let z1 := Z_of_byte b1 in
            let z2 := Z_of_byte b2 in
            let c := (z0 - 224) * 4096 + (z1 - 128) * 64 + (z2 - 128) in
            if is_cont z1 && is_cont z2 && (2048 <=? c)
               && negb ((55296 <=? c) && (c <=? 57343))
            then option_map (cons c) (utf8_decode r2) else None
        | _ => None
        end
      else if z0 <? 248 then
        match r0 with
        | b1 :: b2 :: b3 :: r3 =>
            let z1 := Z_of_byte b1 in
            let z2 := Z_of_byte b2 in
            let z3 := Z_of_byte b3 in
            let c := (z0 - 240) * 262144 + (z1 - 128) * 4096
                     + (z2 - 128) * 64 + (z3 - 128) in
            if is_cont z1 && is_cont z2 && is_cont z3
               && (65536 <=? c) && (c <? 1114112)
            then option_map (cons c) (utf8_decode r3) else None
        | _ => None
        end
      else None
  end.

(** Text-mode newline handling.  Writing translates ['\n'] to [os.linesep]
    (["\r\n"] on Windows, nothing to do on POSIX); reading uses universal
    newlines: ["\r\n"] and a lone ['\r'] both become ['\n']. *)
Fixpoint newlines_out (posix : bool) (t : text) : text :=
  match t with
  | [] => []
  | c :: rest =>
      if (c =? 10) && negb posix then 13 :: 10 :: newlines_out posix rest
      else c :: newlines_out posix rest
  end.

Fixpoint universal_newlines (t : text) : text :=
  match t with
  | [] => []
  | c :: rest =>
      if c =? 13 then
        match rest with
        | d :: rest' =>
            if d =? 10 then 10 :: universal_newlines rest'
            else 10 :: universal_newlines rest
        | [] => [10]
        end
      else c :: universal_newlines rest
  end.

(** ** JSON values, [json.dump] and [json.load]

    The values [json.load] builds: [None], [bool], numbers, [str], [list]
    and [dict] (insertion-ordered, keys unique).  This program never
    computes with a number, so a number is kept as the literal that denotes
    it; [json.dump] writes a literal for it back. *)

Inductive json : Type :=
| JNull
| JBool (b : bool)
| JNum (lit : text)
| JStr (s : text)
| JList (xs : list json)
| JDict (kvs : list (text * json)).

Definition hex_digit (d : Z) : codepoint := if d <? 10 then 48 + d else 87 + d.

(** [ESCAPE_DCT] of [json.encoder], as used with [ensure_ascii=False]. *)
Definition escape_char (c : codepoint) : text :=
  if c =? 34 then [92; 34]
  else if c =? 92 then [92; 92]
  else if c =? 8 then [92; 98]
  else if c =? 12 then [92; 102]
  else if c =? 10 then [92; 110]
  else if c =? 13 then [92; 114]
  else if c =? 9 then [92; 116]
  else if (0 <=? c) && (c <? 32)
       then [92; 117; 48; 48; hex_digit (c / 16); hex_digit (c mod 16)]
  else [c].

Definition encode_basestring (s : text) : text :=
  34 :: flat_map escape_char s ++ [34].

(** ['\n' + ' ' * (2 * level)] *)
Definition newline_indent (lvl : nat) : text := 10 :: repeat 32 (2 * lvl)%nat.

Fixpoint join (sep : text) (parts : list text) : text :=
  match parts with
  | [] => []
  | [p] => p
  | p :: rest => p ++ sep ++ join sep rest
  end.

(** [json.dumps(v, indent=2, ensure_ascii=False)] at nesting depth [lvl]:
    item separator [","], key separator [": "]. *)
Fixpoint iterencode (lvl : nat) (v : json) : text :=
  match v with
  | JNull => txt "null"
  | JBool true => txt "true"
  | JBool false => txt "false"
  | JNum lit => lit
  | JStr s => encode_basestring s
  | JList [] => txt "[]"
  | JList xs =>
      [91] ++ newline_indent (S lvl)
      ++ join (44 :: newline_indent (S lvl)) (map (iterencode (S lvl)) xs)
      ++ newline_indent lvl ++ [93]
  | JDict [] => txt "{}"
  | JDict kvs =>
      [123] ++ newline_indent (S lvl)
      ++ join (44 :: newline_indent (S lvl))
           (map (fun kv => encode_basestring (fst kv) ++ [58; 32]
                           ++ iterencode (S lvl) (snd kv)) kvs)
      ++ newline_indent lvl ++ [125]
  end.

Definition json_dumps (v : json) : text := iterencode 0 v.

(** *** The decoder *)

Inductive scanned (A : Type) : Type :=
| Scanned (a : A) (rest : text)
| Malformed          (* [json.JSONDecodeError] *)
| Exhausted.         (* the fuel of the model ran out; see [scan_once_fuel] *)
Arguments Scanned {A} a rest.
Arguments Malformed {A}.
Arguments Exhausted {A}.

Definition is_ws (c : codepoint) : bool :=
  (c =? 32) || (c =? 9) || (c =? 10) || (c =? 13).

Fixpoint skip_ws (t : text) : text :=
  match t with
  | c :: r => if is_ws c then skip_ws r else t
  | [] => []
  end.

Definition is_digit (c : codepoint) : bool := (48 <=? c) && (c <=? 57).

Definition hex_value (c : codepoint) : option Z :=
  if is_digit c then Some (c - 48)
  else if (97 <=? c) && (c <=? 102) then Some (c - 87)
  else if (65 <=? c) && (c <=? 70) then Some (c - 55)
  else None.

Definition hex4 (a b c d : codepoint) : option Z :=
  match hex_value a, hex_value b, hex_value c, hex_value d with
  | Some x, Some y, Some z, Some w => Some (((x * 16 + y) * 16 + z) * 16 + w)
  | _, _, _, _ => None
  end.

Definition backslash_escape (e : codepoint) : option codepoint :=
  if e =? 34 then Some 34
  else if e =? 92 then Some 92
  else if e =? 47 then Some 47
  else if e =? 98 then Some 8
  else if e =? 102 then Some 12
  else if e =? 110 then Some 10
  else if e =? 114 then Some 13
  else if e =? 116 then Some 9
  else None.

Definition cons_char (c : codepoint) (r : option (text * text)) : option (text * text) :=
  match r with
  | Some (s, rest) => Some (c :: s, rest)
  | None => None
  end.

(** [scanstring(s, end, strict=True)], entered after the opening quote:
    the decoded string and what follows the closing quote. *)
Fixpoint scanstring (t : text) : option (text * text) :=
  match t with
  | [] => None
  | c :: r =>
      if c =? 34 then Some ([], r)
      else if c =? 92 then
        match r with
        | [] => None
        | e :: r1 =>
            if e =? 117 then
              match r1 with
              | h1 :: h2 :: h3 :: h4 :: r2 =>
                  match hex4 h1 h2 h3 h4 with
                  | None => None
                  | Some u =>
                      if (55296 <=? u) && (u <=? 56319) then
                        match r2 with
                        | b :: r3 =>
                            match r3 with
                            | u' :: r4 =>
                                if (b =? 92) && (u' =? 117) then
                                  match r4 with
                                  | g1 :: g2 :: g3 :: g4 :: r5 =>
                                      match hex4 g1 g2 g3 g4 with
                                      | None => None
                                      | Some u2 =>
                                          if (56320 <=? u2) && (u2 <=? 57343)
                                          then cons_char
                                                 (65536 + (u - 55296) * 1024 + (u2 - 56320))
                                                 (scanstring r5)
                                          else cons_char u (scanstring r2)
                                      end
                                  | _ => None
                                  end
                                else cons_char u (scanstring r2)
                            | [] => cons_char u (scanstring r2)
                            end
                        | [] => None
                        end
                      else cons_char u (scanstring r2)
                  end
              | _ => None
              end
            else
              match backslash_escape e with
              | Some ch => cons_char ch (scanstring r1)
              | None => None
              end
        end
      else if c <? 32 then None
      else cons_char c (scanstring r)
  end.

Fixpoint span_digits (t : text) : text * text :=
  match t with
  | c :: r =>
      if is_digit c then let '(ds, rest) := span_digits r in (c :: ds, rest)
      else ([], t)
  | [] => ([], [])
  end.

(** [NUMBER_RE] of [json.scanner], matched at the head of [t]: an optional
    minus sign, an integer part (a single 0, or a non-zero digit and more
    digits), an optional fraction (a dot and one or more digits) and an
    optional exponent (e or E, an optional sign, one or more digits).  The
    literal matched and the rest. *)
Definition scan_int_part (t : text) : option (text * text) :=
  match t with
  | d :: r =>
      if d =? 48 then Some ([48], r)
      else if is_digit d then let '(ds, rest) := span_digits r in Some (d :: ds, rest)
      else None
  | [] => None
  end.

Definition scan_frac (t : text) : text * text :=
  match t with
  | dot :: f :: r =>
      if (dot =? 46) && is_digit f
      then let '(ds, rest) := span_digits r in (dot :: f :: ds, rest)
      else ([], t)
  | _ => ([], t)
  end.

Definition scan_exp (t : text) : text * text :=
  match t with
  | e :: s :: r =>
      if (e =? 101) || (e =? 69) then
        if is_digit s then let '(ds, rest) := span_digits r in (e :: s :: ds, rest)
        else if (s =? 45) || (s =? 43) then
          match r with
          | d :: r' =>
              if is_digit d
              then let '(ds, rest) := span_digits r' in (e :: s :: d :: ds, rest)
              else ([], t)
          | [] => ([], t)
          end
        else ([], t)
      else ([], t)
  | _ => ([], t)
  end.

Definition scan_number (t : text) : option (text * text) :=
  let '(sign, t1) :=
    match t with
    | c :: r => if c =? 45 then ([45], r) else ([], t)
    | [] => ([], t)
    end in
  match scan_int_part t1 with
  | None => None
  | Some (ip, t2) =>
      let '(fp, t3) := scan_frac t2 in
      let '(ep, t4) := scan_exp t3 in
      Some (sign ++ ip ++ fp ++ ep, t4)
  end.

Fixpoint strip_prefix (p t : text) : option text :=
  match p, t with
  | [], _ => Some t
  | a :: p', b :: t' => if a =? b then strip_prefix p' t' else None
  | _ :: _, [] => None
  end.

(** [dict(pairs)]: a later pair with a key already present replaces the
    value and keeps the position of the first. *)
Fixpoint dict_set (k : text) (v : json) (d : list (text * json)) : list (text * json) :=
  match d with
  | [] => [(k, v)]
  | (k', v') :: d' =>
      if text_eqb k k' then (k, v) :: d' else (k', v') :: dict_set k v d'
  end.

Definition py_dict (pairs : list (text * json)) : list (text * json) :=
  fold_left (fun d kv => dict_set (fst kv) (snd kv) d) pairs [].

Fixpoint dict_get (k : text) (d : list (text * json)) : option json :=
  match d with
  | [] => None
  | (k', v) :: d' => if text_eqb k k' then Some v else dict_get k d'
  end.

(** [scan_once] of [json.scanner] with [JSONArray] and [JSONObject] of
    [json.decoder].  [scan_array_items] is entered at the first character of
    an item, [scan_object_items] just after the opening quote of a key. *)
Fixpoint scan_once (fuel : nat) (t : text) : scanned json :=
  match fuel with
  | O => Exhausted
  | S fuel' =>
      match t with
      | [] => Malformed
      | c :: r =>
          if c =? 34 then
            match scanstring r with
            | Some (s, rest) => Scanned (JStr s) rest
            | None => Malformed
            end
          else if c =? 123 then
            match skip_ws r with
            | d :: r' =>
                if d =? 125 then Scanned (JDict []) r'
                else if d =? 34 then
                  match scan_object_items fuel' r' with
                  | Scanned kvs rest => Scanned (JDict (py_dict kvs)) rest
                  | Malformed => Malformed
                  | Exhausted => Exhausted
                  end
                else Malformed
            | [] => Malformed
            end
          else if c =? 91 then
            match skip_ws r with
            | d :: r' =>
                if d =? 93 then Scanned (JList []) r'
                else
                  match scan_array_items fuel' (d :: r') with
                  | Scanned vs rest => Scanned (JList vs) rest
                  | Malformed => Malformed
                  | Exhausted => Exhausted
                  end
            | [] => Malformed
            end
          else
            match strip_prefix (txt "null") t with
            | Some rest => Scanned JNull rest
            | None =>
            match strip_prefix (txt "true") t with
            | Some rest => Scanned (JBool true) rest
            | None =>
            match strip_prefix (txt "false") t with
            | Some rest => Scanned (JBool false) rest
            | None =>
            match scan_number t with
            | Some (lit, rest) => Scanned (JNum lit) rest
            | None =>
            match strip_prefix (txt "NaN") t with
            | Some rest => Scanned (JNum (txt "NaN")) rest
            | None =>
            match strip_prefix (txt "Infinity") t with
            | Some rest => Scanned (JNum (txt "Infinity")) rest
            | None =>
            match strip_prefix (txt "-Infinity") t with
            | Some rest => Scanned (JNum (txt "-Infinity")) rest
            | None => Malformed
            end end end end end end end
      end
  end

with scan_array_items (fuel : nat) (t : text) : scanned (list json) :=
  match fuel with
  | O => Exhausted
  | S fuel' =>
      match scan_once fuel' t with
      | Scanned v r =>
          match skip_ws r with
          | c :: r' =>
              if c =? 93 then Scanned [v] r'
              else if c =? 44 then
                match scan_array_items fuel' (skip_ws r') with
                | Scanned vs rest => Scanned (v :: vs) rest
                | Malformed => Malformed
                | Exhausted => Exhausted
                end
              else Malformed
          | [] => Malformed
          end
      | Malformed => Malformed
      | Exhausted => Exhausted
      end
  end

with scan_object_items (fuel : nat) (t : text) : scanned (list (text * json)) :=
  match fuel with
  | O => Exhausted
  | S fuel' =>
      match scanstring t with
      | None => Malformed
      | Some (key, r) =>
          match skip_ws r with
          | colon :: r1 =>
              if colon =? 58 then
                match scan_once fuel' (skip_ws r1) with
                | Scanned v r2 =>
                    match skip_ws r2 with
                    | c :: r3 =>
                        if c =? 125 then Scanned [(key, v)] r3
                        else if c =? 44 then
                          match skip_ws r3 with
                          | q :: r4 =>
                              if q =? 34 then
                                match scan_object_items fuel' r4 with
                                | Scanned kvs rest => Scanned ((key, v) :: kvs) rest
                                | Malformed => Malformed
                                | Exhausted => Exhausted
                                end
                              else Malformed
                          | [] => Malformed
                          end
                        else Malformed
                    | [] => Malformed
                    end
                | Malformed => Malformed
                | Exhausted => Exhausted
                end
              else Malformed
          | [] => Malformed
          end
      end
  end.

(** [json.loads(s)], with [None] for [json.JSONDecodeError]: a leading
    U+FEFF is refused, leading whitespace is
    skipped, one value is decoded, and anything but whitespace after it is
    "Extra data".  The fuel, twice the length of [s] and one, is always
    enough ([scan_once_fuel]).  The interpreter's recursion limit, which
    turns very deep nesting into a [RecursionError], is not modelled. *)
Definition starts_with_bom (s : text) : bool :=
  match s with
  | c :: _ => c =? 65279
  | [] => false
  end.

Definition json_loads (s : text) : option json :=
  if starts_with_bom s then None
  else
    match scan_once (S (2 * length s)) (skip_ws s) with
    | Scanned v rest =>
        match skip_ws rest with
        | [] => Some v
        | _ :: _ => None
        end
    | _ => None
    end.

(** ** Timestamps: [datetime.isoformat] and [datetime.fromisoformat]

    The timestamps this program creates come from [datetime.now()], which is
    naive (no time zone). *)

Record datetime : Type := {
  year : Z; month : Z; day : Z;
  hour : Z; minute : Z; second : Z; microsecond : Z
}.

Definition is_leap (y : Z) : bool :=
  (y mod 4 =? 0) && (negb (y mod 100 =? 0) || (y mod 400 =? 0)).

Definition days_in_month (y m : Z) : Z :=
  if m =? 2 then (if is_leap y then 29 else 28)
  else if (m =? 4) || (m =? 6) || (m =? 9) || (m =? 11) then 30
  else 31.

(** The range checks of the [datetime] constructor. *)
Definition valid_datetime (d : datetime) : bool :=
  (1 <=? year d) && (year d <=? 9999)
  && (1 <=? month d) && (month d <=? 12)
  && (1 <=? day d) && (day d <=? days_in_month (year d) (month d))
  && (0 <=? hour d) && (hour d <? 24)
  && (0 <=? minute d) && (minute d <? 60)
  && (0 <=? second d) && (second d <? 60)
  && (0 <=? microsecond d) && (microsecond d <? 1000000).

Definition digit (n : Z) : codepoint := 48 + n mod 10.
Definition pad2 (n : Z) : text := [digit (n / 10); digit n].
Definition pad4 (n : Z) : text :=
  [digit (n / 1000); digit (n / 100); digit (n / 10); digit n].
Definition pad6 (n : Z) : text :=
  [digit (n / 100000); digit (n / 10000); digit (n / 1000);
   digit (n / 100); digit (n / 10); digit n].

(** ["%04d-%02d-%02dT%02d:%02d:%02d"], and [".%06d"] when the microsecond
    is not zero. *)
Definition isoformat (d : datetime) : text :=
  pad4 (year d) ++ [45] ++ pad2 (month d) ++ [45] ++ pad2 (day d) ++ [84]
  ++ pad2 (hour d) ++ [58] ++ pad2 (minute d) ++ [58] ++ pad2 (second d)
  ++ (if microsecond d =? 0 then [] else 46 :: pad6 (microsecond d)).

Fixpoint number_of_digits (acc : Z) (ds : text) : option Z :=
  match ds with
  | [] => Some acc
  | c :: r => if is_digit c then number_of_digits (acc * 10 + (c - 48)) r else None
  end.

Definition make_datetime (y mo d h mi s us : text) : option datetime :=
  match number_of_digits 0 y, number_of_digits 0 mo, number_of_digits 0 d,
        number_of_digits 0 h, number_of_digits 0 mi, number_of_digits 0 s,
        number_of_digits 0 us with
  | Some y', Some mo', Some d', Some h', Some mi', Some s', Some us' =>
      let dt := {| year := y'; month := mo'; day := d'; hour := h';
                   minute := mi'; second := s'; microsecond := us' |} in
      if valid_datetime dt then Some dt else None
  | _, _, _, _, _, _, _ => None
  end.

(** [fromisoformat] on the two shapes [isoformat] writes for a naive
    datetime, [YYYY-MM-DDTHH:MM:SS] and [YYYY-MM-DDTHH:MM:SS.ffffff]; every
    Python version reads these the same way. *)
Definition fromisoformat_canonical (s : text) : option datetime :=
  match s with
  | y1 :: y2 :: y3 :: y4 :: d1 :: m1 :: m2 :: d2 :: a1 :: a2 :: sep
    :: h1 :: h2 :: c1 :: n1 :: n2 :: c2 :: s1 :: s2 :: frac =>
      if (d1 =? 45) && (d2 =? 45) && (sep =? 84) && (c1 =? 58) && (c2 =? 58) then
        match frac with
        | [] => make_datetime [y1; y2; y3; y4] [m1; m2] [a1; a2]
                  [h1; h2] [n1; n2] [s1; s2] []
        | [dot; f1; f2; f3; f4; f5; f6] =>
            if dot =? 46
            then make_datetime [y1; y2; y3; y4] [m1; m2] [a1; a2]
                   [h1; h2] [n1; n2] [s1; s2] [f1; f2; f3; f4; f5; f6]
            else None
        | _ => None
        end
      else None
  | _ => None
  end.

(** ** Exceptions and results *)

Inductive exn : Type :=
| JSONDecodeError            (* [json.JSONDecodeError] *)
| UnicodeDecodeError
| UnicodeEncodeError
| KeyError (key : text)
| TypeError
| ValueError
| ValidationError            (* pydantic *)
| OSError
| FileExistsError
| FileNotFoundError
| HTTPStatusError (status : Z)
| ReadTimeout                (* [httpx.ReadTimeout] *)
| ConnectError               (* no connection *)
| IndexError
| ValueErrorWith (msg : text).     (* [raise ValueError(error_msg)] *)

Inductive result (A : Type) : Type :=
| Ok (a : A)
| Raise (e : exn)
| Hang.               (* a loop that never ends: only [wait_for_capacity] *)
Arguments Ok {A} a.
Arguments Raise {A} e.
Arguments Hang {A}.

(** State and exceptions: a computation takes the state and gives back a
    result and the state it left, also when it raises. *)
Definition M (S A : Type) : Type := S -> result A * S.

Definition ret {S A} (a : A) : M S A := fun s => (Ok a, s).
Definition raise {S A} (e : exn) : M S A := fun s => (Raise e, s).
Definition bind {S A B} (m : M S A) (k : A -> M S B) : M S B :=
  fun s =>
    match m s with
    | (Ok a, s') => k a s'
    | (Raise e, s') => (Raise e, s')
    | (Hang, s') => (Hang, s')
    end.

(** [try: m  except Exception as e: h e] *)
Definition try_except {S A} (m : M S A) (h : exn -> M S A) : M S A :=
  fun s =>
    match m s with
    | (Raise e, s') => h e s'
    | other => other
    end.

Definition get {S} : M S S := fun s => (Ok s, s).
Definition modify {S} (f : S -> S) : M S unit := fun s => (Ok tt, f s).
Definition of_option {S A} (e : exn) (o : option A) : M S A :=
  match o with
  | Some a => ret a
  | None => raise e
  end.

(** A computation that has no state, run where there is one. *)
Definition stateless {S A} (m : M unit A) : M S A := fun s => (fst (m tt), s).

Declare Scope py_scope.
Delimit Scope py_scope with py.
Notation "x <- m ;; k" := (bind m (fun x => k))
  (at level 100, m at next level, right associativity) : py_scope.
Notation "m ;; k" := (bind m (fun _ => k))
  (at level 100, right associativity) : py_scope.
Local Open Scope py_scope.

(** ** The data model: [Message] and [ChatMemory] *)

Record Message : Type := {
  role : text;
  content : text;
  timestamp : datetime
}.

Record ChatMemory : Type := {
  messages : list Message;
  metadata : list (text * json)
}.

(** [ChatMemory()] *)
Definition empty_memory : ChatMemory := {| messages := []; metadata := [] |}.

(** ** The installation *)

Inductive retry_after_header : Type :=
| NoRetryAfter
| RetryAfterInt (n : Z)      (* a value [int()] reads as [n] *)
| RetryAfterOther.           (* a value [int()] refuses, such as an HTTP date *)

(** What [result['choices'][0]['message']['content']] gives on a response
    body (and [completion.choices[0].message.content] on a completion). *)
Inductive body : Type :=
| Content (c : option text)  (* a string, or [None] *)
| BadBody (e : exn).         (* not JSON, a missing key, an empty list *)

(** One physical call as the transport answers it. *)
Inductive response : Type :=
| Returned (status : Z) (retry_after : retry_after_header) (b : body)
| Failed (e : exn).          (* no response: a timeout, a connection error *)

Record Env : Type := {
  (** POSIX ([true]) or Windows ([false]): [os.rename] onto an existing
      file, [os.linesep] and the path separators differ. *)
  posix : bool;
  (** pydantic validating a value that is not a [str] for a [str] field, and
      a value that is not a [dict] for a [Dict] field: version 1 converts
      some, version 2 refuses them. *)
  coerce_str : json -> option text;
  coerce_dict : json -> option (list (text * json));
  (** [datetime.fromisoformat] on a string that is not of the two shapes of
      [fromisoformat_canonical]: what is accepted depends on the Python
      version. *)
  fromisoformat_ext : text -> option datetime;
  (** [str(e)] for an exception whose message a library wrote. *)
  str_exn : exn -> text;
  (** [datetime.now()] as calendar fields, from the clock. *)
  datetime_of : Z -> datetime;
  (** [SYSTEM_MESSAGE], the persona preamble read when the module is
      imported. *)
  SYSTEM_MESSAGE : text;
  (** The answer of the remote endpoint to the n-th physical call. *)
  transport : nat -> response
}.

(** [str(e)] *)
Definition py_str (env : Env) (e : exn) : text :=
  match e with
  | ValueErrorWith msg => msg
  | _ => str_exn env e
  end.

Definition fromisoformat (env : Env) (s : text) : option datetime :=
  match fromisoformat_canonical s with
  | Some d => Some d
  | None => fromisoformat_ext env s
  end.

(** ** Paths and files *)

Abbreviation filesystem := (gmap string bytes).

Definition is_sep (posix : bool) (a : ascii) : bool :=
  Ascii.eqb a "/"%char || (negb posix && Ascii.eqb a "\"%char).

Fixpoint break_at (p : ascii -> bool) (l : list ascii) : list ascii * list ascii :=
  match l with
  | [] => ([], [])
  | a :: r =>
      if p a then ([], l)
      else let '(x, y) := break_at p r in (a :: x, y)
  end.

(** [Path.with_suffix(suffix)] on the rendering of a path: the name is the
    part after the last separator; its suffix starts at the last dot unless
    that dot is the first or the last character of the name; the suffix, if
    any, is replaced, otherwise [suffix] is appended.  An empty name raises
    [ValueError]. *)
Definition with_suffix (posix : bool) (p : string) (suffix : string) : option string :=
  let '(rname, rdir) := break_at (is_sep posix) (rev (list_ascii_of_string p)) in
  let '(rext, rstem) := break_at (Ascii.eqb "."%char) rname in
  match rname with
  | [] => None
  | _ :: _ =>
      let rkept :=
        match rext, rstem with
        | _ :: _, _ :: c :: rstem' => c :: rstem'
        | _, _ => rname
        end in
      Some (string_of_list_ascii (rev rdir ++ rev rkept) +:+ suffix)
  end.

Definition file_exists (p : string) (fs : filesystem) : bool :=
  match fs !! p with
  | Some _ => true
  | None => false
  end.

(** [Path.rename(target)]: on POSIX an existing target is replaced silently,
    on Windows [FileExistsError] is raised. *)
Definition rename (env : Env) (src dst : string) : M filesystem unit :=
  fun fs =>
    match fs !! src with
    | None => (Raise FileNotFoundError, fs)
    | Some data =>
        if negb (posix env) && file_exists dst fs
        then (Raise FileExistsError, fs)
        else (Ok tt, <[dst := data]> (delete src fs))
    end.

(** [Path.unlink()] *)
Definition unlink (p : string) : M filesystem unit :=
  fun fs =>
    match fs !! p with
    | None => (Raise FileNotFoundError, fs)
    | Some _ => (Ok tt, delete p fs)
    end.

(** [open(p, 'r', encoding='utf-8')] and [f.read()]. *)
Definition read_text (p : string) : M filesystem text :=
  fun fs =>
    match fs !! p with
    | None => (Raise FileNotFoundError, fs)
    | Some data =>
        match utf8_decode data with
        | Some t => (Ok (universal_newlines t), fs)
        | None => (Raise UnicodeDecodeError, fs)
        end
    end.

(** What can go wrong with the disk while a file is written. *)
Inductive write_fault : Type :=
| NoFault
| OpenFails                    (* [open(p, 'w')] raises, nothing is created *)
| WriteFails (written : nat).  (* an I/O error once [written] bytes are out *)

(** The bytes of the longest prefix of [t] that UTF-8 can encode, and
    whether that is all of [t]. *)
Fixpoint encode_prefix (t : text) : bytes * bool :=
  match t with
  | [] => ([], true)
  | c :: rest =>
      match utf8_encode_cp c with
      | Some bs =>
          let '(out, whole) := encode_prefix rest in (map byte_of_Z bs ++ out, whole)
      | None => ([], false)
      end
  end.

(** [with open(p, 'w', encoding='utf-8') as f: f.write(t)].  Opening
    truncates or creates the file; what was written before an error stays in
    it when the [with] block closes it. *)
Definition write_text (env : Env) (fault : write_fault) (p : string) (t : text)
  : M filesystem unit :=
  fun fs =>
    let '(data, whole) := encode_prefix (newlines_out (posix env) t) in
    match fault with
    | OpenFails => (Raise OSError, fs)
    | WriteFails n => (Raise OSError, <[p := take n data]> fs)
    | NoFault =>
        if whole then (Ok tt, <[p := data]> fs)
        else (Raise UnicodeEncodeError, <[p := data]> fs)
    end.

(** ** The memory store: [PersistentChat._load_memory] and [_save_memory] *)

(** [json.load(f)] *)
Definition json_load {S} (s : text) : M S json :=
  of_option JSONDecodeError (json_loads s).

(** [v[k]] with a string key: only a [dict] can be subscripted so. *)
Definition subscript {S} (v : json) (k : text) : M S json :=
  match v with
  | JDict d => of_option (KeyError k) (dict_get k d)
  | _ => raise TypeError
  end.

(** [for x in v]: a list gives its items, a dict its keys, a string its
    characters; nothing else can be iterated. *)
Definition py_iter {S} (v : json) : M S (list json) :=
  match v with
  | JList xs => ret xs
  | JDict kvs => ret (map (fun kv => JStr (fst kv)) kvs)
  | JStr s => ret (map (fun c => JStr [c]) s)
  | _ => raise TypeError
  end.

(** pydantic on a [str] field. *)
Definition validate_str {S} (env : Env) (v : json) : M S text :=
  match v with
  | JStr s => ret s
  | _ => of_option ValidationError (coerce_str env v)
  end.

(** pydantic on a [Dict] field. *)
Definition validate_dict {S} (env : Env) (v : json) : M S (list (text * json)) :=
  match v with
  | JDict d => ret d
  | _ => of_option ValidationError (coerce_dict env v)
  end.

(** [datetime.fromisoformat(v)] *)
Definition parse_timestamp {S} (env : Env) (v : json) : M S datetime :=
  match v with
  | JStr s => of_option ValueError (fromisoformat env s)
  | _ => raise TypeError
  end.

(** [Message(role=msg['role'], content=msg['content'],
             timestamp=datetime.fromisoformat(msg['timestamp']))] *)
Definition load_message {S} (env : Env) (msg : json) : M S Message :=
  r <- subscript msg (txt "role") ;;
  c <- subscript msg (txt "content") ;;
  t <- subscript msg (txt "timestamp") ;;
  ts <- parse_timestamp env t ;;
  r' <- validate_str env r ;;
  c' <- validate_str env c ;;
  ret {| role := r'; content := c'; timestamp := ts |}.

Fixpoint mapM {S A B} (f : A -> M S B) (l : list A) : M S (list B) :=
  match l with
  | [] => ret []
  | a :: rest => b <- f a ;; bs <- mapM f rest ;; ret (b :: bs)
  end.

(** The body of the [with] block of [_load_memory], after [json.load]. *)
Definition reconstruct {S} (env : Env) (data : json) : M S ChatMemory :=
  ms <- subscript data (txt "messages") ;;
  items <- py_iter ms ;;
  msgs <- mapM (load_message env) items ;;
  md <- validate_dict env
          (match data with
           | JDict d => default (JDict []) (dict_get (txt "metadata") d)
           | _ => JDict []
           end) ;;
  ret {| messages := msgs; metadata := md |}.

(** [_load_memory].  [JSONDecodeError] has its own handler, which moves the
    file to [with_suffix('.json.backup')]; every other exception is logged.
    An exception raised inside a handler leaves the function. *)
Definition _load_memory (env : Env) (memory_file : string) : M filesystem ChatMemory :=
  loaded <-
    try_except
      (fs <- get ;;
       if file_exists memory_file fs then
         s <- read_text memory_file ;;
         data <- json_load s ;;
         m <- stateless (reconstruct env data) ;;
         ret (Some m)
       else ret None)
      (fun e =>
         match e with
         | JSONDecodeError =>
             fs <- get ;;
             (if file_exists memory_file fs then
                backup_path <- of_option ValueError
                                 (with_suffix (posix env) memory_file ".json.backup") ;;
                rename env memory_file backup_path
              else ret tt) ;;
             ret None
         | _ => ret None
         end) ;;
  ret (default empty_memory loaded).

Definition message_to_json (m : Message) : json :=
  JDict [(txt "role", JStr (role m));
         (txt "content", JStr (content m));
         (txt "timestamp", JStr (isoformat (timestamp m)))].

(** The object [_save_memory] hands to [json.dump]. *)
Definition memory_to_json (m : ChatMemory) : json :=
  JDict [(txt "messages", JList (map message_to_json (messages m)));
         (txt "metadata", JDict (metadata m))].

(** Which of its two log lines [_save_memory] wrote: "Memory saved
    successfully" or "Error saving memory: ...". *)
Inductive save_log : Type :=
| SavedSuccessfully
| ErrorSaving (e : exn).

(** [_save_memory].  The snapshot is made at [with_suffix('.json.bak')];
    it is removed, or restored, at [str(memory_file) + '.bak']. *)
Definition _save_memory (env : Env) (fault : write_fault) (memory_file : string)
    (memory : ChatMemory) : M filesystem save_log :=
  try_except
    (fs <- get ;;
     (if file_exists memory_file fs then
        backup_path <- of_option ValueError
                         (with_suffix (posix env) memory_file ".json.bak") ;;
        rename env memory_file backup_path
      else ret tt) ;;
     write_text env fault memory_file (json_dumps (memory_to_json memory)) ;;
     fs' <- get ;;
     (if file_exists (memory_file +:+ ".bak") fs'
      then unlink (memory_file +:+ ".bak") else ret tt) ;;
     ret SavedSuccessfully)
    (fun e =>
       fs <- get ;;
       (if file_exists (memory_file +:+ ".bak") fs
        then rename env (memory_file +:+ ".bak") memory_file else ret tt) ;;
       ret (ErrorSaving e)).

(** ** The rate limiter *)

Definition RATE_LIMIT_REQUESTS : Z := 50.
Definition RATE_LIMIT_WINDOW : Z := 60.
Definition RETRY_ATTEMPTS : Z := 3.
Definition RETRY_DELAY : Z := 2.

(** [timedelta(seconds=s)], in microseconds. *)
Definition timedelta_seconds (s : Z) : Z := s * 1000000.

(** [self.requests] is a deque: the oldest record is at the head. *)
Record RateLimiter : Type := {
  max_requests : Z;
  window_size : Z;
  requests : list Z
}.

Definition RateLimiter_init (max_requests window_size : Z) : RateLimiter :=
  {| max_requests := max_requests; window_size := window_size; requests := [] |}.

(** [while self.requests and self.requests[0] < window_start:
       self.requests.popleft()] *)
Fixpoint popleft_while_old (window_start : Z) (q : list Z) : list Z :=
  match q with
  | r :: q' => if r <? window_start then popleft_while_old window_start q' else q
  | [] => []
  end.

(** [can_make_request] at the instant [now]: the answer and the limiter
    with its deque trimmed. *)
Definition can_make_request (now : Z) (rl : RateLimiter) : bool * RateLimiter :=
  let window_start := now - timedelta_seconds (window_size rl) in
  let q := popleft_while_old window_start (requests rl) in
  (Z.of_nat (length q) <? max_requests rl,
   {| max_requests := max_requests rl; window_size := window_size rl; requests := q |}).

(** [add_request] at the instant [now]. *)
Definition add_request (now : Z) (rl : RateLimiter) : RateLimiter :=
  {| max_requests := max_requests rl; window_size := window_size rl;
     requests := requests rl ++ [now] |}.

(** ** The session *)

Inductive sleep_site : Type :=
| Polling        (* [time.sleep(1)] in [wait_for_capacity] *)
| RetryAfter     (* [time.sleep(wait_time)] after a 429 *)
| Backoff.       (* [time.sleep(RETRY_DELAY * (attempt + 1))] in a handler *)

(** What a session does that can be seen from outside, in order. *)
Inductive event : Type :=
| CapacityGranted                        (* [wait_for_capacity] returned *)
| Requested (prompt : list (text * text)) (* a physical call is issued *)
| Recorded (now : Z)                     (* [add_request] *)
| Slept (site : sleep_site) (seconds : Z).

(** A [PersistentChat] object with the world it runs in: the files, the
    clock, the number of physical calls made and the trace of events. *)
Record session : Type := {
  memory_file : string;
  memory : ChatMemory;
  rate_limiter : RateLimiter;
  files : filesystem;
  clock : Z;
  calls : nat;
  trace : list event
}.

Definition set_memory (m : ChatMemory) (st : session) : session :=
  {| memory_file := memory_file st; memory := m; rate_limiter := rate_limiter st;
     files := files st; clock := clock st; calls := calls st; trace := trace st |}.

Definition set_rate_limiter (rl : RateLimiter) (st : session) : session :=
  {| memory_file := memory_file st; memory := memory st; rate_limiter := rl;
     files := files st; clock := clock st; calls := calls st; trace := trace st |}.

Definition set_files (fs : filesystem) (st : session) : session :=
  {| memory_file := memory_file st; memory := memory st; rate_limiter := rate_limiter st;
     files := fs; clock := clock st; calls := calls st; trace := trace st |}.

Definition advance_clock (seconds : Z) (st : session) : session :=
  {| memory_file := memory_file st; memory := memory st; rate_limiter := rate_limiter st;
     files := files st; clock := clock st + timedelta_seconds seconds;
     calls := calls st; trace := trace st |}.

Definition count_call (st : session) : session :=
  {| memory_file := memory_file st; memory := memory st; rate_limiter := rate_limiter st;
     files := files st; clock := clock st; calls := S (calls st); trace := trace st |}.

Definition log (e : event) (st : session) : session :=
  {| memory_file := memory_file st; memory := memory st; rate_limiter := rate_limiter st;
     files := files st; clock := clock st; calls := calls st; trace := trace st ++ [e] |}.

(** Run a computation on the files of the session. *)
Definition on_files {A} (m : M filesystem A) : M session A :=
  fun st => let '(r, fs) := m (files st) in (r, set_files fs st).

(** The session after [seconds] of sleep. *)
Definition slept (site : sleep_site) (seconds : Z) (st : session) : session :=
  log (Slept site seconds) (advance_clock seconds st).

(** [time.sleep(seconds)]: a negative length raises [ValueError]. *)
Definition sleep (site : sleep_site) (seconds : Z) : M session unit :=
  if seconds <? 0 then raise ValueError
  else modify (slept site seconds).

(** [self.rate_limiter.can_make_request()] *)
Definition poll_capacity : M session bool :=
  fun st =>
    let '(ok, rl) := can_make_request (clock st) (rate_limiter st) in
    (Ok ok, set_rate_limiter rl st).

(** [while not self.can_make_request(): time.sleep(1)], at most [fuel]
    checks. *)
Fixpoint wait_loop (fuel : nat) : M session unit :=
  match fuel with
  | O => fun st => (Hang, st)
  | S fuel' =>
      ok <- poll_capacity ;;
      if ok then ret tt else (sleep Polling 1 ;; wait_loop fuel')
  end.

(** The number of checks after which every record now in the window has
    aged out of it. *)
Definition polls_needed (now : Z) (rl : RateLimiter) : nat :=
  S (Z.to_nat ((fold_right Z.max now (requests rl) - now) / 1000000
               + window_size rl + 1)).

(** [wait_for_capacity].  It hangs when the limit is not positive; with a
    positive limit [polls_needed] checks are enough
    ([wait_for_capacity_returns]). *)
Definition wait_for_capacity : M session unit :=
  st <- get ;;
  wait_loop (polls_needed (clock st) (rate_limiter st)) ;;
  modify (log CapacityGranted).

(** The session after [add_request]. *)
Definition recorded (st : session) : session :=
  log (Recorded (clock st))
      (set_rate_limiter (add_request (clock st) (rate_limiter st)) st).

(** [self.rate_limiter.add_request()] *)
Definition record_request : M session unit := modify recorded.

(** [range(n)] *)
Definition range (n : Z) : list Z := map Z.of_nat (seq 0 (Z.to_nat n)).

(** [Message(role=r, content=c)]: the timestamp is [datetime.now()];
    [None] is not a [str]. *)
Definition new_message (env : Env) (r : text) (c : option text) : M session Message :=
  match c with
  | Some s =>
      st <- get ;;
      ret {| role := r; content := s; timestamp := datetime_of env (clock st) |}
  | None => raise ValidationError
  end.

(** [self.memory.messages.append(m)] *)
Definition append_message (m : Message) : M session unit :=
  modify (fun st =>
            set_memory {| messages := messages (memory st) ++ [m];
                          metadata := metadata (memory st) |} st).

(** Code points for which [str.isspace] holds; [str.strip()] removes them
    at both ends. *)
Definition py_isspace (c : codepoint) : bool :=
  ((9 <=? c) && (c <=? 13)) || ((28 <=? c) && (c <=? 32))
  || (c =? 133) || (c =? 160) || (c =? 5760)
  || ((8192 <=? c) && (c <=? 8202))
  || (c =? 8232) || (c =? 8233) || (c =? 8239) || (c =? 8287) || (c =? 12288).

(** [not message or not message.strip()] *)
Definition is_blank (message : text) : bool := forallb py_isspace message.

(** [get_chat_history] *)
Definition get_chat_history (st : session) : list (text * text * text) :=
  map (fun m => (role m, content m, isoformat (timestamp m))) (messages (memory st)).

(** [PersistentChat.__init__] on the files [fs] at the instant [now]. *)
Definition PersistentChat_init (env : Env) (memory_file : string) (now : Z)
    (fs : filesystem) : result session :=
  match _load_memory env memory_file fs with
  | (Ok m, fs') =>
      Ok {| memory_file := memory_file; memory := m;
            rate_limiter := RateLimiter_init RATE_LIMIT_REQUESTS RATE_LIMIT_WINDOW;
            files := fs'; clock := now; calls := 0%nat; trace := [] |}
  | (Raise e, _) => Raise e
  | (Hang, _) => Hang
  end.

(** What one pass through the body of the retry loop decides. *)
Inductive step (A : Type) : Type :=
| Return (a : A)
| Continue.
Arguments Return {A} a.
Arguments Continue {A}.

(** A physical call: the call is counted and logged, and the transport
    answers; no response at all is an exception. *)
Definition called (prompt : list (text * text)) (st : session) : session :=
  log (Requested prompt) (count_call st).

Definition physical_call (env : Env) (prompt : list (text * text))
  : M session (Z * retry_after_header * body) :=
  fun st =>
    match transport env (calls st) with
    | Returned status ra b => (Ok (status, ra, b), called prompt st)
    | Failed e => (Raise e, called prompt st)
    end.

(** The three [except] clauses of the httpx version and the single one of
    the other share this: sleep and go on unless this was the last
    attempt. *)
Definition backoff_or (attempt : Z) {A} (last : M session (step A)) : M session (step A) :=
  if attempt <? RETRY_ATTEMPTS - 1
  then (sleep Backoff (RETRY_DELAY * (attempt + 1)) ;; ret Continue)
  else last.

(** *** [persistent_chat-QwenEdited.py] *)
Module Httpx.

(** [response.raise_for_status()] *)
Definition raise_for_status (status : Z) : M session unit :=
  if (200 <=? status) && (status <? 300) then ret tt
  else raise (HTTPStatusError status).

(** The delay a response advertises, [RETRY_DELAY] when it has no
    [Retry-After] header. *)
Definition advertised_delay (ra : retry_after_header) : option Z :=
  match ra with
  | NoRetryAfter => Some RETRY_DELAY
  | RetryAfterInt n => Some n
  | RetryAfterOther => None
  end.

(** [int(response.headers.get('Retry-After', RETRY_DELAY))] *)
Definition retry_after_seconds (ra : retry_after_header) : M session Z :=
  of_option ValueError (advertised_delay ra).

(** The [try] block of one attempt. *)
Definition attempt_body (env : Env) (prompt : list (text * text))
  : M session (step (option text)) :=
  wait_for_capacity ;;
  response <- physical_call env prompt ;;
  let '(status, ra, b) := response in
  record_request ;;
  if status =? 429 then
    wait_time <- retry_after_seconds ra ;;
    sleep RetryAfter wait_time ;;
    ret Continue
  else
    raise_for_status status ;;
    match b with
    | Content c => ret (Return c)
    | BadBody e => raise e
    end.

(** The [except] clauses of one attempt. *)
Definition attempt_handlers (attempt : Z) (e : exn) : M session (step (option text)) :=
  match e with
  | HTTPStatusError _ => backoff_or attempt (raise e)
  | ReadTimeout => backoff_or attempt (raise e)
  | _ => backoff_or attempt (raise e)
  end.

(** [for attempt in attempts: try: ... except ...]; falling out of the
    loop returns [None]. *)
Fixpoint retry_loop (env : Env) (prompt : list (text * text)) (attempts : list Z)
  : M session (option text) :=
  match attempts with
  | [] => ret None
  | attempt :: rest =>
      s <- try_except (attempt_body env prompt) (attempt_handlers attempt) ;;
      match s with
      | Return v => ret v
      | Continue => retry_loop env prompt rest
      end
  end.

Definition _make_api_request (env : Env) (prompt : list (text * text))
  : M session (option text) :=
  retry_loop env prompt (range RETRY_ATTEMPTS).

(** The prompt [chat] builds: the history and the new message. *)
Definition build_prompt (m : ChatMemory) (message : text) : list (text * text) :=
  map (fun msg => (role msg, content msg)) (messages m) ++ [(txt "user", message)].

Definition chat (env : Env) (fault : write_fault) (message : text) : M session text :=
  try_except
    (if is_blank message then ret (txt "Message cannot be empty")
     else
       st <- get ;;
       let prompt := build_prompt (memory st) message in
       assistant_message <- _make_api_request env prompt ;;
       user <- new_message env (txt "user") (Some message) ;;
       append_message user ;;
       assistant <- new_message env (txt "assistant") assistant_message ;;
       append_message assistant ;;
       st' <- get ;;
       on_files (_save_memory env fault (memory_file st') (memory st')) ;;
       ret (content assistant))
    (fun e => ret (txt "Error: " ++ py_str env e)).

End Httpx.

(** *** [persistent_chat - Copy.py] *)
Module OpenAIClient.

(** [self.client.chat.completions.create(...)]: the client raises for a
    status that is not a success. *)
Definition create (env : Env) (prompt : list (text * text)) : M session body :=
  response <- physical_call env prompt ;;
  let '(status, _, b) := response in
  if (200 <=? status) && (status <? 300) then ret b
  else raise (HTTPStatusError status).

Definition attempt_body (env : Env) (prompt : list (text * text))
  : M session (step (option text)) :=
  wait_for_capacity ;;
  completion <- create env prompt ;;
  record_request ;;
  match completion with
  | Content c => ret (Return c)
  | BadBody e => raise e
  end.

Definition attempt_handlers (env : Env) (attempt : Z) (e : exn)
  : M session (step (option text)) :=
  let error_msg := txt "Error making API request: " ++ py_str env e in
  backoff_or attempt (raise (ValueErrorWith error_msg)).

Fixpoint retry_loop (env : Env) (prompt : list (text * text)) (attempts : list Z)
  : M session (option text) :=
  match attempts with
  | [] => ret None
  | attempt :: rest =>
      s <- try_except (attempt_body env prompt) (attempt_handlers env attempt) ;;
      match s with
      | Return v => ret v
      | Continue => retry_loop env prompt rest
      end
  end.

Definition _make_api_request (env : Env) (prompt : list (text * text))
  : M session (option text) :=
  retry_loop env prompt (range RETRY_ATTEMPTS).

(** The prompt [chat] builds: the preamble, the stored messages whose role
    is not ["system"], and the new message. *)
Definition build_prompt (env : Env) (m : ChatMemory) (message : text)
  : list (text * text) :=
  [(txt "system", SYSTEM_MESSAGE env)]
  ++ map (fun msg => (role msg, content msg))
       (filter (fun msg => role msg <> txt "system") (messages m))
  ++ [(txt "user", message)].

Definition chat (env : Env) (fault : write_fault) (message : text) : M session text :=
  try_except
    (if is_blank message then ret (txt "Message cannot be empty")
     else
       st <- get ;;
       let prompt := build_prompt env (memory st) message in
       assistant_message <- _make_api_request env prompt ;;
       user <- new_message env (txt "user") (Some message) ;;
       append_message user ;;
       assistant <- new_message env (txt "assistant") assistant_message ;;
       append_message assistant ;;
       st' <- get ;;
       on_files (_save_memory env fault (memory_file st') (memory st')) ;;
       ret (content assistant))
    (fun e => ret (txt "Error: " ++ py_str env e)).

End OpenAIClient.

(** ** The retry policy as the specification words it

    Section 4.3 of the specification, kept apart from the code above so that
    the two can be compared: capacity is awaited, the attempt is recorded,
    the request is issued; a 429 waits the advertised delay (default
    [RETRY_DELAY]) and leaves the budget alone; a timeout, a connection
    failure or a 5xx uses one attempt of the budget and backs off
    [RETRY_DELAY * (attemptIndex + 1)]; another 4xx fails at once.  [used]
    counts the attempts charged to the budget; [fuel] bounds the number of
    physical calls, which the specification does not. *)
Fixpoint send_by_spec (env : Env) (prompt : list (text * text)) (fuel : nat) (used : Z)
  : M session (option text) :=
  match fuel with
  | O => fun st => (Hang, st)
  | S fuel' =>
      wait_for_capacity ;;
      record_request ;;
      answer <- try_except
                  (r <- physical_call env prompt ;;
                   let '(status, ra, b) := r in ret (Returned status ra b))
                  (fun e => ret (Failed e)) ;;
      let transient (e : exn) : M session (option text) :=
        if used + 1 <? RETRY_ATTEMPTS
        then (sleep Backoff (RETRY_DELAY * (used + 1)) ;;
              send_by_spec env prompt fuel' (used + 1))
        else raise e in
      match answer with
      | Failed e => transient e
      | Returned status ra b =>
          if status =? 429 then
            sleep RetryAfter (match ra with RetryAfterInt n => n | _ => RETRY_DELAY end) ;;
            send_by_spec env prompt fuel' used
          else if (500 <=? status) && (status <? 600) then transient (HTTPStatusError status)
          else if (200 <=? status) && (status <? 300) then
            match b with
            | Content c => ret c
            | BadBody e => raise e
            end
          else raise (HTTPStatusError status)
      end
  end.

(** ** Well-formed values

    What Python's types guarantee and the types above do not: a [str] holds
    code points, a [datetime] passed its constructor, a number is denoted
    by a literal, the keys of a [dict] are distinct. *)

Definition is_str (s : text) : bool :=
  forallb (fun c => (0 <=? c) && (c <? 1114112)) s.

(** A literal [json.loads] reads as a number: all of it is matched by
    [NUMBER_RE], or it is one of the three constants. *)
Definition is_number_literal (lit : text) : bool :=
  match scan_number lit with
  | Some (_, []) => true
  | _ => text_eqb lit (txt "NaN") || text_eqb lit (txt "Infinity")
         || text_eqb lit (txt "-Infinity")
  end.

Fixpoint distinct_keys (kvs : list (text * json)) : bool :=
  match kvs with
  | [] => true
  | (k, _) :: rest =>
      negb (existsb (fun kv => text_eqb k (fst kv)) rest) && distinct_keys rest
  end.

Fixpoint wf_json (v : json) : bool :=
  match v with
  | JNull => true
  | JBool _ => true
  | JNum lit => is_number_literal lit
  | JStr s => is_str s
  | JList xs => forallb wf_json xs
  | JDict kvs =>
      distinct_keys kvs && forallb (fun kv => is_str (fst kv) && wf_json (snd kv)) kvs
  end.

Definition wf_message (m : Message) : bool :=
  is_str (role m) && is_str (content m) && valid_datetime (timestamp m).

Definition wf_memory (m : ChatMemory) : bool :=
  forallb wf_message (messages m) && wf_json (JDict (metadata m)).

(** The limiter after [add_request] at each of the instants [ts] in turn. *)
Definition record_all (ts : list Z) (rl : RateLimiter) : RateLimiter :=
  fold_left (fun rl t => add_request t rl) ts rl.

(** A clock that does not run backwards. *)
Fixpoint nondecreasing (ts : list Z) : bool :=
  match ts with
  | a :: (b :: _) as rest => (a <=? b) && nondecreasing rest
  | _ => true
  end.

(** Whether the n-th physical call got a response. *)
Definition answered (env : Env) (n : nat) : bool :=
  match transport env n with
  | Returned _ _ _ => true
  | Failed _ => false
  end.

(** Whether the n-th physical call got a response with a success status. *)
Definition succeeded (env : Env) (n : nat) : bool :=
  match transport env n with
  | Returned status _ _ => (200 <=? status) && (status <? 300)
  | Failed _ => false
  end.

(** The events of one kind in a trace. *)
Definition is_sleep (e : event) : bool :=
  match e with Slept _ _ => true | _ => false end.
Definition is_request (e : event) : bool :=
  match e with Requested _ => true | _ => false end.
Definition is_record (e : event) : bool :=
  match e with Recorded _ => true | _ => false end.
Definition is_backoff (e : event) : bool :=
  match e with Slept Backoff _ => true | _ => false end.

(** The seconds slept, site by site, in order. *)
Definition sleeps (tr : list event) : list (sleep_site * Z) :=
  flat_map (fun e => match e with Slept site s => [(site, s)] | _ => [] end) tr.

(** What [wait_for_capacity] leaves behind when it returns: some polling
    sleeps and the grant in the trace, the clock advanced by the sleeps, the
    deque trimmed, and nothing else touched. *)
Record waited (st st' : session) : Prop := {
  waited_memory_file : memory_file st' = memory_file st;
  waited_memory : memory st' = memory st;
  waited_files : files st' = files st;
  waited_calls : calls st' = calls st;
  waited_max : max_requests (rate_limiter st') = max_requests (rate_limiter st);
  waited_window : window_size (rate_limiter st') = window_size (rate_limiter st);
  waited_trace : exists k : nat,
    trace st' = trace st ++ repeat (Slept Polling 1) k ++ [CapacityGranted]
    /\ clock st' = clock st + timedelta_seconds (Z.of_nat k)
}.

(** What a send leaves behind, however it ends: the memory and the files
    are untouched, the limits of the limiter too, calls are only added, and
    every call added to the trace carries [prompt]. *)
Record sent (prompt : list (text * text)) (st st' : session) : Prop := {
  sent_memory_file : memory_file st' = memory_file st;
  sent_memory : memory st' = memory st;
  sent_files : files st' = files st;
  sent_max : max_requests (rate_limiter st') = max_requests (rate_limiter st);
  sent_window : window_size (rate_limiter st') = window_size (rate_limiter st);
  sent_calls : (calls st <= calls st')%nat;
  sent_trace : exists evs,
    trace st' = trace st ++ evs
    /\ Forall (fun e => forall q, e = Requested q -> q = prompt) evs
}.

(** A computation that is part of a send: it keeps to [sent], makes at most
    [n] physical calls, and does not hang while the limit is positive. *)
Definition sends {A} (prompt : list (text * text)) (n : nat) (m : M session A) : Prop :=
  forall st r st',
    m st = (r, st') ->
    sent prompt st st'
    /\ (calls st' <= calls st + n)%nat
    /\ (0 < max_requests (rate_limiter st) -> r <> Hang).

(** [st'] is [st], or [st] after one sleep. *)
Definition at_most_slept (st st' : session) : Prop :=
  st' = st \/ exists site seconds, st' = slept site seconds st.

(** A computation that ends, and not with [JSONDecodeError]. *)
Definition not_a_json_error {S A} (m : M S A) : Prop :=
  forall s, fst (m s) <> Raise JSONDecodeError /\ fst (m s) <> Hang.

(** What follows a value in the output of [json.dump]: nothing, a comma or
    a line end. *)
Definition ends_value (rest : text) : Prop :=
  match rest with
  | [] => True
  | c :: _ => c = 44 \/ c = 10
  end.

(** Fuel with which [scan_once] reads [v] back from its encoding. *)
Fixpoint scan_fuel (v : json) : nat :=
  match v with
  | JList xs => S (list_sum (map (fun x => S (scan_fuel x)) xs))
  | JDict kvs => S (list_sum (map (fun kv => S (scan_fuel (snd kv))) kvs))
  | _ => 1
  end.

(** The property the induction carries: the decoder reads [v] back from its
    encoding at any depth, before any text a value can be followed by, with
    [scan_fuel v] fuel or more. *)
Definition reads_back (v : json) : Prop :=
  wf_json v = true ->
  forall lvl rest fuel,
    ends_value rest -> (scan_fuel v <= fuel)%nat ->
    scan_once fuel (iterencode lvl v ++ rest) = Scanned v rest.

(** ** Concrete installations and sessions for the examples *)

Definition midnight : datetime :=
  {| year := 2024; month := 1; day := 1;
     hour := 0; minute := 0; second := 0; microsecond := 0 |}.

(** The n-th answer of a scripted transport; a connection error once the
    script is over. *)
Definition scripted (script : list response) (n : nat) : response :=
  nth n script (Failed ConnectError).

(** An installation with strict validation (pydantic 2), no extra timestamp
    formats, and the given platform and transport script. *)
Definition installation (on_posix : bool) (script : list response) : Env :=
  {| posix := on_posix;
     coerce_str := fun _ => None;
     coerce_dict := fun _ => None;
     fromisoformat_ext := fun _ => None;
     str_exn := fun _ => txt "failure";
     datetime_of := fun _ => midnight;
     SYSTEM_MESSAGE := txt "You are Grok.";
     transport := scripted script |}.

(** A session just constructed over the files [fs], with nothing loaded. *)
Definition fresh_session (path : string) (fs : filesystem) : session :=
  {| memory_file := path; memory := empty_memory;
     rate_limiter := RateLimiter_init RATE_LIMIT_REQUESTS RATE_LIMIT_WINDOW;
     files := fs; clock := 0; calls := 0%nat; trace := [] |}.

Definition ok_response (s : string) : response :=
  Returned 200 NoRetryAfter (Content (Some (txt s))).
Definition status_response (status : Z) : response :=
  Returned status NoRetryAfter (BadBody ValueError).

Definition system_note : Message :=
  {| role := txt "system"; content := txt "Be brief."; timestamp := midnight |}.
Definition earlier_question : Message :=
  {| role := txt "user"; content := txt "Hi"; timestamp := midnight |}.

(** A session whose memory holds [msgs]. *)
Definition session_with (msgs : list Message) : session :=
  set_memory {| messages := msgs; metadata := [] |} (fresh_session "chat_memory.json" ∅).

(** A memory with two messages and some metadata: a line end, an accented
    letter, a quote, a control character and an emoji in the content, a
    timestamp with and one without microseconds. *)
Definition sample_memory : ChatMemory :=
  {| messages :=
       [ {| role := txt "user";
            content := [72; 105; 10; 233; 34; 1; 128512];
            timestamp := {| year := 2024; month := 2; day := 29; hour := 23;
                            minute := 59; second := 58; microsecond := 120 |} |};
         {| role := txt "assistant";
            content := txt "Hello.";
            timestamp := midnight |} ];
     metadata :=
       [ (txt "session", JStr (txt "first"));
         (txt "tags", JList [JNum (txt "1"); JNum (txt "-2.5e3"); JBool true; JNull;
                             JDict []; JList []]) ] |}.


(** ** What can be stored

    [json.dump] into a file opened with [encoding='utf-8'] needs more than
    well-formed values: a lone surrogate is a code point of a [str] that
    UTF-8 refuses. *)

Definition is_scalar (c : codepoint) : bool :=
  (0 <=? c) && (c <? 1114112) && negb ((55296 <=? c) && (c <=? 57343)).

Definition storable_text (s : text) : bool := forallb is_scalar s.

Fixpoint storable_json (v : json) : bool :=
  match v with
  | JStr s => storable_text s
  | JList xs => forallb storable_json xs
  | JDict kvs => forallb (fun kv => storable_text (fst kv) && storable_json (snd kv)) kvs
  | _ => true
  end.

Definition storable_message (m : Message) : bool :=
  storable_text (role m) && storable_text (content m).

Definition storable_memory (m : ChatMemory) : bool :=
  wf_memory m
  && forallb storable_message (messages m)
  && storable_json (JDict (metadata m)).

(** The memory after an exchange made at the instant [now]. *)
Definition remembered (env : Env) (now : Z) (message reply : text) (m : ChatMemory)
  : ChatMemory :=
  {| messages :=
       messages m
       ++ [ {| role := txt "user"; content := message;
               timestamp := datetime_of env now |};
            {| role := txt "assistant"; content := reply;
               timestamp := datetime_of env now |} ];
     metadata := metadata m |}.

(** ** The limiter over a whole session

    The instants of the [add_request] calls of a trace, oldest first. *)
Definition records (tr : list event) : list Z :=
  flat_map (fun e => match e with Recorded t => [t] | _ => [] end) tr.

(** The records of [ts] that are not older than [window] seconds at the
    instant [now]. *)
Definition in_window (window now : Z) (ts : list Z) : list Z :=
  filter (fun t => now - timedelta_seconds window <= t) ts.

(** What the deque of the limiter is to the trace of the session: the deque
    is the end of the list of records, what was dropped from it is older
    than the window, no record is ahead of the clock, and the deque is
    within the limit. *)
Record limiter_ok (st : session) : Prop := {
  limiter_deque : exists dropped,
      records (trace st) = dropped ++ requests (rate_limiter st)
      /\ Forall (fun t => t < clock st - timedelta_seconds (window_size (rate_limiter st)))
                dropped;
  limiter_past : Forall (fun t => t <= clock st) (records (trace st));
  limiter_bound :
    Z.of_nat (length (requests (rate_limiter st))) <= max_requests (rate_limiter st);
  limiter_positive : 0 < max_requests (rate_limiter st)
}.

(** Every record of the trace was made with fewer than [limit] records in
    the [window] seconds before it. *)
Fixpoint rate_respected (limit window : Z) (earlier : list Z) (tr : list event) : Prop :=
  match tr with
  | [] => True
  | Recorded t :: rest =>
      Z.of_nat (length (in_window window t earlier)) < limit
      /\ rate_respected limit window (earlier ++ [t]) rest
  | _ :: rest => rate_respected limit window earlier rest
  end.

(** [st'] is [st], or [st] after one sleep, of a length [time.sleep]
    accepts. *)
Definition rested (st st' : session) : Prop :=
  st' = st \/ exists site seconds, 0 <= seconds /\ st' = slept site seconds st.

(** From [st] to [st'] the session kept its limiter sound and respected the
    rate at every record it added. *)
Record paced (st st' : session) : Prop := {
  paced_ok : limiter_ok st';
  paced_max : max_requests (rate_limiter st') = max_requests (rate_limiter st);
  paced_window : window_size (rate_limiter st') = window_size (rate_limiter st);
  paced_trace : exists evs,
      trace st' = trace st ++ evs
      /\ rate_respected (max_requests (rate_limiter st)) (window_size (rate_limiter st))
           (records (trace st)) evs
}.

(** ** The two versions side by side *)

Inductive version : Type :=
| QwenEdited     (* [persistent_chat-QwenEdited.py] *)
| Copy.          (* [persistent_chat - Copy.py] *)

Definition build_prompt (v : version) (env : Env) (m : ChatMemory) (message : text)
  : list (text * text) :=
  match v with
  | QwenEdited => Httpx.build_prompt m message
  | Copy => OpenAIClient.build_prompt env m message
  end.

Definition _make_api_request (v : version) (env : Env) (prompt : list (text * text))
  : M session (option text) :=
  match v with
  | QwenEdited => Httpx._make_api_request env prompt
  | Copy => OpenAIClient._make_api_request env prompt
  end.

Definition chat (v : version) (env : Env) (fault : write_fault) (message : text)
  : M session text :=
  match v with
  | QwenEdited => Httpx.chat env fault message
  | Copy => OpenAIClient.chat env fault message
  end.

(** ** The files a computation leaves alone *)

(** Whatever [m] does and however it ends, a path that is not one of
    [paths] holds afterwards what it held before. *)
Definition only_touches {A} (paths : list string) (m : M filesystem A) : Prop :=
  forall (fs : filesystem) r fs',
    m fs = (r, fs') -> forall q, ~ In q paths -> fs' !! q = fs !! q.

(** The paths [_save_memory] works on: the memory file, the snapshot where
    it is removed or restored, the snapshot where it is made. *)
Definition save_paths (env : Env) (path : string) : list string :=
  path :: (path +:+ ".bak")
  :: match with_suffix (posix env) path ".json.bak" with
     | Some snapshot => [snapshot]
     | None => []
     end.

(** The paths [_load_memory] works on: the memory file and the place a
    corrupt file is moved to. *)
Definition load_paths (env : Env) (path : string) : list string :=
  path
  :: match with_suffix (posix env) path ".json.backup" with
     | Some quarantine => [quarantine]
     | None => []
     end.

(** ** The console: [safe_input] and [main]

    Both versions end with the same two functions.  What the terminal
    does is a list of [keystroke]s, one for each call of [input]; when the
    list is used up the program is waiting for the next line.  [print] is
    recorded line by line; what [logging] writes is not modelled, and
    [KeyboardInterrupt] is only looked at where the program waits for the
    user. *)

Fixpoint lstrip (s : text) : text :=
  match s with
  | c :: r => if py_isspace c then lstrip r else s
  | [] => []
  end.

(** [str.strip()] *)
Definition strip (s : text) : text := rev (lstrip (rev (lstrip s))).

Definition ascii_lower (c : codepoint) : codepoint :=
  if (65 <=? c) && (c <=? 90) then c + 32 else c.

Definition is_ascii (s : text) : bool := forallb (fun c => (0 <=? c) && (c <? 128)) s.

(** What [input] does when it is called. *)
Inductive keystroke : Type :=
| Typed (line : text)      (* a line, returned without its line end *)
| EndOfInput               (* [EOFError] *)
| Interrupted              (* [KeyboardInterrupt] *)
| InputFails (e : exn).    (* another exception, such as a decoding error *)

(** What can be raised in [main]: [EOFError] and [KeyboardInterrupt] have
    handlers of their own. *)
Inductive raised : Type :=
| EOFError
| KeyboardInterrupt
| Exception (e : exn).

(** The terminal of the installation. *)
Record Console : Type := {
  (** [sys.stdin.isatty()] *)
  isatty : bool;
  (** [str.lower()] on text that is not ASCII: the answer of the Unicode
      database. *)
  unicode_lower : text -> text;
  (** Whether [sys.stdout] can encode a text; [print] raises
      [UnicodeEncodeError] when it cannot. *)
  stdout_accepts : text -> bool;
  (** What happens to the disk during the n-th exchange. *)
  disk : nat -> write_fault
}.

(** [str.lower()] *)
Definition lower (con : Console) (s : text) : text :=
  if is_ascii s then map ascii_lower s else unicode_lower con s.

(** [main] while it runs: the [PersistentChat] object and its world, the
    counter of the loop, what was printed, and the number of exchanges
    made. *)
Record terminal : Type := {
  chat_session : session;
  eof_count : Z;
  printed : list text;
  exchanges : nat
}.

Definition set_chat_session (s : session) (t : terminal) : terminal :=
  {| chat_session := s; eof_count := eof_count t; printed := printed t;
     exchanges := exchanges t |}.

Definition set_eof_count (n : Z) (t : terminal) : terminal :=
  {| chat_session := chat_session t; eof_count := n; printed := printed t;
     exchanges := exchanges t |}.

(** [print(line)] after [out] was printed: nothing is written when the line
    cannot be encoded. *)
Definition emit (con : Console) (line : text) (out : list text) : option (list text) :=
  if stdout_accepts con line then Some (out ++ [line]) else None.

(** One [print] after the other, up to the first that raises. *)
Fixpoint emit_all (con : Console) (lines : list text) (out : list text)
  : list text * bool :=
  match lines with
  | [] => (out, true)
  | line :: rest =>
      match emit con line out with
      | Some out' => emit_all con rest out'
      | None => (out, false)
      end
  end.

Definition set_printed (out : list text) (t : terminal) : terminal :=
  {| chat_session := chat_session t; eof_count := eof_count t; printed := out;
     exchanges := exchanges t |}.

Definition say (con : Console) (line : text) (t : terminal) : option terminal :=
  option_map (fun out => set_printed out t) (emit con line (printed t)).

Definition say_all (con : Console) (lines : list text) (t : terminal) : terminal * bool :=
  let '(out, whole) := emit_all con lines (printed t) in (set_printed out t, whole).

(** [time.sleep(0.1)] in [main]: a tenth of a second on the clock. *)
Definition nap (t : terminal) : terminal :=
  set_chat_session
    {| memory_file := memory_file (chat_session t); memory := memory (chat_session t);
       rate_limiter := rate_limiter (chat_session t); files := files (chat_session t);
       clock := clock (chat_session t) + 100000;
       calls := calls (chat_session t); trace := trace (chat_session t) |} t.

(** [safe_input]: an empty line on a terminal is turned into [EOFError];
    a line is returned stripped. *)
Definition safe_input (con : Console) (key : keystroke) : text + raised :=
  match key with
  | Typed line =>
      match line with
      | [] => if isatty con then inr EOFError else inl (strip line)
      | _ :: _ => inl (strip line)
      end
  | EndOfInput => inr EOFError
  | Interrupted => inr KeyboardInterrupt
  | InputFails e => inr (Exception e)
  end.

(** What one pass through the [while True] loop of [main] decides. *)
Inductive flow : Type :=
| GoOn                  (* [continue], or the end of the body *)
| Break                 (* [break] *)
| Raises (e : raised)
| Hangs.                (* [chat] did not return *)

Definition MAX_EOF_ERRORS : Z := 5.

(** [f"{msg['timestamp']} - {msg['role']}: {msg['content']}"] *)
Definition history_line (entry : text * text * text) : text :=
  let '(r, c, ts) := entry in ts ++ txt " - " ++ r ++ txt ": " ++ c.

(** The [try] block of the loop. *)
Definition attend (v : version) (env : Env) (con : Console) (key : keystroke)
    (t : terminal) : flow * terminal :=
  match safe_input con key with
  | inr e => (Raises e, t)
  | inl user_input =>
      let t0 := set_eof_count 0 t in
      if text_eqb (lower con user_input) (txt "exit")
         || text_eqb (lower con user_input) (txt "quit") then
        match say con (10 :: txt "Goodbye!") t0 with
        | Some t1 => (Break, t1)
        | None => (Raises (Exception UnicodeEncodeError), t0)
        end
      else if text_eqb (lower con user_input) (txt "history") then
        match say_all con
                ((10 :: txt "Chat History:")
                 :: map history_line (get_chat_history (chat_session t0))) t0 with
        | (t1, true) => (GoOn, t1)
        | (t1, false) => (Raises (Exception UnicodeEncodeError), t1)
        end
      else
        match user_input with
        | [] => (GoOn, t0)
        | _ :: _ =>
            let t1 (s : session) :=
              {| chat_session := s; eof_count := 0; printed := printed t0;
                 exchanges := S (exchanges t0) |} in
            match chat v env (disk con (exchanges t0)) user_input (chat_session t0) with
            | (Ok response, s) =>
                match say con (10 :: txt "Assistant: " ++ response) (t1 s) with
                | Some t2 => (GoOn, t2)
                | None => (Raises (Exception UnicodeEncodeError), t1 s)
                end
            | (Raise e, s) => (Raises (Exception e), t1 s)
            | (Hang, s) => (Hangs, t1 s)
            end
        end
  end.

(** One pass: the [try] block and its three handlers.  An exception raised
    by a handler leaves [main]. *)
Definition iteration (v : version) (env : Env) (con : Console) (key : keystroke)
    (t : terminal) : flow * terminal :=
  match attend v env con key t with
  | (Raises EOFError, t1) =>
      let t2 := set_eof_count (eof_count t1 + 1) t1 in
      if MAX_EOF_ERRORS <=? eof_count t2 then
        match say_all con
                [10 :: txt "Error: Too many EOF errors encountered. Please check the debug log.";
                 txt "Try running the script in a different terminal or IDE."] t2 with
        | (t3, true) => (Break, t3)
        | (t3, false) => (Raises (Exception UnicodeEncodeError), t3)
        end
      else (GoOn, nap t2)
  | (Raises KeyboardInterrupt, t1) =>
      match say con (10 :: txt "Goodbye!") t1 with
      | Some t2 => (Break, t2)
      | None => (Raises (Exception UnicodeEncodeError), t1)
      end
  | (Raises (Exception e), t1) =>
      match say con (10 :: txt "Error: " ++ py_str env e) t1 with
      | Some t2 => (GoOn, t2)
      | None => (Raises (Exception UnicodeEncodeError), t1)
      end
  | other => other
  end.

(** How [main] ends. *)
Inductive ending : Type :=
| Ended                 (* [main] returned *)
| Escaped (e : raised)  (* an exception left [main] *)
| AwaitingInput         (* the keystrokes are used up: [input] is waiting *)
| Stuck.                (* [chat] did not return *)

(** [while True: ...] *)
Fixpoint main_loop (v : version) (env : Env) (con : Console) (keys : list keystroke)
    (t : terminal) : ending * terminal :=
  match keys with
  | [] => (AwaitingInput, t)
  | key :: rest =>
      match iteration v env con key t with
      | (GoOn, t') => main_loop v env con rest t'
      | (Break, t') => (Ended, t')
      | (Raises e, t') => (Escaped e, t')
      | (Hangs, t') => (Stuck, t')
      end
  end.

Definition banner : list text :=
  [txt "Starting XAI Persistent Chat...";
   txt "Type 'exit' or 'quit' to end the conversation";
   txt "Type 'history' to view chat history";
   repeat 45 50].

(** [main], started at the instant [now] over the files [fs]: how it ends,
    what it printed, and the files it leaves. *)
Definition main (v : version) (env : Env) (con : Console) (keys : list keystroke)
    (now : Z) (fs : filesystem) : ending * list text * filesystem :=
  match emit_all con banner [] with
  | (out, false) => (Escaped (Exception UnicodeEncodeError), out, fs)
  | (out, true) =>
      if isatty con then
        match PersistentChat_init env "chat_memory.json" now fs with
        | Ok s =>
            let '(e, t) :=
              main_loop v env con keys
                {| chat_session := s; eof_count := 0; printed := out; exchanges := 0 |} in
            (e, printed t, files (chat_session t))
        | Raise e => (Escaped (Exception e), out, fs)
        | Hang => (Stuck, out, fs)
        end
      else
        match emit con (txt "Error: This script must be run in an interactive terminal")
                out with
        | Some out' => (Ended, out', fs)
        | None => (Escaped (Exception UnicodeEncodeError), out, fs)
        end
  end.


(** The lines typed, among the keystrokes. *)
Definition typed (keys : list keystroke) : list text :=
  flat_map (fun key => match key with Typed line => [line] | _ => [] end) keys.

(** A terminal that prints everything, over a disk that works. *)
Definition plain_terminal : Console :=
  {| isatty := true;
     unicode_lower := fun s => s;
     stdout_accepts := fun _ => true;
     disk := fun _ => NoFault |}.

(** [main] as it enters its loop with the session [s]. *)
Definition at_the_prompt (s : session) : terminal :=
  {| chat_session := s; eof_count := 0; printed := []; exchanges := 0 |}.

(** From [t] to [t'] nothing happened to the session but time passing:
    no exchange, no call, no change to the memory, the files or the
    limiter. *)
Record quiet (t t' : terminal) : Prop := {
  quiet_memory : memory (chat_session t') = memory (chat_session t);
  quiet_files : files (chat_session t') = files (chat_session t);
  quiet_calls : calls (chat_session t') = calls (chat_session t);
  quiet_trace : trace (chat_session t') = trace (chat_session t);
  quiet_limiter : rate_limiter (chat_session t') = rate_limiter (chat_session t);
  quiet_path : memory_file (chat_session t') = memory_file (chat_session t);
  quiet_exchanges : exchanges t' = exchanges t
}.

(** Whether a stripped line is one of the commands of [main]. *)
Definition is_command (con : Console) (user_input : text) : bool :=
  text_eqb (lower con user_input) (txt "exit")
  || text_eqb (lower con user_input) (txt "quit")
  || text_eqb (lower con user_input) (txt "history").

(** From [t] to [t'] the conversation only grew, by at most [n] exchanges:
    nothing that was in the memory is gone or out of place, at most two
    messages were added for each exchange, and at most [RETRY_ATTEMPTS]
    calls made. *)
Record grew (n : nat) (t t' : terminal) : Prop := {
  grew_messages : exists added,
      messages (memory (chat_session t')) = messages (memory (chat_session t)) ++ added
      /\ (length added <= 2 * n)%nat;
  grew_metadata : metadata (memory (chat_session t')) = metadata (memory (chat_session t));
  grew_path : memory_file (chat_session t') = memory_file (chat_session t);
  grew_limit : max_requests (rate_limiter (chat_session t'))
               = max_requests (rate_limiter (chat_session t));
  grew_calls : (calls (chat_session t) <= calls (chat_session t')
                <= calls (chat_session t) + 3 * n)%nat;
  grew_exchanges : (exchanges t <= exchanges t' <= exchanges t + n)%nat
}.

(** ** The persona: [load_system_message] of [persistent_chat - Copy.py]

    [SYSTEM_MESSAGE] is what this function returns when the module is
    imported.  It reads [ai_persona.json] beside the script, validates it
    with the pydantic model [PersonaConfig] and formats the preamble; every
    failure ends in the fixed fallback text. *)

Module Persona.

Record PersonaConfig : Type := {
  name : text;
  age : Z;
  base_description : text;
  personality_traits : list text;
  user_context : list (text * text);
  interaction_guidelines : list text;
  reminder : text
}.

(** What pydantic does with a value that is not of the type of the field,
    for the two kinds of field [Message] and [ChatMemory] do not have. *)
Record Coercions : Type := {
  (** an [int] field given something else than a JSON integer that fits a
      machine word *)
  coerce_int : json -> option Z;
  (** a [List] field given something else than a JSON array *)
  coerce_list : json -> option (list json)
}.

(** The integer a literal denotes, when it is the literal of an integer. *)
Definition int_literal (lit : text) : option Z :=
  match lit with
  | [] => None
  | 45 :: (_ :: _) as ds => option_map Z.opp (number_of_digits 0 ds)
  | _ => number_of_digits 0 lit
  end.

(** pydantic on an [int] field. *)
Definition validate_int {S} (pyd : Coercions) (v : json) : M S Z :=
  match v with
  | JNum lit =>
      match int_literal lit with
      | Some n =>
          if (- 2 ^ 63 <=? n) && (n <? 2 ^ 63) then ret n
          else of_option ValidationError (coerce_int pyd v)
      | None => of_option ValidationError (coerce_int pyd v)
      end
  | _ => of_option ValidationError (coerce_int pyd v)
  end.

(** pydantic on a [List[str]] field. *)
Definition validate_str_list {S} (env : Env) (pyd : Coercions) (v : json)
  : M S (list text) :=
  items <- match v with
           | JList xs => ret xs
           | _ => of_option ValidationError (coerce_list pyd v)
           end ;;
  mapM (validate_str env) items.

(** pydantic on a [Dict[str, str]] field. *)
Definition validate_str_dict {S} (env : Env) (v : json) : M S (list (text * text)) :=
  d <- validate_dict env v ;;
  mapM (fun kv => s <- validate_str env (snd kv) ;; ret (fst kv, s)) d.

(** A required field: a key that is missing is a validation error. *)
Definition required {S} (d : list (text * json)) (field : string) : M S json :=
  of_option ValidationError (dict_get (txt field) d).

(** [PersonaConfig] called with [persona_data] unpacked as keyword
    arguments: only a mapping can be unpacked; keys that are not fields are
    ignored. *)
Definition validate {S} (env : Env) (pyd : Coercions) (persona_data : json)
  : M S PersonaConfig :=
  match persona_data with
  | JDict d =>
      n <- (v <- required d "name" ;; validate_str env v) ;;
      a <- (v <- required d "age" ;; validate_int pyd v) ;;
      b <- (v <- required d "base_description" ;; validate_str env v) ;;
      p <- (v <- required d "personality_traits" ;; validate_str_list env pyd v) ;;
      u <- (v <- required d "user_context" ;; validate_str_dict env v) ;;
      i <- (v <- required d "interaction_guidelines" ;; validate_str_list env pyd v) ;;
      r <- (v <- required d "reminder" ;; validate_str env v) ;;
      ret {| name := n; age := a; base_description := b; personality_traits := p;
             user_context := u; interaction_guidelines := i; reminder := r |}
  | _ => raise TypeError
  end.

(** [persona.user_context[key]] *)
Fixpoint lookup (key : text) (d : list (text * text)) : option text :=
  match d with
  | [] => None
  | (k, v) :: rest => if text_eqb key k then Some v else lookup key rest
  end.

Fixpoint digits (u : Decimal.uint) : text :=
  match u with
  | Decimal.Nil => []
  | Decimal.D0 u' => 48 :: digits u'
  | Decimal.D1 u' => 49 :: digits u'
  | Decimal.D2 u' => 50 :: digits u'
  | Decimal.D3 u' => 51 :: digits u'
  | Decimal.D4 u' => 52 :: digits u'
  | Decimal.D5 u' => 53 :: digits u'
  | Decimal.D6 u' => 54 :: digits u'
  | Decimal.D7 u' => 55 :: digits u'
  | Decimal.D8 u' => 56 :: digits u'
  | Decimal.D9 u' => 57 :: digits u'
  end.

(** [str(n)] for a natural number. *)
Definition decimal (n : nat) : text := digits (Nat.to_uint n).

(** [f"- {trait}"] *)
Definition bullet (trait : text) : text := txt "- " ++ trait.

(** [f"{i+1}. {guideline}"] *)
Definition numbered (i : nat) (guideline : text) : text :=
  decimal (i + 1) ++ txt ". " ++ guideline.

(** The f-string of [load_system_message]. *)
Definition system_message (p : PersonaConfig) (user place needs : text) : text :=
  txt "You are " ++ name p ++ txt ", " ++ base_description p ++ [10; 10]
  ++ txt "Personality Traits:" ++ [10]
  ++ join [10] (map bullet (personality_traits p)) ++ [10; 10]
  ++ txt "Context: Chatting with " ++ user ++ txt " (" ++ place ++ txt ") who needs "
  ++ needs ++ txt "." ++ [10; 10]
  ++ txt "You should:" ++ [10]
  ++ join [10] (imap numbered (interaction_guidelines p)) ++ [10; 10]
  ++ txt "Remember: " ++ reminder p.

Definition FALLBACK : text :=
  txt "You are Grok, a helpful AI assistant. Be direct, honest, and factual while maintaining a sense of humor.".

(** [load_system_message], with [persona_path] for
    [Path(__file__).parent / "ai_persona.json"]. *)
Definition load_system_message (env : Env) (pyd : Coercions) (persona_path : string)
  : M filesystem text :=
  try_except
    (fs <- get ;;
     (if file_exists persona_path fs then ret tt else raise FileNotFoundError) ;;
     s <- read_text persona_path ;;
     persona_data <- json_load s ;;
     persona <- try_except (stateless (validate env pyd persona_data))
                  (fun _ => raise (ValueErrorWith (txt "Persona configuration is invalid"))) ;;
     user <- of_option (KeyError (txt "name")) (lookup (txt "name") (user_context persona)) ;;
     place <- of_option (KeyError (txt "location"))
                (lookup (txt "location") (user_context persona)) ;;
     needs <- of_option (KeyError (txt "needs")) (lookup (txt "needs") (user_context persona)) ;;
     ret (system_message persona user place needs))
    (fun _ => ret FALLBACK).

(** [reload_persona]: [SYSTEM_MESSAGE] is set to what [load_system_message]
    returns now, and returned. *)
Definition reload_persona (env : Env) (pyd : Coercions) (persona_path : string)
  : M filesystem text :=
  load_system_message env pyd persona_path.

(** The installation with [message] for [SYSTEM_MESSAGE]. *)
Definition with_system_message (message : text) (env : Env) : Env :=
  {| posix := posix env; coerce_str := coerce_str env; coerce_dict := coerce_dict env;
     fromisoformat_ext := fromisoformat_ext env; str_exn := str_exn env;
     datetime_of := datetime_of env; SYSTEM_MESSAGE := message;
     transport := transport env |}.

(** Strict validation, as in [installation]. *)
Definition strict : Coercions :=
  {| coerce_int := fun _ => None; coerce_list := fun _ => None |}.

(** A persona file. *)
Definition sample_persona : bytes :=
  raw_quoted "{'name': 'Ava', 'age': 30, 'base_description': 'a calm guide',
 'personality_traits': ['kind', 'curious'],
 'user_context': {'name': 'Sam', 'location': 'Oslo', 'needs': 'focus'},
 'interaction_guidelines': ['Listen', 'Be brief', 'Ask'],
 'reminder': 'Stay kind.', 'extra': null}".

End Persona.

(** ** [chat_gui.py]: the error monitor and the name in the title

    Of the window only what does not need the window is embedded: the
    class [ErrorMonitor], and the part of [ChatGUI.__init__] that makes the
    chat backend and takes the name of the persona from the preamble. *)

Module Gui.

(** One entry of [recent_errors]. *)
Record error_entry : Type := {
  entry_timestamp : text;
  entry_message : text;
  entry_source : text;
  entry_traceback : option text
}.

Record ErrorMonitor : Type := {
  error_count : Z;
  recent_errors : list error_entry;
  MAX_RECENT_ERRORS : Z
}.

(** [ErrorMonitor()] *)
Definition ErrorMonitor_init : ErrorMonitor :=
  {| error_count := 0; recent_errors := []; MAX_RECENT_ERRORS := 10 |}.

(** [strftime("%Y-%m-%d %H:%M:%S")], for a year of four digits. *)
Definition strftime_seconds (d : datetime) : text :=
  pad4 (year d) ++ [45] ++ pad2 (month d) ++ [45] ++ pad2 (day d) ++ [32]
  ++ pad2 (hour d) ++ [58] ++ pad2 (minute d) ++ [58] ++ pad2 (second d).

(** One call of [log_error]: the instant, the message, the traceback
    formatted from [exc_info] when one is given, and the source. *)
Record report : Type := {
  at_instant : datetime;
  error_msg : text;
  exc_info : option text;
  source : option text
}.

(** The entry [log_error] makes: [source or 'Unknown']. *)
Definition entry_of (r : report) : error_entry :=
  {| entry_timestamp := strftime_seconds (at_instant r);
     entry_message := error_msg r;
     entry_source := match source r with
                     | Some (c :: s) => c :: s
                     | _ => txt "Unknown"
                     end;
     entry_traceback := exc_info r |}.

(** [log_error]: the entry is appended, and the oldest one is dropped when
    there are more than [MAX_RECENT_ERRORS]. *)
Definition log_error (r : report) (em : ErrorMonitor) : ErrorMonitor :=
  let appended := recent_errors em ++ [entry_of r] in
  {| error_count := error_count em + 1;
     recent_errors := if MAX_RECENT_ERRORS em <? Z.of_nat (length appended)
                      then tail appended else appended;
     MAX_RECENT_ERRORS := MAX_RECENT_ERRORS em |}.

(** [get_error_summary]: [total_errors] and [recent_errors]. *)
Definition get_error_summary (em : ErrorMonitor) : Z * list error_entry :=
  (error_count em, recent_errors em).

(** The monitor after the reports [rs], in order. *)
Definition log_errors (rs : list report) (em : ErrorMonitor) : ErrorMonitor :=
  fold_left (fun em r => log_error r em) rs em.

(** The longest prefix of [s] without a comma. *)
Fixpoint until_comma (s : text) : text :=
  match s with
  | c :: r => if c =? 44 then [] else c :: until_comma r
  | [] => []
  end.

(** [re.search(r"You are ([^,]+)", s)], the group: the leftmost place
    where ["You are "] is followed by a character that is not a comma, and
    from there all that comes before the next comma. *)
Fixpoint search_you_are (s : text) : option text :=
  match s with
  | [] => None
  | _ :: r =>
      match strip_prefix (txt "You are ") s with
      | Some rest =>
          match until_comma rest with
          | [] => search_you_are r
          | group => Some group
          end
      | None => search_you_are r
      end
  end.

(** The backend part of [ChatGUI.__init__]: the preamble is loaded, the
    [PersistentChat] made (which loads the memory), and the name of the
    persona taken from the preamble; ["AI"] when there is no match or when
    anything raises. *)
Definition current_persona_name (env : Env) (pyd : Persona.Coercions)
    (persona_path : string) : M filesystem text :=
  try_except
    (system_message <- Persona.load_system_message env pyd persona_path ;;
     _load_memory env "chat_memory.json" ;;
     match search_you_are system_message with
     | Some group => ret (strip group)
     | None => ret (txt "AI")
     end)
    (fun _ => ret (txt "AI")).

End Gui.

(** ** The debug log

    Both versions give [logging] a [FileHandler] on this file (lines 14 to
    21), and the [logging] calls of the code append to it.  These calls are
    not embedded: the definitions above leave the file as it is, so what is
    stated about the files of a run leaves this path out. *)
Definition debug_log : string := "chat_debug.log".
(* ===================================================================== *)
(** * Part II: properties                                                 *)
(* ===================================================================== *)

(** ** The rate limiter *)

Section RateLimiterFacts.

Lemma requests_record_all ts rl :
  requests (record_all ts rl) = requests rl ++ ts.
Proof.
  revert rl. induction ts as [|t ts IH]; intros rl; simpl.
  - by rewrite app_nil_r.
  - rewrite IH. simpl. by rewrite <- app_assoc.
Qed.

Lemma max_requests_record_all ts rl :
  max_requests (record_all ts rl) = max_requests rl.
Proof. revert rl. induction ts as [|t ts IH]; intros rl; simpl; [done|]. by rewrite IH. Qed.

Lemma window_size_record_all ts rl :
  window_size (record_all ts rl) = window_size rl.
Proof. revert rl. induction ts as [|t ts IH]; intros rl; simpl; [done|]. by rewrite IH. Qed.

(** Nothing is removed while every record is inside the window. *)
Lemma popleft_while_old_fresh ws q :
  Forall (fun t => ws <= t) q -> popleft_while_old ws q = q.
Proof.
  destruct q as [|r q]; [done|]. intros H. apply Forall_cons in H as [Hr _].
  simpl. destruct (Z.ltb_spec r ws); [lia|done].
Qed.

(** The deque only gets shorter. *)
Lemma popleft_while_old_length ws q :
  (length (popleft_while_old ws q) <= length q)%nat.
Proof.
  induction q as [|r q IH]; simpl; [lia|].
  destruct (r <? ws); simpl; lia.
Qed.

Lemma popleft_while_old_head ws r q :
  r < ws -> (length (popleft_while_old ws (r :: q)) <= length q)%nat.
Proof.
  intros H. simpl. destruct (Z.ltb_spec r ws); [|lia].
  apply popleft_while_old_length.
Qed.

Lemma nondecreasing_head t ts :
  nondecreasing (t :: ts) = true -> Forall (fun u => t <= u) ts.
Proof.
  revert t. induction ts as [|u ts IH]; intros t H; [constructor|].
  simpl in H. apply andb_true_iff in H as [Htu Hs].
  apply Z.leb_le in Htu. constructor; [done|].
  eapply Forall_impl; [apply IH, Hs|]. simpl. intros; lia.
Qed.

Lemma nondecreasing_tail t ts :
  nondecreasing (t :: ts) = true -> nondecreasing ts = true.
Proof.
  destruct ts as [|u ts]; [done|]. simpl. intros H.
  by apply andb_true_iff in H as [_ H].
Qed.

Lemma filter_all {A} (P : A -> Prop) `{forall x, Decision (P x)} (l : list A) :
  Forall P l -> filter P l = l.
Proof.
  induction 1 as [|x l Hx Hl IH]; [done|].
  rewrite filter_cons_True by done. by rewrite IH.
Qed.

(** On a deque in time order, trimming from the head removes exactly the
    records older than the start of the window. *)
Lemma popleft_while_old_sorted ws q :
  nondecreasing q = true ->
  popleft_while_old ws q = filter (fun t => ws <= t) q.
Proof.
  induction q as [|r q IH]; intros Hs; [done|].
  simpl. destruct (Z.ltb_spec r ws) as [Hlt|Hge].
  - rewrite filter_cons_False by lia. apply IH. by eapply nondecreasing_tail.
  - rewrite filter_cons_True by done. f_equal.
    symmetry. apply filter_all.
    eapply Forall_impl; [by apply nondecreasing_head|]. simpl. intros; lia.
Qed.

End RateLimiterFacts.

(** C9. With [maxRequests = 50] and [windowSeconds = 60]: after 50 records
    made on a clock that does not run backwards, [can_make_request] answers
    false while all of them are within the trailing 60 seconds, and true
    once one of them (so the oldest) is older than that.  It first trims the
    deque, which on such a deque leaves exactly the records not older than
    [now - 60 s], and then compares the number left with 50. *)
Theorem C9_rate_limiter_window (ts : list Z) (now : Z) :
  length ts = 50%nat ->
  nondecreasing ts = true ->
  (Forall (fun t => now - timedelta_seconds 60 <= t) ts ->
   fst (can_make_request now (record_all ts (RateLimiter_init 50 60))) = false)
  /\ ((exists t, In t ts /\ t < now - timedelta_seconds 60) ->
      fst (can_make_request now (record_all ts (RateLimiter_init 50 60))) = true)
  /\ requests (snd (can_make_request now (record_all ts (RateLimiter_init 50 60))))
     = filter (fun t => now - timedelta_seconds 60 <= t) ts
  /\ fst (can_make_request now (record_all ts (RateLimiter_init 50 60)))
     = (Z.of_nat (length (requests (snd (can_make_request now
                                           (record_all ts (RateLimiter_init 50 60))))))
        <? 50).
Proof.
  intros Hlen Hsorted.
  unfold can_make_request.
  rewrite requests_record_all, max_requests_record_all, window_size_record_all.
  simpl. repeat split.
  - intros Hin. rewrite popleft_while_old_fresh by done.
    rewrite Hlen. reflexivity.
  - intros (t & Ht & Hold).
    destruct ts as [|t0 ts']; [done|].
    assert (t0 < now - timedelta_seconds 60) as H0.
    { destruct Ht as [->|Ht]; [done|].
      pose proof (nondecreasing_head _ _ Hsorted) as Hall.
      rewrite Forall_forall in Hall.
      assert (t0 <= t); [|lia].
      apply Hall. by apply list_elem_of_In. }
    pose proof (popleft_while_old_head _ _ ts' H0) as Hle.
    simpl in Hlen. apply Z.ltb_lt. lia.
  - by apply popleft_while_old_sorted.
Qed.

(** The theorem at fifty records made at the instants 0 us .. 49 us,
    looked at from the instant 10 us. *)
Lemma C9_rate_limiter_window_witness :
  (Forall (fun t => 10 - timedelta_seconds 60 <= t) (map Z.of_nat (seq 0 50)) ->
   fst (can_make_request 10 (record_all (map Z.of_nat (seq 0 50)) (RateLimiter_init 50 60)))
   = false)
  /\ ((exists t, In t (map Z.of_nat (seq 0 50)) /\ t < 10 - timedelta_seconds 60) ->
      fst (can_make_request 10 (record_all (map Z.of_nat (seq 0 50)) (RateLimiter_init 50 60)))
      = true)
  /\ requests (snd (can_make_request 10
                      (record_all (map Z.of_nat (seq 0 50)) (RateLimiter_init 50 60))))
     = filter (fun t => 10 - timedelta_seconds 60 <= t) (map Z.of_nat (seq 0 50))
  /\ fst (can_make_request 10 (record_all (map Z.of_nat (seq 0 50)) (RateLimiter_init 50 60)))
     = (Z.of_nat (length (requests (snd (can_make_request 10
                    (record_all (map Z.of_nat (seq 0 50)) (RateLimiter_init 50 60))))))
        <? 50).
Proof.
  apply (C9_rate_limiter_window (map Z.of_nat (seq 0 50)) 10); reflexivity.
Defined.

(** ** Running computations *)

Lemma bind_ok {S A B} (m : M S A) (k : A -> M S B) s a s' :
  m s = (Ok a, s') -> bind m k s = k a s'.
Proof. unfold bind. by intros ->. Qed.

Lemma bind_raise {S A B} (m : M S A) (k : A -> M S B) s e s' :
  m s = (Raise e, s') -> bind m k s = (Raise e, s').
Proof. unfold bind. by intros ->. Qed.

Lemma bind_hang {S A B} (m : M S A) (k : A -> M S B) s s' :
  m s = (Hang, s') -> bind m k s = (Hang, s').
Proof. unfold bind. by intros ->. Qed.

Lemma try_except_ok {S A} (m : M S A) h s a s' :
  m s = (Ok a, s') -> try_except m h s = (Ok a, s').
Proof. unfold try_except. by intros ->. Qed.

Lemma try_except_raise {S A} (m : M S A) h s e s' :
  m s = (Raise e, s') -> try_except m h s = h e s'.
Proof. unfold try_except. by intros ->. Qed.

Lemma try_except_hang {S A} (m : M S A) h s s' :
  m s = (Hang, s') -> try_except m h s = (Hang, s').
Proof. unfold try_except. by intros ->. Qed.

Lemma sleep_ok site seconds st :
  0 <= seconds ->
  sleep site seconds st = (Ok tt, slept site seconds st).
Proof.
  intros H. unfold sleep. destruct (Z.ltb_spec seconds 0); [lia|done].
Qed.

Lemma sleep_negative site seconds st :
  seconds < 0 -> sleep site seconds st = (Raise ValueError, st).
Proof.
  intros H. unfold sleep. destruct (Z.ltb_spec seconds 0); [done|lia].
Qed.

(** ** Waiting for capacity *)

Lemma wait_loop_spec fuel st r st' :
  wait_loop fuel st = (r, st') ->
  memory_file st' = memory_file st /\ memory st' = memory st
  /\ files st' = files st /\ calls st' = calls st
  /\ max_requests (rate_limiter st') = max_requests (rate_limiter st)
  /\ window_size (rate_limiter st') = window_size (rate_limiter st)
  /\ exists k : nat,
       trace st' = trace st ++ repeat (Slept Polling 1) k
       /\ clock st' = clock st + timedelta_seconds (Z.of_nat k).
Proof.
  revert st. induction fuel as [|fuel IH]; intros st H.
  - simpl in H. injection H as <- <-. repeat split; try done.
    exists 0%nat. simpl. rewrite app_nil_r. unfold timedelta_seconds. split; [done|lia].
  - simpl in H. unfold bind, poll_capacity in H.
    destruct (can_make_request (clock st) (rate_limiter st)) as [ok rl] eqn:Hcan.
    assert (max_requests rl = max_requests (rate_limiter st)
            /\ window_size rl = window_size (rate_limiter st)) as [Hmax Hwin].
    { unfold can_make_request in Hcan. injection Hcan as _ <-. done. }
    destruct ok.
    + unfold ret in H. injection H as <- <-. repeat split; try done.
      exists 0%nat. simpl. rewrite app_nil_r. unfold timedelta_seconds. split; [done|lia].
    + unfold sleep, modify in H. simpl in H.
      apply IH in H as (H1 & H2 & H3 & H4 & H5 & H6 & k & H7 & H8).
      simpl in *. repeat split; try congruence.
      exists (S k). split.
      * rewrite H7. simpl. by rewrite <- app_assoc.
      * rewrite H8. unfold timedelta_seconds. lia.
Qed.

(** With a positive limit the wait ends: once every record is older than
    the window the deque is empty. *)
Lemma wait_loop_returns fuel st :
  0 < max_requests (rate_limiter st) ->
  Forall (fun r => r < clock st - timedelta_seconds (window_size (rate_limiter st))
                       + timedelta_seconds (Z.of_nat fuel))
         (requests (rate_limiter st)) ->
  exists st', wait_loop (S fuel) st = (Ok tt, st').
Proof.
  revert st. induction fuel as [|fuel IH]; intros st Hmax Hall.
  - simpl. unfold bind, poll_capacity, can_make_request.
    assert (popleft_while_old (clock st - timedelta_seconds (window_size (rate_limiter st)))
              (requests (rate_limiter st)) = []) as ->.
    { induction Hall as [|r q Hr Hq IHq]; [done|].
      simpl. unfold timedelta_seconds in Hr. simpl in Hr.
      destruct (Z.ltb_spec r (clock st - timedelta_seconds (window_size (rate_limiter st))));
        [done|]. unfold timedelta_seconds in *. lia. }
    simpl. change (Z.of_nat 0) with 0.
    destruct (Z.ltb_spec 0 (max_requests (rate_limiter st))); [|lia].
    eexists. reflexivity.
  - cbn [wait_loop]. unfold bind at 1. unfold poll_capacity.
    destruct (can_make_request (clock st) (rate_limiter st)) as [ok rl] eqn:Hcan.
    destruct ok; [eexists; reflexivity|].
    rewrite (bind_ok _ _ _ _ _ (sleep_ok Polling 1 _ ltac:(lia))).
    apply IH.
    + simpl. unfold can_make_request in Hcan. injection Hcan as _ <-. done.
    + simpl. unfold can_make_request in Hcan. injection Hcan as _ <-. simpl.
      assert (Forall (fun r => r < clock st
                 - timedelta_seconds (window_size (rate_limiter st))
                 + timedelta_seconds (Z.of_nat (S fuel)))
                (popleft_while_old
                   (clock st - timedelta_seconds (window_size (rate_limiter st)))
                   (requests (rate_limiter st)))) as Hsub.
      { clear -Hall. induction Hall as [|r q Hr Hq IHq]; [constructor|].
        simpl. destruct (r <? _); [done|]. by constructor. }
      eapply Forall_impl; [exact Hsub|]. simpl. intros r Hr.
      unfold timedelta_seconds in *. lia.
Qed.

Lemma fold_right_max_bound now q :
  now <= fold_right Z.max now q /\ Forall (fun r => r <= fold_right Z.max now q) q.
Proof.
  induction q as [|r q [IH1 IH2]]; simpl; [split; [lia|constructor]|].
  split; [lia|]. constructor; [lia|].
  eapply Forall_impl; [exact IH2|]. simpl. intros; lia.
Qed.

(** [wait_for_capacity] returns whenever the limit is positive. *)
Lemma wait_for_capacity_returns st :
  0 < max_requests (rate_limiter st) ->
  exists st', wait_for_capacity st = (Ok tt, st') /\ waited st st'.
Proof.
  intros Hmax.
  destruct (wait_loop_returns
              (Z.to_nat ((fold_right Z.max (clock st) (requests (rate_limiter st))
                          - clock st) / 1000000
                         + window_size (rate_limiter st) + 1)) st Hmax) as [st1 Hloop].
  { destruct (fold_right_max_bound (clock st) (requests (rate_limiter st))) as [Hnow Hq].
    eapply Forall_impl; [exact Hq|]. simpl. intros r Hr.
    set (mx := fold_right Z.max (clock st) (requests (rate_limiter st))) in *.
    set (w := window_size (rate_limiter st)).
    unfold timedelta_seconds.
    pose proof (Z.div_mod (mx - clock st) 1000000 ltac:(lia)) as Hdm.
    pose proof (Z.mod_pos_bound (mx - clock st) 1000000 ltac:(lia)) as Hmb.
    assert ((mx - clock st) / 1000000 + w + 1
            <= Z.of_nat (Z.to_nat ((mx - clock st) / 1000000 + w + 1))) by lia.
    nia. }
  exists (log CapacityGranted st1). split.
  - unfold wait_for_capacity, bind, get, modify. unfold polls_needed.
    rewrite Hloop. reflexivity.
  - apply wait_loop_spec in Hloop as (H1 & H2 & H3 & H4 & H5 & H6 & k & H7 & H8).
    split; simpl; try done.
    exists k. split; [|done]. rewrite H7. by rewrite <- app_assoc.
Qed.

(** Whatever [wait_for_capacity] answers, it only polls. *)
Lemma wait_for_capacity_waited st st' :
  wait_for_capacity st = (Ok tt, st') -> waited st st'.
Proof.
  unfold wait_for_capacity, bind, get, modify. intros H.
  destruct (wait_loop _ st) as [[[]| |] st1] eqn:Hloop; try discriminate.
  injection H as <-.
  apply wait_loop_spec in Hloop as (H1 & H2 & H3 & H4 & H5 & H6 & k & H7 & H8).
  split; simpl; try done.
  exists k. split; [|done]. rewrite H7. by rewrite <- app_assoc.
Qed.

(** ** One pass through the retry loop *)

Lemma backoff_or_continue attempt {A} (last : M session (step A)) st :
  0 <= attempt < RETRY_ATTEMPTS - 1 ->
  backoff_or attempt last st
  = (Ok Continue, slept Backoff (RETRY_DELAY * (attempt + 1)) st).
Proof.
  intros H. unfold backoff_or.
  destruct (Z.ltb_spec attempt (RETRY_ATTEMPTS - 1)); [|lia].
  assert (0 <= RETRY_DELAY * (attempt + 1)) as Hpos by (unfold RETRY_DELAY; lia).
  rewrite (bind_ok _ _ _ _ _ (sleep_ok Backoff _ st Hpos)).
  reflexivity.
Qed.

Lemma backoff_or_last attempt {A} (last : M session (step A)) st :
  RETRY_ATTEMPTS - 1 <= attempt -> backoff_or attempt last st = last st.
Proof.
  intros H. unfold backoff_or.
  destruct (Z.ltb_spec attempt (RETRY_ATTEMPTS - 1)); [lia|done].
Qed.

Lemma httpx_handlers attempt e st :
  Httpx.attempt_handlers attempt e st = backoff_or attempt (raise e) st.
Proof. by destruct e. Qed.

(** A pass in which the call gets no response: nothing is recorded. *)
Lemma httpx_pass_failed env prompt attempt st st1 e :
  wait_for_capacity st = (Ok tt, st1) ->
  transport env (calls st1) = Failed e ->
  try_except (Httpx.attempt_body env prompt) (Httpx.attempt_handlers attempt) st
  = backoff_or attempt (raise e) (called prompt st1).
Proof.
  intros Hw Ht. unfold Httpx.attempt_body.
  erewrite try_except_raise; [apply httpx_handlers|].
  rewrite (bind_ok _ _ _ _ _ Hw).
  apply bind_raise. unfold physical_call. by rewrite Ht.
Qed.

(** A pass in which the call is answered 429 with a delay that can be
    slept. *)
Lemma httpx_pass_429 env prompt attempt st st1 ra b w :
  wait_for_capacity st = (Ok tt, st1) ->
  transport env (calls st1) = Returned 429 ra b ->
  Httpx.advertised_delay ra = Some w -> 0 <= w ->
  try_except (Httpx.attempt_body env prompt) (Httpx.attempt_handlers attempt) st
  = (Ok Continue, slept RetryAfter w (recorded (called prompt st1))).
Proof.
  intros Hw Ht Hd Hpos. unfold Httpx.attempt_body.
  apply try_except_ok.
  rewrite (bind_ok _ _ _ _ _ Hw).
  erewrite bind_ok; [|unfold physical_call; by rewrite Ht].
  cbn beta iota. erewrite bind_ok; [|reflexivity].
  change (429 =? 429) with true. cbn iota.
  erewrite bind_ok; [|unfold Httpx.retry_after_seconds; rewrite Hd; reflexivity].
  erewrite bind_ok; [|by apply sleep_ok].
  reflexivity.
Qed.

(** A pass in which the call is answered with a status that is neither 429
    nor a success. *)
Lemma httpx_pass_error_status env prompt attempt st st1 status ra b :
  wait_for_capacity st = (Ok tt, st1) ->
  transport env (calls st1) = Returned status ra b ->
  status <> 429 -> ~ (200 <= status < 300) ->
  try_except (Httpx.attempt_body env prompt) (Httpx.attempt_handlers attempt) st
  = backoff_or attempt (raise (HTTPStatusError status)) (recorded (called prompt st1)).
Proof.
  intros Hw Ht H429 H2xx. unfold Httpx.attempt_body.
  erewrite try_except_raise; [apply httpx_handlers|].
  rewrite (bind_ok _ _ _ _ _ Hw).
  erewrite bind_ok; [|unfold physical_call; by rewrite Ht].
  cbn beta iota. erewrite bind_ok; [|reflexivity].
  destruct (Z.eqb_spec status 429); [done|].
  apply bind_raise. unfold Httpx.raise_for_status.
  destruct (Z.leb_spec 200 status), (Z.ltb_spec status 300); simpl; try done; lia.
Qed.

(** A pass in which the call is answered with a success. *)
Lemma httpx_pass_success env prompt attempt st st1 status ra b :
  wait_for_capacity st = (Ok tt, st1) ->
  transport env (calls st1) = Returned status ra b ->
  200 <= status < 300 ->
  try_except (Httpx.attempt_body env prompt) (Httpx.attempt_handlers attempt) st
  = match b with
    | Content c => (Ok (Return c), recorded (called prompt st1))
    | BadBody e => backoff_or attempt (raise e) (recorded (called prompt st1))
    end.
Proof.
  intros Hw Ht H2xx. unfold Httpx.attempt_body.
  assert (Httpx.raise_for_status status (recorded (called prompt st1))
          = (Ok tt, recorded (called prompt st1))) as Hok.
  { unfold Httpx.raise_for_status.
    destruct (Z.leb_spec 200 status), (Z.ltb_spec status 300); simpl; try done; lia. }
  destruct b as [c|e].
  - apply try_except_ok.
    rewrite (bind_ok _ _ _ _ _ Hw).
    erewrite bind_ok; [|unfold physical_call; by rewrite Ht].
    cbn beta iota. erewrite bind_ok; [|reflexivity].
    destruct (Z.eqb_spec status 429); [lia|].
    by rewrite (bind_ok _ _ _ _ _ Hok).
  - erewrite try_except_raise; [apply httpx_handlers|].
    rewrite (bind_ok _ _ _ _ _ Hw).
    erewrite bind_ok; [|unfold physical_call; by rewrite Ht].
    cbn beta iota. erewrite bind_ok; [|reflexivity].
    destruct (Z.eqb_spec status 429); [lia|].
    by rewrite (bind_ok _ _ _ _ _ Hok).
Qed.

(** A pass in which the call is answered 429 with a delay that cannot be
    read or cannot be slept: [ValueError] goes to the handlers. *)
Lemma httpx_pass_429_bad_delay env prompt attempt st st1 ra b :
  wait_for_capacity st = (Ok tt, st1) ->
  transport env (calls st1) = Returned 429 ra b ->
  (forall w, Httpx.advertised_delay ra = Some w -> w < 0) ->
  try_except (Httpx.attempt_body env prompt) (Httpx.attempt_handlers attempt) st
  = backoff_or attempt (raise ValueError) (recorded (called prompt st1)).
Proof.
  intros Hw Ht Hd. unfold Httpx.attempt_body.
  erewrite try_except_raise; [apply httpx_handlers|].
  rewrite (bind_ok _ _ _ _ _ Hw).
  erewrite bind_ok; [|unfold physical_call; by rewrite Ht].
  cbn beta iota. erewrite bind_ok; [|reflexivity].
  change (429 =? 429) with true. cbn iota.
  unfold Httpx.retry_after_seconds.
  destruct (Httpx.advertised_delay ra) as [w|] eqn:Hra.
  - erewrite bind_ok; [|reflexivity].
    apply bind_raise. apply sleep_negative. by apply Hd.
  - by apply bind_raise.
Qed.

(** The other version.  The client raises for every status that is not a
    success, before anything is recorded. *)
Lemma openai_pass_failed env prompt attempt st st1 e :
  wait_for_capacity st = (Ok tt, st1) ->
  transport env (calls st1) = Failed e ->
  try_except (OpenAIClient.attempt_body env prompt)
             (OpenAIClient.attempt_handlers env attempt) st
  = backoff_or attempt
      (raise (ValueErrorWith (txt "Error making API request: " ++ py_str env e)))
      (called prompt st1).
Proof.
  intros Hw Ht. unfold OpenAIClient.attempt_body.
  erewrite try_except_raise; [reflexivity|].
  rewrite (bind_ok _ _ _ _ _ Hw).
  apply bind_raise. unfold OpenAIClient.create.
  apply bind_raise. unfold physical_call. by rewrite Ht.
Qed.

Lemma openai_pass_error_status env prompt attempt st st1 status ra b :
  wait_for_capacity st = (Ok tt, st1) ->
  transport env (calls st1) = Returned status ra b ->
  ~ (200 <= status < 300) ->
  try_except (OpenAIClient.attempt_body env prompt)
             (OpenAIClient.attempt_handlers env attempt) st
  = backoff_or attempt
      (raise (ValueErrorWith (txt "Error making API request: "
                                ++ py_str env (HTTPStatusError status))))
      (called prompt st1).
Proof.
  intros Hw Ht H2xx. unfold OpenAIClient.attempt_body.
  erewrite try_except_raise; [reflexivity|].
  rewrite (bind_ok _ _ _ _ _ Hw).
  apply bind_raise. unfold OpenAIClient.create.
  erewrite bind_ok; [|unfold physical_call; by rewrite Ht].
  cbn beta iota.
  destruct (Z.leb_spec 200 status), (Z.ltb_spec status 300); simpl; try done; lia.
Qed.

Lemma openai_pass_success env prompt attempt st st1 status ra b :
  wait_for_capacity st = (Ok tt, st1) ->
  transport env (calls st1) = Returned status ra b ->
  200 <= status < 300 ->
  try_except (OpenAIClient.attempt_body env prompt)
             (OpenAIClient.attempt_handlers env attempt) st
  = match b with
    | Content c => (Ok (Return c), recorded (called prompt st1))
    | BadBody e =>
        backoff_or attempt
          (raise (ValueErrorWith (txt "Error making API request: " ++ py_str env e)))
          (recorded (called prompt st1))
    end.
Proof.
  intros Hw Ht H2xx. unfold OpenAIClient.attempt_body.
  assert (OpenAIClient.create env prompt st1 = (Ok b, called prompt st1)) as Hc.
  { unfold OpenAIClient.create.
    erewrite bind_ok; [|unfold physical_call; by rewrite Ht].
    cbn beta iota.
    destruct (Z.leb_spec 200 status), (Z.ltb_spec status 300); simpl; try done; lia. }
  destruct b as [c|e].
  - apply try_except_ok.
    rewrite (bind_ok _ _ _ _ _ Hw). rewrite (bind_ok _ _ _ _ _ Hc).
    by erewrite bind_ok.
  - erewrite try_except_raise; [reflexivity|].
    rewrite (bind_ok _ _ _ _ _ Hw). rewrite (bind_ok _ _ _ _ _ Hc).
    by erewrite bind_ok.
Qed.

(** ** What every send keeps to *)

Lemma sent_refl prompt st : sent prompt st st.
Proof.
  split; try done. exists []. by rewrite app_nil_r.
Qed.

Lemma sent_trans prompt st1 st2 st3 :
  sent prompt st1 st2 -> sent prompt st2 st3 -> sent prompt st1 st3.
Proof.
  intros [A1 A2 A3 A4 A5 A6 (e1 & A7 & A8)] [B1 B2 B3 B4 B5 B6 (e2 & B7 & B8)].
  split; try congruence; try lia.
  exists (e1 ++ e2). split.
  - rewrite B7, A7. by rewrite <- app_assoc.
  - by apply Forall_app.
Qed.

Lemma sends_ret {A} prompt (a : A) : sends prompt 0 (ret a).
Proof.
  intros st r st' H. injection H as <- <-.
  split; [apply sent_refl|]. split; [lia|done].
Qed.

Lemma sends_raise {A} prompt e : sends prompt 0 (@raise session A e).
Proof.
  intros st r st' H. injection H as <- <-.
  split; [apply sent_refl|]. split; [lia|done].
Qed.

Lemma sends_weaken {A} prompt n n' (m : M session A) :
  (n <= n')%nat -> sends prompt n m -> sends prompt n' m.
Proof.
  intros Hle Hm st r st' H. destruct (Hm _ _ _ H) as (H1 & H2 & H3).
  split; [done|]. split; [lia|done].
Qed.

Lemma sends_bind {A B} prompt n k (m : M session A) (f : A -> M session B) :
  sends prompt n m -> (forall a, sends prompt k (f a)) ->
  sends prompt (n + k) (bind m f).
Proof.
  intros Hm Hf st r st' H. unfold bind in H.
  destruct (m st) as [[a|e|] st1] eqn:Hmst;
    destruct (Hm _ _ _ Hmst) as (H1 & H2 & H3).
  - destruct (Hf a _ _ _ H) as (G1 & G2 & G3).
    split; [by eapply sent_trans|]. split; [lia|].
    intros Hpos. apply G3. by rewrite (sent_max _ _ _ H1).
  - injection H as <- <-. split; [done|]. split; [lia|done].
  - injection H as <- <-. split; [done|]. split; [lia|].
    intros Hpos. by destruct (H3 Hpos).
Qed.

Lemma sends_try_except {A} prompt n k (m : M session A) (h : exn -> M session A) :
  sends prompt n m -> (forall e, sends prompt k (h e)) ->
  sends prompt (n + k) (try_except m h).
Proof.
  intros Hm Hh st r st' H. unfold try_except in H.
  destruct (m st) as [[a|e|] st1] eqn:Hmst;
    destruct (Hm _ _ _ Hmst) as (H1 & H2 & H3).
  - injection H as <- <-. split; [done|]. split; [lia|done].
  - destruct (Hh e _ _ _ H) as (G1 & G2 & G3).
    split; [by eapply sent_trans|]. split; [lia|].
    intros Hpos. apply G3. by rewrite (sent_max _ _ _ H1).
  - injection H as <- <-. split; [done|]. split; [lia|exact H3].
Qed.

Lemma sends_sleep prompt site seconds : sends prompt 0 (sleep site seconds).
Proof.
  intros st r st' H. unfold sleep in H. destruct (seconds <? 0).
  - by apply (sends_raise prompt ValueError st r st').
  - injection H as <- <-. split; [|split; [simpl; lia|done]].
    split; simpl; try done.
    exists [Slept site seconds]. split; [done|].
    constructor; [|constructor]. intros q Hq. discriminate.
Qed.

Lemma sends_record prompt : sends prompt 0 record_request.
Proof.
  intros st r st' H. injection H as <- <-. split; [|split; [simpl; lia|done]].
  split; simpl; try done.
  exists [Recorded (clock st)]. split; [done|].
  constructor; [|constructor]. intros q Hq. discriminate.
Qed.

Lemma sends_physical_call env prompt : sends prompt 1 (physical_call env prompt).
Proof.
  intros st r st' H. unfold physical_call in H.
  assert (st' = called prompt st /\ r <> Hang) as [-> Hr].
  { destruct (transport env (calls st)); injection H as <- <-; done. }
  split; [|split; [simpl; lia|done]].
  split; simpl; try done; try lia.
  exists [Requested prompt]. split; [done|].
  constructor; [|constructor]. intros q Hq. by injection Hq as <-.
Qed.

Lemma sends_wait prompt : sends prompt 0 wait_for_capacity.
Proof.
  intros st r st' H.
  assert (sent prompt st st' /\ calls st' = calls st) as [Hs Hc].
  { unfold wait_for_capacity, bind, get, modify in H.
    destruct (wait_loop _ st) as [r1 st1] eqn:Hloop.
    apply wait_loop_spec in Hloop as (H1 & H2 & H3 & H4 & H5 & H6 & k & H7 & H8).
    assert (exists tail, st' = st1 /\ tail = [] \/ st' = log CapacityGranted st1
                                                  /\ tail = [CapacityGranted])
      as (tail & Hst').
    { destruct r1; injection H as <- <-; eauto. }
    assert (trace st' = trace st1 ++ tail /\ Forall (fun e => forall q, e = Requested q -> q = prompt) tail
            /\ memory_file st' = memory_file st1 /\ memory st' = memory st1
            /\ files st' = files st1 /\ calls st' = calls st1
            /\ rate_limiter st' = rate_limiter st1) as (T1 & T2 & T3 & T4 & T5 & T6 & T7).
    { destruct Hst' as [[-> ->]|[-> ->]]; simpl; rewrite ?app_nil_r; repeat split; try done.
      constructor; [|constructor]. intros q Hq. discriminate. }
    split; [|congruence].
    split; try congruence; try lia.
    exists (repeat (Slept Polling 1) k ++ tail). split.
    - rewrite T1, H7. by rewrite <- app_assoc.
    - apply Forall_app. split; [|done].
      apply Forall_forall. intros e He q Hq.
      apply list_elem_of_In, repeat_spec in He. congruence. }
  split; [done|]. split; [lia|].
  intros Hpos ->.
  destruct (wait_for_capacity_returns st Hpos) as (st2 & Hret & _). congruence.
Qed.

Lemma sends_of_option {A} prompt e (o : option A) : sends prompt 0 (of_option e o).
Proof. destruct o; [apply sends_ret|apply sends_raise]. Qed.

Lemma sends_backoff_or {A} prompt attempt (last : M session (step A)) :
  sends prompt 0 last -> sends prompt 0 (backoff_or attempt last).
Proof.
  intros Hl. unfold backoff_or. destruct (attempt <? RETRY_ATTEMPTS - 1); [|done].
  apply (sends_bind prompt 0 0); [apply sends_sleep|]. intros _. apply sends_ret.
Qed.

Lemma httpx_attempt_body_sends env prompt :
  sends prompt 1 (Httpx.attempt_body env prompt).
Proof.
  unfold Httpx.attempt_body.
  apply (sends_bind prompt 0 1); [apply sends_wait|]. intros _.
  apply (sends_bind prompt 1 0); [apply sends_physical_call|]. intros [[status ra] b].
  apply (sends_bind prompt 0 0); [apply sends_record|]. intros _.
  destruct (status =? 429).
  - apply (sends_bind prompt 0 0); [apply sends_of_option|]. intros w.
    apply (sends_bind prompt 0 0); [apply sends_sleep|]. intros _. apply sends_ret.
  - apply (sends_bind prompt 0 0).
    + unfold Httpx.raise_for_status.
      destruct (_ && _); [apply sends_ret|apply sends_raise].
    + intros _. destruct b; [apply sends_ret|apply sends_raise].
Qed.

Lemma httpx_attempt_handlers_sends prompt attempt e :
  sends prompt 0 (Httpx.attempt_handlers attempt e).
Proof.
  intros st r st' H. rewrite httpx_handlers in H. revert st r st' H.
  apply sends_backoff_or, sends_raise.
Qed.

Lemma httpx_retry_loop_sends env prompt attempts :
  sends prompt (length attempts) (Httpx.retry_loop env prompt attempts).
Proof.
  induction attempts as [|attempt rest IH]; [apply sends_ret|].
  cbn [Httpx.retry_loop length].
  apply (sends_bind prompt 1 (length rest)).
  - apply (sends_try_except prompt 1 0);
      [apply httpx_attempt_body_sends|apply httpx_attempt_handlers_sends].
  - intros [v|]; [|done]. eapply sends_weaken; [|apply sends_ret]. lia.
Qed.

(** A send of the httpx version makes at most three physical calls, leaves
    the memory and the files alone, and returns or raises. *)
Lemma httpx_make_api_request_sends env prompt :
  sends prompt 3 (Httpx._make_api_request env prompt).
Proof. apply (httpx_retry_loop_sends env prompt (range RETRY_ATTEMPTS)). Qed.

Lemma openai_attempt_body_sends env prompt :
  sends prompt 1 (OpenAIClient.attempt_body env prompt).
Proof.
  unfold OpenAIClient.attempt_body.
  apply (sends_bind prompt 0 1); [apply sends_wait|]. intros _.
  apply (sends_bind prompt 1 0).
  - unfold OpenAIClient.create.
    apply (sends_bind prompt 1 0); [apply sends_physical_call|]. intros [[status ra] b].
    destruct (_ && _); [apply sends_ret|apply sends_raise].
  - intros b. apply (sends_bind prompt 0 0); [apply sends_record|]. intros _.
    destruct b; [apply sends_ret|apply sends_raise].
Qed.

Lemma openai_retry_loop_sends env prompt attempts :
  sends prompt (length attempts) (OpenAIClient.retry_loop env prompt attempts).
Proof.
  induction attempts as [|attempt rest IH]; [apply sends_ret|].
  cbn [OpenAIClient.retry_loop length].
  apply (sends_bind prompt 1 (length rest)).
  - apply (sends_try_except prompt 1 0); [apply openai_attempt_body_sends|].
    intros e. apply sends_backoff_or, sends_raise.
  - intros [v|]; [|done]. eapply sends_weaken; [|apply sends_ret]. lia.
Qed.

Lemma openai_make_api_request_sends env prompt :
  sends prompt 3 (OpenAIClient._make_api_request env prompt).
Proof. apply (openai_retry_loop_sends env prompt (range RETRY_ATTEMPTS)). Qed.

(** A handler that re-raises leaves the session alone or adds one sleep. *)
Lemma backoff_or_raise_cases attempt {A} e st :
  exists tail,
    snd (backoff_or (A:=A) attempt (raise e) st)
    = match tail with
      | Some seconds => slept Backoff seconds st
      | None => st
      end.
Proof.
  unfold backoff_or. destruct (attempt <? RETRY_ATTEMPTS - 1).
  - unfold bind, sleep. destruct (_ <? 0).
    + by exists None.
    + by exists (Some (RETRY_DELAY * (attempt + 1))).
  - by exists None.
Qed.

(** ** The retry policy *)

(** C3, what the code does by design.  In the httpx version a 429 with a
    delay that can be slept (the [Retry-After] seconds, or [RETRY_DELAY] when
    the header is absent) is recorded and slept for exactly that delay,
    without backoff, and the loop goes on with the attempts that are left:
    the 429 has used one of the iterations of
    [for attempt in range(RETRY_ATTEMPTS)].  No send makes more than
    [RETRY_ATTEMPTS] physical calls, whatever the answers are. *)
Theorem C3_rate_limit_uses_an_attempt env prompt attempt rest st st1 ra b w :
  wait_for_capacity st = (Ok tt, st1) ->
  transport env (calls st1) = Returned 429 ra b ->
  Httpx.advertised_delay ra = Some w ->
  0 <= w ->
  Httpx.retry_loop env prompt (attempt :: rest) st
  = Httpx.retry_loop env prompt rest (slept RetryAfter w (recorded (called prompt st1)))
  /\ sleeps (trace (slept RetryAfter w (recorded (called prompt st1))))
     = sleeps (trace st1) ++ [(RetryAfter, w)]
  /\ forall st0,
       (calls (snd (Httpx._make_api_request env prompt st0))
        <= calls st0 + Z.to_nat RETRY_ATTEMPTS)%nat.
Proof.
  intros Hw Ht Hd Hpos. repeat split.
  - cbn [Httpx.retry_loop].
    erewrite bind_ok; [|by eapply httpx_pass_429]. reflexivity.
  - simpl. unfold sleeps. rewrite !flat_map_app. simpl. by rewrite !app_nil_r.
  - intros st0.
    destruct (Httpx._make_api_request env prompt st0) as [r st'] eqn:Hrun.
    by destruct (httpx_make_api_request_sends env prompt _ _ _ Hrun) as (_ & Hc & _).
Qed.

(** The theorem at a first attempt answered 429 without a [Retry-After]
    header. *)
Lemma C3_rate_limit_uses_an_attempt_witness :
  Httpx.retry_loop (installation true [status_response 429; ok_response "ok"]) []
    [0; 1; 2] (fresh_session "chat_memory.json" ∅)
  = Httpx.retry_loop (installation true [status_response 429; ok_response "ok"]) []
      [1; 2]
      (slept RetryAfter 2
         (recorded (called [] (log CapacityGranted (fresh_session "chat_memory.json" ∅)))))
  /\ sleeps (trace (slept RetryAfter 2
               (recorded (called [] (log CapacityGranted
                                       (fresh_session "chat_memory.json" ∅))))))
     = sleeps (trace (log CapacityGranted (fresh_session "chat_memory.json" ∅)))
       ++ [(RetryAfter, 2)]
  /\ forall st0,
       (calls (snd (Httpx._make_api_request
                      (installation true [status_response 429; ok_response "ok"]) [] st0))
        <= calls st0 + Z.to_nat RETRY_ATTEMPTS)%nat.
Proof.
  apply (C3_rate_limit_uses_an_attempt
           (installation true [status_response 429; ok_response "ok"]) [] 0 [1; 2]
           (fresh_session "chat_memory.json" ∅)
           (log CapacityGranted (fresh_session "chat_memory.json" ∅))
           NoRetryAfter (BadBody ValueError) 2);
    [reflexivity | reflexivity | reflexivity | lia].
Defined.

(** C3 as stated fails.  [429, 500, ok]: a later call succeeds, and the
    backoff after the 500 is [RETRY_DELAY * 2], that of a second attempt,
    where the policy of the specification backs off [RETRY_DELAY * 1].
    [429, 500, 500, ok]: the code gives up after three calls with the second
    500, where the policy of the specification, with two attempts charged,
    makes the fourth call and returns its text. *)
Lemma C3_counterexample :
  fst (Httpx._make_api_request
         (installation true [status_response 429; status_response 500; ok_response "ok"])
         [] (fresh_session "chat_memory.json" ∅))
  = Ok (Some (txt "ok"))
  /\ sleeps (trace (snd (Httpx._make_api_request
         (installation true [status_response 429; status_response 500; ok_response "ok"])
         [] (fresh_session "chat_memory.json" ∅))))
     = [(RetryAfter, 2); (Backoff, 4)]
  /\ sleeps (trace (snd (send_by_spec
         (installation true [status_response 429; status_response 500; ok_response "ok"])
         [] 3 0 (fresh_session "chat_memory.json" ∅))))
     = [(RetryAfter, 2); (Backoff, 2)]
  /\ Httpx._make_api_request
       (installation true [status_response 429; status_response 500;
                           status_response 500; ok_response "ok"])
       [] (fresh_session "chat_memory.json" ∅)
     <> send_by_spec
          (installation true [status_response 429; status_response 500;
                              status_response 500; ok_response "ok"])
          [] 4 0 (fresh_session "chat_memory.json" ∅)
  /\ fst (Httpx._make_api_request
            (installation true [status_response 429; status_response 500;
                                status_response 500; ok_response "ok"])
            [] (fresh_session "chat_memory.json" ∅))
     = Raise (HTTPStatusError 500)
  /\ calls (snd (Httpx._make_api_request
            (installation true [status_response 429; status_response 500;
                                status_response 500; ok_response "ok"])
            [] (fresh_session "chat_memory.json" ∅))) = 3%nat
  /\ fst (send_by_spec
            (installation true [status_response 429; status_response 500;
                                status_response 500; ok_response "ok"])
            [] 4 0 (fresh_session "chat_memory.json" ∅))
     = Ok (Some (txt "ok")).
Proof.
  repeat split; try (vm_compute; reflexivity).
  intros H. apply (f_equal fst) in H. vm_compute in H. discriminate.
Qed.

(** C4, what the code does by design.  A 4xx other than 429 is handled as
    every HTTP error is: on an attempt that is not the last the client
    sleeps [RETRY_DELAY * (attempt + 1)] seconds and goes on with the next
    attempt; on the last attempt the error is raised
    ([httpx.HTTPStatusError] as it is in the httpx version, wrapped in a
    [ValueError] in the other, where the failed call is not recorded). *)
Theorem C4_client_error_is_retried env prompt attempt rest st st1 status ra b :
  wait_for_capacity st = (Ok tt, st1) ->
  transport env (calls st1) = Returned status ra b ->
  400 <= status < 500 ->
  status <> 429 ->
  0 <= attempt ->
  (attempt < RETRY_ATTEMPTS - 1 ->
   Httpx.retry_loop env prompt (attempt :: rest) st
   = Httpx.retry_loop env prompt rest
       (slept Backoff (RETRY_DELAY * (attempt + 1)) (recorded (called prompt st1)))
   /\ OpenAIClient.retry_loop env prompt (attempt :: rest) st
      = OpenAIClient.retry_loop env prompt rest
          (slept Backoff (RETRY_DELAY * (attempt + 1)) (called prompt st1)))
  /\ (RETRY_ATTEMPTS - 1 <= attempt ->
      Httpx.retry_loop env prompt (attempt :: rest) st
      = (Raise (HTTPStatusError status), recorded (called prompt st1))
      /\ OpenAIClient.retry_loop env prompt (attempt :: rest) st
         = (Raise (ValueErrorWith (txt "Error making API request: "
                                     ++ py_str env (HTTPStatusError status))),
            called prompt st1)).
Proof.
  intros Hw Ht H4xx H429 Hatt.
  assert (~ (200 <= status < 300)) as H2xx by lia.
  pose proof (httpx_pass_error_status env prompt attempt _ _ _ _ _ Hw Ht H429 H2xx) as Hh.
  pose proof (openai_pass_error_status env prompt attempt _ _ _ _ _ Hw Ht H2xx) as Ho.
  split; intros Hlast; split.
  - cbn [Httpx.retry_loop].
    erewrite bind_ok; [|rewrite Hh; by apply backoff_or_continue]. reflexivity.
  - cbn [OpenAIClient.retry_loop].
    erewrite bind_ok; [|rewrite Ho; by apply backoff_or_continue]. reflexivity.
  - cbn [Httpx.retry_loop].
    apply bind_raise. rewrite Hh. by rewrite backoff_or_last.
  - cbn [OpenAIClient.retry_loop].
    apply bind_raise. rewrite Ho. by rewrite backoff_or_last.
Qed.

(** The theorem at a first attempt answered 404. *)
Lemma C4_client_error_is_retried_witness :
  (0 < RETRY_ATTEMPTS - 1 ->
   Httpx.retry_loop (installation true [status_response 404; ok_response "hi"]) []
     [0; 1; 2] (fresh_session "chat_memory.json" ∅)
   = Httpx.retry_loop (installation true [status_response 404; ok_response "hi"]) []
       [1; 2]
       (slept Backoff (RETRY_DELAY * (0 + 1))
          (recorded (called [] (log CapacityGranted
                                  (fresh_session "chat_memory.json" ∅)))))
   /\ OpenAIClient.retry_loop (installation true [status_response 404; ok_response "hi"])
        [] [0; 1; 2] (fresh_session "chat_memory.json" ∅)
      = OpenAIClient.retry_loop (installation true [status_response 404; ok_response "hi"])
          [] [1; 2]
          (slept Backoff (RETRY_DELAY * (0 + 1))
             (called [] (log CapacityGranted (fresh_session "chat_memory.json" ∅)))))
  /\ (RETRY_ATTEMPTS - 1 <= 0 ->
      Httpx.retry_loop (installation true [status_response 404; ok_response "hi"]) []
        [0; 1; 2] (fresh_session "chat_memory.json" ∅)
      = (Raise (HTTPStatusError 404),
         recorded (called [] (log CapacityGranted (fresh_session "chat_memory.json" ∅))))
      /\ OpenAIClient.retry_loop (installation true [status_response 404; ok_response "hi"])
           [] [0; 1; 2] (fresh_session "chat_memory.json" ∅)
         = (Raise (ValueErrorWith
                     (txt "Error making API request: "
                      ++ py_str (installation true [status_response 404; ok_response "hi"])
                           (HTTPStatusError 404))),
            called [] (log CapacityGranted (fresh_session "chat_memory.json" ∅)))).
Proof.
  apply (C4_client_error_is_retried
           (installation true [status_response 404; ok_response "hi"]) [] 0 [1; 2]
           (fresh_session "chat_memory.json" ∅)
           (log CapacityGranted (fresh_session "chat_memory.json" ∅))
           404 NoRetryAfter (BadBody ValueError));
    [reflexivity | reflexivity | lia | lia | lia].
Defined.

(** C4 as stated fails.  The first call is answered 404 and the second
    succeeds: both versions sleep two seconds, call again and return the
    text, where the policy of the specification raises after one call and
    no sleep. *)
Lemma C4_counterexample :
  fst (Httpx._make_api_request
         (installation true [status_response 404; ok_response "hi"]) []
         (fresh_session "chat_memory.json" ∅))
  = Ok (Some (txt "hi"))
  /\ sleeps (trace (snd (Httpx._make_api_request
         (installation true [status_response 404; ok_response "hi"]) []
         (fresh_session "chat_memory.json" ∅))))
     = [(Backoff, 2)]
  /\ calls (snd (Httpx._make_api_request
         (installation true [status_response 404; ok_response "hi"]) []
         (fresh_session "chat_memory.json" ∅))) = 2%nat
  /\ fst (OpenAIClient._make_api_request
         (installation true [status_response 404; ok_response "hi"]) []
         (fresh_session "chat_memory.json" ∅))
     = Ok (Some (txt "hi"))
  /\ sleeps (trace (snd (OpenAIClient._make_api_request
         (installation true [status_response 404; ok_response "hi"]) []
         (fresh_session "chat_memory.json" ∅))))
     = [(Backoff, 2)]
  /\ fst (send_by_spec
         (installation true [status_response 404; ok_response "hi"]) [] 2 0
         (fresh_session "chat_memory.json" ∅))
     = Raise (HTTPStatusError 404)
  /\ sleeps (trace (snd (send_by_spec
         (installation true [status_response 404; ok_response "hi"]) [] 2 0
         (fresh_session "chat_memory.json" ∅))))
     = []
  /\ calls (snd (send_by_spec
         (installation true [status_response 404; ok_response "hi"]) [] 2 0
         (fresh_session "chat_memory.json" ∅))) = 1%nat.
Proof. repeat split; vm_compute; reflexivity. Qed.

(** ** Recording *)

Lemma backoff_or_raise_slept attempt {A} e st :
  at_most_slept st (snd (backoff_or (A:=A) attempt (raise e) st)).
Proof.
  destruct (backoff_or_raise_cases (A:=A) attempt e st) as [[seconds|] ->].
  - right. eauto.
  - by left.
Qed.

Lemma at_most_slept_facts st st' :
  at_most_slept st st' ->
  rate_limiter st' = rate_limiter st
  /\ calls st' = calls st
  /\ exists tail, trace st' = trace st ++ tail /\ Forall (fun e => is_sleep e = true) tail.
Proof.
  intros [->|(site & seconds & ->)].
  - repeat split. exists []. by rewrite app_nil_r.
  - repeat split. exists [Slept site seconds]. split; [done|]. by repeat constructor.
Qed.

(** One pass of the httpx version: the call is recorded if, and only if, it
    got a response. *)
Lemma httpx_pass_state env prompt attempt st st1 :
  wait_for_capacity st = (Ok tt, st1) ->
  at_most_slept
    (if answered env (calls st1) then recorded (called prompt st1) else called prompt st1)
    (snd (try_except (Httpx.attempt_body env prompt) (Httpx.attempt_handlers attempt) st)).
Proof.
  intros Hw. unfold answered.
  destruct (transport env (calls st1)) as [status ra b|e] eqn:Ht.
  - destruct (Z.eq_dec status 429) as [->|H429].
    + destruct (Httpx.advertised_delay ra) as [w|] eqn:Hd.
      * destruct (Z.le_gt_cases 0 w) as [Hpos|Hneg].
        -- rewrite (httpx_pass_429 _ _ _ _ _ _ _ _ Hw Ht Hd Hpos). right. eauto.
        -- rewrite (httpx_pass_429_bad_delay _ _ attempt _ _ _ _ Hw Ht).
           ++ apply backoff_or_raise_slept.
           ++ intros w' Hw'. rewrite Hd in Hw'. injection Hw' as <-. lia.
      * rewrite (httpx_pass_429_bad_delay _ _ attempt _ _ _ _ Hw Ht).
        -- apply backoff_or_raise_slept.
        -- intros w' Hw'. rewrite Hd in Hw'. discriminate.
    + destruct (decide (200 <= status < 300)) as [H2xx|H2xx].
      * rewrite (httpx_pass_success _ _ attempt _ _ _ _ _ Hw Ht H2xx).
        destruct b; [by left|apply backoff_or_raise_slept].
      * rewrite (httpx_pass_error_status _ _ attempt _ _ _ _ _ Hw Ht H429 H2xx).
        apply backoff_or_raise_slept.
  - rewrite (httpx_pass_failed _ _ attempt _ _ _ Hw Ht). apply backoff_or_raise_slept.
Qed.

(** One pass of the other version: the call is recorded if, and only if, it
    got a response with a success status. *)
Lemma openai_pass_state env prompt attempt st st1 :
  wait_for_capacity st = (Ok tt, st1) ->
  at_most_slept
    (if succeeded env (calls st1) then recorded (called prompt st1) else called prompt st1)
    (snd (try_except (OpenAIClient.attempt_body env prompt)
                     (OpenAIClient.attempt_handlers env attempt) st)).
Proof.
  intros Hw. unfold succeeded.
  destruct (transport env (calls st1)) as [status ra b|e] eqn:Ht.
  - destruct (decide (200 <= status < 300)) as [H2xx|H2xx].
    + rewrite (openai_pass_success _ _ attempt _ _ _ _ _ Hw Ht H2xx).
      assert ((200 <=? status) && (status <? 300) = true) as ->.
      { apply andb_true_iff. split; [apply Z.leb_le|apply Z.ltb_lt]; lia. }
      destruct b; [by left|apply backoff_or_raise_slept].
    + rewrite (openai_pass_error_status _ _ attempt _ _ _ _ _ Hw Ht H2xx).
      assert ((200 <=? status) && (status <? 300) = false) as ->.
      { apply andb_false_iff.
        destruct (Z.leb_spec 200 status), (Z.ltb_spec status 300); auto; lia. }
      apply backoff_or_raise_slept.
  - rewrite (openai_pass_failed _ _ attempt _ _ _ Hw Ht). apply backoff_or_raise_slept.
Qed.

(** C8, what the code does by design.  In one pass of the retry loop, once
    capacity is granted, the request is issued first and the record is made
    after it, at the instant the grant was given, and only if the call came
    back: with any response in the httpx version (a call that raised, such
    as a timeout, is not recorded), with a success in the other version.
    Such a call adds exactly one entry to the window; after it the pass adds
    sleeps at most. *)
Theorem C8_record_follows_answered_call env prompt attempt st st1 :
  wait_for_capacity st = (Ok tt, st1) ->
  (exists k : nat,
     trace st1 = trace st ++ repeat (Slept Polling 1) k ++ [CapacityGranted])
  /\ (exists tail,
        trace (snd (try_except (Httpx.attempt_body env prompt)
                               (Httpx.attempt_handlers attempt) st))
        = trace st1
          ++ Requested prompt
             :: (if answered env (calls st1) then [Recorded (clock st1)] else [])
          ++ tail
        /\ Forall (fun e => is_sleep e = true) tail)
  /\ requests (rate_limiter (snd (try_except (Httpx.attempt_body env prompt)
                                             (Httpx.attempt_handlers attempt) st)))
     = requests (rate_limiter st1)
       ++ (if answered env (calls st1) then [clock st1] else [])
  /\ (exists tail,
        trace (snd (try_except (OpenAIClient.attempt_body env prompt)
                               (OpenAIClient.attempt_handlers env attempt) st))
        = trace st1
          ++ Requested prompt
             :: (if succeeded env (calls st1) then [Recorded (clock st1)] else [])
          ++ tail
        /\ Forall (fun e => is_sleep e = true) tail)
  /\ requests (rate_limiter (snd (try_except (OpenAIClient.attempt_body env prompt)
                                             (OpenAIClient.attempt_handlers env attempt) st)))
     = requests (rate_limiter st1)
       ++ (if succeeded env (calls st1) then [clock st1] else []).
Proof.
  intros Hw.
  pose proof (httpx_pass_state env prompt attempt _ _ Hw) as Hh.
  pose proof (openai_pass_state env prompt attempt _ _ Hw) as Ho.
  apply at_most_slept_facts in Hh as (Hh1 & _ & tail1 & Hh2 & Hh3).
  apply at_most_slept_facts in Ho as (Ho1 & _ & tail2 & Ho2 & Ho3).
  split.
  { destruct (waited_trace _ _ (wait_for_capacity_waited _ _ Hw)) as (k & Hk & _).
    by exists k. }
  split; [exists tail1; split; [|done] |].
  { rewrite Hh2. destruct (answered env (calls st1)); simpl; by rewrite <- ?app_assoc. }
  split.
  { rewrite Hh1. destruct (answered env (calls st1)); simpl; by rewrite ?app_nil_r. }
  split; [exists tail2; split; [|done] |].
  { rewrite Ho2. destruct (succeeded env (calls st1)); simpl; by rewrite <- ?app_assoc. }
  rewrite Ho1. destruct (succeeded env (calls st1)); simpl; by rewrite ?app_nil_r.
Qed.

(** The theorem at a first pass whose call times out. *)
Lemma C8_record_follows_answered_call_witness :
  (exists k : nat,
     trace (log CapacityGranted (fresh_session "chat_memory.json" ∅))
     = trace (fresh_session "chat_memory.json" ∅)
       ++ repeat (Slept Polling 1) k ++ [CapacityGranted])
  /\ (exists tail,
        trace (snd (try_except
                      (Httpx.attempt_body
                         (installation true [Failed ReadTimeout; ok_response "ok"]) [])
                      (Httpx.attempt_handlers 0) (fresh_session "chat_memory.json" ∅)))
        = trace (log CapacityGranted (fresh_session "chat_memory.json" ∅))
          ++ Requested []
             :: (if answered (installation true [Failed ReadTimeout; ok_response "ok"])
                     (calls (log CapacityGranted (fresh_session "chat_memory.json" ∅)))
                 then [Recorded (clock (log CapacityGranted
                                          (fresh_session "chat_memory.json" ∅)))]
                 else [])
          ++ tail
        /\ Forall (fun e => is_sleep e = true) tail)
  /\ requests (rate_limiter (snd (try_except
                      (Httpx.attempt_body
                         (installation true [Failed ReadTimeout; ok_response "ok"]) [])
                      (Httpx.attempt_handlers 0) (fresh_session "chat_memory.json" ∅))))
     = requests (rate_limiter (log CapacityGranted (fresh_session "chat_memory.json" ∅)))
       ++ (if answered (installation true [Failed ReadTimeout; ok_response "ok"])
                (calls (log CapacityGranted (fresh_session "chat_memory.json" ∅)))
           then [clock (log CapacityGranted (fresh_session "chat_memory.json" ∅))]
           else [])
  /\ (exists tail,
        trace (snd (try_except
                      (OpenAIClient.attempt_body
                         (installation true [Failed ReadTimeout; ok_response "ok"]) [])
                      (OpenAIClient.attempt_handlers
                         (installation true [Failed ReadTimeout; ok_response "ok"]) 0)
                      (fresh_session "chat_memory.json" ∅)))
        = trace (log CapacityGranted (fresh_session "chat_memory.json" ∅))
          ++ Requested []
             :: (if succeeded (installation true [Failed ReadTimeout; ok_response "ok"])
                     (calls (log CapacityGranted (fresh_session "chat_memory.json" ∅)))
                 then [Recorded (clock (log CapacityGranted
                                          (fresh_session "chat_memory.json" ∅)))]
                 else [])
          ++ tail
        /\ Forall (fun e => is_sleep e = true) tail)
  /\ requests (rate_limiter (snd (try_except
                      (OpenAIClient.attempt_body
                         (installation true [Failed ReadTimeout; ok_response "ok"]) [])
                      (OpenAIClient.attempt_handlers
                         (installation true [Failed ReadTimeout; ok_response "ok"]) 0)
                      (fresh_session "chat_memory.json" ∅))))
     = requests (rate_limiter (log CapacityGranted (fresh_session "chat_memory.json" ∅)))
       ++ (if succeeded (installation true [Failed ReadTimeout; ok_response "ok"])
                (calls (log CapacityGranted (fresh_session "chat_memory.json" ∅)))
           then [clock (log CapacityGranted (fresh_session "chat_memory.json" ∅))]
           else []).
Proof.
  apply (C8_record_follows_answered_call
           (installation true [Failed ReadTimeout; ok_response "ok"]) [] 0
           (fresh_session "chat_memory.json" ∅)
           (log CapacityGranted (fresh_session "chat_memory.json" ∅))).
  reflexivity.
Defined.

(** C8 as stated fails.  Three calls that time out: three physical attempts
    and no record, so the window is empty after them.  One call that
    succeeds: the record is made after the request, where the policy of the
    specification records before it. *)
Lemma C8_counterexample :
  trace (snd (Httpx._make_api_request
                (installation true [Failed ReadTimeout; Failed ReadTimeout;
                                    Failed ReadTimeout]) []
                (fresh_session "chat_memory.json" ∅)))
  = [CapacityGranted; Requested []; Slept Backoff 2;
     CapacityGranted; Requested []; Slept Backoff 4;
     CapacityGranted; Requested []]
  /\ requests (rate_limiter (snd (Httpx._make_api_request
                (installation true [Failed ReadTimeout; Failed ReadTimeout;
                                    Failed ReadTimeout]) []
                (fresh_session "chat_memory.json" ∅))))
     = []
  /\ trace (snd (Httpx._make_api_request
                   (installation true [ok_response "ok"]) []
                   (fresh_session "chat_memory.json" ∅)))
     = [CapacityGranted; Requested []; Recorded 0]
  /\ trace (snd (OpenAIClient._make_api_request
                   (installation true [ok_response "ok"]) []
                   (fresh_session "chat_memory.json" ∅)))
     = [CapacityGranted; Requested []; Recorded 0]
  /\ trace (snd (send_by_spec
                   (installation true [ok_response "ok"]) [] 1 0
                   (fresh_session "chat_memory.json" ∅)))
     = [CapacityGranted; Recorded 0; Requested []].
Proof. repeat split; vm_compute; reflexivity. Qed.

(** ** One exchange *)

(** After the send, [chat] adds nothing to the trace and makes no call. *)
Lemma httpx_chat_trace env fault message st :
  is_blank message = false ->
  trace (snd (Httpx.chat env fault message st))
  = trace (snd (Httpx._make_api_request env (Httpx.build_prompt (memory st) message) st)).
Proof.
  intros Hb. unfold Httpx.chat. rewrite Hb.
  unfold try_except, bind, get, ret, raise, new_message, append_message, modify, on_files.
  destruct (Httpx._make_api_request _ _ st) as [[[a|]|e|] st1]; simpl; try reflexivity.
  destruct (_save_memory _ _ _ _ _) as [[l|e|] fs]; reflexivity.
Qed.

Lemma openai_chat_trace env fault message st :
  is_blank message = false ->
  trace (snd (OpenAIClient.chat env fault message st))
  = trace (snd (OpenAIClient._make_api_request env
                  (OpenAIClient.build_prompt env (memory st) message) st)).
Proof.
  intros Hb. unfold OpenAIClient.chat. rewrite Hb.
  unfold try_except, bind, get, ret, raise, new_message, append_message, modify, on_files.
  destruct (OpenAIClient._make_api_request _ _ st) as [[[a|]|e|] st1]; simpl; try reflexivity.
  destruct (_save_memory _ _ _ _ _) as [[l|e|] fs]; reflexivity.
Qed.

(** The first pass of a send issues a call with the prompt once capacity is
    granted. *)
Lemma httpx_send_requests env prompt st :
  0 < max_requests (rate_limiter st) ->
  exists evs,
    trace (snd (Httpx._make_api_request env prompt st)) = trace st ++ evs
    /\ In (Requested prompt) evs.
Proof.
  intros Hpos.
  destruct (wait_for_capacity_returns st Hpos) as (st1 & Hw & Hwaited).
  unfold Httpx._make_api_request. change (range RETRY_ATTEMPTS) with [0; 1; 2].
  cbn [Httpx.retry_loop]. unfold bind at 1.
  pose proof (httpx_pass_state env prompt 0 _ _ Hw) as Hpass.
  destruct (try_except _ _ st) as [r st2] eqn:Hrun. simpl in Hpass.
  apply at_most_slept_facts in Hpass as (_ & _ & tail & Ht & _).
  destruct (waited_trace _ _ Hwaited) as (k & Hk & _).
  assert (exists evs, trace st2 = trace st ++ evs /\ In (Requested prompt) evs)
    as (evs & Hevs & Hin).
  { destruct (answered env (calls st1)); simpl in Ht; rewrite Ht, Hk;
      eexists; (split; [rewrite <- !app_assoc; reflexivity|]);
      rewrite !in_app_iff; simpl; auto. }
  assert (forall (m : M session (option text)),
             sends prompt 2 m ->
             exists evs', trace (snd (m st2)) = trace st ++ evs'
                          /\ In (Requested prompt) evs') as Hrest.
  { intros m Hm. destruct (m st2) as [r' st3] eqn:Hm2.
    destruct (Hm _ _ _ Hm2) as ([_ _ _ _ _ _ (evs' & He & _)] & _).
    exists (evs ++ evs'). simpl. rewrite He, Hevs, <- app_assoc. split; [done|].
    apply in_app_iff. by left. }
  destruct r as [[v|]|e|].
  - exists evs. by split.
  - apply Hrest. apply (httpx_retry_loop_sends env prompt [1; 2]).
  - exists evs. by split.
  - exists evs. by split.
Qed.

Lemma openai_send_requests env prompt st :
  0 < max_requests (rate_limiter st) ->
  exists evs,
    trace (snd (OpenAIClient._make_api_request env prompt st)) = trace st ++ evs
    /\ In (Requested prompt) evs.
Proof.
  intros Hpos.
  destruct (wait_for_capacity_returns st Hpos) as (st1 & Hw & Hwaited).
  unfold OpenAIClient._make_api_request. change (range RETRY_ATTEMPTS) with [0; 1; 2].
  cbn [OpenAIClient.retry_loop]. unfold bind at 1.
  pose proof (openai_pass_state env prompt 0 _ _ Hw) as Hpass.
  destruct (try_except _ _ st) as [r st2] eqn:Hrun. simpl in Hpass.
  apply at_most_slept_facts in Hpass as (_ & _ & tail & Ht & _).
  destruct (waited_trace _ _ Hwaited) as (k & Hk & _).
  assert (exists evs, trace st2 = trace st ++ evs /\ In (Requested prompt) evs)
    as (evs & Hevs & Hin).
  { destruct (succeeded env (calls st1)); simpl in Ht; rewrite Ht, Hk;
      eexists; (split; [rewrite <- !app_assoc; reflexivity|]);
      rewrite !in_app_iff; simpl; auto. }
  assert (forall (m : M session (option text)),
             sends prompt 2 m ->
             exists evs', trace (snd (m st2)) = trace st ++ evs'
                          /\ In (Requested prompt) evs') as Hrest.
  { intros m Hm. destruct (m st2) as [r' st3] eqn:Hm2.
    destruct (Hm _ _ _ Hm2) as ([_ _ _ _ _ _ (evs' & He & _)] & _).
    exists (evs ++ evs'). simpl. rewrite He, Hevs, <- app_assoc. split; [done|].
    apply in_app_iff. by left. }
  destruct r as [[v|]|e|].
  - exists evs. by split.
  - apply Hrest. apply (openai_retry_loop_sends env prompt [1; 2]).
  - exists evs. by split.
  - exists evs. by split.
Qed.

(** C7, what the code does by design.  For a message that is not blank,
    every physical call of the exchange, and there is at least one, carries
    the same prompt.  In the version with the persona preamble it is the
    preamble as a ["system"] entry, then the stored messages whose role is
    not ["system"], in their stored order, then the new user message; stored
    ["system"] messages are skipped.  In the httpx version it is the stored
    messages, all of them, then the new user message, with no preamble. *)
Theorem C7_prompt_sent env fault message st :
  is_blank message = false ->
  0 < max_requests (rate_limiter st) ->
  (exists evs,
     trace (snd (OpenAIClient.chat env fault message st)) = trace st ++ evs
     /\ In (Requested
              ((txt "system", SYSTEM_MESSAGE env)
               :: map (fun m => (role m, content m))
                    (filter (fun m => role m <> txt "system") (messages (memory st)))
               ++ [(txt "user", message)])) evs
     /\ Forall (fun e => forall q, e = Requested q ->
                  q = (txt "system", SYSTEM_MESSAGE env)
                      :: map (fun m => (role m, content m))
                           (filter (fun m => role m <> txt "system")
                                   (messages (memory st)))
                      ++ [(txt "user", message)]) evs)
  /\ (exists evs,
        trace (snd (Httpx.chat env fault message st)) = trace st ++ evs
        /\ In (Requested
                 (map (fun m => (role m, content m)) (messages (memory st))
                  ++ [(txt "user", message)])) evs
        /\ Forall (fun e => forall q, e = Requested q ->
                     q = map (fun m => (role m, content m)) (messages (memory st))
                         ++ [(txt "user", message)]) evs).
Proof.
  intros Hb Hpos. split.
  - rewrite (openai_chat_trace _ _ _ _ Hb).
    destruct (openai_send_requests env
                (OpenAIClient.build_prompt env (memory st) message) st Hpos)
      as (evs & Hevs & Hin).
    exists evs. split; [done|]. split; [exact Hin|].
    destruct (OpenAIClient._make_api_request env _ st) as [r st'] eqn:Hrun.
    destruct (openai_make_api_request_sends _ _ _ _ _ Hrun)
      as ([_ _ _ _ _ _ (evs' & He & Hall)] & _).
    simpl in Hevs. rewrite Hevs in He. apply app_inv_head in He as <-. exact Hall.
  - rewrite (httpx_chat_trace _ _ _ _ Hb).
    destruct (httpx_send_requests env (Httpx.build_prompt (memory st) message) st Hpos)
      as (evs & Hevs & Hin).
    exists evs. split; [done|]. split; [exact Hin|].
    destruct (Httpx._make_api_request env _ st) as [r st'] eqn:Hrun.
    destruct (httpx_make_api_request_sends _ _ _ _ _ Hrun)
      as ([_ _ _ _ _ _ (evs' & He & Hall)] & _).
    simpl in Hevs. rewrite Hevs in He. apply app_inv_head in He as <-. exact Hall.
Qed.

(** The theorem at a first message on an empty memory. *)
Lemma C7_prompt_sent_witness :
  (exists evs,
     trace (snd (OpenAIClient.chat (installation true [ok_response "ok"]) NoFault
                   (txt "Hello") (fresh_session "chat_memory.json" ∅)))
     = trace (fresh_session "chat_memory.json" ∅) ++ evs
     /\ In (Requested
              ((txt "system", SYSTEM_MESSAGE (installation true [ok_response "ok"]))
               :: map (fun m => (role m, content m))
                    (filter (fun m => role m <> txt "system")
                            (messages (memory (fresh_session "chat_memory.json" ∅))))
               ++ [(txt "user", txt "Hello")])) evs
     /\ Forall (fun e => forall q, e = Requested q ->
                  q = (txt "system", SYSTEM_MESSAGE (installation true [ok_response "ok"]))
                      :: map (fun m => (role m, content m))
                           (filter (fun m => role m <> txt "system")
                                   (messages (memory (fresh_session "chat_memory.json" ∅))))
                      ++ [(txt "user", txt "Hello")]) evs)
  /\ (exists evs,
        trace (snd (Httpx.chat (installation true [ok_response "ok"]) NoFault
                      (txt "Hello") (fresh_session "chat_memory.json" ∅)))
        = trace (fresh_session "chat_memory.json" ∅) ++ evs
        /\ In (Requested
                 (map (fun m => (role m, content m))
                      (messages (memory (fresh_session "chat_memory.json" ∅)))
                  ++ [(txt "user", txt "Hello")])) evs
        /\ Forall (fun e => forall q, e = Requested q ->
                     q = map (fun m => (role m, content m))
                             (messages (memory (fresh_session "chat_memory.json" ∅)))
                         ++ [(txt "user", txt "Hello")]) evs).
Proof.
  apply (C7_prompt_sent (installation true [ok_response "ok"]) NoFault (txt "Hello")
           (fresh_session "chat_memory.json" ∅)); [reflexivity | reflexivity].
Defined.

(** C7 as stated fails.  With a ["system"] message and a user message in
    the memory, the version with the preamble sends the preamble, the user
    message and the new message: the stored ["system"] message is not sent.
    The httpx version sends the stored messages and the new one, and no
    preamble. *)
Lemma C7_counterexample :
  trace (snd (OpenAIClient.chat (installation true [ok_response "ok"]) NoFault
                (txt "Hello") (session_with [system_note; earlier_question])))
  = [CapacityGranted;
     Requested [(txt "system", txt "You are Grok.");
                (txt "user", txt "Hi");
                (txt "user", txt "Hello")];
     Recorded 0]
  /\ OpenAIClient.build_prompt (installation true [ok_response "ok"])
       (memory (session_with [system_note; earlier_question])) (txt "Hello")
     <> (txt "system", SYSTEM_MESSAGE (installation true [ok_response "ok"]))
        :: map (fun m => (role m, content m))
             (messages (memory (session_with [system_note; earlier_question])))
        ++ [(txt "user", txt "Hello")]
  /\ trace (snd (Httpx.chat (installation true [ok_response "ok"]) NoFault
                   (txt "Hello") (session_with [system_note; earlier_question])))
     = [CapacityGranted;
        Requested [(txt "system", txt "Be brief.");
                   (txt "user", txt "Hi");
                   (txt "user", txt "Hello")];
        Recorded 0].
Proof.
  repeat split; try (vm_compute; reflexivity).
  intros H. vm_compute in H. discriminate.
Qed.

(** [chat] gives text back: nothing is raised past it, and with a positive
    limit it does not hang. *)
Lemma httpx_chat_returns_text env fault message st :
  0 < max_requests (rate_limiter st) ->
  exists answer, fst (Httpx.chat env fault message st) = Ok answer.
Proof.
  intros Hpos. unfold Httpx.chat. destruct (is_blank message); [by eexists|].
  unfold try_except, bind, get, ret, raise, new_message, append_message, modify, on_files.
  destruct (Httpx._make_api_request _ _ st) as [r st1] eqn:Hrun.
  destruct (httpx_make_api_request_sends _ _ _ _ _ Hrun) as (_ & _ & Hhang).
  destruct r as [[a|]|e|]; simpl; try by eexists.
  - destruct (_save_memory _ _ _ _ _) as [[l|e|] fs] eqn:Hsave; try by eexists.
    exfalso. revert Hsave.
    unfold _save_memory, try_except, bind, get, ret, raise, of_option, rename,
      write_text, unlink.
    repeat (case_match; simplify_eq; try done).
  - by destruct (Hhang Hpos).
Qed.

(** When the send raises, [chat] turns the exception into text and the
    memory and the files are as they were. *)
Lemma httpx_chat_send_raises env fault message st e st1 :
  is_blank message = false ->
  Httpx._make_api_request env (Httpx.build_prompt (memory st) message) st = (Raise e, st1) ->
  Httpx.chat env fault message st = (Ok (txt "Error: " ++ py_str env e), st1)
  /\ memory st1 = memory st /\ files st1 = files st.
Proof.
  intros Hb Hrun. split.
  - unfold Httpx.chat. rewrite Hb. unfold try_except, bind, get. by rewrite Hrun.
  - destruct (httpx_make_api_request_sends _ _ _ _ _ Hrun) as ([_ Hm Hf _ _ _ _] & _). done.
Qed.

Lemma openai_chat_send_raises env fault message st e st1 :
  is_blank message = false ->
  OpenAIClient._make_api_request env (OpenAIClient.build_prompt env (memory st) message) st
  = (Raise e, st1) ->
  OpenAIClient.chat env fault message st = (Ok (txt "Error: " ++ py_str env e), st1)
  /\ memory st1 = memory st /\ files st1 = files st.
Proof.
  intros Hb Hrun. split.
  - unfold OpenAIClient.chat. rewrite Hb. unfold try_except, bind, get. by rewrite Hrun.
  - destruct (openai_make_api_request_sends _ _ _ _ _ Hrun) as ([_ Hm Hf _ _ _ _] & _). done.
Qed.

(** C6 fails on the httpx version.  Three answers 429 use the three
    iterations of the retry loop; [_make_api_request] falls out of the loop
    and returns [None]; [chat] appends the user message to the memory and
    only then fails to build the assistant message, so it returns an error
    text over a memory that has changed.  Nothing is saved. *)
Theorem C6_exhausted_by_429_mutates_memory :
  fst (Httpx._make_api_request
         (installation true [status_response 429; status_response 429; status_response 429])
         (Httpx.build_prompt empty_memory (txt "Hello"))
         (fresh_session "chat_memory.json" ∅))
  = Ok None
  /\ fst (Httpx.chat
            (installation true [status_response 429; status_response 429;
                                status_response 429])
            NoFault (txt "Hello") (fresh_session "chat_memory.json" ∅))
     = Ok (txt "Error: failure")
  /\ messages (memory (fresh_session "chat_memory.json" ∅)) = []
  /\ messages (memory (snd (Httpx.chat
            (installation true [status_response 429; status_response 429;
                                status_response 429])
            NoFault (txt "Hello") (fresh_session "chat_memory.json" ∅))))
     = [{| role := txt "user"; content := txt "Hello"; timestamp := midnight |}]
  /\ files (snd (Httpx.chat
            (installation true [status_response 429; status_response 429;
                                status_response 429])
            NoFault (txt "Hello") (fresh_session "chat_memory.json" ∅)))
     = ∅.
Proof. repeat split; vm_compute; reflexivity. Qed.

(** ** Paths *)


Lemma list_ascii_of_string_app a b :
  list_ascii_of_string (a +:+ b) = list_ascii_of_string a ++ list_ascii_of_string b.
Proof. induction a as [|c a IH]; simpl; [done|]. by rewrite IH. Qed.

Lemma string_app_ne p s : s <> EmptyString -> p +:+ s <> p.
Proof.
  intros Hs H. apply (f_equal list_ascii_of_string) in H.
  rewrite list_ascii_of_string_app in H.
  rewrite <- (app_nil_r (list_ascii_of_string p)) in H at 2.
  apply app_inv_head in H. destruct s; [done|discriminate].
Qed.


(** ** Loading *)

Lemma file_exists_true p (fs : filesystem) data :
  fs !! p = Some data -> file_exists p fs = true.
Proof. unfold file_exists. by intros ->. Qed.

(** The reconstruction raises [KeyError], [TypeError], [ValueError] or
    [ValidationError], never [JSONDecodeError], and it ends. *)
Lemma not_a_json_error_ret {S A} (a : A) : not_a_json_error (@ret S A a).
Proof. by intros s. Qed.

Lemma not_a_json_error_of_option {S A} e (o : option A) :
  e <> JSONDecodeError -> not_a_json_error (@of_option S A e o).
Proof. intros He s. destruct o; simpl; split; congruence. Qed.

Lemma not_a_json_error_bind {S A B} (m : M S A) (f : A -> M S B) :
  not_a_json_error m -> (forall a, not_a_json_error (f a)) ->
  not_a_json_error (bind m f).
Proof.
  intros Hm Hf s. unfold bind. destruct (Hm s) as [Hm1 Hm2].
  destruct (m s) as [[a|e|] s']; simpl in *; [apply Hf|split; congruence|done].
Qed.

Lemma subscript_not_a_json_error {S} v k : not_a_json_error (@subscript S v k).
Proof.
  destruct v; try (intros ?; simpl; split; congruence).
  by apply not_a_json_error_of_option.
Qed.

Lemma validate_str_not_a_json_error {S} env v : not_a_json_error (@validate_str S env v).
Proof.
  destruct v; try by apply not_a_json_error_of_option.
  intros ?; simpl; split; congruence.
Qed.

Lemma load_message_not_a_json_error {S} env v : not_a_json_error (@load_message S env v).
Proof.
  unfold load_message.
  repeat (apply not_a_json_error_bind;
          [first [apply subscript_not_a_json_error|apply validate_str_not_a_json_error|idtac]
          |intros ?]).
  - unfold parse_timestamp. destruct a1; try (intros ?; simpl; split; congruence).
    by apply not_a_json_error_of_option.
  - apply not_a_json_error_ret.
Qed.

Lemma mapM_not_a_json_error {S A B} (f : A -> M S B) l :
  (forall a, not_a_json_error (f a)) -> not_a_json_error (mapM f l).
Proof.
  intros Hf. induction l as [|a l IH]; [apply not_a_json_error_ret|].
  simpl. apply not_a_json_error_bind; [apply Hf|]. intros b.
  apply not_a_json_error_bind; [apply IH|]. intros bs. apply not_a_json_error_ret.
Qed.

Lemma reconstruct_not_a_json_error {S} env v : not_a_json_error (@reconstruct S env v).
Proof.
  unfold reconstruct.
  apply not_a_json_error_bind; [apply subscript_not_a_json_error|]. intros ms.
  apply not_a_json_error_bind.
  { unfold py_iter. destruct ms; intros ?; simpl; split; congruence. }
  intros items.
  apply not_a_json_error_bind.
  { apply mapM_not_a_json_error. intros a. apply load_message_not_a_json_error. }
  intros msgs.
  apply not_a_json_error_bind; [|intros md; apply not_a_json_error_ret].
  unfold validate_dict.
  destruct (match v with JDict d => _ | _ => _ end);
    try by apply not_a_json_error_of_option.
  intros ?; simpl; split; congruence.
Qed.

(** What [_load_memory] does once the file is read and decoded, by what
    [json.loads] and the reconstruction give. *)
Lemma load_memory_decoded env path (fs : filesystem) data t :
  fs !! path = Some data ->
  utf8_decode data = Some t ->
  _load_memory env path fs
  = match json_loads (universal_newlines t) with
    | Some v =>
        (Ok (match fst (reconstruct env v tt) with
             | Ok m => m
             | _ => empty_memory
             end), fs)
    | None =>
        match with_suffix (posix env) path ".json.backup" with
        | Some backup_path =>
            match rename env path backup_path fs with
            | (Ok _, fs') => (Ok empty_memory, fs')
            | (Raise e, fs') => (Raise e, fs')
            | (Hang, fs') => (Hang, fs')
            end
        | None => (Raise ValueError, fs)
        end
    end.
Proof.
  intros Hfile Hdec.
  unfold _load_memory, bind, try_except, get, ret, raise, read_text, json_load,
    of_option, stateless.
  rewrite (file_exists_true _ _ _ Hfile), Hfile, Hdec.
  destruct (json_loads (universal_newlines t)) as [v|].
  - destruct (reconstruct_not_a_json_error env v tt) as [Hne Hnh].
    cbv beta iota zeta delta [of_option ret].
    destruct (reconstruct env v ()) as [[m|e|] u]; simpl in *; try done.
    by destruct e.
  - cbv beta iota zeta delta [of_option ret raise].
    rewrite (file_exists_true _ _ _ Hfile).
    destruct (with_suffix (posix env) path ".json.backup") as [bp|]; [|done].
    by destruct (rename env path bp fs) as [[[]|e|] fs'].
Qed.

(** C10, what the code does by design.  A memory file that is valid JSON
    and on which the reconstruction raises, that is when subscripting,
    iterating, [fromisoformat] or the validation of pydantic raises, makes
    [load] return the empty [ChatMemory] without raising; no [.backup] file
    is made and the file stays where it is, so that a session starts on
    the empty memory. *)
Theorem C10_valid_json_of_wrong_shape env path (fs : filesystem) data t v e :
  fs !! path = Some data ->
  utf8_decode data = Some t ->
  json_loads (universal_newlines t) = Some v ->
  fst (reconstruct env v tt) = Raise e ->
  _load_memory env path fs = (Ok empty_memory, fs)
  /\ fs !! path = Some data
  /\ forall now, exists st,
       PersistentChat_init env path now fs = Ok st
       /\ memory st = empty_memory /\ files st = fs.
Proof.
  intros Hfile Hdec Hjson Hshape.
  assert (_load_memory env path fs = (Ok empty_memory, fs)) as Hload.
  { rewrite (load_memory_decoded _ _ _ _ _ Hfile Hdec), Hjson, Hshape. done. }
  split; [done|]. split; [done|].
  intros now. unfold PersistentChat_init. rewrite Hload. eexists. by split.
Qed.

(** The three shapes the claim names. *)
Example missing_messages_key env :
  fst (reconstruct env (JDict [(txt "metadata", JDict [])]) tt)
  = Raise (KeyError (txt "messages")).
Proof. reflexivity. Qed.

Example message_without_role env :
  fst (reconstruct env
         (JDict [(txt "messages",
                  JList [JDict [(txt "content", JStr (txt "Hi"));
                                (txt "timestamp", JStr (txt "2024-01-01T00:00:00"))]])])
         tt)
  = Raise (KeyError (txt "role")).
Proof. reflexivity. Qed.

Example timestamp_not_iso env :
  fromisoformat_ext env (txt "yesterday") = None ->
  fst (reconstruct env
         (JDict [(txt "messages",
                  JList [JDict [(txt "role", JStr (txt "user"));
                                (txt "content", JStr (txt "Hi"));
                                (txt "timestamp", JStr (txt "yesterday"))]])])
         tt)
  = Raise ValueError.
Proof.
  intros Hext. unfold reconstruct, bind, load_message. simpl.
  unfold bind, parse_timestamp, fromisoformat, of_option. simpl. by rewrite Hext.
Qed.

(** The theorem at a file that holds [{'metadata': {}}], apostrophes standing for double
    quotes. *)
Lemma C10_valid_json_of_wrong_shape_witness :
  _load_memory (installation true []) "chat_memory.json"
    {[ "chat_memory.json" := raw_quoted "{'metadata': {}}" ]}
  = (Ok empty_memory, {[ "chat_memory.json" := raw_quoted "{'metadata': {}}" ]})
  /\ ({[ "chat_memory.json" := raw_quoted "{'metadata': {}}" ]} : filesystem)
       !! "chat_memory.json"
     = Some (raw_quoted "{'metadata': {}}")
  /\ forall now, exists st,
       PersistentChat_init (installation true []) "chat_memory.json" now
         {[ "chat_memory.json" := raw_quoted "{'metadata': {}}" ]}
       = Ok st
       /\ memory st = empty_memory
       /\ files st = {[ "chat_memory.json" := raw_quoted "{'metadata': {}}" ]}.
Proof.
  apply (C10_valid_json_of_wrong_shape (installation true []) "chat_memory.json"
           {[ "chat_memory.json" := raw_quoted "{'metadata': {}}" ]}
           (raw_quoted "{'metadata': {}}")
           (quoted "{'metadata': {}}")
           (JDict [(txt "metadata", JDict [])])
           (KeyError (txt "messages")));
    reflexivity.
Defined.

(** C10 as stated fails.  A file can be valid JSON of another shape than
    the expected one without the reconstruction raising: in
    [{'messages': '', 'metadata': {'k': 'v'}}] (apostrophes standing for
    double quotes) the value of [messages] is a string and not a list, the
    comprehension iterates over its characters, of which there are none,
    and [load] returns a memory that is not the empty one, since it holds
    the metadata of the file. *)
Lemma C10_counterexample :
  utf8_decode (raw_quoted "{'messages': '', 'metadata': {'k': 'v'}}")
  = Some (quoted "{'messages': '', 'metadata': {'k': 'v'}}")
  /\ json_loads (universal_newlines (quoted "{'messages': '', 'metadata': {'k': 'v'}}"))
     = Some (JDict [(txt "messages", JStr []);
                    (txt "metadata", JDict [(txt "k", JStr (txt "v"))])])
  /\ _load_memory (installation true []) "chat_memory.json"
       {[ "chat_memory.json" := raw_quoted "{'messages': '', 'metadata': {'k': 'v'}}" ]}
     = (Ok {| messages := []; metadata := [(txt "k", JStr (txt "v"))] |},
        {[ "chat_memory.json" := raw_quoted "{'messages': '', 'metadata': {'k': 'v'}}" ]})
  /\ {| messages := []; metadata := [(txt "k", JStr (txt "v"))] |} <> empty_memory.
Proof. repeat split; try (vm_compute; reflexivity). discriminate. Qed.

(** A file that is not UTF-8 is not a [JSONDecodeError]: [load] gives the
    empty memory and leaves the file where it is, with no [.backup]. *)
Lemma load_memory_undecodable env path (fs : filesystem) data :
  fs !! path = Some data ->
  utf8_decode data = None ->
  _load_memory env path fs = (Ok empty_memory, fs).
Proof.
  intros Hfile Hdec.
  unfold _load_memory, bind, try_except, get, ret, raise, read_text.
  by rewrite (file_exists_true _ _ _ Hfile), Hfile, Hdec.
Qed.

(** No file, empty memory. *)
Lemma load_memory_absent env path (fs : filesystem) :
  fs !! path = None -> _load_memory env path fs = (Ok empty_memory, fs).
Proof.
  intros Hfile. unfold _load_memory, bind, try_except, get, ret, file_exists.
  by rewrite Hfile.
Qed.




(** ** Saving *)

(** Writing either succeeds, with the whole encoding in the file, or raises;
    it touches no other path. *)
Lemma write_text_cases env fault path t (fs : filesystem) :
  (exists data,
     write_text env fault path t fs = (Ok tt, <[path := data]> fs)
     /\ fault = NoFault
     /\ encode_prefix (newlines_out (posix env) t) = (data, true))
  \/ (exists e fs',
        write_text env fault path t fs = (Raise e, fs')
        /\ (fs' = fs \/ exists partial, fs' = <[path := partial]> fs)).
Proof.
  unfold write_text.
  destruct (encode_prefix (newlines_out (posix env) t)) as [data whole] eqn:Henc.
  destruct fault as [| |n].
  - destruct whole.
    + left. by exists data.
    + right. exists UnicodeEncodeError, (<[path := data]> fs). split; [done|]. right. eauto.
  - right. exists OSError, fs. split; [done|]. by left.
  - right. exists OSError, (<[path := take n data]> fs). split; [done|]. right. eauto.
Qed.

(** Where the two ways of writing the snapshot path agree, as they do for
    [chat_memory.json], and [os.rename] replaces its target (POSIX): a save
    whose write fails puts the old bytes back and leaves no snapshot, and a
    save that succeeds leaves no snapshot either. *)
Lemma save_memory_json_suffix_posix env fault path memory (fs : filesystem) old :
  posix env = true ->
  with_suffix true path ".json.bak" = Some (path +:+ ".bak") ->
  fs !! path = Some old ->
  exists log fs',
    _save_memory env fault path memory fs = (Ok log, fs')
    /\ fs' !! (path +:+ ".bak") = None
    /\ (forall e, log = ErrorSaving e -> fs' !! path = Some old)
    /\ (log = SavedSuccessfully ->
        exists data,
          fs' !! path = Some data
          /\ encode_prefix (newlines_out true (json_dumps (memory_to_json memory)))
             = (data, true)).
Proof.
  intros Hposix Hbak Hfile.
  assert (path +:+ ".bak" <> path) as Hne by (by apply string_app_ne).
  unfold _save_memory.
  set (fs1 := <[path +:+ ".bak" := old]> (delete path fs)).
  assert (forall (k : M filesystem save_log),
            bind get (fun fs0 =>
              bind (if file_exists path fs0
                    then bind (of_option ValueError
                                 (with_suffix (posix env) path ".json.bak"))
                              (fun backup_path => rename env path backup_path)
                    else ret tt) (fun _ => k)) fs
            = k fs1) as Hstep1.
  { intros k. unfold bind, get, of_option, ret, rename.
    rewrite (file_exists_true _ _ _ Hfile), Hposix, Hbak, Hfile. simpl.
    by rewrite ?Hposix. }
  unfold try_except. rewrite Hstep1.
  assert (fs1 !! (path +:+ ".bak") = Some old) as Hbak1
      by (unfold fs1; by rewrite lookup_insert_eq).
  destruct (write_text_cases env fault path (json_dumps (memory_to_json memory)) fs1)
    as [(data & Hw & Hfault & Henc)|(e & fs2 & Hw & Hfs2)].
  - rewrite (bind_ok _ _ _ _ _ Hw).
    unfold bind, get, unlink, ret.
    assert ((<[path := data]> fs1 : filesystem) !! (path +:+ ".bak") = Some old) as Hb2.
    { rewrite lookup_insert_ne by done. exact Hbak1. }
    rewrite (file_exists_true _ _ _ Hb2), Hb2.
    exists SavedSuccessfully, (delete (path +:+ ".bak") (<[path := data]> fs1)).
    split; [done|]. split; [by rewrite lookup_delete_eq|].
    split; [done|]. intros _. exists data. split.
    + rewrite lookup_delete_ne by done. by rewrite lookup_insert_eq.
    + by rewrite Hposix in Henc.
  - rewrite (bind_raise _ _ _ _ _ Hw).
    assert (fs2 !! (path +:+ ".bak") = Some old) as Hb2.
    { destruct Hfs2 as [->|(partial & ->)]; [done|].
      rewrite lookup_insert_ne by done. exact Hbak1. }
    unfold bind, get, rename, ret.
    rewrite (file_exists_true _ _ _ Hb2), Hb2, Hposix. simpl.
    exists (ErrorSaving e), (<[path := old]> (delete (path +:+ ".bak") fs2)).
    split; [done|].
    split; [rewrite lookup_insert_ne by done; by rewrite lookup_delete_eq|].
    split; [|done]. intros _ _. by rewrite lookup_insert_eq.
Qed.

(** C1 fails for a memory file that is not named [*.json].  With
    [memory.txt] the snapshot is made at [memory.json.bak], since
    [with_suffix] replaces [.txt], and looked for at [memory.txt.bak].  When
    opening the file for writing fails, the old bytes are not put back:
    [memory.txt] is gone and the snapshot stays.  When the save succeeds,
    the snapshot stays too. *)
Theorem C1_snapshot_lost_for_other_suffix :
  with_suffix true "memory.txt" ".json.bak" = Some "memory.json.bak"
  /\ fst (_save_memory (installation true []) OpenFails "memory.txt" empty_memory
            {[ "memory.txt" := raw "old" ]})
     = Ok (ErrorSaving OSError)
  /\ (snd (_save_memory (installation true []) OpenFails "memory.txt" empty_memory
             {[ "memory.txt" := raw "old" ]})) !! "memory.txt"
     = None
  /\ (snd (_save_memory (installation true []) OpenFails "memory.txt" empty_memory
             {[ "memory.txt" := raw "old" ]})) !! "memory.json.bak"
     = Some (raw "old")
  /\ fst (_save_memory (installation true []) NoFault "memory.txt" empty_memory
            {[ "memory.txt" := raw "old" ]})
     = Ok SavedSuccessfully
  /\ (snd (_save_memory (installation true []) NoFault "memory.txt" empty_memory
             {[ "memory.txt" := raw "old" ]})) !! "memory.json.bak"
     = Some (raw "old").
Proof. repeat split; vm_compute; reflexivity. Qed.

(** On Windows the same happens, and more: when the write fails after the
    file was opened, the restoring rename finds the half-written target and
    raises, so [_save_memory] raises with the half-written file in place. *)
Example save_memory_windows_partial_write :
  fst (_save_memory (installation false []) (WriteFails 3) "chat_memory.json" empty_memory
         {[ "chat_memory.json" := raw "old" ]})
  = Raise FileExistsError
  /\ (snd (_save_memory (installation false []) (WriteFails 3) "chat_memory.json"
             empty_memory {[ "chat_memory.json" := raw "old" ]})) !! "chat_memory.json"
     = Some [Byte.x7b; Byte.x0d; Byte.x0a]
  /\ (snd (_save_memory (installation false []) (WriteFails 3) "chat_memory.json"
             empty_memory {[ "chat_memory.json" := raw "old" ]})) !! "chat_memory.json.bak"
     = Some (raw "old").
Proof. repeat split; vm_compute; reflexivity. Qed.

(** ** UTF-8 *)

Lemma Z_of_byte_of_Z z : 0 <= z < 256 -> Z_of_byte (byte_of_Z z) = z.
Proof.
  intros Hz. unfold Z_of_byte, byte_of_Z.
  destruct (Byte.of_N (Z.to_N z)) as [b|] eqn:Hb.
  - apply Byte.to_of_N in Hb. rewrite Hb. lia.
  - apply Byte.of_N_None_iff in Hb. lia.
Qed.

Ltac decide_comparisons :=
  repeat match goal with
         | |- context [?a <? ?b] => destruct (Z.ltb_spec a b); try lia
         | |- context [?a <=? ?b] => destruct (Z.leb_spec a b); try lia
         end.

(** Decoding reads back the code point that was encoded. *)
Lemma utf8_decode_encode_cp c bs rest :
  utf8_encode_cp c = Some bs ->
  utf8_decode (map byte_of_Z bs ++ rest) = option_map (cons c) (utf8_decode rest).
Proof.
  unfold utf8_encode_cp.
  destruct (Z.ltb_spec c 0); [done|].
  destruct (Z.ltb_spec c 128).
  { intros [= <-]. cbn [map app utf8_decode].
    rewrite Z_of_byte_of_Z by lia. by destruct (Z.ltb_spec c 128); [|lia]. }
  destruct (Z.ltb_spec c 2048).
  { intros [= <-]. cbn [map app utf8_decode].
    pose proof (Z.div_mod c 64 ltac:(lia)) as Hdm.
    pose proof (Z.mod_pos_bound c 64 ltac:(lia)) as Hmb.
    assert (2 <= c / 64 < 32) as Hq by (split; [apply Z.div_le_lower_bound|apply Z.div_lt_upper_bound]; lia).
    rewrite !Z_of_byte_of_Z by lia. cbv zeta. unfold is_cont.
    replace ((192 + c / 64 - 192) * 64 + (128 + c mod 64 - 128)) with c by lia.
    decide_comparisons. reflexivity. }
  destruct (Z.ltb_spec c 65536).
  { destruct ((55296 <=? c) && (c <=? 57343)) eqn:Hsur; [done|].
    intros [= <-]. cbn [map app utf8_decode].
    pose proof (Z.div_mod c 64 ltac:(lia)) as Hdm.
    pose proof (Z.mod_pos_bound c 64 ltac:(lia)) as Hmb.
    pose proof (Z.div_mod (c / 64) 64 ltac:(lia)) as Hdm2.
    pose proof (Z.mod_pos_bound (c / 64) 64 ltac:(lia)) as Hmb2.
    assert (c / 4096 = c / 64 / 64) as Hqq by (rewrite Z.div_div by lia; reflexivity).
    assert (0 <= c / 4096 < 16) as Hq
        by (split; [apply Z.div_le_lower_bound|apply Z.div_lt_upper_bound]; lia).
    rewrite !Z_of_byte_of_Z by lia. cbv zeta. unfold is_cont.
    replace ((224 + c / 4096 - 224) * 4096 + (128 + (c / 64) mod 64 - 128) * 64
             + (128 + c mod 64 - 128)) with c by lia.
    rewrite Hsur.
    decide_comparisons. reflexivity. }
  destruct (Z.ltb_spec c 1114112); [|done].
  intros [= <-]. cbn [map app utf8_decode].
  pose proof (Z.div_mod c 64 ltac:(lia)) as Hdm.
  pose proof (Z.mod_pos_bound c 64 ltac:(lia)) as Hmb.
  pose proof (Z.div_mod (c / 64) 64 ltac:(lia)) as Hdm2.
  pose proof (Z.mod_pos_bound (c / 64) 64 ltac:(lia)) as Hmb2.
  pose proof (Z.div_mod (c / 4096) 64 ltac:(lia)) as Hdm3.
  pose proof (Z.mod_pos_bound (c / 4096) 64 ltac:(lia)) as Hmb3.
  assert (c / 4096 = c / 64 / 64) as Hqq by (rewrite Z.div_div by lia; reflexivity).
  assert (c / 262144 = c / 4096 / 64) as Hqqq by (rewrite Z.div_div by lia; reflexivity).
  assert (0 <= c / 262144 < 8) as Hq
      by (split; [apply Z.div_le_lower_bound|apply Z.div_lt_upper_bound]; lia).
  rewrite !Z_of_byte_of_Z by lia. cbv zeta. unfold is_cont.
  replace ((240 + c / 262144 - 240) * 262144 + (128 + (c / 4096) mod 64 - 128) * 4096
           + (128 + (c / 64) mod 64 - 128) * 64 + (128 + c mod 64 - 128)) with c by lia.
  decide_comparisons. reflexivity.
Qed.

(** What was written whole reads back as the text. *)
Lemma utf8_decode_encode_prefix t data :
  encode_prefix t = (data, true) -> utf8_decode data = Some t.
Proof.
  revert data. induction t as [|c t IH]; intros data H; simpl in H.
  - by injection H as <-.
  - destruct (utf8_encode_cp c) as [bs|] eqn:Hc; [|done].
    destruct (encode_prefix t) as [out whole]. injection H as <- ->.
    rewrite (utf8_decode_encode_cp _ _ _ Hc). by rewrite (IH _ eq_refl).
Qed.

(** ** Newlines *)

(** A text without carriage returns comes back from the file as it was
    written, whatever the platform did to its line ends. *)
Lemma universal_newlines_out posix t :
  Forall (fun c => c <> 13) t ->
  universal_newlines (newlines_out posix t) = t.
Proof.
  induction 1 as [|c t Hc Ht IH]; [done|].
  cbn [newlines_out].
  destruct ((c =? 10) && negb posix) eqn:Hnl.
  - apply andb_true_iff in Hnl as [Hc10 _]. apply Z.eqb_eq in Hc10 as ->.
    cbn [universal_newlines]. change (13 =? 13) with true. change (10 =? 10) with true.
    cbv iota. by rewrite IH.
  - cbn [universal_newlines]. destruct (Z.eqb_spec c 13); [done|]. by rewrite IH.
Qed.

(** ** Timestamps *)

Lemma number_of_digits_digit acc n r :
  number_of_digits acc (digit n :: r) = number_of_digits (acc * 10 + n mod 10) r.
Proof.
  cbn [number_of_digits]. unfold is_digit, digit.
  pose proof (Z.mod_pos_bound n 10 ltac:(lia)).
  destruct (Z.leb_spec 48 (48 + n mod 10)); [|lia].
  destruct (Z.leb_spec (48 + n mod 10) 57); [|lia].
  cbn [andb]. f_equal. lia.
Qed.

Lemma number_of_digits_pad2 n : 0 <= n < 100 -> number_of_digits 0 (pad2 n) = Some n.
Proof.
  intros Hn. unfold pad2. rewrite !number_of_digits_digit. cbn [number_of_digits].
  f_equal. Z.to_euclidean_division_equations. lia.
Qed.

Lemma number_of_digits_pad4 n : 0 <= n < 10000 -> number_of_digits 0 (pad4 n) = Some n.
Proof.
  intros Hn. unfold pad4. rewrite !number_of_digits_digit. cbn [number_of_digits].
  f_equal. Z.to_euclidean_division_equations. lia.
Qed.

Lemma number_of_digits_pad6 n : 0 <= n < 1000000 -> number_of_digits 0 (pad6 n) = Some n.
Proof.
  intros Hn. unfold pad6. rewrite !number_of_digits_digit. cbn [number_of_digits].
  f_equal. Z.to_euclidean_division_equations. lia.
Qed.

Lemma days_in_month_le y m : days_in_month y m <= 31.
Proof.
  unfold days_in_month.
  destruct (m =? 2); [destruct (is_leap y); lia|].
  destruct (_ || _); lia.
Qed.

Lemma valid_datetime_bounds d :
  valid_datetime d = true ->
  1 <= year d <= 9999 /\ 1 <= month d <= 12 /\ 1 <= day d <= 31
  /\ 0 <= hour d < 24 /\ 0 <= minute d < 60 /\ 0 <= second d < 60
  /\ 0 <= microsecond d < 1000000.
Proof.
  unfold valid_datetime. rewrite !andb_true_iff, !Z.leb_le, !Z.ltb_lt.
  pose proof (days_in_month_le (year d) (month d)). lia.
Qed.

Lemma make_datetime_pads d :
  valid_datetime d = true ->
  make_datetime (pad4 (year d)) (pad2 (month d)) (pad2 (day d))
    (pad2 (hour d)) (pad2 (minute d)) (pad2 (second d))
    (if microsecond d =? 0 then [] else pad6 (microsecond d))
  = Some d.
Proof.
  intros Hv. pose proof (valid_datetime_bounds d Hv) as Hb.
  unfold make_datetime.
  rewrite number_of_digits_pad4 by lia. rewrite !number_of_digits_pad2 by lia.
  assert (number_of_digits 0 (if microsecond d =? 0 then [] else pad6 (microsecond d))
          = Some (microsecond d)) as ->.
  { destruct (Z.eqb_spec (microsecond d) 0) as [->|]; [done|].
    apply number_of_digits_pad6. lia. }
  destruct d. simpl in *. by rewrite Hv.
Qed.

(** [fromisoformat] reads back what [isoformat] wrote. *)
Lemma fromisoformat_isoformat env d :
  valid_datetime d = true -> fromisoformat env (isoformat d) = Some d.
Proof.
  intros Hv. unfold fromisoformat.
  assert (fromisoformat_canonical (isoformat d) = Some d) as ->; [|done].
  rewrite <- (make_datetime_pads d Hv).
  unfold isoformat. destruct (microsecond d =? 0); reflexivity.
Qed.

(** ** JSON: strings *)

Lemma scanstring_raw c rest :
  32 <= c -> c <> 34 -> c <> 92 ->
  scanstring (c :: rest) = cons_char c (scanstring rest).
Proof.
  intros H32 H34 H92. cbn [scanstring].
  destruct (Z.eqb_spec c 34); [done|].
  destruct (Z.eqb_spec c 92); [done|].
  by destruct (Z.ltb_spec c 32); [lia|].
Qed.

(** The decoder reads an escaped character back. *)
Lemma scanstring_escape_char c rest :
  0 <= c -> scanstring (escape_char c ++ rest) = cons_char c (scanstring rest).
Proof.
  intros Hc. destruct (Z.lt_ge_cases c 32) as [Hlow|Hhigh].
  - assert (exists n : nat, (n < 32)%nat /\ c = Z.of_nat n) as (n & Hn & ->).
    { exists (Z.to_nat c). lia. }
    do 32 (destruct n as [|n]; [reflexivity|]). lia.
  - unfold escape_char.
    destruct (Z.eqb_spec c 34) as [->|]; [reflexivity|].
    destruct (Z.eqb_spec c 92) as [->|]; [reflexivity|].
    destruct (Z.eqb_spec c 8); [lia|]. destruct (Z.eqb_spec c 12); [lia|].
    destruct (Z.eqb_spec c 10); [lia|]. destruct (Z.eqb_spec c 13); [lia|].
    destruct (Z.eqb_spec c 9); [lia|].
    destruct (Z.leb_spec 0 c); [|lia]. destruct (Z.ltb_spec c 32); [lia|].
    cbn [andb app]. by apply scanstring_raw.
Qed.

Lemma is_str_nonneg s : is_str s = true -> Forall (fun c => 0 <= c) s.
Proof.
  unfold is_str. rewrite forallb_forall, Forall_forall. intros H c Hc.
  apply list_elem_of_In, H in Hc. apply andb_true_iff in Hc as [Hc _]. by apply Z.leb_le.
Qed.

(** The decoder reads an encoded string back, up to its closing quote. *)
Lemma scanstring_encoded s rest :
  is_str s = true ->
  scanstring (flat_map escape_char s ++ 34 :: rest) = Some (s, rest).
Proof.
  intros Hs. apply is_str_nonneg in Hs.
  induction Hs as [|c s Hc Hs IH]; [reflexivity|].
  cbn [flat_map]. rewrite <- app_assoc, scanstring_escape_char by done.
  by rewrite IH.
Qed.

Lemma encode_basestring_unfold s rest :
  encode_basestring s ++ rest = 34 :: flat_map escape_char s ++ 34 :: rest.
Proof. unfold encode_basestring. simpl. by rewrite <- app_assoc. Qed.

(** ** JSON: numbers *)

Lemma span_digits_app t ds r rest :
  ends_value rest ->
  span_digits t = (ds, r) -> span_digits (t ++ rest) = (ds, r ++ rest).
Proof.
  intros Hrest. revert ds r. induction t as [|c t IH]; intros ds r H.
  - injection H as <- <-. destruct rest as [|c rest]; [done|].
    simpl in *. by destruct Hrest as [->| ->].
  - simpl in *. destruct (is_digit c).
    + destruct (span_digits t) as [ds' r'] eqn:Ht. injection H as <- <-.
      by rewrite (IH _ _ eq_refl).
    + by injection H as <- <-.
Qed.

Lemma span_digits_matched t ds r : span_digits t = (ds, r) -> t = ds ++ r.
Proof.
  revert ds r. induction t as [|c t IH]; intros ds r H; simpl in H.
  - by injection H as <- <-.
  - destruct (is_digit c).
    + destruct (span_digits t) as [ds' r'] eqn:Ht. injection H as <- <-.
      simpl. f_equal. by apply IH.
    + by injection H as <- <-.
Qed.

Lemma scan_int_part_app t m r rest :
  ends_value rest ->
  scan_int_part t = Some (m, r) -> scan_int_part (t ++ rest) = Some (m, r ++ rest).
Proof.
  intros Hrest H. destruct t as [|d t]; [done|]. simpl in *.
  destruct (d =? 48); [by injection H as <- <-|].
  destruct (is_digit d); [|done].
  destruct (span_digits t) as [ds r'] eqn:Ht. injection H as <- <-.
  by rewrite (span_digits_app _ _ _ _ Hrest Ht).
Qed.

Lemma scan_int_part_matched t m r : scan_int_part t = Some (m, r) -> t = m ++ r.
Proof.
  destruct t as [|d t]; [done|]. simpl.
  destruct (Z.eqb_spec d 48) as [->|]; [by intros [= <- <-]|].
  destruct (is_digit d); [|done].
  destruct (span_digits t) as [ds r'] eqn:Ht. intros [= <- <-].
  simpl. f_equal. by apply span_digits_matched.
Qed.

Lemma scan_frac_app t m r rest :
  ends_value rest ->
  scan_frac t = (m, r) -> scan_frac (t ++ rest) = (m, r ++ rest).
Proof.
  intros Hrest H. destruct t as [|dot [|f t]].
  - injection H as <- <-. destruct rest as [|c [|c' rest]]; try done.
    simpl in *. by destruct Hrest as [->| ->].
  - injection H as <- <-. destruct rest as [|c rest]; [done|].
    simpl in *. destruct Hrest as [->| ->]; by rewrite andb_false_r.
  - simpl in *. destruct ((dot =? 46) && is_digit f); [|by injection H as <- <-].
    destruct (span_digits t) as [ds r'] eqn:Ht. injection H as <- <-.
    by rewrite (span_digits_app _ _ _ _ Hrest Ht).
Qed.

Lemma scan_frac_matched t m r : scan_frac t = (m, r) -> t = m ++ r.
Proof.
  destruct t as [|dot [|f t]]; try by intros [= <- <-].
  simpl. destruct ((dot =? 46) && is_digit f); [|by intros [= <- <-]].
  destruct (span_digits t) as [ds r'] eqn:Ht. intros [= <- <-].
  simpl. do 2 f_equal. by apply span_digits_matched.
Qed.

Lemma scan_exp_app t m r rest :
  ends_value rest ->
  scan_exp t = (m, r) -> scan_exp (t ++ rest) = (m, r ++ rest).
Proof.
  intros Hrest H. destruct t as [|e [|s t]].
  - injection H as <- <-. destruct rest as [|c [|c' rest]]; try done.
    simpl in *. by destruct Hrest as [->| ->].
  - injection H as <- <-. destruct rest as [|c rest]; [done|].
    simpl in *. destruct Hrest as [->| ->]; by destruct (_ || _).
  - simpl in *. destruct ((e =? 101) || (e =? 69)); [|by injection H as <- <-].
    destruct (is_digit s).
    { destruct (span_digits t) as [ds r'] eqn:Ht. injection H as <- <-.
      by rewrite (span_digits_app _ _ _ _ Hrest Ht). }
    destruct ((s =? 45) || (s =? 43)); [|by injection H as <- <-].
    destruct t as [|d t].
    { injection H as <- <-. destruct rest as [|c rest]; [done|].
      simpl in *. by destruct Hrest as [->| ->]. }
    simpl. destruct (is_digit d); [|by injection H as <- <-].
    destruct (span_digits t) as [ds r'] eqn:Ht. injection H as <- <-.
    by rewrite (span_digits_app _ _ _ _ Hrest Ht).
Qed.

Lemma scan_exp_matched t m r : scan_exp t = (m, r) -> t = m ++ r.
Proof.
  destruct t as [|e [|s t]]; try by intros [= <- <-].
  simpl. destruct ((e =? 101) || (e =? 69)); [|by intros [= <- <-]].
  destruct (is_digit s).
  { destruct (span_digits t) as [ds r'] eqn:Ht. intros [= <- <-].
    simpl. do 2 f_equal. by apply span_digits_matched. }
  destruct ((s =? 45) || (s =? 43)); [|by intros [= <- <-]].
  destruct t as [|d t]; [by intros [= <- <-]|].
  destruct (is_digit d); [|by intros [= <- <-]].
  destruct (span_digits t) as [ds r'] eqn:Ht. intros [= <- <-].
  simpl. do 3 f_equal. by apply span_digits_matched.
Qed.

(** What [NUMBER_RE] matches does not change when a comma or a line end
    follows. *)
Lemma scan_number_app t m r rest :
  ends_value rest ->
  scan_number t = Some (m, r) -> scan_number (t ++ rest) = Some (m, r ++ rest).
Proof.
  intros Hrest H. destruct t as [|c t]; [done|].
  unfold scan_number in *. cbn [app].
  destruct (c =? 45).
  - destruct (scan_int_part t) as [[ip t2]|] eqn:Hi; [|done].
    rewrite (scan_int_part_app _ _ _ _ Hrest Hi).
    destruct (scan_frac t2) as [fp t3] eqn:Hf. rewrite (scan_frac_app _ _ _ _ Hrest Hf).
    destruct (scan_exp t3) as [ep t4] eqn:He. rewrite (scan_exp_app _ _ _ _ Hrest He).
    by injection H as <- <-.
  - destruct (scan_int_part (c :: t)) as [[ip t2]|] eqn:Hi; [|done].
    change (c :: t ++ rest) with ((c :: t) ++ rest).
    rewrite (scan_int_part_app (c :: t) _ _ _ Hrest Hi).
    destruct (scan_frac t2) as [fp t3] eqn:Hf. rewrite (scan_frac_app _ _ _ _ Hrest Hf).
    destruct (scan_exp t3) as [ep t4] eqn:He. rewrite (scan_exp_app _ _ _ _ Hrest He).
    by injection H as <- <-.
Qed.

Lemma scan_number_matched t m r : scan_number t = Some (m, r) -> t = m ++ r.
Proof.
  unfold scan_number.
  destruct t as [|c t]; [done|].
  destruct (Z.eqb_spec c 45) as [->|].
  - destruct (scan_int_part t) as [[ip t2]|] eqn:Hi; [|done].
    destruct (scan_frac t2) as [fp t3] eqn:Hf.
    destruct (scan_exp t3) as [ep t4] eqn:He. intros [= <- <-].
    apply scan_int_part_matched in Hi as ->. apply scan_frac_matched in Hf as ->.
    apply scan_exp_matched in He as ->. simpl. by rewrite <- !app_assoc.
  - destruct (scan_int_part (c :: t)) as [[ip t2]|] eqn:Hi; [|done].
    destruct (scan_frac t2) as [fp t3] eqn:Hf.
    destruct (scan_exp t3) as [ep t4] eqn:He. intros [= <- <-].
    apply scan_int_part_matched in Hi as ->. apply scan_frac_matched in Hf as ->.
    apply scan_exp_matched in He as ->. simpl. by rewrite <- !app_assoc.
Qed.

(** A number starts with a minus sign or a digit. *)
Lemma scan_number_head t m r :
  scan_number t = Some (m, r) ->
  exists c t', t = c :: t' /\ (c = 45 \/ is_digit c = true).
Proof.
  unfold scan_number. destruct t as [|c t]; [done|]. intros H.
  exists c, t. split; [done|].
  destruct (Z.eqb_spec c 45); [by left|]. right.
  simpl in H. destruct (c =? 48) eqn:H48.
  - apply Z.eqb_eq in H48 as ->. reflexivity.
  - by destruct (is_digit c).
Qed.

Lemma strip_prefix_head_ne p0 p c t : p0 <> c -> strip_prefix (p0 :: p) (c :: t) = None.
Proof. intros H. simpl. by destruct (Z.eqb_spec p0 c). Qed.

(** The decoder reads a number literal back when a comma or a line end
    follows it. *)
Lemma scan_once_number fuel lit rest :
  is_number_literal lit = true ->
  ends_value rest ->
  scan_once (S fuel) (lit ++ rest) = Scanned (JNum lit) rest.
Proof.
  intros Hlit Hrest. unfold is_number_literal in Hlit.
  assert ((exists m, scan_number lit = Some (m, []))
          \/ lit = txt "NaN" \/ lit = txt "Infinity" \/ lit = txt "-Infinity")
    as [[m Hm]|Hconst].
  { destruct (scan_number lit) as [[m [|c r]]|]; [left; by exists m| |].
    all: right; rewrite !orb_true_iff in Hlit; unfold text_eqb in Hlit;
      rewrite !bool_decide_eq_true in Hlit; tauto. }
  - pose proof (scan_number_matched _ _ _ Hm) as Hlm. rewrite app_nil_r in Hlm. subst m.
    pose proof (scan_number_app _ _ _ _ Hrest Hm) as Happ. cbn [app] in Happ.
    destruct (scan_number_head _ _ _ Hm) as (c & t' & -> & Hc).
    assert (45 <= c <= 57) as Hrange.
    { destruct Hc as [->|Hc]; [lia|]. unfold is_digit in Hc.
      apply andb_true_iff in Hc as [H1 H2]. apply Z.leb_le in H1, H2. lia. }
    cbn [scan_once app].
    destruct (Z.eqb_spec c 34); [lia|]. destruct (Z.eqb_spec c 123); [lia|].
    destruct (Z.eqb_spec c 91); [lia|].
    change (txt "null") with (110 :: txt "ull").
    change (txt "true") with (116 :: txt "rue").
    change (txt "false") with (102 :: txt "alse").
    rewrite !strip_prefix_head_ne by lia.
    change (c :: t' ++ rest) with ((c :: t') ++ rest). by rewrite Happ.
  - destruct Hconst as [->|[->| ->]]; reflexivity.
Qed.

(** ** JSON: values *)

(** Induction on a value with the hypothesis for every item of a list and
    every value of a dict. *)
Lemma json_nested_ind (P : json -> Prop) :
  P JNull ->
  (forall b, P (JBool b)) ->
  (forall lit, P (JNum lit)) ->
  (forall s, P (JStr s)) ->
  (forall xs, Forall P xs -> P (JList xs)) ->
  (forall kvs, Forall (fun kv => P (snd kv)) kvs -> P (JDict kvs)) ->
  forall v, P v.
Proof.
  intros Hnull Hbool Hnum Hstr Hlist Hdict.
  fix IH 1. intros [ |b|lit|s|xs|kvs].
  - exact Hnull.
  - apply Hbool.
  - apply Hnum.
  - apply Hstr.
  - apply Hlist. induction xs as [|x xs IHxs]; constructor; [apply IH|exact IHxs].
  - apply Hdict. induction kvs as [|[k x] kvs IHkvs]; constructor; [apply IH|exact IHkvs].
Qed.

Lemma skip_ws_newline_indent lvl t : skip_ws (newline_indent lvl ++ t) = skip_ws t.
Proof.
  unfold newline_indent. cbn [app skip_ws]. change (is_ws 10) with true. cbv iota.
  induction (2 * lvl)%nat as [|n IH]; [done|]. simpl. exact IH.
Qed.

Lemma skip_ws_here c t : is_ws c = false -> skip_ws (c :: t) = c :: t.
Proof. intros H. simpl. by rewrite H. Qed.

(** An encoded value starts with a character that is not white space, not
    a closing bracket and not a byte order mark. *)
Lemma iterencode_head lvl v :
  wf_json v = true ->
  exists c r, iterencode lvl v = c :: r /\ 33 <= c <= 123 /\ c <> 93.
Proof.
  destruct v as [ |[|]|lit|s|[|x xs]|[|kv kvs]]; intros Hwf;
    try (eexists _, _; split; [reflexivity|lia]);
    try (eexists _, _; split; [vm_compute; reflexivity|lia]).
  simpl in Hwf. unfold is_number_literal in Hwf.
  assert ((exists m, scan_number lit = Some (m, []))
          \/ lit = txt "NaN" \/ lit = txt "Infinity" \/ lit = txt "-Infinity")
    as [[m Hm]|Hconst].
  { destruct (scan_number lit) as [[m [|c r]]|]; [left; by exists m| |].
    all: right; rewrite !orb_true_iff in Hwf; unfold text_eqb in Hwf;
      rewrite !bool_decide_eq_true in Hwf; tauto. }
  - destruct (scan_number_head _ _ _ Hm) as (c & t' & -> & Hc).
    exists c, t'. split; [done|].
    destruct Hc as [->|Hc]; [lia|]. unfold is_digit in Hc.
    apply andb_true_iff in Hc as [H1 H2]. apply Z.leb_le in H1, H2. lia.
  - destruct Hconst as [->|[->| ->]]; eexists _, _;
      (split; [vm_compute; reflexivity|lia]).
Qed.

Lemma is_ws_false c : 33 <= c -> is_ws c = false.
Proof.
  intros H. unfold is_ws.
  destruct (Z.eqb_spec c 32); [lia|]. destruct (Z.eqb_spec c 9); [lia|].
  destruct (Z.eqb_spec c 10); [lia|]. by destruct (Z.eqb_spec c 13); [lia|].
Qed.

Lemma dict_set_fresh k v d :
  existsb (fun kv => text_eqb k (fst kv)) d = false ->
  dict_set k v d = d ++ [(k, v)].
Proof.
  induction d as [|[k' v'] d IH]; [done|]. simpl. intros H.
  apply orb_false_iff in H as [Hk Hd]. rewrite Hk. by rewrite IH.
Qed.

Lemma py_dict_distinct_from acc kvs :
  distinct_keys (acc ++ kvs) = true ->
  fold_left (fun d kv => dict_set (fst kv) (snd kv) d) kvs acc = acc ++ kvs.
Proof.
  revert acc. induction kvs as [|[k v] kvs IH]; intros acc Hd.
  - by rewrite app_nil_r.
  - simpl. rewrite dict_set_fresh.
    + rewrite IH; rewrite <- app_assoc; done.
    + clear IH. induction acc as [|[k' v'] acc IHacc]; [done|].
      simpl in Hd. apply andb_true_iff in Hd as [Hk' Hd].
      simpl. rewrite (IHacc Hd), orb_false_r.
      rewrite existsb_app in Hk'. simpl in Hk'.
      apply negb_true_iff in Hk'. rewrite !orb_false_iff in Hk'.
      destruct Hk' as (_ & Hk' & _).
      unfold text_eqb in *. apply bool_decide_eq_false in Hk'.
      apply bool_decide_eq_false. congruence.
Qed.

(** A dict with distinct keys is what [dict()] makes of its items. *)
Lemma py_dict_distinct kvs : distinct_keys kvs = true -> py_dict kvs = kvs.
Proof. intros H. unfold py_dict. by rewrite (py_dict_distinct_from [] kvs H). Qed.

Lemma array_items_last f t v r r' :
  scan_once f t = Scanned v r -> skip_ws r = 93 :: r' ->
  scan_array_items (S f) t = Scanned [v] r'.
Proof. intros H1 H2. cbn [scan_array_items]. by rewrite H1, H2. Qed.

Lemma array_items_more f t v r r' vs rest :
  scan_once f t = Scanned v r -> skip_ws r = 44 :: r' ->
  scan_array_items f (skip_ws r') = Scanned vs rest ->
  scan_array_items (S f) t = Scanned (v :: vs) rest.
Proof. intros H1 H2 H3. cbn [scan_array_items]. by rewrite H1, H2, H3. Qed.

Lemma object_items_last f t k r r1 v r2 r3 :
  scanstring t = Some (k, r) -> skip_ws r = 58 :: r1 ->
  scan_once f (skip_ws r1) = Scanned v r2 -> skip_ws r2 = 125 :: r3 ->
  scan_object_items (S f) t = Scanned [(k, v)] r3.
Proof. intros H1 H2 H3 H4. cbn [scan_object_items]. by rewrite H1, H2, H3, H4. Qed.

Lemma object_items_more f t k r r1 v r2 r3 r4 kvs rest :
  scanstring t = Some (k, r) -> skip_ws r = 58 :: r1 ->
  scan_once f (skip_ws r1) = Scanned v r2 -> skip_ws r2 = 44 :: r3 ->
  skip_ws r3 = 34 :: r4 ->
  scan_object_items f r4 = Scanned kvs rest ->
  scan_object_items (S f) t = Scanned ((k, v) :: kvs) rest.
Proof.
  intros H1 H2 H3 H4 H5 H6. cbn [scan_object_items]. by rewrite H1, H2, H3, H4, H5, H6.
Qed.

Lemma ends_value_newline_indent lvl t : ends_value (newline_indent lvl ++ t).
Proof. simpl. by right. Qed.

Lemma skip_ws_value lvl v t :
  wf_json v = true -> skip_ws (iterencode lvl v ++ t) = iterencode lvl v ++ t.
Proof.
  intros Hwf. destruct (iterencode_head lvl v Hwf) as (c & r & -> & Hc & _).
  apply skip_ws_here, is_ws_false. lia.
Qed.

(** A text that starts with a visible character has no white space to
    skip. *)
Lemma skip_ws_starts t :
  (exists c r, t = c :: r /\ 33 <= c) -> skip_ws t = t.
Proof. intros (c & r & -> & Hc). by apply skip_ws_here, is_ws_false. Qed.

Lemma join_values_head sep lvl y ys tail :
  wf_json y = true ->
  exists c r, join sep (map (iterencode lvl) (y :: ys)) ++ tail = c :: r /\ 33 <= c.
Proof.
  intros Hwf. destruct (iterencode_head lvl y Hwf) as (c & r & Hy & Hc & _).
  destruct ys as [|z zs]; cbn [map join]; rewrite Hy; eexists _, _;
    (split; [reflexivity|lia]).
Qed.

(** The items of a list. *)
Lemma scan_array_items_encoded x xs lvl rest fuel :
  Forall reads_back (x :: xs) ->
  forallb wf_json (x :: xs) = true ->
  (list_sum (map (fun x => S (scan_fuel x)) (x :: xs)) <= fuel)%nat ->
  scan_array_items fuel
    (join (44 :: newline_indent (S lvl)) (map (iterencode (S lvl)) (x :: xs))
     ++ newline_indent lvl ++ 93 :: rest)
  = Scanned (x :: xs) rest.
Proof.
  revert x fuel. induction xs as [|y ys IH]; intros x fuel Hall Hwf Hfuel.
  - apply Forall_cons in Hall as [Hx _].
    simpl in Hwf. rewrite andb_true_r in Hwf.
    destruct fuel as [|f]; [simpl in Hfuel; lia|].
    eapply array_items_last.
    + cbn [map join]. apply (Hx Hwf); [apply ends_value_newline_indent|].
      simpl in Hfuel. lia.
    + by rewrite skip_ws_newline_indent.
  - apply Forall_cons in Hall as [Hx Hall].
    cbn [forallb] in Hwf. apply andb_true_iff in Hwf as [Hwx Hwf].
    destruct fuel as [|f]; [simpl in Hfuel; lia|].
    change (map (iterencode (S lvl)) (x :: y :: ys))
      with (iterencode (S lvl) x :: map (iterencode (S lvl)) (y :: ys)).
    change (join ?sep (?a :: map ?g (y :: ys)))
      with (a ++ sep ++ join sep (map g (y :: ys))).
    rewrite <- !app_assoc.
    eapply array_items_more.
    + apply (Hx Hwx); [simpl; by left|]. simpl in Hfuel. lia.
    + reflexivity.
    + rewrite <- ?app_assoc, skip_ws_newline_indent.
      rewrite skip_ws_starts.
      { apply IH; [done|done|]. simpl in Hfuel |- *. lia. }
      cbn [forallb] in Hwf. apply andb_true_iff in Hwf as [Hwy _].
      by apply join_values_head.
Qed.

Lemma key_value_unfold k v lvl tail :
  (encode_basestring k ++ [58; 32] ++ iterencode lvl v) ++ tail
  = 34 :: flat_map escape_char k ++ 34 :: 58 :: 32 :: iterencode lvl v ++ tail.
Proof. unfold encode_basestring. simpl. by rewrite <- !app_assoc. Qed.

(** The items of a dict, from just after the opening quote of the first
    key. *)
Lemma scan_object_items_encoded k x kvs lvl rest fuel :
  Forall (fun kv => reads_back (snd kv)) ((k, x) :: kvs) ->
  forallb (fun kv => is_str (fst kv) && wf_json (snd kv)) ((k, x) :: kvs) = true ->
  (list_sum (map (fun kv => S (scan_fuel (snd kv))) ((k, x) :: kvs)) <= fuel)%nat ->
  exists body,
    join (44 :: newline_indent (S lvl))
      (map (fun kv => encode_basestring (fst kv) ++ [58; 32]
                      ++ iterencode (S lvl) (snd kv)) ((k, x) :: kvs))
    ++ newline_indent lvl ++ 125 :: rest
    = 34 :: body
    /\ scan_object_items fuel body = Scanned ((k, x) :: kvs) rest.
Proof.
  revert k x fuel. induction kvs as [|[k' y] kvs IH]; intros k x fuel Hall Hwf Hfuel.
  - apply Forall_cons in Hall as [Hx _]. simpl in Hx.
    simpl in Hwf. rewrite andb_true_r in Hwf. apply andb_true_iff in Hwf as [Hk Hwx].
    destruct fuel as [|f]; [simpl in Hfuel; lia|].
    cbn [map join fst snd]. rewrite key_value_unfold.
    eexists. split; [reflexivity|].
    eapply object_items_last.
    + by apply scanstring_encoded.
    + reflexivity.
    + cbn [skip_ws]. change (is_ws 32) with true. cbv iota.
      rewrite skip_ws_value by done.
      apply (Hx Hwx); [apply ends_value_newline_indent|]. simpl in Hfuel. lia.
    + by rewrite skip_ws_newline_indent.
  - apply Forall_cons in Hall as [Hx Hall]. simpl in Hx.
    cbn [forallb fst snd] in Hwf. apply andb_true_iff in Hwf as [Hkx Hwf].
    apply andb_true_iff in Hkx as [Hk Hwx].
    destruct fuel as [|f]; [simpl in Hfuel; lia|].
    destruct (IH k' y f Hall Hwf ltac:(simpl in Hfuel |- *; lia)) as (body' & Hbody' & Hscan').
    change (map ?g ((k, x) :: (k', y) :: kvs))
      with (g (k, x) :: map g ((k', y) :: kvs)).
    change (join ?sep (?a :: map ?g ((k', y) :: kvs)))
      with (a ++ sep ++ join sep (map g ((k', y) :: kvs))).
    cbn [fst snd]. rewrite <- !app_assoc.
    rewrite (app_assoc (encode_basestring k)), (app_assoc (encode_basestring k ++ [58; 32])).
    rewrite <- (app_assoc (encode_basestring k)).
    rewrite key_value_unfold.
    eexists. split; [reflexivity|].
    eapply object_items_more.
    + by apply scanstring_encoded.
    + reflexivity.
    + cbn [skip_ws]. change (is_ws 32) with true. cbv iota.
      rewrite skip_ws_value by done.
      apply (Hx Hwx); [simpl; by left|]. simpl in Hfuel. lia.
    + reflexivity.
    + rewrite <- ?app_assoc, skip_ws_newline_indent.
      transitivity (skip_ws (34 :: body')); [f_equal; exact Hbody'|reflexivity].
    + exact Hscan'.
Qed.

(** The decoder reads every well-formed value back from its encoding. *)
Lemma scan_once_iterencode v : reads_back v.
Proof.
  induction v as [ |b|lit|s|xs IH|kvs IH] using json_nested_ind;
    intros Hwf lvl rest fuel Hrest Hfuel;
    (destruct fuel as [|f]; [simpl in Hfuel; lia|]).
  - reflexivity.
  - destruct b; reflexivity.
  - by apply scan_once_number.
  - cbn [iterencode]. rewrite encode_basestring_unfold. cbn [scan_once].
    change (34 =? 34) with true. cbv iota.
    by rewrite scanstring_encoded.
  - destruct xs as [|x xs]; [reflexivity|].
    cbn [wf_json] in Hwf.
    change (iterencode lvl (JList (x :: xs)))
      with ([91] ++ newline_indent (S lvl)
            ++ join (44 :: newline_indent (S lvl)) (map (iterencode (S lvl)) (x :: xs))
            ++ newline_indent lvl ++ [93]).
    rewrite <- !app_assoc. cbn [app scan_once].
    change (91 =? 34) with false. change (91 =? 123) with false.
    change (91 =? 91) with true. cbv iota.
    change (10 :: repeat 32 (2 * S lvl) ++ ?t) with (newline_indent (S lvl) ++ t).
    rewrite skip_ws_newline_indent.
    assert (wf_json x = true) as Hwx.
    { cbn [forallb] in Hwf. by apply andb_true_iff in Hwf as [? _]. }
    destruct (join_values_head (44 :: newline_indent (S lvl)) (S lvl) x xs
                (newline_indent lvl ++ 93 :: rest) Hwx) as (c & r & Hcr & Hc).
    destruct (iterencode_head (S lvl) x Hwx) as (c' & r' & Hx & _ & Hc93).
    assert (c = c') as ->.
    { destruct xs as [|z zs]; cbn [map join] in Hcr; rewrite Hx in Hcr;
        by injection Hcr as <- _. }
    pose proof (scan_array_items_encoded x xs lvl rest f IH Hwf
                  ltac:(simpl in Hfuel |- *; lia)) as Hitems.
    change (newline_indent lvl ++ [93] ++ rest) with (newline_indent lvl ++ 93 :: rest).
    assert (skip_ws (join (44 :: newline_indent (S lvl))
                       (map (iterencode (S lvl)) (x :: xs))
                     ++ newline_indent lvl ++ 93 :: rest) = c' :: r) as Hskip.
    { transitivity (skip_ws (c' :: r)); [f_equal; exact Hcr|].
      apply skip_ws_starts. eauto. }
    assert (scan_array_items f (c' :: r) = Scanned (x :: xs) rest) as Hitems'.
    { etransitivity; [apply f_equal; symmetry; exact Hcr|exact Hitems]. }
    etransitivity;
      [apply (f_equal (fun t => match t with
                                | d :: r' =>
                                    if d =? 93 then Scanned (JList []) r'
                                    else
                                      match scan_array_items f (d :: r') with
                                      | Scanned vs rest0 => Scanned (JList vs) rest0
                                      | Malformed => Malformed
                                      | Exhausted => Exhausted
                                      end
                                | [] => Malformed
                                end) Hskip)|].
    cbv beta iota. destruct (Z.eqb_spec c' 93); [done|]. by rewrite Hitems'.
  - destruct kvs as [|[k x] kvs]; [reflexivity|].
    cbn [wf_json] in Hwf. apply andb_true_iff in Hwf as [Hkeys Hwf].
    change (iterencode lvl (JDict ((k, x) :: kvs)))
      with ([123] ++ newline_indent (S lvl)
            ++ join (44 :: newline_indent (S lvl))
                 (map (fun kv => encode_basestring (fst kv) ++ [58; 32]
                                 ++ iterencode (S lvl) (snd kv)) ((k, x) :: kvs))
            ++ newline_indent lvl ++ [125]).
    rewrite <- !app_assoc. cbn [app scan_once].
    change (123 =? 34) with false. change (123 =? 123) with true. cbv iota.
    change (10 :: repeat 32 (2 * S lvl) ++ ?t) with (newline_indent (S lvl) ++ t).
    rewrite skip_ws_newline_indent.
    destruct (scan_object_items_encoded k x kvs lvl rest f IH Hwf
                ltac:(simpl in Hfuel |- *; lia)) as (body & Hbody & Hitems).
    change (newline_indent lvl ++ [125] ++ rest) with (newline_indent lvl ++ 125 :: rest).
    assert (skip_ws (join (44 :: newline_indent (S lvl))
                       (map (fun kv => encode_basestring (fst kv) ++ [58; 32]
                                       ++ iterencode (S lvl) (snd kv)) ((k, x) :: kvs))
                     ++ newline_indent lvl ++ 125 :: rest) = 34 :: body) as Hskip.
    { transitivity (skip_ws (34 :: body)); [f_equal; exact Hbody|reflexivity]. }
    etransitivity;
      [apply (f_equal (fun t => match t with
                                | d :: r' =>
                                    if d =? 125 then Scanned (JDict []) r'
                                    else if d =? 34 then
                                      match scan_object_items f r' with
                                      | Scanned kvs0 rest0 =>
                                          Scanned (JDict (py_dict kvs0)) rest0
                                      | Malformed => Malformed
                                      | Exhausted => Exhausted
                                      end
                                    else Malformed
                                | [] => Malformed
                                end) Hskip)|].
    cbv beta iota. change (34 =? 125) with false. change (34 =? 34) with true. cbv iota.
    rewrite Hitems. by rewrite (py_dict_distinct _ Hkeys).
Qed.

(** ** JSON: the fuel of [json_loads] *)

Lemma join_length sep {A} (g : A -> nat) (f : A -> text) xs :
  (1 <= length sep)%nat ->
  Forall (fun x => (g x <= length (f x))%nat) xs ->
  (list_sum (map (fun x => S (g x)) xs) <= S (length (join sep (map f xs))))%nat.
Proof.
  intros Hsep Hall. induction Hall as [|x xs Hx Hxs IH]; [simpl; lia|].
  destruct xs as [|y ys].
  - simpl. lia.
  - change (map f (x :: y :: ys)) with (f x :: map f (y :: ys)).
    change (join sep (f x :: map f (y :: ys)))
      with (f x ++ sep ++ join sep (map f (y :: ys))).
    rewrite !length_app.
    change (map (fun x => S (g x)) (x :: y :: ys))
      with (S (g x) :: map (fun x => S (g x)) (y :: ys)).
    change (list_sum (S (g x) :: ?l)) with (S (g x) + list_sum l)%nat.
    lia.
Qed.

Lemma iterencode_nonempty lvl v : wf_json v = true -> (1 <= length (iterencode lvl v))%nat.
Proof.
  intros Hwf. destruct (iterencode_head lvl v Hwf) as (c & r & -> & _). simpl. lia.
Qed.

(** The encoding of a value is at least as long as the fuel that reads it
    back. *)
Lemma scan_fuel_length v :
  wf_json v = true -> forall lvl, (scan_fuel v <= length (iterencode lvl v))%nat.
Proof.
  induction v as [ |b|lit|s|xs IH|kvs IH] using json_nested_ind; intros Hwf lvl;
    try (by apply (iterencode_nonempty lvl _ Hwf)).
  - destruct xs as [|x xs]; [simpl; lia|].
    change (iterencode lvl (JList (x :: xs)))
      with ([91] ++ newline_indent (S lvl)
            ++ join (44 :: newline_indent (S lvl)) (map (iterencode (S lvl)) (x :: xs))
            ++ newline_indent lvl ++ [93]).
    rewrite !length_app.
    assert (list_sum (map (fun x => S (scan_fuel x)) (x :: xs))
            <= S (length (join (44%Z :: newline_indent (S lvl))
                            (map (iterencode (S lvl)) (x :: xs)))))%nat as Hsum.
    { apply join_length; [simpl; lia|].
      cbn [wf_json] in Hwf. rewrite forallb_forall in Hwf.
      rewrite Forall_forall in IH |- *. intros y Hy.
      apply IH; [done|]. apply Hwf. by apply list_elem_of_In. }
    set (n := length (join _ _)) in *. clearbody n.
    cbn [scan_fuel]. simpl length. lia.
  - destruct kvs as [|kv kvs]; [simpl; lia|].
    change (iterencode lvl (JDict (kv :: kvs)))
      with ([123] ++ newline_indent (S lvl)
            ++ join (44 :: newline_indent (S lvl))
                 (map (fun kv => encode_basestring (fst kv) ++ [58; 32]
                                 ++ iterencode (S lvl) (snd kv)) (kv :: kvs))
            ++ newline_indent lvl ++ [125]).
    rewrite !length_app.
    assert (list_sum (map (fun kv => S (scan_fuel (snd kv))) (kv :: kvs))
            <= S (length (join (44%Z :: newline_indent (S lvl))
                            (map (fun kv => encode_basestring (fst kv) ++ [58%Z; 32%Z]
                                            ++ iterencode (S lvl) (snd kv))
                                 (kv :: kvs)))))%nat as Hsum.
    { apply (join_length _ (fun kv => scan_fuel (snd kv))); [simpl; lia|].
      cbn [wf_json] in Hwf. apply andb_true_iff in Hwf as [_ Hwf].
      rewrite forallb_forall in Hwf.
      rewrite Forall_forall in IH |- *. intros y Hy.
      rewrite !length_app.
      specialize (IH y Hy). apply list_elem_of_In, Hwf in Hy.
      apply andb_true_iff in Hy as [_ Hy]. specialize (IH Hy (S lvl)). lia. }
    set (n := length (join _ _)) in *. clearbody n.
    cbn [scan_fuel]. simpl length. lia.
Qed.

(** [json.loads] reads back what [json.dumps] wrote. *)
Lemma json_loads_dumps v : wf_json v = true -> json_loads (json_dumps v) = Some v.
Proof.
  intros Hwf. unfold json_loads, json_dumps.
  destruct (iterencode_head 0 v Hwf) as (c & r & Hcr & Hc & _).
  assert (starts_with_bom (iterencode 0 v) = false) as ->.
  { rewrite Hcr. simpl. destruct (Z.eqb_spec c 65279); [lia|done]. }
  rewrite skip_ws_starts by (exists c, r; split; [done|lia]).
  rewrite <- (app_nil_r (iterencode 0 v)) at 2.
  rewrite (scan_once_iterencode v Hwf 0%nat [] _ I); [done|].
  pose proof (scan_fuel_length v Hwf 0%nat). lia.
Qed.

(** ** JSON: no carriage return is written *)

Lemma span_digits_no_cr t ds r :
  span_digits t = (ds, r) -> Forall (fun c => c <> 13) ds.
Proof.
  revert ds r. induction t as [|c t IH]; intros ds r H; simpl in H.
  - injection H as <- <-. constructor.
  - destruct (is_digit c) eqn:Hc; [|injection H as <- <-; constructor].
    destruct (span_digits t) as [ds' r'] eqn:Ht. injection H as <- <-.
    constructor; [|by eapply IH].
    unfold is_digit in Hc. apply andb_true_iff in Hc as [Hc _].
    apply Z.leb_le in Hc. lia.
Qed.

Lemma is_digit_no_cr c : is_digit c = true -> c <> 13.
Proof.
  unfold is_digit. intros H. apply andb_true_iff in H as [H _].
  apply Z.leb_le in H. lia.
Qed.

Lemma scan_number_no_cr t m r :
  scan_number t = Some (m, r) -> Forall (fun c => c <> 13) m.
Proof.
  unfold scan_number. intros H.
  assert (forall t ip t2, scan_int_part t = Some (ip, t2) ->
                          Forall (fun c => c <> 13) ip) as Hint.
  { intros [|d u] ip t2; [done|]. simpl.
    destruct (d =? 48); [intros [= <- <-]; by repeat constructor|].
    destruct (is_digit d) eqn:Hd; [|done].
    destruct (span_digits u) as [ds r'] eqn:Hu. intros [= <- <-].
    constructor; [by apply is_digit_no_cr|by eapply span_digits_no_cr]. }
  assert (forall t fp t3, scan_frac t = (fp, t3) -> Forall (fun c => c <> 13) fp) as Hfrac.
  { intros [|dot [|f u]] fp t3; try (intros [= <- <-]; constructor). simpl.
    destruct ((dot =? 46) && is_digit f) eqn:Hd; [|intros [= <- <-]; constructor].
    apply andb_true_iff in Hd as [Hdot Hf]. apply Z.eqb_eq in Hdot as ->.
    destruct (span_digits u) as [ds r'] eqn:Hu. intros [= <- <-].
    constructor; [done|]. constructor; [by apply is_digit_no_cr|].
    by eapply span_digits_no_cr. }
  assert (forall t ep t4, scan_exp t = (ep, t4) -> Forall (fun c => c <> 13) ep) as Hexp.
  { intros [|e [|s u]] ep t4; try (intros [= <- <-]; constructor). simpl.
    destruct ((e =? 101) || (e =? 69)) eqn:He; [|intros [= <- <-]; constructor].
    assert (e <> 13) as He13.
    { apply orb_true_iff in He as [He|He]; apply Z.eqb_eq in He; lia. }
    destruct (is_digit s) eqn:Hs.
    { destruct (span_digits u) as [ds r'] eqn:Hu. intros [= <- <-].
      constructor; [done|]. constructor; [by apply is_digit_no_cr|].
      by eapply span_digits_no_cr. }
    destruct ((s =? 45) || (s =? 43)) eqn:Hsign; [|intros [= <- <-]; constructor].
    assert (s <> 13) as Hs13.
    { apply orb_true_iff in Hsign as [Hx|Hx]; apply Z.eqb_eq in Hx; lia. }
    destruct u as [|d u]; [intros [= <- <-]; constructor|].
    destruct (is_digit d) eqn:Hd; [|intros [= <- <-]; constructor].
    destruct (span_digits u) as [ds r'] eqn:Hu. intros [= <- <-].
    repeat (constructor; [done|]).
    constructor; [by apply is_digit_no_cr|by eapply span_digits_no_cr]. }
  destruct t as [|c t]; [done|].
  destruct (Z.eqb_spec c 45) as [->|].
  - destruct (scan_int_part t) as [[ip t2]|] eqn:Hi; [|done].
    destruct (scan_frac t2) as [fp t3] eqn:Hf.
    destruct (scan_exp t3) as [ep t4] eqn:He. injection H as <- <-.
    constructor; [done|].
    rewrite !Forall_app. repeat split; eauto.
  - destruct (scan_int_part (c :: t)) as [[ip t2]|] eqn:Hi; [|done].
    destruct (scan_frac t2) as [fp t3] eqn:Hf.
    destruct (scan_exp t3) as [ep t4] eqn:He. injection H as <- <-.
    rewrite !Forall_app. repeat split; eauto.
Qed.

Lemma number_literal_no_cr lit :
  is_number_literal lit = true -> Forall (fun c => c <> 13) lit.
Proof.
  intros Hlit. unfold is_number_literal in Hlit.
  assert ((exists m, scan_number lit = Some (m, []))
          \/ lit = txt "NaN" \/ lit = txt "Infinity" \/ lit = txt "-Infinity")
    as [[m Hm]|Hconst].
  { destruct (scan_number lit) as [[m [|c r]]|]; [left; by exists m| |].
    all: right; rewrite !orb_true_iff in Hlit; unfold text_eqb in Hlit;
      rewrite !bool_decide_eq_true in Hlit; tauto. }
  - pose proof (scan_number_matched _ _ _ Hm) as Hlm. rewrite app_nil_r in Hlm.
    subst m. by eapply scan_number_no_cr.
  - destruct Hconst as [->|[->| ->]]; vm_compute; repeat constructor; discriminate.
Qed.

Lemma escape_char_no_cr c : Forall (fun d => d <> 13) (escape_char c).
Proof.
  assert (forall d, 0 <= d -> hex_digit d <> 13) as Hhex.
  { intros d Hd. unfold hex_digit. destruct (d <? 10); lia. }
  unfold escape_char.
  repeat (match goal with
          | |- context [?a =? ?b] => destruct (Z.eqb_spec a b)
          end; [by repeat constructor|]).
  destruct (Z.leb_spec 0 c), (Z.ltb_spec c 32); cbn [andb].
  - repeat (apply Forall_cons; split; [done|]).
    apply Forall_cons. split; [apply Hhex; Z.to_euclidean_division_equations; lia|].
    apply Forall_cons. split; [apply Hhex; Z.to_euclidean_division_equations; lia|].
    constructor.
  - by repeat constructor.
  - by repeat constructor.
  - by repeat constructor.
Qed.

Lemma encode_basestring_no_cr s : Forall (fun c => c <> 13) (encode_basestring s).
Proof.
  unfold encode_basestring. constructor; [done|].
  apply Forall_app. split; [|by repeat constructor].
  induction s as [|c s IH]; [constructor|].
  cbn [flat_map]. apply Forall_app. split; [apply escape_char_no_cr|exact IH].
Qed.

Lemma newline_indent_no_cr lvl : Forall (fun c => c <> 13) (newline_indent lvl).
Proof.
  unfold newline_indent. constructor; [done|].
  apply Forall_forall. intros c Hc. apply list_elem_of_In, repeat_spec in Hc. by subst.
Qed.

Lemma join_no_cr sep parts :
  Forall (fun c => c <> 13) sep ->
  Forall (Forall (fun c => c <> 13)) parts ->
  Forall (fun c => c <> 13) (join sep parts).
Proof.
  intros Hsep Hparts. induction Hparts as [|p ps Hp Hps IH]; [constructor|].
  destruct ps as [|q qs]; [done|].
  change (join sep (p :: q :: qs)) with (p ++ sep ++ join sep (q :: qs)).
  rewrite !Forall_app. by repeat split.
Qed.

(** [json.dump] escapes every carriage return of a string and writes none
    of its own. *)
Lemma iterencode_no_cr v :
  wf_json v = true -> forall lvl, Forall (fun c => c <> 13) (iterencode lvl v).
Proof.
  induction v as [ |b|lit|s|xs IH|kvs IH] using json_nested_ind; intros Hwf lvl.
  - vm_compute. by repeat constructor.
  - destruct b; vm_compute; by repeat constructor.
  - by apply number_literal_no_cr.
  - apply encode_basestring_no_cr.
  - destruct xs as [|x xs]; [vm_compute; by repeat constructor|].
    change (iterencode lvl (JList (x :: xs)))
      with ([91] ++ newline_indent (S lvl)
            ++ join (44 :: newline_indent (S lvl)) (map (iterencode (S lvl)) (x :: xs))
            ++ newline_indent lvl ++ [93]).
    rewrite !Forall_app. repeat split;
      try apply newline_indent_no_cr; try by repeat constructor.
    apply join_no_cr; [constructor; [done|apply newline_indent_no_cr]|].
    cbn [wf_json] in Hwf. rewrite forallb_forall in Hwf.
    rewrite Forall_forall in IH. apply Forall_forall. intros t Ht.
    apply list_elem_of_In, in_map_iff in Ht as (y & <- & Hy).
    apply IH; [by apply list_elem_of_In|by apply Hwf].
  - destruct kvs as [|kv kvs]; [vm_compute; by repeat constructor|].
    change (iterencode lvl (JDict (kv :: kvs)))
      with ([123] ++ newline_indent (S lvl)
            ++ join (44 :: newline_indent (S lvl))
                 (map (fun kv => encode_basestring (fst kv) ++ [58; 32]
                                 ++ iterencode (S lvl) (snd kv)) (kv :: kvs))
            ++ newline_indent lvl ++ [125]).
    rewrite !Forall_app. repeat split;
      try apply newline_indent_no_cr; try by repeat constructor.
    apply join_no_cr; [constructor; [done|apply newline_indent_no_cr]|].
    cbn [wf_json] in Hwf. apply andb_true_iff in Hwf as [_ Hwf].
    rewrite forallb_forall in Hwf.
    rewrite Forall_forall in IH. apply Forall_forall. intros t Ht.
    apply list_elem_of_In, in_map_iff in Ht as (y & <- & Hy).
    rewrite !Forall_app. split; [apply encode_basestring_no_cr|].
    split; [by repeat constructor|].
    apply IH; [by apply list_elem_of_In|].
    apply Hwf in Hy. by apply andb_true_iff in Hy as [_ ?].
Qed.

(** ** Saving and loading *)

(** Reconstruction reads a message back from the object [_save_memory]
    made of it. *)
Lemma load_message_to_json env m :
  wf_message m = true ->
  load_message env (message_to_json m) tt = (Ok m, tt).
Proof.
  intros Hwf. unfold wf_message in Hwf.
  apply andb_true_iff in Hwf as [_ Hts].
  unfold load_message, message_to_json, bind, subscript, of_option.
  assert (dict_get (txt "role")
            [(txt "role", JStr (role m)); (txt "content", JStr (content m));
             (txt "timestamp", JStr (isoformat (timestamp m)))]
          = Some (JStr (role m))) as -> by reflexivity.
  assert (dict_get (txt "content")
            [(txt "role", JStr (role m)); (txt "content", JStr (content m));
             (txt "timestamp", JStr (isoformat (timestamp m)))]
          = Some (JStr (content m))) as -> by reflexivity.
  assert (dict_get (txt "timestamp")
            [(txt "role", JStr (role m)); (txt "content", JStr (content m));
             (txt "timestamp", JStr (isoformat (timestamp m)))]
          = Some (JStr (isoformat (timestamp m)))) as -> by reflexivity.
  cbn [ret parse_timestamp]. rewrite (fromisoformat_isoformat env _ Hts).
  by destruct m.
Qed.

Lemma mapM_load_messages env ms :
  forallb wf_message ms = true ->
  mapM (load_message env) (map message_to_json ms) tt = (Ok ms, tt).
Proof.
  induction ms as [|m ms IH]; [done|]. intros Hwf.
  cbn [forallb] in Hwf. apply andb_true_iff in Hwf as [Hm Hms].
  cbn [map mapM]. unfold bind. rewrite (load_message_to_json env m Hm).
  by rewrite (IH Hms).
Qed.

Lemma reconstruct_memory_to_json env m :
  wf_memory m = true ->
  reconstruct env (memory_to_json m) tt = (Ok m, tt).
Proof.
  intros Hwf. unfold wf_memory in Hwf. apply andb_true_iff in Hwf as [Hms _].
  unfold reconstruct, memory_to_json, bind, subscript, of_option.
  assert (dict_get (txt "messages")
            [(txt "messages", JList (map message_to_json (messages m)));
             (txt "metadata", JDict (metadata m))]
          = Some (JList (map message_to_json (messages m)))) as -> by reflexivity.
  cbn [ret py_iter]. rewrite (mapM_load_messages env _ Hms).
  assert (dict_get (txt "metadata")
            [(txt "messages", JList (map message_to_json (messages m)));
             (txt "metadata", JDict (metadata m))]
          = Some (JDict (metadata m))) as -> by reflexivity.
  cbn [default validate_dict ret]. by destruct m.
Qed.

Lemma wf_memory_to_json m : wf_memory m = true -> wf_json (memory_to_json m) = true.
Proof.
  unfold wf_memory. intros Hwf. apply andb_true_iff in Hwf as [Hms Hmd].
  unfold memory_to_json.
  change (wf_json (JDict ?kvs))
    with (distinct_keys kvs
          && forallb (fun kv => is_str (fst kv) && wf_json (snd kv)) kvs).
  assert (wf_json (JList (map message_to_json (messages m))) = true) as Hl.
  { cbn [wf_json]. apply forallb_forall. intros v Hv.
    apply in_map_iff in Hv as (msg & <- & Hmsg).
    rewrite forallb_forall in Hms. specialize (Hms _ Hmsg).
    unfold wf_message in Hms. rewrite !andb_true_iff in Hms.
    destruct Hms as [[Hr Hc] Ht].
    unfold message_to_json.
    change (wf_json (JDict ?kvs))
      with (distinct_keys kvs
            && forallb (fun kv => is_str (fst kv) && wf_json (snd kv)) kvs).
    cbn [forallb fst snd wf_json]. rewrite Hr, Hc.
    assert (is_str (isoformat (timestamp msg)) = true) as ->.
    { unfold is_str. apply forallb_forall. intros c Hc'.
      unfold isoformat, pad4, pad2, pad6, digit in Hc'.
      assert (forall n, (0 <=? 48 + n mod 10) && (48 + n mod 10 <? 1114112) = true) as Hd.
      { intros n. pose proof (Z.mod_pos_bound n 10 ltac:(lia)).
        apply andb_true_iff. split; [apply Z.leb_le|apply Z.ltb_lt]; lia. }
      destruct (microsecond (timestamp msg) =? 0); simpl in Hc';
        repeat (destruct Hc' as [<-|Hc']; [first [apply Hd|reflexivity]|]); done. }
    reflexivity. }
  cbn [forallb fst snd]. rewrite Hl, Hmd. reflexivity.
Qed.

(** A save that succeeded left the whole encoding of the memory in the
    memory file. *)
Lemma save_memory_succeeded env fault path m (fs fs' : filesystem) :
  _save_memory env fault path m fs = (Ok SavedSuccessfully, fs') ->
  exists data,
    fs' !! path = Some data
    /\ encode_prefix (newlines_out (posix env) (json_dumps (memory_to_json m))) = (data, true).
Proof.
  assert (path +:+ ".bak" <> path) as Hne by (by apply string_app_ne).
  unfold _save_memory, try_except. intros H.
  destruct (bind get _ fs) as [[l|e|] fs1] eqn:Hbody.
  - injection H as -> ->.
    unfold bind at 1 in Hbody. unfold get in Hbody.
    match type of Hbody with
    | bind ?step1 _ _ = _ => destruct (step1 fs) as [[[]|e|] fs0] eqn:Hstep1
    end;
      unfold bind at 1 in Hbody; rewrite Hstep1 in Hbody; try discriminate.
    unfold bind at 1 in Hbody.
    destruct (write_text_cases env fault path (json_dumps (memory_to_json m)) fs0)
      as [(data & Hw & Hfault & Henc)|(e & fs2 & Hw & Hfs2)];
      rewrite Hw in Hbody; [|discriminate].
    exists data. split; [|done].
    unfold bind, get, unlink, ret in Hbody.
    destruct (file_exists (path +:+ ".bak") (<[path:=data]> fs0)).
    + destruct (_ !! (path +:+ ".bak")); [|discriminate].
      injection Hbody as <-. rewrite lookup_delete_ne by done.
      by rewrite lookup_insert_eq.
    + injection Hbody as <-. by rewrite lookup_insert_eq.
  - exfalso. revert H. unfold bind, get, ret, rename.
    repeat (case_match; simplify_eq; try done).
  - discriminate.
Qed.

(** C5.  For every memory (any number of messages) whose save succeeds,
    loading the file that was written gives the memory back: the same
    messages in the same order, with the same role, content and timestamp
    each, the timestamps having gone through [isoformat] and
    [fromisoformat]; the metadata too.  The file is left as written. *)
Theorem C5_save_then_load env fault path m (fs fs' : filesystem) :
  wf_memory m = true ->
  _save_memory env fault path m fs = (Ok SavedSuccessfully, fs') ->
  _load_memory env path fs' = (Ok m, fs')
  /\ forall loaded,
       fst (_load_memory env path fs') = Ok loaded ->
       map (fun msg => (role msg, content msg, timestamp msg)) (messages loaded)
       = map (fun msg => (role msg, content msg, timestamp msg)) (messages m).
Proof.
  intros Hwf Hsave.
  assert (_load_memory env path fs' = (Ok m, fs')) as Hload.
  { destruct (save_memory_succeeded _ _ _ _ _ _ Hsave) as (data & Hfile & Henc).
    pose proof (wf_memory_to_json m Hwf) as Hwj.
    rewrite (load_memory_decoded env path fs' data _ Hfile
               (utf8_decode_encode_prefix _ _ Henc)).
    rewrite universal_newlines_out by (by apply iterencode_no_cr).
    rewrite (json_loads_dumps _ Hwj).
    by rewrite (reconstruct_memory_to_json env m Hwf). }
  split; [done|]. intros loaded. rewrite Hload. by intros [= <-].
Qed.

(** The theorem at [sample_memory], saved on Windows where no file was. *)
Lemma C5_save_then_load_witness :
  _load_memory (installation false []) "chat_memory.json"
    (snd (_save_memory (installation false []) NoFault "chat_memory.json"
            sample_memory ∅))
  = (Ok sample_memory,
     snd (_save_memory (installation false []) NoFault "chat_memory.json"
            sample_memory ∅))
  /\ forall loaded,
       fst (_load_memory (installation false []) "chat_memory.json"
              (snd (_save_memory (installation false []) NoFault "chat_memory.json"
                      sample_memory ∅)))
       = Ok loaded ->
       map (fun msg => (role msg, content msg, timestamp msg)) (messages loaded)
       = map (fun msg => (role msg, content msg, timestamp msg)) (messages sample_memory).
Proof.
  apply (C5_save_then_load (installation false []) NoFault "chat_memory.json"
           sample_memory ∅
           (snd (_save_memory (installation false []) NoFault "chat_memory.json"
                   sample_memory ∅)));
    [reflexivity | vm_compute; reflexivity].
Defined.

(** ** JSON: the decoder never runs out of fuel *)

Lemma skip_ws_length t : (length (skip_ws t) <= length t)%nat.
Proof. induction t as [|c t IH]; simpl; [lia|]. destruct (is_ws c); simpl; lia. Qed.

Lemma skip_ws_cons_length t c r : skip_ws t = c :: r -> (S (length r) <= length t)%nat.
Proof. intros H. pose proof (skip_ws_length t) as Hl. rewrite H in Hl. exact Hl. Qed.

Lemma cons_char_length c o s r :
  cons_char c o = Some (s, r) -> exists s', o = Some (s', r).
Proof. destruct o as [[s' r']|]; [|done]. intros [= <- <-]. eauto. Qed.

Lemma scanstring_progress t s r :
  scanstring t = Some (s, r) -> (S (length r) <= length t)%nat.
Proof.
  revert s r. induction t as [t IH] using (induction_ltof1 _ (@length Z)).
  unfold ltof in IH. intros s r H.
  destruct t as [|c t]; [done|]. cbn [scanstring] in H.
  repeat (case_match; simplify_eq; try (simpl; lia));
    repeat match goal with
           | H : cons_char _ _ = Some _ |- _ =>
               apply cons_char_length in H as (? & H)
           | H : scanstring _ = Some _ |- _ => apply IH in H; [|simpl; lia]
           end;
    simpl in *; lia.
Qed.

Lemma span_digits_length t ds r :
  span_digits t = (ds, r) -> (length r <= length t)%nat.
Proof. intros H. apply span_digits_matched in H as ->. rewrite length_app. lia. Qed.

Lemma scan_number_progress t m r :
  scan_number t = Some (m, r) -> (S (length r) <= length t)%nat.
Proof.
  intros H. pose proof (scan_number_matched _ _ _ H) as ->.
  destruct (scan_number_head _ _ _ H) as (c & t' & Ht & _).
  rewrite length_app.
  assert (1 <= length m)%nat; [|lia].
  destruct m as [|c' m']; [|simpl; lia]. exfalso.
  unfold scan_number in H. rewrite Ht in H.
  destruct (c =? 45); simpl in H;
    repeat (case_match; simplify_eq).
Qed.

Lemma strip_prefix_length p t r :
  strip_prefix p t = Some r -> length t = (length p + length r)%nat.
Proof.
  revert t. induction p as [|a p IH]; intros [|b t] H; simpl in *; simplify_eq; try done.
  destruct (a =? b); [|done]. by rewrite (IH _ H).
Qed.

Ltac measure_scans IHo IHa IHb :=
  repeat match goal with
         | H : scanstring _ = Some _ |- _ => apply scanstring_progress in H
         | H : scan_number _ = Some _ |- _ => apply scan_number_progress in H
         | H : strip_prefix _ _ = Some _ |- _ => apply strip_prefix_length in H
         | H : skip_ws _ = _ :: _ |- _ => apply skip_ws_cons_length in H
         | H : scan_once _ _ = Scanned _ _ |- _ => apply IHo in H
         | H : scan_array_items _ _ = Scanned _ _ |- _ => apply IHa in H
         | H : scan_object_items _ _ = Scanned _ _ |- _ => apply IHb in H
         end;
  repeat match goal with
         | H : context [length (skip_ws ?x)] |- _ =>
             pose proof (skip_ws_length x); generalize dependent (skip_ws x); intros
         end.

(** Whatever is decoded, at least one character is consumed. *)
Lemma scan_progress fuel :
  (forall t v r, scan_once fuel t = Scanned v r -> (S (length r) <= length t)%nat)
  /\ (forall t vs r, scan_array_items fuel t = Scanned vs r ->
                     (S (length r) <= length t)%nat)
  /\ (forall t kvs r, scan_object_items fuel t = Scanned kvs r ->
                      (S (length r) <= length t)%nat).
Proof.
  induction fuel as [|f (IHo & IHa & IHb)]; [by repeat split|].
  split; [|split].
  - intros [|c t] v r H; [done|]. cbn [scan_once] in H.
    repeat (case_match; simplify_eq); measure_scans IHo IHa IHb; simpl in *; lia.
  - intros t vs r H. cbn [scan_array_items] in H.
    repeat (case_match; simplify_eq); measure_scans IHo IHa IHb; simpl in *; lia.
  - intros t kvs r H. cbn [scan_object_items] in H.
    repeat (case_match; simplify_eq); measure_scans IHo IHa IHb;
      simpl in *; lia.
Qed.

(** With fuel above twice the length of the text, the decoder never stops for
    lack of fuel: its answer is the one of [json.loads]. *)
Lemma scan_fuel_enough fuel :
  (forall t, (2 * length t + 1 <= fuel)%nat -> scan_once fuel t <> Exhausted)
  /\ (forall t, (2 * length t + 2 <= fuel)%nat -> scan_array_items fuel t <> Exhausted)
  /\ (forall t, (2 * length t + 2 <= fuel)%nat -> scan_object_items fuel t <> Exhausted).
Proof.
  induction fuel as [|f (IHo & IHa & IHb)]; [repeat split; intros; lia|].
  destruct (scan_progress f) as (Po & Pa & Pb).
  split; [|split].
  - intros [|c t] Hf H; [done|]. cbn [scan_once] in H.
    repeat (case_match; simplify_eq);
      match goal with
      | H : scan_array_items f _ = Exhausted |- _ => apply IHa in H; [done|]
      | H : scan_object_items f _ = Exhausted |- _ => apply IHb in H; [done|]
      end;
      measure_scans Po Pa Pb; simpl in *; lia.
  - intros t Hf H. cbn [scan_array_items] in H.
    repeat (case_match; simplify_eq);
      match goal with
      | H : scan_array_items f _ = Exhausted |- _ => apply IHa in H; [done|]
      | H : scan_once f _ = Exhausted |- _ => apply IHo in H; [done|]
      end;
      measure_scans Po Pa Pb;
      try match goal with
          | |- context [length (skip_ws ?x)] => pose proof (skip_ws_length x)
          end;
      simpl in *; lia.
  - intros t Hf H. cbn [scan_object_items] in H.
    repeat (case_match; simplify_eq);
      match goal with
      | H : scan_object_items f _ = Exhausted |- _ => apply IHb in H; [done|]
      | H : scan_once f _ = Exhausted |- _ => apply IHo in H; [done|]
      end;
      measure_scans Po Pa Pb;
      try match goal with
          | |- context [length (skip_ws ?x)] => pose proof (skip_ws_length x)
          end;
      simpl in *; lia.
Qed.

Lemma scan_once_fuel s : scan_once (S (2 * length s)) (skip_ws s) <> Exhausted.
Proof.
  apply (proj1 (scan_fuel_enough _)). pose proof (skip_ws_length s). lia.
Qed.

(* ===================================================================== *)
(** * Part III: further properties of the code                            *)
(* ===================================================================== *)

(** ** The limiter: how long [wait_for_capacity] waits *)

Lemma wait_loop_exit fuel st st' :
  wait_loop fuel st = (Ok tt, st') ->
  exists k : nat,
    (k < fuel)%nat
    /\ clock st' = clock st + timedelta_seconds (Z.of_nat k)
    /\ trace st' = trace st ++ repeat (Slept Polling 1) k
    /\ Z.of_nat (length (requests (rate_limiter st'))) < max_requests (rate_limiter st')
    /\ (fst (can_make_request (clock st) (rate_limiter st)) = true -> k = 0%nat).
Proof.
  revert st. induction fuel as [|fuel IH]; intros st H; [discriminate|].
  cbn [wait_loop] in H. unfold bind at 1 in H. unfold poll_capacity in H.
  destruct (can_make_request (clock st) (rate_limiter st)) as [ok rl] eqn:Hcan.
  destruct ok.
  - injection H as <-. exists 0%nat. simpl.
    unfold can_make_request in Hcan. injection Hcan as Hlt <-. simpl.
    apply Z.ltb_lt in Hlt. rewrite app_nil_r. unfold timedelta_seconds.
    repeat split; [lia|lia|exact Hlt].
  - rewrite (bind_ok _ _ _ _ _ (sleep_ok Polling 1 _ ltac:(lia))) in H.
    apply IH in H as (k & Hk & Hclock & Htrace & Hlen & _).
    exists (S k). simpl in Hclock, Htrace.
    split; [lia|]. split; [rewrite Hclock; unfold timedelta_seconds; lia|].
    split; [rewrite Htrace; simpl; by rewrite <- app_assoc|].
    split; [exact Hlen|]. simpl. discriminate.
Qed.

Lemma fold_right_max_past now q :
  Forall (fun r => r <= now) q -> fold_right Z.max now q = now.
Proof. induction 1 as [|r q Hr Hq IH]; simpl; [done|]. rewrite IH. lia. Qed.

Lemma sleeps_app tr1 tr2 : sleeps (tr1 ++ tr2) = sleeps tr1 ++ sleeps tr2.
Proof. unfold sleeps. by rewrite flat_map_app. Qed.

Lemma sleeps_polling k : sleeps (repeat (Slept Polling 1) k) = repeat (Polling, 1) k.
Proof. induction k as [|k IH]; [done|]. simpl. by rewrite <- IH. Qed.

(** X1.  [wait_for_capacity] with a positive limit and no record ahead of
    the clock returns after whole seconds of polling, at most the window
    and one second of them, and none when there is capacity at once; when
    it returns the deque holds fewer records than the limit.  It makes no
    call and touches neither the memory nor the files. *)
Theorem X1_wait_for_capacity_is_bounded st :
  0 < max_requests (rate_limiter st) ->
  Forall (fun r => r <= clock st) (requests (rate_limiter st)) ->
  exists st' (k : nat),
    wait_for_capacity st = (Ok tt, st')
    /\ clock st' = clock st + timedelta_seconds (Z.of_nat k)
    /\ Z.of_nat k <= Z.max 0 (window_size (rate_limiter st) + 1)
    /\ sleeps (trace st') = sleeps (trace st) ++ repeat (Polling, 1) k
    /\ (fst (can_make_request (clock st) (rate_limiter st)) = true -> k = 0%nat)
    /\ Z.of_nat (length (requests (rate_limiter st'))) < max_requests (rate_limiter st)
    /\ memory st' = memory st /\ files st' = files st /\ calls st' = calls st.
Proof.
  intros Hpos Hpast.
  destruct (wait_for_capacity_returns st Hpos) as (st' & Hrun & Hw).
  pose proof Hrun as Hrun'.
  unfold wait_for_capacity, bind, get, modify in Hrun'.
  destruct (wait_loop _ st) as [[[]| |] st1] eqn:Hloop; try discriminate.
  injection Hrun' as <-.
  apply wait_loop_exit in Hloop as (k & Hk & Hclock & Htrace & Hlen & Hnow).
  exists (log CapacityGranted st1), k.
  destruct Hw as [_ Hmem Hfiles Hcalls Hmax _ _].
  split; [exact Hrun|]. split; [exact Hclock|].
  split.
  { unfold polls_needed in Hk. rewrite (fold_right_max_past _ _ Hpast) in Hk.
    rewrite Z.sub_diag in Hk. change (0 / 1000000) with 0 in Hk. lia. }
  split.
  { simpl. rewrite Htrace, !sleeps_app, sleeps_polling. simpl. by rewrite app_nil_r. }
  split; [exact Hnow|].
  split; [simpl in *; by rewrite <- Hmax|].
  done.
Qed.

(** The theorem at a limiter of two requests a minute that recorded two
    requests twenty seconds ago: the wait is forty-one seconds. *)
Lemma X1_wait_for_capacity_is_bounded_witness :
  exists st' (k : nat),
    wait_for_capacity
      {| memory_file := "chat_memory.json"; memory := empty_memory;
         rate_limiter := {| max_requests := 2; window_size := 60;
                            requests := [0; 0] |};
         files := ∅; clock := 20000000; calls := 0%nat; trace := [] |}
    = (Ok tt, st')
    /\ clock st' = 20000000 + timedelta_seconds (Z.of_nat k)
    /\ Z.of_nat k <= Z.max 0 (60 + 1)
    /\ sleeps (trace st') = [] ++ repeat (Polling, 1) k
    /\ (fst (can_make_request 20000000
               {| max_requests := 2; window_size := 60; requests := [0; 0] |}) = true ->
        k = 0%nat)
    /\ Z.of_nat (length (requests (rate_limiter st'))) < 2
    /\ memory st' = empty_memory /\ files st' = ∅ /\ calls st' = 0%nat.
Proof.
  apply (X1_wait_for_capacity_is_bounded
           {| memory_file := "chat_memory.json"; memory := empty_memory;
              rate_limiter := {| max_requests := 2; window_size := 60;
                                 requests := [0; 0] |};
              files := ∅; clock := 20000000; calls := 0%nat; trace := [] |}).
  - simpl. lia.
  - simpl. repeat constructor; lia.
Defined.

(** X2.  With a limit that is not positive there is never capacity:
    whatever the number of checks allowed, the loop of [wait_for_capacity]
    has not returned. *)
Theorem X2_no_capacity_without_a_limit st :
  max_requests (rate_limiter st) <= 0 ->
  (forall fuel, fst (wait_loop fuel st) = Hang)
  /\ fst (wait_for_capacity st) = Hang.
Proof.
  intros Hmax.
  assert (forall fuel st, max_requests (rate_limiter st) <= 0 ->
                          fst (wait_loop fuel st) = Hang) as Hloop.
  { clear. intros fuel. induction fuel as [|fuel IH]; intros st Hmax; [done|].
    cbn [wait_loop]. unfold bind at 1. unfold poll_capacity, can_make_request.
    destruct (Z.ltb_spec (Z.of_nat (length (popleft_while_old
                (clock st - timedelta_seconds (window_size (rate_limiter st)))
                (requests (rate_limiter st))))) (max_requests (rate_limiter st))); [lia|].
    rewrite (bind_ok _ _ _ _ _ (sleep_ok Polling 1 _ ltac:(lia))).
    by apply IH. }
  split; [intros fuel; by apply Hloop|].
  unfold wait_for_capacity, bind, get.
  specialize (Hloop (polls_needed (clock st) (rate_limiter st)) st Hmax).
  destruct (wait_loop _ st) as [[[]| |] st1]; simpl in *; congruence.
Qed.

Lemma X2_no_capacity_without_a_limit_witness :
  (forall fuel,
     fst (wait_loop fuel
            {| memory_file := "chat_memory.json"; memory := empty_memory;
               rate_limiter := RateLimiter_init 0 60;
               files := ∅; clock := 0; calls := 0%nat; trace := [] |}) = Hang)
  /\ fst (wait_for_capacity
            {| memory_file := "chat_memory.json"; memory := empty_memory;
               rate_limiter := RateLimiter_init 0 60;
               files := ∅; clock := 0; calls := 0%nat; trace := [] |}) = Hang.
Proof.
  apply (X2_no_capacity_without_a_limit
           {| memory_file := "chat_memory.json"; memory := empty_memory;
              rate_limiter := RateLimiter_init 0 60;
              files := ∅; clock := 0; calls := 0%nat; trace := [] |}).
  simpl. lia.
Defined.

(** ** The limiter over a session: the rate is respected *)

Lemma records_app tr1 tr2 : records (tr1 ++ tr2) = records tr1 ++ records tr2.
Proof. unfold records. by rewrite flat_map_app. Qed.

Lemma rate_respected_app limit window earlier evs1 evs2 :
  rate_respected limit window earlier evs1 ->
  rate_respected limit window (earlier ++ records evs1) evs2 ->
  rate_respected limit window earlier (evs1 ++ evs2).
Proof.
  revert earlier. induction evs1 as [|e evs1 IH]; intros earlier H1 H2.
  - simpl in *. by rewrite app_nil_r in H2.
  - destruct e as [|q|t|site s]; simpl in *; try by apply IH.
    destruct H1 as [Hlt H1]. split; [done|]. apply IH; [done|].
    by rewrite <- app_assoc.
Qed.

Lemma popleft_while_old_split ws q :
  exists dropped,
    q = dropped ++ popleft_while_old ws q /\ Forall (fun t => t < ws) dropped.
Proof.
  induction q as [|r q (dropped & Hq & Hold)]; [by exists []|].
  simpl. destruct (Z.ltb_spec r ws).
  - exists (r :: dropped). split; [simpl; by rewrite <- Hq|by constructor].
  - by exists [].
Qed.

Lemma paced_refl st : limiter_ok st -> paced st st.
Proof.
  intros Hok. split; try done. exists []. by rewrite app_nil_r.
Qed.

Lemma paced_trans st1 st2 st3 : paced st1 st2 -> paced st2 st3 -> paced st1 st3.
Proof.
  intros [_ Hm1 Hw1 (evs1 & Ht1 & Hr1)] [Hok Hm2 Hw2 (evs2 & Ht2 & Hr2)].
  split; [done|congruence|congruence|].
  exists (evs1 ++ evs2). split; [rewrite Ht2, Ht1; by rewrite app_assoc|].
  apply rate_respected_app; [done|].
  rewrite Hm1, Hw1, Ht1, records_app in Hr2. exact Hr2.
Qed.

(** Time that passes leaves the limiter sound. *)
Lemma paced_slept site seconds st :
  0 <= seconds -> limiter_ok st -> paced st (slept site seconds st).
Proof.
  intros Hs [(dropped & Hrec & Hold) Hpast Hbound Hpos].
  split; try done.
  - split; simpl; try done.
    + exists dropped. rewrite records_app. simpl. rewrite app_nil_r. split; [done|].
      eapply Forall_impl; [exact Hold|]. simpl. unfold timedelta_seconds. intros; lia.
    + rewrite records_app. simpl. rewrite app_nil_r.
      eapply Forall_impl; [exact Hpast|]. simpl. unfold timedelta_seconds. intros; lia.
  - by exists [Slept site seconds].
Qed.

Lemma paced_rested st st' : limiter_ok st -> rested st st' -> paced st st'.
Proof.
  intros Hok [->|(site & seconds & Hs & ->)]; [by apply paced_refl|by apply paced_slept].
Qed.

(** A check trims the deque of records older than the window. *)
Lemma paced_poll st ok st' :
  limiter_ok st ->
  poll_capacity st = (Ok ok, st') ->
  paced st st'
  /\ (ok = true ->
      Z.of_nat (length (requests (rate_limiter st'))) < max_requests (rate_limiter st')).
Proof.
  intros [(dropped & Hrec & Hold) Hpast Hbound Hpos] H.
  unfold poll_capacity, can_make_request in H. injection H as Hok <-.
  destruct (popleft_while_old_split
              (clock st - timedelta_seconds (window_size (rate_limiter st)))
              (requests (rate_limiter st))) as (more & Hq & Hmore).
  split.
  - split; simpl; try done.
    + split; simpl; try done.
      * exists (dropped ++ more). split.
        -- rewrite Hrec. rewrite Hq at 1. by rewrite app_assoc.
        -- by apply Forall_app.
      * pose proof (popleft_while_old_length
                      (clock st - timedelta_seconds (window_size (rate_limiter st)))
                      (requests (rate_limiter st))). lia.
    + exists []. by rewrite app_nil_r.
  - intros ->. simpl. by apply Z.ltb_lt.
Qed.

Lemma paced_wait_loop fuel st st' :
  limiter_ok st ->
  wait_loop fuel st = (Ok tt, st') ->
  paced st st'
  /\ Z.of_nat (length (requests (rate_limiter st'))) < max_requests (rate_limiter st').
Proof.
  revert st. induction fuel as [|fuel IH]; intros st Hok H; [discriminate|].
  cbn [wait_loop] in H. unfold bind at 1 in H.
  destruct (poll_capacity st) as [[ok| |] st1] eqn:Hpoll; try discriminate.
  destruct (paced_poll _ _ _ Hok Hpoll) as [Hp Hlen].
  destruct ok.
  - injection H as <-. split; [done|by apply Hlen].
  - rewrite (bind_ok _ _ _ _ _ (sleep_ok Polling 1 _ ltac:(lia))) in H.
    pose proof (paced_slept Polling 1 st1 ltac:(lia) (paced_ok _ _ Hp)) as Hp2.
    apply IH in H as [Hp3 Hlen3]; [|by destruct Hp2].
    split; [|done]. eapply paced_trans; [exact Hp|]. eapply paced_trans; done.
Qed.

Lemma paced_logged e st :
  (forall t, e <> Recorded t) -> limiter_ok st -> paced st (log e st).
Proof.
  intros He [(dropped & Hrec & Hold) Hpast Hbound Hpos].
  assert (records [e] = []) as Hnone by (destruct e; try done; by destruct (He now)).
  split; try done.
  - split; simpl; try done.
    + exists dropped. by rewrite records_app, Hnone, app_nil_r.
    + by rewrite records_app, Hnone, app_nil_r.
  - exists [e]. split; [done|]. destruct e; done.
Qed.

Lemma paced_wait st st1 :
  limiter_ok st ->
  wait_for_capacity st = (Ok tt, st1) ->
  paced st st1
  /\ Z.of_nat (length (requests (rate_limiter st1))) < max_requests (rate_limiter st1).
Proof.
  intros Hok H. unfold wait_for_capacity, bind, get, modify in H.
  destruct (wait_loop _ st) as [[[]| |] st0] eqn:Hloop; try discriminate.
  injection H as <-.
  destruct (paced_wait_loop _ _ _ Hok Hloop) as [Hp Hlen].
  split; [|done].
  eapply paced_trans; [exact Hp|]. apply paced_logged; [done|by destruct Hp].
Qed.

Lemma paced_called prompt st : limiter_ok st -> paced st (called prompt st).
Proof.
  intros [(dropped & Hrec & Hold) Hpast Hbound Hpos].
  split; try done.
  - split; simpl; try done.
    + exists dropped. by rewrite records_app, app_nil_r.
    + by rewrite records_app, app_nil_r.
  - by exists [Requested prompt].
Qed.

(** A record made while the deque is under the limit respects the rate:
    every earlier record that is still in the window is in the deque. *)
Lemma paced_recorded st :
  limiter_ok st ->
  Z.of_nat (length (requests (rate_limiter st))) < max_requests (rate_limiter st) ->
  paced st (recorded st).
Proof.
  intros [(dropped & Hrec & Hold) Hpast Hbound Hpos] Hlen.
  split; try done.
  - split; simpl; try done.
    + exists dropped. rewrite records_app. simpl. rewrite Hrec. by rewrite app_assoc.
    + rewrite records_app. simpl. apply Forall_app. split; [done|]. by repeat constructor.
    + rewrite length_app. simpl. lia.
  - exists [Recorded (clock st)]. split; [done|]. simpl. split; [|done].
    unfold in_window. rewrite Hrec, filter_app, length_app.
    assert (filter (fun t => clock st - timedelta_seconds (window_size (rate_limiter st)) <= t)
                   dropped = []) as ->.
    { clear -Hold. induction Hold as [|t l Ht Hl IH]; [done|].
      rewrite filter_cons. destruct (decide _); [lia|done]. }
    simpl. pose proof (length_filter
      (fun t => clock st - timedelta_seconds (window_size (rate_limiter st)) <= t)
      (requests (rate_limiter st))). lia.
Qed.

Lemma backoff_or_raise_rested attempt {A} e st :
  rested st (snd (backoff_or (A:=A) attempt (raise e) st)).
Proof.
  unfold backoff_or. destruct (attempt <? RETRY_ATTEMPTS - 1); [|by left].
  unfold bind, sleep. destruct (Z.ltb_spec (RETRY_DELAY * (attempt + 1)) 0); [by left|].
  right. by exists Backoff, (RETRY_DELAY * (attempt + 1)).
Qed.

Lemma httpx_pass_rested env prompt attempt st st1 :
  wait_for_capacity st = (Ok tt, st1) ->
  rested
    (if answered env (calls st1) then recorded (called prompt st1) else called prompt st1)
    (snd (try_except (Httpx.attempt_body env prompt) (Httpx.attempt_handlers attempt) st)).
Proof.
  intros Hw. unfold answered.
  destruct (transport env (calls st1)) as [status ra b|e] eqn:Ht.
  - destruct (Z.eq_dec status 429) as [->|H429].
    + destruct (Httpx.advertised_delay ra) as [w|] eqn:Hd.
      * destruct (Z.le_gt_cases 0 w) as [Hpos|Hneg].
        -- rewrite (httpx_pass_429 _ _ _ _ _ _ _ _ Hw Ht Hd Hpos). right. eauto.
        -- rewrite (httpx_pass_429_bad_delay _ _ attempt _ _ _ _ Hw Ht).
           ++ apply backoff_or_raise_rested.
           ++ intros w' Hw'. rewrite Hd in Hw'. injection Hw' as <-. lia.
      * rewrite (httpx_pass_429_bad_delay _ _ attempt _ _ _ _ Hw Ht).
        -- apply backoff_or_raise_rested.
        -- intros w' Hw'. rewrite Hd in Hw'. discriminate.
    + destruct (decide (200 <= status < 300)) as [H2xx|H2xx].
      * rewrite (httpx_pass_success _ _ attempt _ _ _ _ _ Hw Ht H2xx).
        destruct b; [by left|apply backoff_or_raise_rested].
      * rewrite (httpx_pass_error_status _ _ attempt _ _ _ _ _ Hw Ht H429 H2xx).
        apply backoff_or_raise_rested.
  - rewrite (httpx_pass_failed _ _ attempt _ _ _ Hw Ht). apply backoff_or_raise_rested.
Qed.

Lemma openai_pass_rested env prompt attempt st st1 :
  wait_for_capacity st = (Ok tt, st1) ->
  rested
    (if succeeded env (calls st1) then recorded (called prompt st1) else called prompt st1)
    (snd (try_except (OpenAIClient.attempt_body env prompt)
                     (OpenAIClient.attempt_handlers env attempt) st)).
Proof.
  intros Hw. unfold succeeded.
  destruct (transport env (calls st1)) as [status ra b|e] eqn:Ht.
  - destruct (decide (200 <= status < 300)) as [H2xx|H2xx].
    + rewrite (openai_pass_success _ _ attempt _ _ _ _ _ Hw Ht H2xx).
      assert ((200 <=? status) && (status <? 300) = true) as ->.
      { apply andb_true_iff. split; [apply Z.leb_le|apply Z.ltb_lt]; lia. }
      destruct b; [by left|apply backoff_or_raise_rested].
    + rewrite (openai_pass_error_status _ _ attempt _ _ _ _ _ Hw Ht H2xx).
      assert ((200 <=? status) && (status <? 300) = false) as ->.
      { apply andb_false_iff.
        destruct (Z.leb_spec 200 status), (Z.ltb_spec status 300); auto; lia. }
      apply backoff_or_raise_rested.
  - rewrite (openai_pass_failed _ _ attempt _ _ _ Hw Ht). apply backoff_or_raise_rested.
Qed.

(** What a pass is made of, for the limiter: the wait, the call, the record
    if there is one, a sleep if there is one. *)
Lemma pass_paced prompt (recording : bool) st st1 st2 :
  limiter_ok st ->
  wait_for_capacity st = (Ok tt, st1) ->
  rested (if recording then recorded (called prompt st1) else called prompt st1) st2 ->
  paced st st2.
Proof.
  intros Hok Hw Hrest.
  destruct (paced_wait _ _ Hok Hw) as [Hp1 Hlen].
  pose proof (paced_called prompt st1 (paced_ok _ _ Hp1)) as Hp2.
  eapply paced_trans; [exact Hp1|]. eapply paced_trans; [exact Hp2|].
  destruct recording.
  - pose proof (paced_recorded (called prompt st1) (paced_ok _ _ Hp2) Hlen) as Hp3.
    eapply paced_trans; [exact Hp3|]. apply paced_rested; [by destruct Hp3|done].
  - apply paced_rested; [by destruct Hp2|done].
Qed.

Lemma httpx_retry_loop_paced env prompt attempts st :
  limiter_ok st -> paced st (snd (Httpx.retry_loop env prompt attempts st)).
Proof.
  revert st. induction attempts as [|attempt rest IH]; intros st Hok.
  - by apply paced_refl.
  - destruct (wait_for_capacity_returns st (limiter_positive _ Hok)) as (st1 & Hw & _).
    pose proof (pass_paced prompt _ _ _ _ Hok Hw
                  (httpx_pass_rested env prompt attempt _ _ Hw)) as Hp.
    cbn [Httpx.retry_loop]. unfold bind at 1.
    destruct (try_except _ _ st) as [[[v|]|e|] st2]; simpl in Hp; try done.
    eapply paced_trans; [exact Hp|]. apply IH. by destruct Hp.
Qed.

Lemma openai_retry_loop_paced env prompt attempts st :
  limiter_ok st -> paced st (snd (OpenAIClient.retry_loop env prompt attempts st)).
Proof.
  revert st. induction attempts as [|attempt rest IH]; intros st Hok.
  - by apply paced_refl.
  - destruct (wait_for_capacity_returns st (limiter_positive _ Hok)) as (st1 & Hw & _).
    pose proof (pass_paced prompt _ _ _ _ Hok Hw
                  (openai_pass_rested env prompt attempt _ _ Hw)) as Hp.
    cbn [OpenAIClient.retry_loop]. unfold bind at 1.
    destruct (try_except _ _ st) as [[[v|]|e|] st2]; simpl in Hp; try done.
    eapply paced_trans; [exact Hp|]. apply IH. by destruct Hp.
Qed.

(** After the send, [chat] leaves the limiter, the clock, the trace and
    the count of calls alone. *)
Lemma httpx_chat_after_send env fault message st :
  is_blank message = false ->
  let sent := snd (Httpx._make_api_request env (Httpx.build_prompt (memory st) message) st) in
  let st' := snd (Httpx.chat env fault message st) in
  trace st' = trace sent /\ rate_limiter st' = rate_limiter sent
  /\ clock st' = clock sent /\ calls st' = calls sent
  /\ memory_file st' = memory_file sent.
Proof.
  intros Hb. cbv zeta. unfold Httpx.chat. rewrite Hb.
  unfold try_except, bind, get, ret, raise, new_message, append_message, modify, on_files.
  destruct (Httpx._make_api_request _ _ st) as [[[a|]|e|] st1]; simpl; try done.
  destruct (_save_memory _ _ _ _ _) as [[l|e|] fs]; done.
Qed.

Lemma openai_chat_after_send env fault message st :
  is_blank message = false ->
  let sent := snd (OpenAIClient._make_api_request env
                     (OpenAIClient.build_prompt env (memory st) message) st) in
  let st' := snd (OpenAIClient.chat env fault message st) in
  trace st' = trace sent /\ rate_limiter st' = rate_limiter sent
  /\ clock st' = clock sent /\ calls st' = calls sent
  /\ memory_file st' = memory_file sent.
Proof.
  intros Hb. cbv zeta. unfold OpenAIClient.chat. rewrite Hb.
  unfold try_except, bind, get, ret, raise, new_message, append_message, modify, on_files.
  destruct (OpenAIClient._make_api_request _ _ st) as [[[a|]|e|] st1]; simpl; try done.
  destruct (_save_memory _ _ _ _ _) as [[l|e|] fs]; done.
Qed.

Lemma paced_same st st1 st' :
  paced st st1 ->
  trace st' = trace st1 -> rate_limiter st' = rate_limiter st1 -> clock st' = clock st1 ->
  paced st st'.
Proof.
  intros [[Hd Hpast Hb Hpos] Hm Hw Ht] Htr Hrl Hcl.
  split; [split|..]; rewrite ?Htr, ?Hrl, ?Hcl; done.
Qed.

(** X3.  The limiter is sound over a session.  In a session whose deque
    agrees with its trace, as it does when the session is constructed,
    [chat] keeps it so in both versions: the deque stays within
    [max_requests], and every request recorded during the exchange was
    made with fewer than [max_requests] records in the [window_size]
    seconds before it. *)
Theorem X3_rate_is_respected env fault message st :
  limiter_ok st ->
  (limiter_ok (snd (Httpx.chat env fault message st))
   /\ Z.of_nat (length (requests (rate_limiter (snd (Httpx.chat env fault message st)))))
      <= max_requests (rate_limiter st)
   /\ exists evs,
        trace (snd (Httpx.chat env fault message st)) = trace st ++ evs
        /\ rate_respected (max_requests (rate_limiter st)) (window_size (rate_limiter st))
             (records (trace st)) evs)
  /\ (limiter_ok (snd (OpenAIClient.chat env fault message st))
      /\ Z.of_nat (length (requests
                             (rate_limiter (snd (OpenAIClient.chat env fault message st)))))
         <= max_requests (rate_limiter st)
      /\ exists evs,
           trace (snd (OpenAIClient.chat env fault message st)) = trace st ++ evs
           /\ rate_respected (max_requests (rate_limiter st))
                (window_size (rate_limiter st)) (records (trace st)) evs).
Proof.
  intros Hok.
  assert (paced st (snd (Httpx.chat env fault message st))) as Hh.
  { destruct (is_blank message) eqn:Hb.
    - unfold Httpx.chat. rewrite Hb. by apply paced_refl.
    - destruct (httpx_chat_after_send env fault message st Hb) as (Ht & Hrl & Hcl & _).
      eapply paced_same; [|exact Ht|exact Hrl|exact Hcl].
      by apply httpx_retry_loop_paced. }
  assert (paced st (snd (OpenAIClient.chat env fault message st))) as Ho.
  { destruct (is_blank message) eqn:Hb.
    - unfold OpenAIClient.chat. rewrite Hb. by apply paced_refl.
    - destruct (openai_chat_after_send env fault message st Hb) as (Ht & Hrl & Hcl & _).
      eapply paced_same; [|exact Ht|exact Hrl|exact Hcl].
      by apply openai_retry_loop_paced. }
  split.
  - destruct Hh as [Hok' Hm _ Hev]. split; [done|]. split; [|done].
    rewrite <- Hm. by destruct Hok'.
  - destruct Ho as [Hok' Hm _ Hev]. split; [done|]. split; [|done].
    rewrite <- Hm. by destruct Hok'.
Qed.

(** A session just constructed is such a session. *)
Lemma limiter_ok_fresh path fs : limiter_ok (fresh_session path fs).
Proof.
  split; simpl; try done; try (unfold RATE_LIMIT_REQUESTS; lia).
  by exists [].
Qed.

(** The theorem at a first message answered 429 and then 200. *)
Lemma X3_rate_is_respected_witness :
  (limiter_ok (snd (Httpx.chat (installation true [status_response 429; ok_response "ok"])
                      NoFault (txt "Hello") (fresh_session "chat_memory.json" ∅)))
   /\ Z.of_nat (length (requests (rate_limiter
         (snd (Httpx.chat (installation true [status_response 429; ok_response "ok"])
                 NoFault (txt "Hello") (fresh_session "chat_memory.json" ∅))))))
      <= max_requests (rate_limiter (fresh_session "chat_memory.json" ∅))
   /\ exists evs,
        trace (snd (Httpx.chat (installation true [status_response 429; ok_response "ok"])
                      NoFault (txt "Hello") (fresh_session "chat_memory.json" ∅)))
        = trace (fresh_session "chat_memory.json" ∅) ++ evs
        /\ rate_respected (max_requests (rate_limiter (fresh_session "chat_memory.json" ∅)))
             (window_size (rate_limiter (fresh_session "chat_memory.json" ∅)))
             (records (trace (fresh_session "chat_memory.json" ∅))) evs)
  /\ (limiter_ok (snd (OpenAIClient.chat
                         (installation true [status_response 429; ok_response "ok"])
                         NoFault (txt "Hello") (fresh_session "chat_memory.json" ∅)))
      /\ Z.of_nat (length (requests (rate_limiter
            (snd (OpenAIClient.chat
                    (installation true [status_response 429; ok_response "ok"])
                    NoFault (txt "Hello") (fresh_session "chat_memory.json" ∅))))))
         <= max_requests (rate_limiter (fresh_session "chat_memory.json" ∅))
      /\ exists evs,
           trace (snd (OpenAIClient.chat
                         (installation true [status_response 429; ok_response "ok"])
                         NoFault (txt "Hello") (fresh_session "chat_memory.json" ∅)))
           = trace (fresh_session "chat_memory.json" ∅) ++ evs
           /\ rate_respected
                (max_requests (rate_limiter (fresh_session "chat_memory.json" ∅)))
                (window_size (rate_limiter (fresh_session "chat_memory.json" ∅)))
                (records (trace (fresh_session "chat_memory.json" ∅))) evs).
Proof.
  apply (X3_rate_is_respected (installation true [status_response 429; ok_response "ok"])
           NoFault (txt "Hello") (fresh_session "chat_memory.json" ∅)).
  apply limiter_ok_fresh.
Defined.

(** ** One exchange, from the message to the file *)

(** The restoring handler of [_save_memory] on POSIX. *)
Lemma save_memory_handler_posix env path e (fs : filesystem) :
  posix env = true ->
  exists fs',
    bind get (fun fs0 =>
      bind (if file_exists (path +:+ ".bak") fs0
            then rename env (path +:+ ".bak") path else ret tt)
           (fun _ => ret (ErrorSaving e))) fs
    = (Ok (ErrorSaving e), fs').
Proof.
  intros Hposix. unfold bind, get, ret, rename, file_exists. rewrite Hposix.
  destruct (fs !! (path +:+ ".bak")) eqn:Hbak; simpl; rewrite ?Hbak; eauto.
Qed.

(** On POSIX [_save_memory] does not raise: what goes wrong is logged. *)
Lemma save_memory_posix_returns env fault path m (fs : filesystem) :
  posix env = true ->
  exists log fs', _save_memory env fault path m fs = (Ok log, fs').
Proof.
  intros Hposix. unfold _save_memory, try_except.
  match goal with
  | |- context [match ?body fs with _ => _ end] =>
      destruct (body fs) as [[l|e|] fs1] eqn:Hbody
  end.
  - eauto.
  - destruct (save_memory_handler_posix env path e fs1 Hposix) as (fs' & ->). eauto.
  - exfalso. revert Hbody.
    unfold bind, get, ret, raise, of_option, rename, write_text, unlink.
    repeat (case_match; simplify_eq; try done).
Qed.

(** *** What is stored can be written *)

Ltac bounds_of_tests :=
  repeat match goal with
         | H : is_digit _ = true |- _ => unfold is_digit in H
         | H : _ && _ = true |- _ => apply andb_true_iff in H as [? ?]
         | H : _ || _ = true |- _ => apply orb_true_iff in H as [?|?]
         | H : (_ =? _) = true |- _ => apply Z.eqb_eq in H
         | H : (_ <=? _) = true |- _ => apply Z.leb_le in H
         end.

Lemma span_digits_ascii t ds r :
  span_digits t = (ds, r) -> Forall (fun c => 43 <= c < 128) ds.
Proof.
  revert ds r. induction t as [|c t IH]; intros ds r H; simpl in H.
  - injection H as <- <-. constructor.
  - destruct (is_digit c) eqn:Hc; [|injection H as <- <-; constructor].
    destruct (span_digits t) as [ds' r'] eqn:Ht. injection H as <- <-.
    constructor; [bounds_of_tests; lia|by eapply IH].
Qed.

(** A number literal is made of digits, signs, a dot and an [e]. *)
Lemma scan_number_ascii t m r :
  scan_number t = Some (m, r) -> Forall (fun c => 43 <= c < 128) m.
Proof.
  unfold scan_number, scan_int_part, scan_frac, scan_exp. intros H.
  repeat (case_match; simplify_eq);
    rewrite ?app_nil_r;
    repeat match goal with
           | H : span_digits _ = _ |- _ => apply span_digits_ascii in H
           end;
    rewrite ?Forall_app, ?Forall_cons; repeat split;
    try assumption; try apply Forall_nil_2; bounds_of_tests; lia.
Qed.

Lemma number_literal_ascii lit :
  is_number_literal lit = true -> Forall (fun c => 43 <= c < 128) lit.
Proof.
  intros Hlit. unfold is_number_literal in Hlit.
  assert ((exists m, scan_number lit = Some (m, []))
          \/ lit = txt "NaN" \/ lit = txt "Infinity" \/ lit = txt "-Infinity")
    as [[m Hm]|Hconst].
  { destruct (scan_number lit) as [[m [|c r]]|]; [left; by exists m| |].
    all: right; rewrite !orb_true_iff in Hlit; unfold text_eqb in Hlit;
      rewrite !bool_decide_eq_true in Hlit; tauto. }
  - pose proof (scan_number_matched _ _ _ Hm) as Hlm. rewrite app_nil_r in Hlm.
    subst m. by eapply scan_number_ascii.
  - apply Forall_forall. intros c Hc. apply list_elem_of_In in Hc.
    destruct Hconst as [->|[->| ->]]; cbv in Hc; intuition lia.
Qed.

Lemma is_scalar_ascii c : 0 <= c < 128 -> is_scalar c = true.
Proof.
  intros Hc. unfold is_scalar.
  destruct (Z.leb_spec 0 c), (Z.ltb_spec c 1114112), (Z.leb_spec 55296 c); simpl; lia.
Qed.

Lemma Forall_ascii_scalar t :
  Forall (fun c => 0 <= c < 128) t -> Forall (fun c => is_scalar c = true) t.
Proof. intros H. eapply Forall_impl; [exact H|]. intros c. apply is_scalar_ascii. Qed.

Lemma escape_char_scalar c :
  is_scalar c = true -> Forall (fun d => is_scalar d = true) (escape_char c).
Proof.
  intros Hc.
  assert (forall d, 0 <= d < 16 -> is_scalar (hex_digit d) = true) as Hhex.
  { intros d Hd. apply is_scalar_ascii. unfold hex_digit. destruct (d <? 10); lia. }
  unfold escape_char.
  repeat (match goal with
          | |- context [?a =? ?b] => destruct (Z.eqb_spec a b)
          end; [by repeat constructor|]).
  destruct (Z.leb_spec 0 c), (Z.ltb_spec c 32); cbn [andb]; try by repeat constructor.
  repeat (apply Forall_cons; split; [done|]).
  apply Forall_cons. split; [apply Hhex; Z.to_euclidean_division_equations; lia|].
  apply Forall_cons. split; [apply Hhex; Z.to_euclidean_division_equations; lia|].
  constructor.
Qed.

Lemma encode_basestring_scalar s :
  storable_text s = true -> Forall (fun c => is_scalar c = true) (encode_basestring s).
Proof.
  unfold storable_text, encode_basestring. intros Hs.
  constructor; [done|]. apply Forall_app. split; [|by repeat constructor].
  induction s as [|c s IH]; [constructor|].
  cbn [forallb] in Hs. apply andb_true_iff in Hs as [Hc Hs].
  cbn [flat_map]. apply Forall_app. split; [by apply escape_char_scalar|by apply IH].
Qed.

Lemma newline_indent_scalar lvl : Forall (fun c => is_scalar c = true) (newline_indent lvl).
Proof.
  unfold newline_indent. constructor; [done|].
  apply Forall_forall. intros c Hc. apply list_elem_of_In, repeat_spec in Hc. by subst.
Qed.

Lemma join_Forall (P : codepoint -> Prop) sep parts :
  Forall P sep -> Forall (Forall P) parts -> Forall P (join sep parts).
Proof.
  intros Hsep Hparts. induction Hparts as [|p ps Hp Hps IH]; [constructor|].
  destruct ps as [|q qs]; [done|].
  change (join sep (p :: q :: qs)) with (p ++ sep ++ join sep (q :: qs)).
  rewrite !Forall_app. by repeat split.
Qed.

Lemma txt_scalar s : Forall (fun c => is_scalar c = true) (txt s).
Proof.
  unfold txt. apply Forall_forall. intros c Hc.
  apply list_elem_of_In, in_map_iff in Hc as (a & <- & _).
  pose proof (N_ascii_bounded a). unfold is_scalar.
  destruct (Z.leb_spec 0 (Z.of_N (N_of_ascii a))),
    (Z.ltb_spec (Z.of_N (N_of_ascii a)) 1114112),
    (Z.leb_spec 55296 (Z.of_N (N_of_ascii a))); simpl; lia.
Qed.

(** [json.dump] writes the code points of the strings it is given, and
    ASCII of its own. *)
Lemma iterencode_scalar v :
  wf_json v = true -> storable_json v = true ->
  forall lvl, Forall (fun c => is_scalar c = true) (iterencode lvl v).
Proof.
  induction v as [ |b|lit|s|xs IH|kvs IH] using json_nested_ind; intros Hwf Hst lvl.
  - apply txt_scalar.
  - destruct b; apply txt_scalar.
  - apply Forall_ascii_scalar. cbn [wf_json] in Hwf.
    eapply Forall_impl; [by apply number_literal_ascii|]. simpl. intros; lia.
  - by apply encode_basestring_scalar.
  - destruct xs as [|x xs]; [apply txt_scalar|].
    change (iterencode lvl (JList (x :: xs)))
      with ([91] ++ newline_indent (S lvl)
            ++ join (44 :: newline_indent (S lvl)) (map (iterencode (S lvl)) (x :: xs))
            ++ newline_indent lvl ++ [93]).
    rewrite !Forall_app. repeat split;
      try apply newline_indent_scalar; try by repeat constructor.
    apply join_Forall; [constructor; [done|apply newline_indent_scalar]|].
    cbn [wf_json] in Hwf. rewrite forallb_forall in Hwf.
    cbn [storable_json] in Hst. rewrite forallb_forall in Hst.
    rewrite Forall_forall in IH. apply Forall_forall. intros t Ht.
    apply list_elem_of_In, in_map_iff in Ht as (y & <- & Hy).
    apply IH; [by apply list_elem_of_In|by apply Hwf|by apply Hst].
  - destruct kvs as [|kv kvs]; [apply txt_scalar|].
    change (iterencode lvl (JDict (kv :: kvs)))
      with ([123] ++ newline_indent (S lvl)
            ++ join (44 :: newline_indent (S lvl))
                 (map (fun kv => encode_basestring (fst kv) ++ [58; 32]
                                 ++ iterencode (S lvl) (snd kv)) (kv :: kvs))
            ++ newline_indent lvl ++ [125]).
    rewrite !Forall_app. repeat split;
      try apply newline_indent_scalar; try by repeat constructor.
    apply join_Forall; [constructor; [done|apply newline_indent_scalar]|].
    cbn [wf_json] in Hwf. apply andb_true_iff in Hwf as [_ Hwf].
    rewrite forallb_forall in Hwf.
    cbn [storable_json] in Hst. rewrite forallb_forall in Hst.
    rewrite Forall_forall in IH. apply Forall_forall. intros t Ht.
    apply list_elem_of_In, in_map_iff in Ht as (y & <- & Hy).
    pose proof (Hst _ Hy) as Hy2. apply andb_true_iff in Hy2 as [Hk Hv].
    rewrite !Forall_app. split; [by apply encode_basestring_scalar|].
    split; [by repeat constructor|].
    apply IH; [by apply list_elem_of_In| |done].
    apply Hwf in Hy. by apply andb_true_iff in Hy as [_ ?].
Qed.

Lemma newlines_out_scalar posix t :
  Forall (fun c => is_scalar c = true) t ->
  Forall (fun c => is_scalar c = true) (newlines_out posix t).
Proof.
  induction 1 as [|c t Hc Ht IH]; [constructor|].
  cbn [newlines_out]. destruct ((c =? 10) && negb posix); by repeat constructor.
Qed.

Lemma utf8_encode_cp_scalar c : is_scalar c = true -> exists bs, utf8_encode_cp c = Some bs.
Proof.
  unfold is_scalar, utf8_encode_cp. intros H.
  apply andb_true_iff in H as [H Hs]. apply andb_true_iff in H as [H0 H1].
  apply Z.leb_le in H0. apply Z.ltb_lt in H1.
  destruct (Z.ltb_spec c 0); [lia|].
  destruct (c <? 128); [eauto|]. destruct (c <? 2048); [eauto|].
  destruct (c <? 65536).
  - apply negb_true_iff in Hs. rewrite Hs. eauto.
  - destruct (Z.ltb_spec c 1114112); [eauto|lia].
Qed.

Lemma encode_prefix_scalar t :
  Forall (fun c => is_scalar c = true) t -> exists data, encode_prefix t = (data, true).
Proof.
  induction 1 as [|c t Hc Ht (data & IH)]; [by exists []|].
  destruct (utf8_encode_cp_scalar c Hc) as (bs & Hbs).
  cbn [encode_prefix]. rewrite Hbs, IH. eauto.
Qed.

Lemma isoformat_ascii d : Forall (fun c => 0 <= c < 128) (isoformat d).
Proof.
  assert (forall n, 0 <= digit n < 128) as Hd.
  { intros n. unfold digit. pose proof (Z.mod_pos_bound n 10 ltac:(lia)). lia. }
  unfold isoformat, pad4, pad2, pad6.
  destruct (microsecond d =? 0); simpl;
    repeat (constructor; [first [apply Hd|lia]|]); constructor.
Qed.

Lemma storable_memory_to_json m :
  storable_memory m = true -> storable_json (memory_to_json m) = true.
Proof.
  unfold storable_memory. intros H.
  apply andb_true_iff in H as [H Hmd]. apply andb_true_iff in H as [_ Hms].
  unfold memory_to_json.
  change (storable_json (JDict ?kvs))
    with (forallb (fun kv => storable_text (fst kv) && storable_json (snd kv)) kvs).
  cbn [forallb fst snd]. rewrite Hmd.
  assert (storable_json (JList (map message_to_json (messages m))) = true) as ->.
  { cbn [storable_json]. apply forallb_forall. intros v Hv.
    apply in_map_iff in Hv as (msg & <- & Hmsg).
    rewrite forallb_forall in Hms. specialize (Hms _ Hmsg).
    unfold storable_message in Hms. apply andb_true_iff in Hms as [Hr Hc].
    unfold message_to_json.
    change (storable_json (JDict ?kvs))
      with (forallb (fun kv => storable_text (fst kv) && storable_json (snd kv)) kvs).
    cbn [forallb fst snd storable_json]. rewrite Hr, Hc.
    assert (storable_text (isoformat (timestamp msg)) = true) as ->.
    { unfold storable_text. apply forallb_forall. intros c Hc'.
      pose proof (isoformat_ascii (timestamp msg)) as Hiso.
      rewrite Forall_forall in Hiso. apply is_scalar_ascii, Hiso.
      by apply list_elem_of_In. }
    reflexivity. }
  reflexivity.
Qed.

(** A memory that can be stored is written whole. *)
Lemma storable_memory_written posix m :
  storable_memory m = true ->
  exists data,
    encode_prefix (newlines_out posix (json_dumps (memory_to_json m))) = (data, true).
Proof.
  intros H. apply encode_prefix_scalar, newlines_out_scalar.
  apply iterencode_scalar.
  - apply wf_memory_to_json. unfold storable_memory in H.
    apply andb_true_iff in H as [H _]. by apply andb_true_iff in H as [? _].
  - by apply storable_memory_to_json.
Qed.

(** *** What [chat] does with the answer of the send *)

Lemma make_api_request_sends v env prompt : sends prompt 3 (_make_api_request v env prompt).
Proof.
  destruct v; [apply httpx_make_api_request_sends|apply openai_make_api_request_sends].
Qed.

(** A reply is appended with the message, and the memory is saved; only an
    exception out of [_save_memory] keeps the reply from being returned. *)
Lemma chat_replied v env fault message st reply st1 :
  is_blank message = false ->
  _make_api_request v env (build_prompt v env (memory st) message) st
  = (Ok (Some reply), st1) ->
  chat v env fault message st
  = match _save_memory env fault (memory_file st1)
            (remembered env (clock st1) message reply (memory st1)) (files st1) with
    | (Ok _, fs') =>
        (Ok reply,
         set_files fs' (set_memory (remembered env (clock st1) message reply (memory st1))
                                   st1))
    | (Raise e, fs') =>
        (Ok (txt "Error: " ++ py_str env e),
         set_files fs' (set_memory (remembered env (clock st1) message reply (memory st1))
                                   st1))
    | (Hang, fs') =>
        (Hang,
         set_files fs' (set_memory (remembered env (clock st1) message reply (memory st1))
                                   st1))
    end.
Proof.
  intros Hb Hrun.
  destruct v; unfold chat, Httpx.chat, OpenAIClient.chat; rewrite Hb;
    unfold _make_api_request, build_prompt in Hrun;
    unfold try_except, bind, get, ret, raise, new_message, append_message, modify, on_files;
    rewrite Hrun; simpl; unfold remembered; rewrite <- app_assoc; simpl;
    destruct (_save_memory _ _ _ _ _) as [[l|e|] fs]; reflexivity.
Qed.

(** No reply ([None]): the message is appended, the assistant message
    cannot be built, nothing is saved. *)
Lemma chat_not_replied v env fault message st st1 :
  is_blank message = false ->
  _make_api_request v env (build_prompt v env (memory st) message) st = (Ok None, st1) ->
  chat v env fault message st
  = (Ok (txt "Error: " ++ py_str env ValidationError),
     set_memory {| messages := messages (memory st1)
                               ++ [ {| role := txt "user"; content := message;
                                       timestamp := datetime_of env (clock st1) |} ];
                   metadata := metadata (memory st1) |} st1).
Proof.
  intros Hb Hrun.
  destruct v; unfold chat, Httpx.chat, OpenAIClient.chat; rewrite Hb;
    unfold _make_api_request, build_prompt in Hrun;
    unfold try_except, bind, get, ret, raise, new_message, append_message, modify, on_files;
    rewrite Hrun; reflexivity.
Qed.

Lemma chat_send_raises v env fault message st e st1 :
  is_blank message = false ->
  _make_api_request v env (build_prompt v env (memory st) message) st = (Raise e, st1) ->
  chat v env fault message st = (Ok (txt "Error: " ++ py_str env e), st1).
Proof.
  intros Hb Hrun.
  destruct v; unfold chat, Httpx.chat, OpenAIClient.chat; rewrite Hb;
    unfold _make_api_request, build_prompt in Hrun;
    unfold try_except, bind, get; rewrite Hrun; reflexivity.
Qed.

Lemma chat_blank v env fault message st :
  is_blank message = true ->
  chat v env fault message st = (Ok (txt "Message cannot be empty"), st).
Proof.
  intros Hb. destruct v; unfold chat, Httpx.chat, OpenAIClient.chat; by rewrite Hb.
Qed.

Lemma save_memory_never_hangs env fault path m (fs fs' : filesystem) :
  _save_memory env fault path m fs <> (Hang, fs').
Proof.
  unfold _save_memory, try_except, bind, get, ret, raise, of_option, rename,
    write_text, unlink.
  repeat (case_match; simplify_eq; try done).
Qed.

Lemma rested_calls st st' : rested st st' -> calls st' = calls st.
Proof. by intros [->|(site & seconds & _ & ->)]. Qed.

(** With a positive limit a send makes a physical call, and at most
    [RETRY_ATTEMPTS] of them. *)
Lemma make_api_request_calls v env prompt st :
  0 < max_requests (rate_limiter st) ->
  (calls st < calls (snd (_make_api_request v env prompt st)) <= calls st + 3)%nat.
Proof.
  intros Hpos. split.
  2:{ destruct (_make_api_request v env prompt st) as [r st'] eqn:Hrun.
      by destruct (make_api_request_sends v env prompt _ _ _ Hrun) as (_ & Hc & _). }
  destruct (wait_for_capacity_returns st Hpos) as (st1 & Hw & Hwaited).
  pose proof (waited_calls _ _ Hwaited) as Hc1.
  destruct v; unfold _make_api_request, Httpx._make_api_request,
    OpenAIClient._make_api_request; change (range RETRY_ATTEMPTS) with [0; 1; 2].
  - cbn [Httpx.retry_loop]. unfold bind at 1.
    pose proof (httpx_pass_rested env prompt 0 _ _ Hw) as Hpass.
    destruct (try_except _ _ st) as [r st2] eqn:Hrun. simpl in Hpass.
    apply rested_calls in Hpass.
    assert (calls st2 = S (calls st)) as Hc2.
    { rewrite Hpass. destruct (answered env (calls st1)); simpl; congruence. }
    destruct r as [[o|]|e|]; simpl; try lia.
    match goal with
    | |- context [snd (?m st2)] => destruct (m st2) as [r' st3] eqn:Hrest
    end.
    destruct (httpx_retry_loop_sends env prompt [1; 2] st2 r' st3 Hrest)
      as ([_ _ _ _ _ Hc3 _] & _). simpl. lia.
  - cbn [OpenAIClient.retry_loop]. unfold bind at 1.
    pose proof (openai_pass_rested env prompt 0 _ _ Hw) as Hpass.
    destruct (try_except _ _ st) as [r st2] eqn:Hrun. simpl in Hpass.
    apply rested_calls in Hpass.
    assert (calls st2 = S (calls st)) as Hc2.
    { rewrite Hpass. destruct (succeeded env (calls st1)); simpl; congruence. }
    destruct r as [[o|]|e|]; simpl; try lia.
    match goal with
    | |- context [snd (?m st2)] => destruct (m st2) as [r' st3] eqn:Hrest
    end.
    destruct (openai_retry_loop_sends env prompt [1; 2] st2 r' st3 Hrest)
      as ([_ _ _ _ _ Hc3 _] & _). simpl. lia.
Qed.

(** After the send, [chat] makes no call. *)
Lemma chat_calls v env fault message st :
  is_blank message = false ->
  calls (snd (chat v env fault message st))
  = calls (snd (_make_api_request v env (build_prompt v env (memory st) message) st)).
Proof.
  intros Hb. destruct v; simpl.
  - by destruct (httpx_chat_after_send env fault message st Hb) as (_ & _ & _ & ? & _).
  - by destruct (openai_chat_after_send env fault message st Hb) as (_ & _ & _ & ? & _).
Qed.

(** X4.  A message that is empty or made of white space only is answered
    on the spot, in both versions: the text ["Message cannot be empty"],
    and nothing happens to the session, no call, no wait, no file written.
    Every other message costs at least one physical call, and three at
    most, when the limit is positive. *)
Theorem X4_only_a_blank_message_stays_local v env fault message st :
  0 < max_requests (rate_limiter st) ->
  (is_blank message = true ->
   chat v env fault message st = (Ok (txt "Message cannot be empty"), st))
  /\ (is_blank message = false ->
      (calls st < calls (snd (chat v env fault message st)) <= calls st + 3)%nat).
Proof.
  intros Hpos. split; intros Hb.
  - by apply chat_blank.
  - rewrite (chat_calls _ _ _ _ _ Hb). by apply make_api_request_calls.
Qed.

(** The theorem at a message of a space, a tab and a line end, and then at
    ["Hello"]. *)
Lemma X4_only_a_blank_message_stays_local_witness :
  ((is_blank [32; 9; 10] = true ->
    chat Copy (installation true [ok_response "ok"]) NoFault [32; 9; 10]
      (fresh_session "chat_memory.json" ∅)
    = (Ok (txt "Message cannot be empty"), fresh_session "chat_memory.json" ∅))
   /\ (is_blank [32; 9; 10] = false ->
       (calls (fresh_session "chat_memory.json" ∅)
        < calls (snd (chat Copy (installation true [ok_response "ok"]) NoFault
                        [32%Z; 9%Z; 10%Z] (fresh_session "chat_memory.json" ∅)))
        <= calls (fresh_session "chat_memory.json" ∅) + 3)%nat))
  /\ ((is_blank (txt "Hello") = true ->
       chat QwenEdited (installation true [ok_response "ok"]) NoFault (txt "Hello")
         (fresh_session "chat_memory.json" ∅)
       = (Ok (txt "Message cannot be empty"), fresh_session "chat_memory.json" ∅))
      /\ (is_blank (txt "Hello") = false ->
          (calls (fresh_session "chat_memory.json" ∅)
           < calls (snd (chat QwenEdited (installation true [ok_response "ok"]) NoFault
                           (txt "Hello") (fresh_session "chat_memory.json" ∅)))
           <= calls (fresh_session "chat_memory.json" ∅) + 3)%nat)).
Proof.
  split.
  - apply (X4_only_a_blank_message_stays_local Copy (installation true [ok_response "ok"])
             NoFault [32; 9; 10] (fresh_session "chat_memory.json" ∅)).
    simpl. unfold RATE_LIMIT_REQUESTS. lia.
  - apply (X4_only_a_blank_message_stays_local QwenEdited
             (installation true [ok_response "ok"])
             NoFault (txt "Hello") (fresh_session "chat_memory.json" ∅)).
    simpl. unfold RATE_LIMIT_REQUESTS. lia.
Defined.

(** [chat] gives text back, with a positive limit. *)
Lemma chat_returns_text v env fault message st :
  0 < max_requests (rate_limiter st) ->
  exists answer, fst (chat v env fault message st) = Ok answer.
Proof.
  intros Hpos. destruct (is_blank message) eqn:Hb.
  { rewrite chat_blank by done. by eexists. }
  destruct (_make_api_request v env (build_prompt v env (memory st) message) st)
    as [r st1] eqn:Hrun.
  destruct (make_api_request_sends v env _ _ _ _ Hrun) as (_ & _ & Hhang).
  destruct r as [[reply|]|e|].
  - rewrite (chat_replied _ _ _ _ _ _ _ Hb Hrun).
    destruct (_save_memory _ _ _ _ _) as [[l|e|] fs] eqn:Hsave; try by eexists.
    by destruct (save_memory_never_hangs _ _ _ _ _ _ Hsave).
  - rewrite (chat_not_replied _ _ _ _ _ _ Hb Hrun). by eexists.
  - rewrite (chat_send_raises _ _ _ _ _ _ _ Hb Hrun). by eexists.
  - by destruct (Hhang Hpos).
Qed.

(** X5.  [chat] always comes back with text, in both versions: no
    exception passes it, and with a positive limit it does not wait for
    ever.  The text is the fixed answer to a blank message, or the reply the
    send returned, or ["Error: "] and the text of an exception (of the
    send, of the validation of a missing reply, or of [_save_memory]). *)
Theorem X5_chat_always_answers v env fault message st :
  0 < max_requests (rate_limiter st) ->
  exists answer,
    fst (chat v env fault message st) = Ok answer
    /\ ((is_blank message = true /\ answer = txt "Message cannot be empty")
        \/ (exists st1,
              _make_api_request v env (build_prompt v env (memory st) message) st
              = (Ok (Some answer), st1))
        \/ (exists e, answer = txt "Error: " ++ py_str env e)).
Proof.
  intros Hpos. destruct (is_blank message) eqn:Hb.
  { rewrite chat_blank by done. eexists. split; [reflexivity|]. by left. }
  destruct (_make_api_request v env (build_prompt v env (memory st) message) st)
    as [r st1] eqn:Hrun.
  destruct (make_api_request_sends v env _ _ _ _ Hrun) as (_ & _ & Hhang).
  destruct r as [[reply|]|e|].
  - rewrite (chat_replied _ _ _ _ _ _ _ Hb Hrun).
    destruct (_save_memory _ _ _ _ _) as [[l|e|] fs] eqn:Hsave.
    + exists reply. split; [done|]. right. left. by exists st1.
    + eexists. split; [reflexivity|]. right. right. by exists e.
    + by destruct (save_memory_never_hangs _ _ _ _ _ _ Hsave).
  - rewrite (chat_not_replied _ _ _ _ _ _ Hb Hrun).
    eexists. split; [reflexivity|]. right. right. by exists ValidationError.
  - rewrite (chat_send_raises _ _ _ _ _ _ _ Hb Hrun).
    eexists. split; [reflexivity|]. right. right. by exists e.
  - by destruct (Hhang Hpos).
Qed.

(** The theorem at a session whose three calls all time out. *)
Lemma X5_chat_always_answers_witness :
  exists answer,
    fst (chat QwenEdited
           (installation false [Failed ReadTimeout; Failed ReadTimeout; Failed ReadTimeout])
           (WriteFails 3) (txt "Hello") (fresh_session "chat_memory.json" ∅))
    = Ok answer
    /\ ((is_blank (txt "Hello") = true /\ answer = txt "Message cannot be empty")
        \/ (exists st1,
              _make_api_request QwenEdited
                (installation false [Failed ReadTimeout; Failed ReadTimeout;
                                     Failed ReadTimeout])
                (build_prompt QwenEdited
                   (installation false [Failed ReadTimeout; Failed ReadTimeout;
                                        Failed ReadTimeout])
                   (memory (fresh_session "chat_memory.json" ∅)) (txt "Hello"))
                (fresh_session "chat_memory.json" ∅)
              = (Ok (Some answer), st1))
        \/ (exists e,
              answer
              = txt "Error: "
                ++ py_str (installation false [Failed ReadTimeout; Failed ReadTimeout;
                                               Failed ReadTimeout]) e)).
Proof.
  apply (X5_chat_always_answers QwenEdited
           (installation false [Failed ReadTimeout; Failed ReadTimeout; Failed ReadTimeout])
           (WriteFails 3) (txt "Hello") (fresh_session "chat_memory.json" ∅)).
  simpl. unfold RATE_LIMIT_REQUESTS. lia.
Defined.

(** X6.  [chat] only appends to the conversation, in both versions: the
    messages that were in the memory stay, in their order; what is added is
    nothing, or the user message alone (when the send gave no reply), or
    the user message followed by the reply, each with the timestamp it was
    given when it was made.  The metadata and the path of the memory file
    do not change. *)
Theorem X6_chat_only_appends v env fault message st :
  memory_file (snd (chat v env fault message st)) = memory_file st
  /\ metadata (memory (snd (chat v env fault message st))) = metadata (memory st)
  /\ exists added,
       messages (memory (snd (chat v env fault message st)))
       = messages (memory st) ++ added
       /\ (added = []
           \/ (exists asked,
                 added = [ {| role := txt "user"; content := message;
                              timestamp := asked |} ])
           \/ (exists asked answered reply,
                 added = [ {| role := txt "user"; content := message;
                              timestamp := asked |};
                           {| role := txt "assistant"; content := reply;
                              timestamp := answered |} ])).
Proof.
  destruct (is_blank message) eqn:Hb.
  { rewrite chat_blank by done. simpl. repeat split. exists []. rewrite app_nil_r. auto. }
  destruct (_make_api_request v env (build_prompt v env (memory st) message) st)
    as [r st1] eqn:Hrun.
  destruct (make_api_request_sends v env _ _ _ _ Hrun) as ([Hmf Hm _ _ _ _ _] & _).
  destruct r as [[reply|]|e|].
  - rewrite (chat_replied _ _ _ _ _ _ _ Hb Hrun).
    assert (forall (r : result text) fs',
               memory_file (snd (r, set_files fs' (set_memory
                 (remembered env (clock st1) message reply (memory st1)) st1)))
               = memory_file st
               /\ metadata (memory (snd (r, set_files fs' (set_memory
                    (remembered env (clock st1) message reply (memory st1)) st1))))
                  = metadata (memory st)
               /\ exists added,
                    messages (memory (snd (r, set_files fs' (set_memory
                      (remembered env (clock st1) message reply (memory st1)) st1))))
                    = messages (memory st) ++ added
                    /\ (added = []
                        \/ (exists asked,
                              added = [ {| role := txt "user"; content := message;
                                           timestamp := asked |} ])
                        \/ (exists asked answered reply,
                              added = [ {| role := txt "user"; content := message;
                                           timestamp := asked |};
                                        {| role := txt "assistant"; content := reply;
                                           timestamp := answered |} ])))
      as Hall.
    { intros r fs'. simpl. rewrite Hm. repeat split; [done|].
      eexists. split; [reflexivity|]. right. right. eauto. }
    destruct (_save_memory _ _ _ _ _) as [[l|e|] fs]; apply Hall.
  - rewrite (chat_not_replied _ _ _ _ _ _ Hb Hrun). simpl. rewrite Hm.
    repeat split; [done|]. eexists. split; [reflexivity|]. right. left. eauto.
  - rewrite (chat_send_raises _ _ _ _ _ _ _ Hb Hrun). simpl. rewrite Hm.
    repeat split; [done|]. exists []. rewrite app_nil_r. auto.
  - assert (snd (chat v env fault message st) = st1) as ->.
    { destruct v; unfold chat, Httpx.chat, OpenAIClient.chat; rewrite Hb;
        unfold _make_api_request, build_prompt in Hrun;
        unfold try_except, bind, get; by rewrite Hrun. }
    rewrite Hm. repeat split; [done|]. exists []. rewrite app_nil_r. auto.
Qed.

(** *** An exchange that is answered *)

(** With capacity at hand [wait_for_capacity] trims the deque and returns
    at once. *)
Lemma wait_for_capacity_idle st :
  Z.of_nat (length (requests (rate_limiter st))) < max_requests (rate_limiter st) ->
  exists rl,
    wait_for_capacity st = (Ok tt, log CapacityGranted (set_rate_limiter rl st))
    /\ max_requests rl = max_requests (rate_limiter st)
    /\ (length (requests rl) <= length (requests (rate_limiter st)))%nat.
Proof.
  intros Hlen.
  exists (snd (can_make_request (clock st) (rate_limiter st))).
  pose proof (popleft_while_old_length
                (clock st - timedelta_seconds (window_size (rate_limiter st)))
                (requests (rate_limiter st))) as Hle.
  split; [|by split].
  unfold wait_for_capacity, bind at 1, get. unfold polls_needed.
  cbn [wait_loop]. unfold bind, poll_capacity, can_make_request, modify, ret. simpl.
  destruct (Z.ltb_spec (Z.of_nat (length (popleft_while_old
              (clock st - timedelta_seconds (window_size (rate_limiter st)))
              (requests (rate_limiter st))))) (max_requests (rate_limiter st))); [done|lia].
Qed.

(** A send whose first call is answered with a success and a reply. *)
Lemma make_api_request_answered v env prompt st status ra reply :
  Z.of_nat (length (requests (rate_limiter st))) < max_requests (rate_limiter st) ->
  transport env (calls st) = Returned status ra (Content reply) ->
  200 <= status < 300 ->
  exists rl,
    _make_api_request v env prompt st
    = (Ok reply, recorded (called prompt (log CapacityGranted (set_rate_limiter rl st)))).
Proof.
  intros Hlen Ht H2xx.
  destruct (wait_for_capacity_idle st Hlen) as (rl & Hw & _).
  exists rl.
  destruct v; unfold _make_api_request, Httpx._make_api_request,
    OpenAIClient._make_api_request; change (range RETRY_ATTEMPTS) with [0; 1; 2].
  - cbn [Httpx.retry_loop].
    erewrite bind_ok; [|by apply (httpx_pass_success env prompt 0 _ _ _ _ _ Hw Ht H2xx)].
    reflexivity.
  - cbn [OpenAIClient.retry_loop].
    erewrite bind_ok; [|by apply (openai_pass_success env prompt 0 _ _ _ _ _ Hw Ht H2xx)].
    reflexivity.
Qed.



(** *** From the exchange to the next session *)

Lemma storable_text_is_str s : storable_text s = true -> is_str s = true.
Proof.
  unfold storable_text, is_str. rewrite !forallb_forall. intros H c Hc.
  specialize (H c Hc). unfold is_scalar in H.
  by apply andb_true_iff in H as [? _].
Qed.

Lemma storable_remembered env now message reply m :
  storable_memory m = true ->
  storable_text message = true -> storable_text reply = true ->
  valid_datetime (datetime_of env now) = true ->
  storable_memory (remembered env now message reply m) = true.
Proof.
  unfold storable_memory, wf_memory, remembered. cbn [messages metadata].
  intros H Hm Hr Ht.
  apply andb_true_iff in H as [H Hmd]. apply andb_true_iff in H as [Hwf Hms].
  apply andb_true_iff in Hwf as [Hwm Hwj].
  rewrite !forallb_app. cbn [forallb].
  unfold wf_message, storable_message. cbn [role content timestamp].
  unfold wf_message, storable_message in Hwm, Hms.
  rewrite Hwm, Hwj, Hms, Hmd, Hm, Hr, Ht.
  rewrite (storable_text_is_str _ Hm), (storable_text_is_str _ Hr).
  reflexivity.
Qed.

(** On POSIX, with a disk that works, a memory that can be stored is saved:
    the file holds its whole encoding. *)
Lemma save_memory_posix_saves env path m (fs : filesystem) data :
  posix env = true ->
  with_suffix true path ".json.bak" <> None ->
  encode_prefix (newlines_out true (json_dumps (memory_to_json m))) = (data, true) ->
  exists fs',
    _save_memory env NoFault path m fs = (Ok SavedSuccessfully, fs')
    /\ fs' !! path = Some data.
Proof.
  intros Hposix Hname Henc.
  assert (path +:+ ".bak" <> path) as Hne by (by apply string_app_ne).
  assert (forall fs1 : filesystem,
            exists fs',
              bind (write_text env NoFault path (json_dumps (memory_to_json m)))
                (fun _ => bind get (fun fs2 =>
                   bind (if file_exists (path +:+ ".bak") fs2
                         then unlink (path +:+ ".bak") else ret tt)
                        (fun _ => ret SavedSuccessfully))) fs1
              = (Ok SavedSuccessfully, fs')
              /\ fs' !! path = Some data) as Hrest.
  { intros fs1. unfold bind at 1. unfold write_text. rewrite Hposix, Henc.
    unfold bind, get, ret, unlink, file_exists.
    destruct ((<[path:=data]> fs1 : filesystem) !! (path +:+ ".bak")) eqn:Hb;
      rewrite ?Hb; eexists; (split; [reflexivity|]).
    - rewrite lookup_delete_ne by done. by rewrite lookup_insert_eq.
    - by rewrite lookup_insert_eq. }
  assert (exists fs1 : filesystem,
            forall (k : M filesystem save_log),
              bind get (fun fs0 =>
                bind (if file_exists path fs0
                      then bind (of_option ValueError
                                   (with_suffix (posix env) path ".json.bak"))
                                (fun backup_path => rename env path backup_path)
                      else ret tt) (fun _ => k)) fs
              = k fs1) as (fs1 & Hstep1).
  { destruct (fs !! path) as [old|] eqn:Hfile.
    - destruct (with_suffix true path ".json.bak") as [bp|] eqn:Hbp; [|done].
      exists (<[bp:=old]> (delete path fs)). intros k.
      unfold bind, get, of_option, ret, rename.
      rewrite (file_exists_true _ _ _ Hfile), Hposix, Hbp, Hfile. simpl.
      by rewrite ?Hposix.
    - exists fs. intros k. unfold bind, get, ret, file_exists. by rewrite Hfile. }
  unfold _save_memory, try_except. rewrite Hstep1.
  destruct (Hrest fs1) as (fs' & -> & Hlook). eauto.
Qed.

(** A file that holds the whole encoding of a memory loads as that memory. *)
Lemma load_memory_written env path m (fs : filesystem) data :
  wf_memory m = true ->
  fs !! path = Some data ->
  encode_prefix (newlines_out (posix env) (json_dumps (memory_to_json m))) = (data, true) ->
  _load_memory env path fs = (Ok m, fs).
Proof.
  intros Hwf Hfile Henc.
  pose proof (wf_memory_to_json m Hwf) as Hwj.
  rewrite (load_memory_decoded env path fs data _ Hfile
             (utf8_decode_encode_prefix _ _ Henc)).
  rewrite universal_newlines_out by (by apply iterencode_no_cr).
  rewrite (json_loads_dumps _ Hwj).
  by rewrite (reconstruct_memory_to_json env m Hwf).
Qed.

(** X8.  What was said is there after a restart.  On POSIX, with a disk
    that works and a memory, a message and a reply free of lone surrogates,
    an exchange answered at the first call leaves a memory file from which
    a new [PersistentChat] starts with the whole conversation, the new
    exchange at its end: its [get_chat_history] is that of the session that
    made the exchange.  The memory it holds can be stored in its turn. *)
Theorem X8_exchange_survives_restart v env message st status ra reply later :
  posix env = true ->
  is_blank message = false ->
  Z.of_nat (length (requests (rate_limiter st))) < max_requests (rate_limiter st) ->
  transport env (calls st) = Returned status ra (Content (Some reply)) ->
  200 <= status < 300 ->
  storable_memory (memory st) = true ->
  storable_text message = true ->
  storable_text reply = true ->
  valid_datetime (datetime_of env (clock st)) = true ->
  with_suffix true (memory_file st) ".json.bak" <> None ->
  exists st2,
    PersistentChat_init env (memory_file st) later
      (files (snd (chat v env NoFault message st))) = Ok st2
    /\ memory st2 = remembered env (clock st) message reply (memory st)
    /\ files st2 = files (snd (chat v env NoFault message st))
    /\ get_chat_history st2 = get_chat_history (snd (chat v env NoFault message st))
    /\ storable_memory (memory st2) = true.
Proof.
  intros Hposix Hb Hlen Ht H2xx Hst Hmsg Hreply Hvalid Hname.
  destruct (make_api_request_answered v env (build_prompt v env (memory st) message)
              st status ra (Some reply) Hlen Ht H2xx) as (rl & Hrun).
  rewrite (chat_replied _ _ _ _ _ _ _ Hb Hrun).
  set (st1 := recorded (called (build_prompt v env (memory st) message)
                          (log CapacityGranted (set_rate_limiter rl st)))).
  change (memory_file st1) with (memory_file st).
  change (clock st1) with (clock st). change (memory st1) with (memory st).
  change (files st1) with (files st).
  pose proof (storable_remembered env (clock st) message reply _ Hst Hmsg Hreply Hvalid)
    as Hst'.
  destruct (storable_memory_written (posix env) _ Hst') as (data & Henc).
  pose proof Henc as Henc'. rewrite Hposix in Henc'.
  destruct (save_memory_posix_saves env (memory_file st) _ (files st) data
              Hposix Hname Henc') as (fs' & -> & Hfile).
  cbn [snd files set_files].
  assert (wf_memory (remembered env (clock st) message reply (memory st)) = true) as Hwf.
  { unfold storable_memory in Hst'. apply andb_true_iff in Hst' as [H _].
    by apply andb_true_iff in H as [? _]. }
  pose proof (load_memory_written env (memory_file st) _ fs' data Hwf Hfile Henc) as Hload.
  unfold PersistentChat_init. rewrite Hload.
  eexists. split; [reflexivity|]. cbn [memory files]. repeat split; try done.
Qed.

(** The theorem at a second exchange, over a file that holds the first. *)
Lemma X8_exchange_survives_restart_witness :
  exists st2,
    PersistentChat_init (installation true [ok_response "Fine."]) "chat_memory.json" 60000000
      (files (snd (chat QwenEdited (installation true [ok_response "Fine."]) NoFault
                     [72; 111; 119; 63; 32; 128512]
                     (set_files {[ "chat_memory.json" := raw "old" ]}
                        (session_with [earlier_question])))))
    = Ok st2
    /\ memory st2
       = remembered (installation true [ok_response "Fine."]) 0 [72; 111; 119; 63; 32; 128512]
           (txt "Fine.") {| messages := [earlier_question]; metadata := [] |}
    /\ files st2
       = files (snd (chat QwenEdited (installation true [ok_response "Fine."]) NoFault
                       [72; 111; 119; 63; 32; 128512]
                       (set_files {[ "chat_memory.json" := raw "old" ]}
                          (session_with [earlier_question]))))
    /\ get_chat_history st2
       = get_chat_history
           (snd (chat QwenEdited (installation true [ok_response "Fine."]) NoFault
                   [72; 111; 119; 63; 32; 128512]
                   (set_files {[ "chat_memory.json" := raw "old" ]}
                      (session_with [earlier_question]))))
    /\ storable_memory (memory st2) = true.
Proof.
  apply (X8_exchange_survives_restart QwenEdited (installation true [ok_response "Fine."])
           [72; 111; 119; 63; 32; 128512]
           (set_files {[ "chat_memory.json" := raw "old" ]} (session_with [earlier_question]))
           200 NoRetryAfter (txt "Fine.") 60000000);
    try reflexivity; try (simpl; unfold RATE_LIMIT_REQUESTS; lia).
  vm_compute. discriminate.
Defined.

(** *** An exchange that fails *)

(** X9.  When the endpoint cannot be reached.  If the three calls of a
    send all end in an exception (a timeout, a connection error), [chat]
    has made exactly these three calls, with a back-off of 2 and then 4
    seconds between them and none after the last, has recorded nothing in
    the limiter, and returns the text of the last exception after
    ["Error: "]; in the version with the OpenAI client that text is itself
    prefixed with ["Error making API request: "].  The memory is as it
    was, and so is every file but the debug log. *)
Theorem X9_unreachable_endpoint v env fault message st e0 e1 e2 :
  is_blank message = false ->
  Z.of_nat (length (requests (rate_limiter st))) < max_requests (rate_limiter st) ->
  transport env (calls st) = Failed e0 ->
  transport env (S (calls st)) = Failed e1 ->
  transport env (S (S (calls st))) = Failed e2 ->
  fst (chat v env fault message st)
  = Ok (txt "Error: "
        ++ match v with
           | QwenEdited => py_str env e2
           | Copy => txt "Error making API request: " ++ py_str env e2
           end)
  /\ memory (snd (chat v env fault message st)) = memory st
  /\ (forall q, q <> debug_log ->
        files (snd (chat v env fault message st)) !! q = files st !! q)
  /\ calls (snd (chat v env fault message st)) = S (S (S (calls st)))
  /\ sleeps (trace (snd (chat v env fault message st)))
     = sleeps (trace st) ++ [(Backoff, 2); (Backoff, 4)]
  /\ records (trace (snd (chat v env fault message st))) = records (trace st).
Proof.
  intros Hb Hlen Ht0 Ht1 Ht2.
  set (prompt := build_prompt v env (memory st) message).
  destruct (wait_for_capacity_idle st Hlen) as (rl1 & Hw1 & Hm1 & Hl1).
  set (st1 := log CapacityGranted (set_rate_limiter rl1 st)) in *.
  set (sA := slept Backoff (RETRY_DELAY * (0 + 1)) (called prompt st1)).
  assert (Z.of_nat (length (requests (rate_limiter sA))) < max_requests (rate_limiter sA))
    as HlenA by (simpl; lia).
  destruct (wait_for_capacity_idle sA HlenA) as (rl2 & Hw2 & Hm2 & Hl2).
  set (st2 := log CapacityGranted (set_rate_limiter rl2 sA)) in *.
  set (sB := slept Backoff (RETRY_DELAY * (1 + 1)) (called prompt st2)).
  assert (Z.of_nat (length (requests (rate_limiter sB))) < max_requests (rate_limiter sB))
    as HlenB by (simpl in *; lia).
  destruct (wait_for_capacity_idle sB HlenB) as (rl3 & Hw3 & Hm3 & Hl3).
  set (st3 := log CapacityGranted (set_rate_limiter rl3 sB)) in *.
  assert (_make_api_request v env prompt st
          = (Raise match v with
                   | QwenEdited => e2
                   | Copy => ValueErrorWith (txt "Error making API request: "
                                               ++ py_str env e2)
                   end, called prompt st3)) as Hrun.
  { destruct v; unfold _make_api_request, Httpx._make_api_request,
      OpenAIClient._make_api_request; change (range RETRY_ATTEMPTS) with [0; 1; 2].
    - cbn [Httpx.retry_loop].
      erewrite bind_ok;
        [|rewrite (httpx_pass_failed env prompt 0 _ _ _ Hw1 Ht0);
          apply backoff_or_continue; unfold RETRY_ATTEMPTS; lia].
      cbn beta iota. fold sA.
      erewrite bind_ok;
        [|rewrite (httpx_pass_failed env prompt 1 _ _ _ Hw2 Ht1);
          apply backoff_or_continue; unfold RETRY_ATTEMPTS; lia].
      cbn beta iota. fold sB.
      apply bind_raise.
      rewrite (httpx_pass_failed env prompt 2 _ _ _ Hw3 Ht2).
      rewrite backoff_or_last by (unfold RETRY_ATTEMPTS; lia). reflexivity.
    - cbn [OpenAIClient.retry_loop].
      erewrite bind_ok;
        [|rewrite (openai_pass_failed env prompt 0 _ _ _ Hw1 Ht0);
          apply backoff_or_continue; unfold RETRY_ATTEMPTS; lia].
      cbn beta iota. fold sA.
      erewrite bind_ok;
        [|rewrite (openai_pass_failed env prompt 1 _ _ _ Hw2 Ht1);
          apply backoff_or_continue; unfold RETRY_ATTEMPTS; lia].
      cbn beta iota. fold sB.
      apply bind_raise.
      rewrite (openai_pass_failed env prompt 2 _ _ _ Hw3 Ht2).
      rewrite backoff_or_last by (unfold RETRY_ATTEMPTS; lia). reflexivity. }
  rewrite (chat_send_raises _ _ _ _ _ _ _ Hb Hrun).
  split; [by destruct v|].
  simpl. repeat split.
  - rewrite !sleeps_app. simpl. by rewrite !app_nil_r, <- !app_assoc.
  - rewrite !records_app. simpl. by rewrite !app_nil_r.
Qed.

(** The theorem at three timeouts. *)
Lemma X9_unreachable_endpoint_witness :
  fst (chat Copy (installation true [Failed ReadTimeout; Failed ReadTimeout;
                                     Failed ConnectError])
         NoFault (txt "Hello") (fresh_session "chat_memory.json" ∅))
  = Ok (txt "Error: "
        ++ txt "Error making API request: "
        ++ py_str (installation true [Failed ReadTimeout; Failed ReadTimeout;
                                      Failed ConnectError]) ConnectError)
  /\ memory (snd (chat Copy (installation true [Failed ReadTimeout; Failed ReadTimeout;
                                               Failed ConnectError])
                   NoFault (txt "Hello") (fresh_session "chat_memory.json" ∅)))
     = empty_memory
  /\ (forall q, q <> debug_log ->
        files (snd (chat Copy (installation true [Failed ReadTimeout; Failed ReadTimeout;
                                                  Failed ConnectError])
                      NoFault (txt "Hello") (fresh_session "chat_memory.json" ∅))) !! q
        = files (fresh_session "chat_memory.json" ∅) !! q)
  /\ calls (snd (chat Copy (installation true [Failed ReadTimeout; Failed ReadTimeout;
                                              Failed ConnectError])
                  NoFault (txt "Hello") (fresh_session "chat_memory.json" ∅)))
     = 3%nat
  /\ sleeps (trace (snd (chat Copy (installation true [Failed ReadTimeout;
                                                      Failed ReadTimeout;
                                                      Failed ConnectError])
                          NoFault (txt "Hello") (fresh_session "chat_memory.json" ∅))))
     = [] ++ [(Backoff, 2); (Backoff, 4)]
  /\ records (trace (snd (chat Copy (installation true [Failed ReadTimeout;
                                                       Failed ReadTimeout;
                                                       Failed ConnectError])
                           NoFault (txt "Hello") (fresh_session "chat_memory.json" ∅))))
     = [].
Proof.
  apply (X9_unreachable_endpoint Copy
           (installation true [Failed ReadTimeout; Failed ReadTimeout; Failed ConnectError])
           NoFault (txt "Hello") (fresh_session "chat_memory.json" ∅)
           ReadTimeout ReadTimeout ConnectError);
    reflexivity.
Defined.

(** ** The files that are touched *)

Lemma only_touches_ret {A} paths (a : A) : only_touches paths (ret a).
Proof. intros fs r fs' [= <- <-]. done. Qed.

Lemma only_touches_raise {A} paths e : only_touches paths (@raise filesystem A e).
Proof. intros fs r fs' [= <- <-]. done. Qed.

Lemma only_touches_of_option {A} paths e (o : option A) : only_touches paths (of_option e o).
Proof. destruct o; [apply only_touches_ret|apply only_touches_raise]. Qed.

Lemma only_touches_get paths : only_touches paths (@get filesystem).
Proof. intros fs r fs' [= <- <-]. done. Qed.

Lemma only_touches_bind {A B} paths (m : M filesystem A) (f : A -> M filesystem B) :
  only_touches paths m -> (forall a, only_touches paths (f a)) ->
  only_touches paths (bind m f).
Proof.
  intros Hm Hf fs r fs' H q Hq. unfold bind in H.
  destruct (m fs) as [[a|e|] fs1] eqn:Hrun.
  - rewrite (Hf a _ _ _ H q Hq). by apply (Hm _ _ _ Hrun).
  - injection H as <- <-. by apply (Hm _ _ _ Hrun).
  - injection H as <- <-. by apply (Hm _ _ _ Hrun).
Qed.

Lemma only_touches_try_except {A} paths (m : M filesystem A) (h : exn -> M filesystem A) :
  only_touches paths m -> (forall e, only_touches paths (h e)) ->
  only_touches paths (try_except m h).
Proof.
  intros Hm Hh fs r fs' H q Hq. unfold try_except in H.
  destruct (m fs) as [[a|e|] fs1] eqn:Hrun.
  - injection H as <- <-. by apply (Hm _ _ _ Hrun).
  - rewrite (Hh e _ _ _ H q Hq). by apply (Hm _ _ _ Hrun).
  - injection H as <- <-. by apply (Hm _ _ _ Hrun).
Qed.

Lemma only_touches_stateless {A} paths (m : M unit A) :
  only_touches paths (stateless (S:=filesystem) m).
Proof. intros fs r fs' [= <- <-]. done. Qed.

Lemma only_touches_rename env paths src dst :
  In src paths -> In dst paths -> only_touches paths (rename env src dst).
Proof.
  intros Hsrc Hdst fs r fs' H q Hq. unfold rename in H.
  destruct (fs !! src); [|by injection H as <- <-].
  destruct (_ && _); injection H as <- <-; [done|].
  rewrite lookup_insert_ne by (intros ->; done).
  by rewrite lookup_delete_ne by (intros ->; done).
Qed.

Lemma only_touches_unlink paths p : In p paths -> only_touches paths (unlink p).
Proof.
  intros Hp fs r fs' H q Hq. unfold unlink in H.
  destruct (fs !! p); injection H as <- <-; [|done].
  by rewrite lookup_delete_ne by (intros ->; done).
Qed.

Lemma only_touches_read_text paths p : only_touches paths (read_text p).
Proof.
  intros fs r fs' H q Hq. unfold read_text in H.
  destruct (fs !! p); [|by injection H as <- <-].
  destruct (utf8_decode _); by injection H as <- <-.
Qed.

Lemma only_touches_write_text env fault paths p t :
  In p paths -> only_touches paths (write_text env fault p t).
Proof.
  intros Hp fs r fs' H q Hq. unfold write_text in H.
  destruct (encode_prefix _) as [data whole].
  destruct fault as [| |n]; [destruct whole|..]; injection H as <- <-; try done;
    by rewrite lookup_insert_ne by (intros ->; done).
Qed.

Lemma save_memory_only_touches env fault path m :
  only_touches (save_paths env path) (_save_memory env fault path m).
Proof.
  unfold _save_memory, save_paths.
  assert (In path (path :: (path +:+ ".bak")
                   :: match with_suffix (posix env) path ".json.bak" with
                      | Some snapshot => [snapshot]
                      | None => []
                      end)) as Hpath by (simpl; auto).
  assert (In (path +:+ ".bak") (path :: (path +:+ ".bak")
                   :: match with_suffix (posix env) path ".json.bak" with
                      | Some snapshot => [snapshot]
                      | None => []
                      end)) as Hbak by (simpl; auto).
  apply only_touches_try_except.
  - apply only_touches_bind; [apply only_touches_get|]. intros fs0.
    apply only_touches_bind.
    { destruct (file_exists path fs0); [|apply only_touches_ret].
      destruct (with_suffix (posix env) path ".json.bak") as [snapshot|];
        [|by intros fs r fs' [= <- <-]].
      intros fs r fs' H.
      apply (only_touches_rename env _ path snapshot Hpath ltac:(simpl; auto) fs r fs' H). }
    intros _. apply only_touches_bind; [by apply only_touches_write_text|]. intros _.
    apply only_touches_bind; [apply only_touches_get|]. intros fs1.
    apply only_touches_bind.
    { destruct (file_exists _ fs1); [by apply only_touches_unlink|apply only_touches_ret]. }
    intros _. apply only_touches_ret.
  - intros e. apply only_touches_bind; [apply only_touches_get|]. intros fs0.
    apply only_touches_bind.
    { destruct (file_exists _ fs0); [by apply only_touches_rename|apply only_touches_ret]. }
    intros _. apply only_touches_ret.
Qed.

Lemma load_memory_only_touches env path :
  only_touches (load_paths env path) (_load_memory env path).
Proof.
  unfold _load_memory, load_paths.
  assert (In path (path :: match with_suffix (posix env) path ".json.backup" with
                           | Some quarantine => [quarantine]
                           | None => []
                           end)) as Hpath by (simpl; auto).
  apply only_touches_bind; [|intros; apply only_touches_ret].
  apply only_touches_try_except.
  - apply only_touches_bind; [apply only_touches_get|]. intros fs0.
    destruct (file_exists path fs0); [|apply only_touches_ret].
    apply only_touches_bind; [apply only_touches_read_text|]. intros s.
    apply only_touches_bind; [apply only_touches_of_option|]. intros data.
    apply only_touches_bind; [apply only_touches_stateless|]. intros m.
    apply only_touches_ret.
  - intros e. destruct e; try apply only_touches_ret.
    apply only_touches_bind; [apply only_touches_get|]. intros fs0.
    apply only_touches_bind; [|intros; apply only_touches_ret].
    destruct (file_exists path fs0); [|apply only_touches_ret].
    destruct (with_suffix (posix env) path ".json.backup") as [quarantine|];
      [|by intros fs r fs' [= <- <-]].
    intros fs r fs' H.
    apply (only_touches_rename env _ path quarantine Hpath ltac:(simpl; auto) fs r fs' H).
Qed.

(** The files of the session after [chat] are those [_save_memory] left, or
    the files as they were. *)
Lemma chat_files v env fault message st :
  files (snd (chat v env fault message st)) = files st
  \/ exists m, files (snd (chat v env fault message st))
               = snd (_save_memory env fault (memory_file st) m (files st)).
Proof.
  destruct (is_blank message) eqn:Hb.
  { rewrite chat_blank by done. by left. }
  destruct (_make_api_request v env (build_prompt v env (memory st) message) st)
    as [r st1] eqn:Hrun.
  destruct (make_api_request_sends v env _ _ _ _ Hrun) as ([Hmf _ Hf _ _ _ _] & _).
  destruct r as [[reply|]|e|].
  - right. rewrite (chat_replied _ _ _ _ _ _ _ Hb Hrun). rewrite Hmf, Hf.
    exists (remembered env (clock st1) message reply (memory st1)).
    destruct (_save_memory _ _ _ _ _) as [[l|e|] fs]; reflexivity.
  - left. rewrite (chat_not_replied _ _ _ _ _ _ Hb Hrun). done.
  - left. rewrite (chat_send_raises _ _ _ _ _ _ _ Hb Hrun). done.
  - left. assert (snd (chat v env fault message st) = st1) as ->; [|done].
    destruct v; unfold chat, Httpx.chat, OpenAIClient.chat; rewrite Hb;
      unfold _make_api_request, build_prompt in Hrun;
      unfold try_except, bind, get; by rewrite Hrun.
Qed.

(** X10.  No other file is touched.  Whatever happens, [_save_memory]
    changes nothing but the memory file, the snapshot where it makes it
    ([with_suffix('.json.bak')]) and the snapshot where it looks for it
    ([str(memory_file) + '.bak']); [_load_memory] changes nothing but the
    memory file and the place a corrupt file is moved to
    ([with_suffix('.json.backup')]); and [chat], in both versions, changes
    no file that [_save_memory] does not.  The debug log, which [logging]
    appends to, is set apart. *)
Theorem X10_no_other_file_is_touched v env fault message path m (fs : filesystem) st q :
  q <> debug_log ->
  q <> path ->
  q <> path +:+ ".bak" ->
  with_suffix (posix env) path ".json.bak" <> Some q ->
  with_suffix (posix env) path ".json.backup" <> Some q ->
  memory_file st = path ->
  snd (_save_memory env fault path m fs) !! q = fs !! q
  /\ snd (_load_memory env path fs) !! q = fs !! q
  /\ files (snd (chat v env fault message st)) !! q = files st !! q.
Proof.
  intros _ Hq1 Hq2 Hq3 Hq4 Hpath.
  assert (~ In q (save_paths env path)) as Hsave.
  { unfold save_paths. destruct (with_suffix (posix env) path ".json.bak") as [p|];
      simpl; intros H; intuition congruence. }
  assert (~ In q (load_paths env path)) as Hload.
  { unfold load_paths. destruct (with_suffix (posix env) path ".json.backup") as [p|];
      simpl; intros H; intuition congruence. }
  assert (forall m fs, snd (_save_memory env fault path m fs) !! q = fs !! q) as Hs.
  { intros m0 fs0. destruct (_save_memory env fault path m0 fs0) as [r fs'] eqn:Hrun.
    by apply (save_memory_only_touches env fault path m0 fs0 r fs' Hrun). }
  split; [apply Hs|]. split.
  - destruct (_load_memory env path fs) as [r fs'] eqn:Hrun.
    by apply (load_memory_only_touches env path fs r fs' Hrun).
  - destruct (chat_files v env fault message st) as [->|(m0 & ->)]; [done|].
    rewrite Hpath. apply Hs.
Qed.

(** The theorem at a file of notes beside a corrupt memory file. *)
Lemma X10_no_other_file_is_touched_witness :
  snd (_save_memory (installation false []) (WriteFails 3) "memory.txt" sample_memory
         (<[ "notes.txt" := raw "mine" ]> {[ "memory.txt" := raw "{oops" ]}))
    !! "notes.txt"
  = (<[ "notes.txt" := raw "mine" ]> {[ "memory.txt" := raw "{oops" ]} : filesystem)
      !! "notes.txt"
  /\ snd (_load_memory (installation false []) "memory.txt"
            (<[ "notes.txt" := raw "mine" ]> {[ "memory.txt" := raw "{oops" ]}))
       !! "notes.txt"
     = (<[ "notes.txt" := raw "mine" ]> {[ "memory.txt" := raw "{oops" ]} : filesystem)
         !! "notes.txt"
  /\ files (snd (chat Copy (installation false []) (WriteFails 3) (txt "Hello")
                   (fresh_session "memory.txt"
                      (<[ "notes.txt" := raw "mine" ]> {[ "memory.txt" := raw "{oops" ]}))))
       !! "notes.txt"
     = files (fresh_session "memory.txt"
                (<[ "notes.txt" := raw "mine" ]> {[ "memory.txt" := raw "{oops" ]}))
         !! "notes.txt".
Proof.
  apply (X10_no_other_file_is_touched Copy (installation false []) (WriteFails 3)
           (txt "Hello") "memory.txt" sample_memory
           (<[ "notes.txt" := raw "mine" ]> {[ "memory.txt" := raw "{oops" ]})
           (fresh_session "memory.txt"
              (<[ "notes.txt" := raw "mine" ]> {[ "memory.txt" := raw "{oops" ]}))
           "notes.txt");
    try discriminate; try reflexivity; vm_compute; discriminate.
Defined.

(** ** Saving over a file named [*.json] *)

(** A save reports success only when the disk did not fail. *)
Lemma save_memory_succeeded_without_fault env fault path m (fs fs' : filesystem) :
  _save_memory env fault path m fs = (Ok SavedSuccessfully, fs') -> fault = NoFault.
Proof.
  unfold _save_memory, try_except. intros H.
  destruct (bind get _ fs) as [[l|e|] fs1] eqn:Hbody.
  - injection H as -> ->.
    unfold bind at 1 in Hbody. unfold get in Hbody.
    match type of Hbody with
    | bind ?step1 _ _ = _ => destruct (step1 fs) as [[[]|e|] fs0] eqn:Hstep1
    end;
      unfold bind at 1 in Hbody; rewrite Hstep1 in Hbody; try discriminate.
    unfold bind at 1 in Hbody.
    destruct (write_text_cases env fault path (json_dumps (memory_to_json m)) fs0)
      as [(data & Hw & Hfault & Henc)|(e & fs2 & Hw & Hfs2)];
      rewrite Hw in Hbody; [done|discriminate].
  - exfalso. revert H. unfold bind, get, ret, rename.
    repeat (case_match; simplify_eq; try done).
  - discriminate.
Qed.

(** X11.  Where the snapshot is made where it is looked for, as for the
    default [chat_memory.json], and [os.rename] replaces its target
    (POSIX), a save over an existing memory file is all or nothing.  If the
    disk fails, or the text cannot be encoded, the save is reported as
    failed and the file holds its old bytes again; a save is reported as
    done only if the disk did not fail, and then the file holds the whole
    encoding of the memory.  Either way no snapshot is left, and no other
    file has changed, the debug log set apart. *)
Theorem X11_save_over_json_is_all_or_nothing env fault path m (fs : filesystem) old :
  posix env = true ->
  with_suffix true path ".json.bak" = Some (path +:+ ".bak") ->
  fs !! path = Some old ->
  exists log fs',
    _save_memory env fault path m fs = (Ok log, fs')
    /\ fs' !! (path +:+ ".bak") = None
    /\ (forall q, q <> debug_log -> q <> path -> q <> path +:+ ".bak" ->
          fs' !! q = fs !! q)
    /\ match log with
       | ErrorSaving _ => fs' !! path = Some old
       | SavedSuccessfully =>
           fault = NoFault
           /\ exists data,
                fs' !! path = Some data
                /\ encode_prefix (newlines_out true (json_dumps (memory_to_json m)))
                   = (data, true)
       end.
Proof.
  intros Hposix Hbak Hfile.
  destruct (save_memory_json_suffix_posix env fault path m fs old Hposix Hbak Hfile)
    as (log & fs' & Hrun & Hnone & Herr & Hok).
  exists log, fs'. split; [done|]. split; [done|]. split.
  - intros q _ Hq1 Hq2.
    apply (save_memory_only_touches env fault path m fs _ _ Hrun).
    unfold save_paths. rewrite Hposix, Hbak. simpl. intuition congruence.
  - destruct log as [|e].
    + split; [|by apply Hok].
      by apply (save_memory_succeeded_without_fault env fault path m fs fs').
    + by apply (Herr e).
Qed.

(** The theorem at a disk that fails after three bytes. *)
Lemma X11_save_over_json_is_all_or_nothing_witness :
  exists log fs',
    _save_memory (installation true []) (WriteFails 3) "chat_memory.json" sample_memory
      (<[ "notes.txt" := raw "mine" ]> {[ "chat_memory.json" := raw "precious" ]})
    = (Ok log, fs')
    /\ fs' !! ("chat_memory.json" +:+ ".bak") = None
    /\ (forall q, q <> debug_log ->
          q <> "chat_memory.json" -> q <> "chat_memory.json" +:+ ".bak" ->
          fs' !! q
          = (<[ "notes.txt" := raw "mine" ]> {[ "chat_memory.json" := raw "precious" ]}
             : filesystem) !! q)
    /\ match log with
       | ErrorSaving _ => fs' !! "chat_memory.json" = Some (raw "precious")
       | SavedSuccessfully =>
           WriteFails 3 = NoFault
           /\ exists data,
                fs' !! "chat_memory.json" = Some data
                /\ encode_prefix (newlines_out true (json_dumps (memory_to_json sample_memory)))
                   = (data, true)
       end.
Proof.
  apply (X11_save_over_json_is_all_or_nothing (installation true []) (WriteFails 3)
           "chat_memory.json" sample_memory
           (<[ "notes.txt" := raw "mine" ]> {[ "chat_memory.json" := raw "precious" ]})
           (raw "precious"));
    reflexivity.
Defined.

(** ** The console loop *)

Lemma strip_not_blank line : strip line <> [] -> is_blank (strip line) = false.
Proof.
  unfold strip, is_blank. intros Hne.
  assert (forall u, lstrip u <> [] -> forallb py_isspace (lstrip u) = false) as Hl.
  { induction u as [|c u IH]; [done|]. simpl.
    destruct (py_isspace c) eqn:Hc; [exact IH|]. intros _. simpl. by rewrite Hc. }
  set (w := lstrip (rev (lstrip line))) in *.
  assert (w <> []) as Hw by (intros Hw; rewrite Hw in Hne; done).
  specialize (Hl _ Hw). fold w in Hl.
  destruct (forallb py_isspace (rev w)) eqn:Hr; [|done].
  rewrite forallb_forall in Hr.
  assert (forallb py_isspace w = true); [|congruence].
  apply forallb_forall. intros c Hc. apply Hr. by apply in_rev in Hc.
Qed.

Lemma is_blank_strip line : is_blank line = true -> strip line = [].
Proof.
  unfold is_blank, strip. intros H.
  assert (lstrip line = []) as ->; [|done].
  induction line as [|c line IH]; [done|]. simpl in *.
  apply andb_true_iff in H as [-> H]. by apply IH.
Qed.

Lemma say_accepted con line t :
  stdout_accepts con line = true ->
  say con line t = Some (set_printed (printed t ++ [line]) t).
Proof. intros H. unfold say, emit. by rewrite H. Qed.

Lemma say_all_accepted con lines t :
  Forall (fun line => stdout_accepts con line = true) lines ->
  say_all con lines t = (set_printed (printed t ++ lines) t, true).
Proof.
  unfold say_all. intros H.
  assert (forall out, emit_all con lines out = (out ++ lines, true)) as ->; [|done].
  induction H as [|line lines Hl Hls IH]; intros out; simpl.
  - by rewrite app_nil_r.
  - unfold emit. rewrite Hl, IH. by rewrite <- app_assoc.
Qed.






(** *** What a line does *)

(** A line that is typed and is not empty: what the [try] block does with
    it, by what is left once it is stripped. *)
Lemma attend_typed v env con c line t :
  attend v env con (Typed (c :: line)) t
  = let user_input := strip (c :: line) in
    let t0 := set_eof_count 0 t in
    if text_eqb (lower con user_input) (txt "exit")
       || text_eqb (lower con user_input) (txt "quit") then
      match say con (10 :: txt "Goodbye!") t0 with
      | Some t1 => (Break, t1)
      | None => (Raises (Exception UnicodeEncodeError), t0)
      end
    else if text_eqb (lower con user_input) (txt "history") then
      match say_all con
              ((10 :: txt "Chat History:")
               :: map history_line (get_chat_history (chat_session t0))) t0 with
      | (t1, true) => (GoOn, t1)
      | (t1, false) => (Raises (Exception UnicodeEncodeError), t1)
      end
    else
      match user_input with
      | [] => (GoOn, t0)
      | _ :: _ =>
          let t1 (s : session) :=
            {| chat_session := s; eof_count := 0; printed := printed t0;
               exchanges := S (exchanges t0) |} in
          match chat v env (disk con (exchanges t0)) user_input (chat_session t0) with
          | (Ok response, s) =>
              match say con (10 :: txt "Assistant: " ++ response) (t1 s) with
              | Some t2 => (GoOn, t2)
              | None => (Raises (Exception UnicodeEncodeError), t1 s)
              end
          | (Raise e, s) => (Raises (Exception e), t1 s)
          | (Hang, s) => (Hangs, t1 s)
          end
      end.
Proof. reflexivity. Qed.

Lemma quiet_refl t : quiet t t.
Proof. by split. Qed.

Lemma quiet_trans t1 t2 t3 : quiet t1 t2 -> quiet t2 t3 -> quiet t1 t3.
Proof. intros [] []. split; congruence. Qed.

Lemma say_quiet con line t t' : say con line t = Some t' -> quiet t t'.
Proof.
  unfold say, emit. destruct (stdout_accepts con line); [|done].
  intros [= <-]. by split.
Qed.

Lemma say_all_quiet con lines t : quiet t (fst (say_all con lines t)).
Proof.
  unfold say_all. destruct (emit_all con lines (printed t)). by split.
Qed.

Lemma say_eof_count con line t t' : say con line t = Some t' -> eof_count t' = eof_count t.
Proof.
  unfold say, emit. destruct (stdout_accepts con line); [|done]. by intros [= <-].
Qed.

(** The handlers of the loop leave the session alone. *)
Lemma iteration_quiet v env con key t f t1 :
  attend v env con key t = (f, t1) ->
  quiet t t1 ->
  quiet t (snd (iteration v env con key t))
  /\ ((forall e, f <> Raises e) ->
      iteration v env con key t = (f, t1)).
Proof.
  intros Hatt Hq. unfold iteration. rewrite Hatt.
  destruct f as [| |[| |e0]|]; try (split; [done|]; intros He; done).
  - split; [|intros He; by destruct (He _ eq_refl)].
    destruct (_ <=? _).
    + pose proof (say_all_quiet con
        [10 :: txt "Error: Too many EOF errors encountered. Please check the debug log.";
         txt "Try running the script in a different terminal or IDE."]
        (set_eof_count (eof_count t1 + 1) t1)) as Hs.
      destruct (say_all _ _ _) as [t3 []]; simpl in *;
        (eapply quiet_trans; [exact Hq|]); destruct Hs; by split.
    + simpl. destruct Hq. by split.
  - split; [|intros He; by destruct (He _ eq_refl)].
    destruct (say con _ t1) as [t2|] eqn:Hsay; simpl; [|done].
    eapply quiet_trans; [exact Hq|]. by eapply say_quiet.
  - split; [|intros He; by destruct (He _ eq_refl)].
    destruct (say con _ t1) as [t2|] eqn:Hsay; simpl; [|done].
    eapply quiet_trans; [exact Hq|]. by eapply say_quiet.
Qed.

(** What one pass through the loop does to the session: nothing, or one
    call of [chat] with the line that was typed, stripped, which is then
    neither empty nor a command. *)
Lemma iteration_cases v env con key t :
  quiet t (snd (iteration v env con key t))
  \/ exists c line,
       key = Typed (c :: line)
       /\ strip (c :: line) <> []
       /\ is_command con (strip (c :: line)) = false
       /\ chat_session (snd (iteration v env con key t))
          = snd (chat v env (disk con (exchanges t)) (strip (c :: line)) (chat_session t))
       /\ exchanges (snd (iteration v env con key t)) = S (exchanges t).
Proof.
  assert (quiet t (set_eof_count 0 t)) as Hreset by (by split).
  destruct (attend v env con key t) as [f t1] eqn:Hatt.
  destruct key as [[|c line]| | |e].
  - left. apply (iteration_quiet _ _ _ _ _ _ _ Hatt). unfold attend in Hatt. simpl in Hatt.
    destruct (isatty con); injection Hatt as <- <-; done.
  - pose proof Hatt as Hatt'. rewrite attend_typed in Hatt. cbv zeta in Hatt.
    destruct (text_eqb (lower con (strip (c :: line))) (txt "exit")
              || text_eqb (lower con (strip (c :: line))) (txt "quit")) eqn:Hexit.
    { left. apply (iteration_quiet _ _ _ _ _ _ _ Hatt').
      destruct (say con _ (set_eof_count 0 t)) as [t2|] eqn:Hsay;
        injection Hatt as <- <-; [|done].
      eapply quiet_trans; [exact Hreset|]. by eapply say_quiet. }
    destruct (text_eqb (lower con (strip (c :: line))) (txt "history")) eqn:Hhist.
    { left. apply (iteration_quiet _ _ _ _ _ _ _ Hatt').
      pose proof (say_all_quiet con
        ((10 :: txt "Chat History:")
         :: map history_line (get_chat_history (chat_session (set_eof_count 0 t))))
        (set_eof_count 0 t)) as Hs.
      destruct (say_all _ _ _) as [t2 []]; injection Hatt as <- <-;
        (eapply quiet_trans; [exact Hreset|exact Hs]). }
    destruct (strip (c :: line)) as [|d u] eqn:Hstrip.
    { left. apply (iteration_quiet _ _ _ _ _ _ _ Hatt'). by injection Hatt as <- <-. }
    right. exists c, line. split; [done|]. split; [by rewrite Hstrip|].
    split; [unfold is_command; rewrite Hstrip; by rewrite Hexit, Hhist|].
    rewrite Hstrip. cbn [exchanges set_eof_count chat_session] in Hatt.
    unfold iteration. rewrite Hatt'.
    destruct (chat v env (disk con (exchanges t)) (d :: u) (chat_session t))
      as [[response|e|] s].
    + destruct (say con _ _) as [t2|] eqn:Hsay; injection Hatt as <- <-.
      * unfold say, emit in Hsay. destruct (stdout_accepts con _); [|done].
        injection Hsay as <-. done.
      * simpl. unfold say, emit. destruct (stdout_accepts con _); done.
    + injection Hatt as <- <-. simpl. unfold say, emit.
      destruct (stdout_accepts con _); done.
    + by injection Hatt as <- <-.
  - left. apply (iteration_quiet _ _ _ _ _ _ _ Hatt). by injection Hatt as <- <-.
  - left. apply (iteration_quiet _ _ _ _ _ _ _ Hatt). by injection Hatt as <- <-.
  - left. apply (iteration_quiet _ _ _ _ _ _ _ Hatt). by injection Hatt as <- <-.
Qed.

(** X13.  The commands stay on the console.  A line that, once stripped,
    is [exit] or [quit] in any case ends [main] with a goodbye; one that is
    [history] prints the header and one line for each message of the
    memory, oldest first, and the loop goes on; one that is white space
    only is skipped in silence.  All of them reset the counter of failed
    inputs, and none of them touches the session: no call is made, and the
    memory, the files and the limiter stay as they were.  (The console is
    taken to print every line.) *)
Theorem X13_commands_stay_on_the_console v env con c line rest t :
  (forall l, stdout_accepts con l = true) ->
  is_command con (strip (c :: line)) = true \/ strip (c :: line) = [] ->
  exists t',
    main_loop v env con (Typed (c :: line) :: rest) t
    = (if text_eqb (lower con (strip (c :: line))) (txt "exit")
          || text_eqb (lower con (strip (c :: line))) (txt "quit")
       then (Ended, t')
       else main_loop v env con rest t')
    /\ printed t'
       = printed t
         ++ (if text_eqb (lower con (strip (c :: line))) (txt "exit")
                || text_eqb (lower con (strip (c :: line))) (txt "quit")
             then [10 :: txt "Goodbye!"]
             else if text_eqb (lower con (strip (c :: line))) (txt "history")
             then (10 :: txt "Chat History:")
                  :: map history_line (get_chat_history (chat_session t))
             else [])
    /\ eof_count t' = 0
    /\ chat_session t' = chat_session t
    /\ exchanges t' = exchanges t.
Proof.
  intros Hout Hcmd.
  cbn [main_loop]. unfold iteration. rewrite attend_typed. cbv zeta.
  destruct (text_eqb (lower con (strip (c :: line))) (txt "exit")
            || text_eqb (lower con (strip (c :: line))) (txt "quit")) eqn:Hexit.
  { rewrite say_accepted by apply Hout. eexists. split; [reflexivity|]. by simpl. }
  destruct (text_eqb (lower con (strip (c :: line))) (txt "history")) eqn:Hhist.
  { rewrite say_all_accepted by (apply Forall_forall; intros; apply Hout).
    eexists. split; [reflexivity|]. by simpl. }
  destruct Hcmd as [Hcmd| ->].
  - unfold is_command in Hcmd. rewrite !orb_true_iff in Hcmd.
    apply orb_false_iff in Hexit as [He Hq]. rewrite He, Hq, Hhist in Hcmd.
    intuition discriminate.
  - exists (set_eof_count 0 t). split; [reflexivity|]. simpl. by rewrite app_nil_r.
Qed.

(** The theorem at [  History ], typed after one exchange. *)
Lemma X13_commands_stay_on_the_console_witness :
  exists t',
    main_loop Copy (installation true []) plain_terminal
      (Typed (32 :: txt " History ") :: [Typed (txt "QUIT")])
      (at_the_prompt (session_with [earlier_question]))
    = (if text_eqb (lower plain_terminal (strip (32 :: txt " History "))) (txt "exit")
          || text_eqb (lower plain_terminal (strip (32 :: txt " History "))) (txt "quit")
       then (Ended, t')
       else main_loop Copy (installation true []) plain_terminal [Typed (txt "QUIT")] t')
    /\ printed t'
       = printed (at_the_prompt (session_with [earlier_question]))
         ++ (if text_eqb (lower plain_terminal (strip (32 :: txt " History "))) (txt "exit")
                || text_eqb (lower plain_terminal (strip (32 :: txt " History ")))
                     (txt "quit")
             then [10 :: txt "Goodbye!"]
             else if text_eqb (lower plain_terminal (strip (32 :: txt " History ")))
                       (txt "history")
             then (10 :: txt "Chat History:")
                  :: map history_line
                       (get_chat_history
                          (chat_session (at_the_prompt (session_with [earlier_question]))))
             else [])
    /\ eof_count t' = 0
    /\ chat_session t' = chat_session (at_the_prompt (session_with [earlier_question]))
    /\ exchanges t' = exchanges (at_the_prompt (session_with [earlier_question])).
Proof.
  apply (X13_commands_stay_on_the_console Copy (installation true []) plain_terminal
           32 (txt " History ") [Typed (txt "QUIT")]
           (at_the_prompt (session_with [earlier_question]))).
  - reflexivity.
  - left. reflexivity.
Defined.

Lemma chat_limits v env fault message st :
  max_requests (rate_limiter (snd (chat v env fault message st)))
  = max_requests (rate_limiter st).
Proof.
  destruct (is_blank message) eqn:Hb.
  { by rewrite chat_blank. }
  destruct (_make_api_request v env (build_prompt v env (memory st) message) st)
    as [r st1] eqn:Hrun.
  destruct (make_api_request_sends v env _ _ _ _ Hrun) as ([_ _ _ Hmax _ _ _] & _).
  rewrite <- Hmax.
  destruct v; simpl.
  - destruct (httpx_chat_after_send env fault message st Hb) as (_ & -> & _).
    unfold _make_api_request, build_prompt in Hrun. by rewrite Hrun.
  - destruct (openai_chat_after_send env fault message st Hb) as (_ & -> & _).
    unfold _make_api_request, build_prompt in Hrun. by rewrite Hrun.
Qed.

(** X14.  What is typed is what is sent.  A line that, once stripped, is
    neither empty nor a command goes to [chat] stripped, with the counter
    of failed inputs reset; it is never blank, so the answer of [chat] to
    a blank message cannot come up from the console, and at least one
    physical call is made.  What [chat] returns is printed after
    ["Assistant: "] and the loop goes on.  (The console is taken to print
    every line, and the limit to be positive.) *)
Theorem X14_what_is_typed_is_sent v env con c line t :
  (forall l, stdout_accepts con l = true) ->
  0 < max_requests (rate_limiter (chat_session t)) ->
  strip (c :: line) <> [] ->
  is_command con (strip (c :: line)) = false ->
  is_blank (strip (c :: line)) = false
  /\ exists reply s,
       chat v env (disk con (exchanges t)) (strip (c :: line)) (chat_session t)
       = (Ok reply, s)
       /\ iteration v env con (Typed (c :: line)) t
          = (GoOn, {| chat_session := s; eof_count := 0;
                      printed := printed t ++ [10 :: txt "Assistant: " ++ reply];
                      exchanges := S (exchanges t) |})
       /\ (calls (chat_session t) < calls s)%nat.
Proof.
  intros Hout Hpos Hne Hcmd.
  pose proof (strip_not_blank _ Hne) as Hb. split; [done|].
  destruct (chat_returns_text v env (disk con (exchanges t)) (strip (c :: line))
              (chat_session t) Hpos) as (reply & Hreply).
  destruct (chat v env (disk con (exchanges t)) (strip (c :: line)) (chat_session t))
    as [r s] eqn:Hchat.
  simpl in Hreply. subst r. exists reply, s. split; [done|]. split.
  - unfold iteration. rewrite attend_typed. cbv zeta.
    unfold is_command in Hcmd. rewrite !orb_false_iff in Hcmd.
    destruct Hcmd as [[He Hq] Hh]. rewrite He, Hq, Hh. cbn [orb].
    destruct (strip (c :: line)) as [|d u] eqn:Hstrip; [done|].
    cbn [exchanges set_eof_count chat_session]. rewrite Hchat.
    rewrite say_accepted by apply Hout. reflexivity.
  - pose proof (chat_calls v env (disk con (exchanges t)) _ (chat_session t) Hb) as Hc.
    rewrite Hchat in Hc. simpl in Hc. rewrite Hc.
    by apply make_api_request_calls.
Qed.

(** The theorem at a line with spaces around it. *)
Lemma X14_what_is_typed_is_sent_witness :
  is_blank (strip (32 :: txt " Hello  ")) = false
  /\ exists reply s,
       chat Copy (installation true [ok_response "Hi"])
         (disk plain_terminal (exchanges (at_the_prompt (fresh_session "chat_memory.json" ∅))))
         (strip (32 :: txt " Hello  "))
         (chat_session (at_the_prompt (fresh_session "chat_memory.json" ∅)))
       = (Ok reply, s)
       /\ iteration Copy (installation true [ok_response "Hi"]) plain_terminal
            (Typed (32 :: txt " Hello  ")) (at_the_prompt (fresh_session "chat_memory.json" ∅))
          = (GoOn, {| chat_session := s; eof_count := 0;
                      printed := printed (at_the_prompt (fresh_session "chat_memory.json" ∅))
                                 ++ [10 :: txt "Assistant: " ++ reply];
                      exchanges := S (exchanges (at_the_prompt
                                                   (fresh_session "chat_memory.json" ∅))) |})
       /\ (calls (chat_session (at_the_prompt (fresh_session "chat_memory.json" ∅)))
           < calls s)%nat.
Proof.
  apply (X14_what_is_typed_is_sent Copy (installation true [ok_response "Hi"]) plain_terminal
           32 (txt " Hello  ") (at_the_prompt (fresh_session "chat_memory.json" ∅)));
    try reflexivity.
  vm_compute. discriminate.
Defined.

(** *** The loop as a whole *)

Lemma chat_adds v env fault message st :
  (exists added,
     messages (memory (snd (chat v env fault message st))) = messages (memory st) ++ added
     /\ (length added <= 2)%nat)
  /\ metadata (memory (snd (chat v env fault message st))) = metadata (memory st)
  /\ memory_file (snd (chat v env fault message st)) = memory_file st.
Proof.
  destruct (is_blank message) eqn:Hb.
  { rewrite chat_blank by done. simpl. split; [|done]. exists []. rewrite app_nil_r.
    split; [done|simpl; lia]. }
  destruct (_make_api_request v env (build_prompt v env (memory st) message) st)
    as [r st1] eqn:Hrun.
  destruct (make_api_request_sends v env _ _ _ _ Hrun) as ([Hmf Hm _ _ _ _ _] & _).
  destruct r as [[reply|]|e|].
  - rewrite (chat_replied _ _ _ _ _ _ _ Hb Hrun).
    destruct (_save_memory _ _ _ _ _) as [[l|e|] fs]; simpl; rewrite Hm;
      (split; [|done]); eexists; (split; [reflexivity|simpl; lia]).
  - rewrite (chat_not_replied _ _ _ _ _ _ Hb Hrun). simpl. rewrite Hm.
    split; [|done]. eexists. split; [reflexivity|simpl; lia].
  - rewrite (chat_send_raises _ _ _ _ _ _ _ Hb Hrun). simpl. rewrite Hm.
    split; [|done]. exists []. rewrite app_nil_r. split; [done|simpl; lia].
  - assert (snd (chat v env fault message st) = st1) as ->.
    { destruct v; unfold chat, Httpx.chat, OpenAIClient.chat; rewrite Hb;
        unfold _make_api_request, build_prompt in Hrun;
        unfold try_except, bind, get; by rewrite Hrun. }
    rewrite Hm. split; [|done]. exists []. rewrite app_nil_r. split; [done|simpl; lia].
Qed.

Lemma chat_calls_bound v env fault message st :
  (calls st <= calls (snd (chat v env fault message st)) <= calls st + 3)%nat.
Proof.
  destruct (is_blank message) eqn:Hb.
  { rewrite chat_blank by done. simpl. lia. }
  rewrite (chat_calls _ _ _ _ _ Hb).
  destruct (_make_api_request v env (build_prompt v env (memory st) message) st)
    as [r st1] eqn:Hrun.
  destruct (make_api_request_sends v env _ _ _ _ Hrun) as ([_ _ _ _ _ Hc _] & Hc3 & _).
  simpl. lia.
Qed.

Lemma grew_trans n m t1 t2 t3 : grew n t1 t2 -> grew m t2 t3 -> grew (n + m) t1 t3.
Proof.
  intros [(a1 & Ha1 & Hl1) Hmd1 Hp1 Hx1 Hc1 He1] [(a2 & Ha2 & Hl2) Hmd2 Hp2 Hx2 Hc2 He2].
  split; try congruence; try lia.
  exists (a1 ++ a2). rewrite Ha2, Ha1, <- app_assoc. split; [done|].
  rewrite length_app. lia.
Qed.

Lemma grew_quiet t t' : quiet t t' -> grew 0 t t'.
Proof.
  intros [Hm Hf Hc Ht Hrl Hp He]. split; try congruence; try lia.
  exists []. rewrite app_nil_r, Hm. split; [done|simpl; lia].
Qed.

Lemma grew_weaken n m t t' : (n <= m)%nat -> grew n t t' -> grew m t t'.
Proof.
  intros Hnm [(a & Ha & Hl) Hmd Hp Hx Hc He]. split; try done; try lia.
  exists a. split; [done|lia].
Qed.

Lemma iteration_grew v env con key t :
  grew (length (typed [key])) t (snd (iteration v env con key t)).
Proof.
  destruct (iteration_cases v env con key t) as [Hq|(c & line & -> & _ & _ & Hs & He)].
  - eapply grew_weaken; [|by apply grew_quiet]. lia.
  - simpl.
    destruct (chat_adds v env (disk con (exchanges t)) (strip (c :: line)) (chat_session t))
      as ((added & Ha & Hl) & Hmd & Hp).
    pose proof (chat_calls_bound v env (disk con (exchanges t)) (strip (c :: line))
                  (chat_session t)) as Hc.
    pose proof (chat_limits v env (disk con (exchanges t)) (strip (c :: line))
                  (chat_session t)) as Hx.
    split; rewrite ?Hs, ?He; try done; try lia.
    exists added. split; [done|lia].
Qed.

Lemma typed_cons key keys : typed (key :: keys) = typed [key] ++ typed keys.
Proof. unfold typed. simpl. by rewrite app_nil_r. Qed.

Lemma main_loop_grew v env con keys t :
  grew (length (typed keys)) t (snd (main_loop v env con keys t)).
Proof.
  revert t. induction keys as [|key keys IH]; intros t.
  - simpl. apply grew_quiet, quiet_refl.
  - rewrite typed_cons, length_app. cbn [main_loop].
    pose proof (iteration_grew v env con key t) as Hstep.
    destruct (iteration v env con key t) as [[| |e|] t1]; simpl in Hstep |- *;
      try (eapply grew_weaken; [|exact Hstep]; lia).
    eapply grew_trans; [exact Hstep|apply IH].
Qed.

(** X15.  Over a whole run of the loop of [main], whatever is typed, the
    conversation only grows: the messages that were in the memory are
    still there, in their order, followed by at most two new ones for each
    line typed; the metadata and the path of the memory file do not change;
    and at most [RETRY_ATTEMPTS] physical calls are made for each line
    typed. *)
Theorem X15_the_conversation_only_grows v env con keys t :
  (exists added,
     messages (memory (chat_session (snd (main_loop v env con keys t))))
     = messages (memory (chat_session t)) ++ added
     /\ (length added <= 2 * length (typed keys))%nat)
  /\ metadata (memory (chat_session (snd (main_loop v env con keys t))))
     = metadata (memory (chat_session t))
  /\ memory_file (chat_session (snd (main_loop v env con keys t)))
     = memory_file (chat_session t)
  /\ (calls (chat_session t)
      <= calls (chat_session (snd (main_loop v env con keys t)))
      <= calls (chat_session t) + 3 * length (typed keys))%nat.
Proof.
  destruct (main_loop_grew v env con keys t) as [Ha Hmd Hp _ Hc _]. done.
Qed.

(** On POSIX [_load_memory] returns a memory whatever the file holds, for
    a path that has a name. *)
Lemma load_memory_posix_returns env path (fs : filesystem) :
  posix env = true ->
  with_suffix true path ".json.backup" <> None ->
  exists m fs', _load_memory env path fs = (Ok m, fs').
Proof.
  intros Hposix Hname.
  destruct (fs !! path) as [data|] eqn:Hfile;
    [|rewrite load_memory_absent by done; eauto].
  destruct (utf8_decode data) as [t|] eqn:Hdec;
    [|rewrite (load_memory_undecodable _ _ _ _ Hfile Hdec); eauto].
  rewrite (load_memory_decoded _ _ _ _ _ Hfile Hdec).
  destruct (json_loads (universal_newlines t)) as [v|]; [eauto|].
  rewrite Hposix.
  destruct (with_suffix true path ".json.backup") as [bp|]; [|done].
  unfold rename. rewrite Hfile, Hposix. simpl. eauto.
Qed.

Lemma emit_all_accepted con lines out :
  (forall l, stdout_accepts con l = true) ->
  emit_all con lines out = (out ++ lines, true).
Proof.
  intros Hout. revert out. induction lines as [|line lines IH]; intros out; simpl.
  - by rewrite app_nil_r.
  - unfold emit. rewrite Hout, IH. by rewrite <- app_assoc.
Qed.

(** With a console that prints every line and a positive limit, a pass
    through the loop ends in [continue] or in [break]. *)
Lemma iteration_flows v env con key t :
  (forall l, stdout_accepts con l = true) ->
  0 < max_requests (rate_limiter (chat_session t)) ->
  fst (iteration v env con key t) = GoOn \/ fst (iteration v env con key t) = Break.
Proof.
  intros Hout Hpos.
  assert (forall e t1,
            attend v env con key t = (Raises e, t1) ->
            fst (iteration v env con key t) = GoOn
            \/ fst (iteration v env con key t) = Break) as Hraised.
  { intros e t1 Hatt. unfold iteration. rewrite Hatt. destruct e as [| |e0].
    - destruct (_ <=? _); [|by left].
      rewrite say_all_accepted by (apply Forall_forall; intros; apply Hout). by right.
    - rewrite say_accepted by apply Hout. by right.
    - rewrite say_accepted by apply Hout. by left. }
  destruct (attend v env con key t) as [f t1] eqn:Hatt.
  destruct f as [| |e|]; try by eapply Hraised.
  - left. unfold iteration. by rewrite Hatt.
  - right. unfold iteration. by rewrite Hatt.
  - exfalso. destruct key as [[|c line]| | |e]; try (by injection Hatt).
    + unfold attend in Hatt. simpl in Hatt. destruct (isatty con); by injection Hatt.
    + rewrite attend_typed in Hatt. cbv zeta in Hatt.
      destruct (_ || _).
      { rewrite say_accepted in Hatt by apply Hout. by injection Hatt. }
      destruct (text_eqb _ _).
      { rewrite say_all_accepted in Hatt by (apply Forall_forall; intros; apply Hout).
        by injection Hatt. }
      destruct (strip (c :: line)) as [|d u]; [by injection Hatt|].
      cbn [exchanges set_eof_count chat_session] in Hatt.
      destruct (chat_returns_text v env (disk con (exchanges t)) (d :: u) (chat_session t)
                  Hpos) as (reply & Hreply).
      destruct (chat v env (disk con (exchanges t)) (d :: u) (chat_session t))
        as [r s]. simpl in Hreply. subst r.
      rewrite say_accepted in Hatt by apply Hout. by injection Hatt.
Qed.

Lemma main_loop_ends v env con keys t :
  (forall l, stdout_accepts con l = true) ->
  0 < max_requests (rate_limiter (chat_session t)) ->
  fst (main_loop v env con keys t) = Ended
  \/ fst (main_loop v env con keys t) = AwaitingInput.
Proof.
  intros Hout. revert t. induction keys as [|key keys IH]; intros t Hpos; [by right|].
  cbn [main_loop].
  pose proof (iteration_flows v env con key t Hout Hpos) as Hflow.
  pose proof (iteration_grew v env con key t) as Hgrew.
  destruct (iteration v env con key t) as [f t1]. simpl in Hflow, Hgrew.
  destruct Hflow as [-> | ->]; [|by left].
  apply IH. rewrite (grew_limit _ _ _ Hgrew). exact Hpos.
Qed.

(** X16.  [main] does not crash.  On POSIX, with a console that prints
    every line, whatever is typed, whatever the endpoint answers, whatever
    the memory file holds and whatever the disk does during the saves,
    [main] either returns or is waiting for the next line: no exception
    leaves it, and it is never stuck in [chat]. *)
Theorem X16_main_does_not_crash v env con keys now (fs : filesystem) :
  posix env = true ->
  (forall l, stdout_accepts con l = true) ->
  fst (fst (main v env con keys now fs)) = Ended
  \/ fst (fst (main v env con keys now fs)) = AwaitingInput.
Proof.
  intros Hposix Hout. unfold main.
  rewrite (emit_all_accepted con banner [] Hout).
  destruct (isatty con).
  - destruct (load_memory_posix_returns env "chat_memory.json" fs Hposix ltac:(done))
      as (m & fs' & Hload).
    unfold PersistentChat_init. rewrite Hload.
    match goal with
    | |- context [main_loop v env con keys ?t0] =>
        pose proof (main_loop_ends v env con keys t0 Hout) as Hends;
        destruct (main_loop v env con keys t0) as [e t']
    end.
    simpl in *. apply Hends. unfold RATE_LIMIT_REQUESTS. lia.
  - unfold emit. rewrite Hout. by left.
Qed.

(** The theorem at a corrupt memory file, a disk that fails, an endpoint
    that cannot be reached and a user who leans on the keyboard. *)
Lemma X16_main_does_not_crash_witness :
  fst (fst (main QwenEdited (installation true [Failed ConnectError])
              {| isatty := true; unicode_lower := fun s => s;
                 stdout_accepts := fun _ => true; disk := fun _ => OpenFails |}
              [Typed (txt "Hello"); Interrupted]
              0 {[ "chat_memory.json" := raw "{oops" ]}))
  = Ended
  \/ fst (fst (main QwenEdited (installation true [Failed ConnectError])
                 {| isatty := true; unicode_lower := fun s => s;
                    stdout_accepts := fun _ => true; disk := fun _ => OpenFails |}
                 [Typed (txt "Hello"); Interrupted]
                 0 {[ "chat_memory.json" := raw "{oops" ]}))
     = AwaitingInput.
Proof.
  apply (X16_main_does_not_crash QwenEdited (installation true [Failed ConnectError])
           {| isatty := true; unicode_lower := fun s => s;
              stdout_accepts := fun _ => true; disk := fun _ => OpenFails |}
           [Typed (txt "Hello"); Interrupted]
           0 {[ "chat_memory.json" := raw "{oops" ]});
    reflexivity.
Defined.

(** ** The persona *)

Lemma validate_dict_not_a_json_error {S} env v :
  not_a_json_error (@validate_dict S env v).
Proof.
  destruct v; try by apply not_a_json_error_of_option.
  intros ?; simpl; split; congruence.
Qed.

Lemma persona_validate_ends {S} env pyd v :
  not_a_json_error (@Persona.validate S env pyd v).
Proof.
  assert (forall d field, not_a_json_error (@Persona.required S d field)) as Hreq.
  { intros d field. by apply not_a_json_error_of_option. }
  assert (forall v, not_a_json_error (@Persona.validate_str_list S env pyd v)) as Hlist.
  { intros w. unfold Persona.validate_str_list.
    apply not_a_json_error_bind.
    - destruct w; try by apply not_a_json_error_of_option.
      apply not_a_json_error_ret.
    - intros items. apply mapM_not_a_json_error. intros a.
      apply validate_str_not_a_json_error. }
  assert (forall v, not_a_json_error (@Persona.validate_str_dict S env v)) as Hdict.
  { intros w. unfold Persona.validate_str_dict.
    apply not_a_json_error_bind; [apply validate_dict_not_a_json_error|]. intros d.
    apply mapM_not_a_json_error. intros kv.
    apply not_a_json_error_bind; [apply validate_str_not_a_json_error|]. intros s.
    apply not_a_json_error_ret. }
  assert (forall v, not_a_json_error (@Persona.validate_int S pyd v)) as Hint.
  { intros w. unfold Persona.validate_int.
    destruct w; try by apply not_a_json_error_of_option.
    destruct (Persona.int_literal lit); [|by apply not_a_json_error_of_option].
    destruct (_ && _); [apply not_a_json_error_ret|by apply not_a_json_error_of_option]. }
  unfold Persona.validate.
  destruct v; try (intros ?; simpl; split; congruence).
  repeat (apply not_a_json_error_bind;
          [apply not_a_json_error_bind;
           [apply Hreq
           |intros ?;
            first [apply validate_str_not_a_json_error|apply Hint|apply Hlist|apply Hdict]]
          |intros ?]).
  apply not_a_json_error_ret.
Qed.

(** What [load_system_message] does once the file is read and decoded. *)
Lemma load_system_message_decoded env pyd path (fs : filesystem) data s :
  fs !! path = Some data ->
  utf8_decode data = Some s ->
  Persona.load_system_message env pyd path fs
  = (Ok match json_loads (universal_newlines s) with
        | Some v =>
            match fst (Persona.validate env pyd v tt) with
            | Ok p =>
                match Persona.lookup (txt "name") (Persona.user_context p),
                      Persona.lookup (txt "location") (Persona.user_context p),
                      Persona.lookup (txt "needs") (Persona.user_context p) with
                | Some user, Some place, Some needs =>
                    Persona.system_message p user place needs
                | _, _, _ => Persona.FALLBACK
                end
            | _ => Persona.FALLBACK
            end
        | None => Persona.FALLBACK
        end, fs).
Proof.
  intros Hfile Hdec.
  unfold Persona.load_system_message, try_except, bind, get, ret, raise, read_text,
    json_load, of_option, stateless.
  rewrite (file_exists_true _ _ _ Hfile), Hfile, Hdec.
  destruct (json_loads (universal_newlines s)) as [v|]; [|done].
  cbv beta iota zeta delta [of_option ret raise].
  destruct (persona_validate_ends (S:=unit) env pyd v tt) as [_ Hends].
  destruct (Persona.validate env pyd v ()) as [[p|e|] u]; simpl in *; try done.
  destruct (Persona.lookup (txt "name") (Persona.user_context p)); [|done].
  destruct (Persona.lookup (txt "location") (Persona.user_context p)); [|done].
  destruct (Persona.lookup (txt "needs") (Persona.user_context p)); done.
Qed.

(** What [load_system_message] returns, case by case; the logging of the
    fallback is not embedded, so the files are returned as they were. *)
Lemma load_system_message_cases env pyd path (fs : filesystem) :
  exists preamble,
    Persona.load_system_message env pyd path fs = (Ok preamble, fs)
    /\ (preamble = Persona.FALLBACK
        \/ exists v p user place needs,
             fst (Persona.validate env pyd v tt) = Ok p
             /\ preamble = Persona.system_message p user place needs)
    /\ (exists rest, preamble = txt "You are " ++ rest)
    /\ (fs !! path = None -> preamble = Persona.FALLBACK)
    /\ (forall data, fs !! path = Some data -> utf8_decode data = None ->
          preamble = Persona.FALLBACK)
    /\ (forall data s, fs !! path = Some data -> utf8_decode data = Some s ->
          json_loads (universal_newlines s) = None -> preamble = Persona.FALLBACK).
Proof.
  assert (exists rest, Persona.FALLBACK = txt "You are " ++ rest) as Hfb.
  { eexists. reflexivity. }
  destruct (fs !! path) as [data|] eqn:Hfile.
  2:{ exists Persona.FALLBACK. split.
      - unfold Persona.load_system_message, try_except, bind, get, ret, raise, file_exists.
        by rewrite Hfile.
      - repeat split; try done. by left. }
  destruct (utf8_decode data) as [s|] eqn:Hdec.
  2:{ exists Persona.FALLBACK. split.
      - unfold Persona.load_system_message, try_except, bind, get, ret, raise, read_text.
        by rewrite (file_exists_true _ _ _ Hfile), Hfile, Hdec.
      - repeat split; try done. by left. }
  rewrite (load_system_message_decoded env pyd path fs data s Hfile Hdec).
  eexists. split; [reflexivity|].
  destruct (json_loads (universal_newlines s)) as [v|] eqn:Hjson.
  2:{ repeat split; try done. by left. }
  assert (forall t, t = Persona.FALLBACK ->
            (t = Persona.FALLBACK
             \/ exists v p user place needs,
                  fst (Persona.validate env pyd v tt) = Ok p
                  /\ t = Persona.system_message p user place needs)
            /\ (exists rest, t = txt "You are " ++ rest)
            /\ (Some data = None -> t = Persona.FALLBACK)
            /\ (forall data0, Some data = Some data0 -> utf8_decode data0 = None ->
                  t = Persona.FALLBACK)
            /\ (forall data0 s0, Some data = Some data0 -> utf8_decode data0 = Some s0 ->
                  json_loads (universal_newlines s0) = None -> t = Persona.FALLBACK))
    as Hfallback.
  { intros t ->. repeat split; try done. by left. }
  destruct (Persona.validate env pyd v tt) as [[p|e|] u] eqn:Hval; simpl;
    try by apply Hfallback.
  destruct (Persona.lookup (txt "name") (Persona.user_context p)) as [user|];
    [|by apply Hfallback].
  destruct (Persona.lookup (txt "location") (Persona.user_context p)) as [place|];
    [|by apply Hfallback].
  destruct (Persona.lookup (txt "needs") (Persona.user_context p)) as [needs|];
    [|by apply Hfallback].
  split; [|split; [|split; [|split]]].
  - right. exists v, p, user, place, needs. by rewrite Hval.
  - unfold Persona.system_message. eexists. reflexivity.
  - done.
  - intros data0 [= <-]. congruence.
  - intros data0 s0 [= <-] Hs0. rewrite Hdec in Hs0. injection Hs0 as <-. congruence.
Qed.

(** X17.  [load_system_message] always returns a preamble: no exception
    leaves it, and it changes no file but the debug log.  The preamble is
    the text formatted from a persona that passed the validation, or else
    the fallback text: the fallback is what is returned when the persona
    file is missing, is not UTF-8, or is not JSON (and, as the formula
    shows, in every other case of failure).  In all cases it begins with
    ["You are "]. *)
Theorem X17_a_preamble_is_always_loaded env pyd path (fs : filesystem) :
  exists preamble,
    fst (Persona.load_system_message env pyd path fs) = Ok preamble
    /\ (forall q, q <> debug_log ->
          snd (Persona.load_system_message env pyd path fs) !! q = fs !! q)
    /\ (preamble = Persona.FALLBACK
        \/ exists v p user place needs,
             fst (Persona.validate env pyd v tt) = Ok p
             /\ preamble = Persona.system_message p user place needs)
    /\ (exists rest, preamble = txt "You are " ++ rest)
    /\ (fs !! path = None -> preamble = Persona.FALLBACK)
    /\ (forall data, fs !! path = Some data -> utf8_decode data = None ->
          preamble = Persona.FALLBACK)
    /\ (forall data s, fs !! path = Some data -> utf8_decode data = Some s ->
          json_loads (universal_newlines s) = None -> preamble = Persona.FALLBACK).
Proof.
  destruct (load_system_message_cases env pyd path fs) as (preamble & Hrun & Hrest).
  exists preamble. rewrite Hrun. by repeat split; try apply Hrest.
Qed.

Lemma mapM_validate_strings {S} env (l : list text) (s : S) :
  mapM (validate_str env) (map JStr l) s = (Ok l, s).
Proof.
  induction l as [|x l IH]; [done|].
  cbn [map mapM]. unfold bind at 1. cbn [validate_str ret]. unfold bind at 1.
  by rewrite IH.
Qed.

Lemma mapM_validate_string_values {S} env (d : list (text * text)) (s : S) :
  mapM (fun kv => bind (validate_str env (snd kv)) (fun v => ret (fst kv, v)))
       (map (fun kv => (fst kv, JStr (snd kv))) d) s
  = (Ok d, s).
Proof.
  induction d as [|[k x] d IH]; [done|].
  cbn [map mapM fst snd]. unfold bind at 1. unfold bind at 1.
  cbn [validate_str ret]. unfold bind at 1. by rewrite IH.
Qed.

(** X18.  A persona file of the right types is formatted as written.
    When the file is a JSON object whose [name], [base_description] and
    [reminder] are strings, whose [age] is an integer, whose
    [personality_traits] and [interaction_guidelines] are arrays of strings
    and whose [user_context] is an object of strings with the keys [name],
    [location] and [needs], then, under every version of pydantic,
    [load_system_message] returns the preamble made of these values: the
    traits as a list of dashes, the guidelines numbered from 1.  Other keys
    of the object are ignored, and the age is not used. *)
Theorem X18_a_well_typed_persona_is_formatted
    env pyd path (fs : filesystem) data s d n lit a b traits ctx guidelines r
    user place needs :
  fs !! path = Some data ->
  utf8_decode data = Some s ->
  json_loads (universal_newlines s) = Some (JDict d) ->
  dict_get (txt "name") d = Some (JStr n) ->
  dict_get (txt "age") d = Some (JNum lit) ->
  Persona.int_literal lit = Some a ->
  - 2 ^ 63 <= a < 2 ^ 63 ->
  dict_get (txt "base_description") d = Some (JStr b) ->
  dict_get (txt "personality_traits") d = Some (JList (map JStr traits)) ->
  dict_get (txt "user_context") d
  = Some (JDict (map (fun kv => (fst kv, JStr (snd kv))) ctx)) ->
  dict_get (txt "interaction_guidelines") d = Some (JList (map JStr guidelines)) ->
  dict_get (txt "reminder") d = Some (JStr r) ->
  Persona.lookup (txt "name") ctx = Some user ->
  Persona.lookup (txt "location") ctx = Some place ->
  Persona.lookup (txt "needs") ctx = Some needs ->
  Persona.load_system_message env pyd path fs
  = (Ok (txt "You are " ++ n ++ txt ", " ++ b ++ [10; 10]
         ++ txt "Personality Traits:" ++ [10]
         ++ join [10] (map (fun trait => txt "- " ++ trait) traits) ++ [10; 10]
         ++ txt "Context: Chatting with " ++ user ++ txt " (" ++ place
         ++ txt ") who needs " ++ needs ++ txt "." ++ [10; 10]
         ++ txt "You should:" ++ [10]
         ++ join [10] (imap (fun i guideline =>
                               Persona.decimal (i + 1) ++ txt ". " ++ guideline)
                            guidelines) ++ [10; 10]
         ++ txt "Remember: " ++ r), fs).
Proof.
  intros Hfile Hdec Hjson Hn Ha Hlit Hrange Hb Ht Hc Hg Hr Hu Hp Hne.
  rewrite (load_system_message_decoded env pyd path fs data s Hfile Hdec), Hjson.
  assert (Persona.validate env pyd (JDict d) tt
          = (Ok {| Persona.name := n; Persona.age := a; Persona.base_description := b;
                   Persona.personality_traits := traits; Persona.user_context := ctx;
                   Persona.interaction_guidelines := guidelines;
                   Persona.reminder := r |}, tt)) as ->.
  { unfold Persona.validate, Persona.required.
    rewrite Hn, Ha, Hb, Ht, Hc, Hg, Hr.
    assert ((- 2 ^ 63 <=? a) && (a <? 2 ^ 63) = true) as Hfits.
    { apply andb_true_iff. split; [apply Z.leb_le|apply Z.ltb_lt]; lia. }
    assert (forall S (s : S), Persona.validate_int pyd (JNum lit) s = (Ok a, s)) as Hint.
    { intros S s0. unfold Persona.validate_int. by rewrite Hlit, Hfits. }
    assert (forall S l (s : S),
              Persona.validate_str_list env pyd (JList (map JStr l)) s = (Ok l, s)) as Hlist.
    { intros S l s0. unfold Persona.validate_str_list, bind, ret.
      by rewrite mapM_validate_strings. }
    assert (forall S (s : S),
              Persona.validate_str_dict env
                (JDict (map (fun kv => (fst kv, JStr (snd kv))) ctx)) s = (Ok ctx, s))
      as Hdict.
    { intros S s0. unfold Persona.validate_str_dict. unfold bind at 1.
      cbn [validate_dict ret]. by rewrite mapM_validate_string_values. }
    erewrite bind_ok; [|reflexivity].
    erewrite bind_ok; [|cbv beta iota delta [bind of_option ret]; apply Hint].
    erewrite bind_ok; [|reflexivity].
    erewrite bind_ok; [|cbv beta iota delta [bind of_option ret]; apply Hlist].
    erewrite bind_ok; [|cbv beta iota delta [bind of_option ret]; apply Hdict].
    erewrite bind_ok; [|cbv beta iota delta [bind of_option ret]; apply Hlist].
    erewrite bind_ok; [|reflexivity].
    reflexivity. }
  cbn [fst Persona.user_context]. rewrite Hu, Hp, Hne. reflexivity.
Qed.

(** The theorem at [sample_persona]. *)
Lemma X18_a_well_typed_persona_is_formatted_witness :
  Persona.load_system_message (installation false []) Persona.strict "ai_persona.json"
    {[ "ai_persona.json" := Persona.sample_persona ]}
  = (Ok (txt "You are " ++ txt "Ava" ++ txt ", " ++ txt "a calm guide" ++ [10; 10]
         ++ txt "Personality Traits:" ++ [10]
         ++ join [10] (map (fun trait => txt "- " ++ trait) [txt "kind"; txt "curious"])
         ++ [10; 10]
         ++ txt "Context: Chatting with " ++ txt "Sam" ++ txt " (" ++ txt "Oslo"
         ++ txt ") who needs " ++ txt "focus" ++ txt "." ++ [10; 10]
         ++ txt "You should:" ++ [10]
         ++ join [10] (imap (fun i guideline =>
                               Persona.decimal (i + 1) ++ txt ". " ++ guideline)
                            [txt "Listen"; txt "Be brief"; txt "Ask"]) ++ [10; 10]
         ++ txt "Remember: " ++ txt "Stay kind."),
     {[ "ai_persona.json" := Persona.sample_persona ]}).
Proof.
  apply (X18_a_well_typed_persona_is_formatted (installation false []) Persona.strict
           "ai_persona.json" {[ "ai_persona.json" := Persona.sample_persona ]}
           Persona.sample_persona
           (quoted "{'name': 'Ava', 'age': 30, 'base_description': 'a calm guide',
 'personality_traits': ['kind', 'curious'],
 'user_context': {'name': 'Sam', 'location': 'Oslo', 'needs': 'focus'},
 'interaction_guidelines': ['Listen', 'Be brief', 'Ask'],
 'reminder': 'Stay kind.', 'extra': null}")
           [(txt "name", JStr (txt "Ava")); (txt "age", JNum (txt "30"));
            (txt "base_description", JStr (txt "a calm guide"));
            (txt "personality_traits", JList [JStr (txt "kind"); JStr (txt "curious")]);
            (txt "user_context",
             JDict [(txt "name", JStr (txt "Sam")); (txt "location", JStr (txt "Oslo"));
                    (txt "needs", JStr (txt "focus"))]);
            (txt "interaction_guidelines",
             JList [JStr (txt "Listen"); JStr (txt "Be brief"); JStr (txt "Ask")]);
            (txt "reminder", JStr (txt "Stay kind.")); (txt "extra", JNull)]
           (txt "Ava") (txt "30") 30 (txt "a calm guide") [txt "kind"; txt "curious"]
           [(txt "name", txt "Sam"); (txt "location", txt "Oslo"); (txt "needs", txt "focus")]
           [txt "Listen"; txt "Be brief"; txt "Ask"] (txt "Stay kind.")
           (txt "Sam") (txt "Oslo") (txt "focus"));
    try (vm_compute; reflexivity).
  change (2 ^ 63) with 9223372036854775808. lia.
Defined.

(** ** The error monitor of the window *)

Lemma log_errors_invariant rs em :
  Gui.MAX_RECENT_ERRORS em = 10 ->
  (length (Gui.recent_errors em) <= 10)%nat ->
  Gui.error_count (Gui.log_errors rs em) = Gui.error_count em + Z.of_nat (length rs)
  /\ Gui.recent_errors (Gui.log_errors rs em)
     = drop (length (Gui.recent_errors em ++ map Gui.entry_of rs) - 10)
            (Gui.recent_errors em ++ map Gui.entry_of rs).
Proof.
  revert em. induction rs as [|r rs IH]; intros em Hmax Hlen.
  - simpl. rewrite app_nil_r. split; [lia|].
    replace (length (Gui.recent_errors em) - 10)%nat with 0%nat by lia. done.
  - cbn [Gui.log_errors fold_left].
    change (fold_left (fun em r => Gui.log_error r em) rs (Gui.log_error r em))
      with (Gui.log_errors rs (Gui.log_error r em)).
    assert (Gui.recent_errors (Gui.log_error r em)
            = drop (length (Gui.recent_errors em ++ [Gui.entry_of r]) - 10)
                   (Gui.recent_errors em ++ [Gui.entry_of r])) as Hone.
    { unfold Gui.log_error. cbn [Gui.recent_errors]. rewrite Hmax.
      rewrite length_app. cbn [length].
      destruct (Z.ltb_spec 10 (Z.of_nat (length (Gui.recent_errors em) + 1))).
      - replace (length (Gui.recent_errors em) + 1 - 10)%nat with 1%nat by lia.
        by destruct (Gui.recent_errors em ++ [Gui.entry_of r]).
      - replace (length (Gui.recent_errors em) + 1 - 10)%nat with 0%nat by lia. done. }
    assert (length (Gui.recent_errors (Gui.log_error r em)) <= 10)%nat as Hlen'.
    { rewrite Hone, length_drop, length_app. cbn [length]. lia. }
    destruct (IH (Gui.log_error r em) Hmax Hlen') as [Hcount Hrecent].
    split.
    + rewrite Hcount. cbn [Gui.log_error Gui.error_count length]. lia.
    + rewrite Hrecent, Hone. cbn [map].
      rewrite <- drop_app_le by (rewrite length_app; cbn [length]; lia).
      rewrite drop_drop. rewrite <- app_assoc. cbn [app].
      f_equal. rewrite !length_app, length_drop, !length_app. cbn [length].
      rewrite length_map. lia.
Qed.

(** X19.  The error monitor of the window keeps the ten latest errors.
    After any number of calls of [log_error] on a new [ErrorMonitor], the
    summary gives the number of calls as [total_errors] and, as
    [recent_errors], the entries of the last ten calls, or of all of them
    when there were fewer, oldest first. *)
Theorem X19_the_ten_latest_errors_are_kept rs :
  Gui.get_error_summary (Gui.log_errors rs Gui.ErrorMonitor_init)
  = (Z.of_nat (length rs), drop (length rs - 10) (map Gui.entry_of rs))
  /\ (length (snd (Gui.get_error_summary (Gui.log_errors rs Gui.ErrorMonitor_init)))
      <= 10)%nat.
Proof.
  destruct (log_errors_invariant rs Gui.ErrorMonitor_init eq_refl ltac:(simpl; lia))
    as [Hcount Hrecent].
  cbn [Gui.recent_errors Gui.ErrorMonitor_init app Gui.error_count] in Hcount, Hrecent.
  rewrite length_map in Hrecent.
  unfold Gui.get_error_summary. rewrite Hcount, Hrecent. split; [f_equal; lia|].
  cbn [snd]. rewrite length_drop, length_map. lia.
Qed.

(** ** The name in the title of the window *)

Lemma strip_prefix_app p rest : strip_prefix p (p ++ rest) = Some rest.
Proof.
  induction p as [|a p IH]; [by destruct rest|].
  cbn [app strip_prefix]. by rewrite Z.eqb_refl.
Qed.

Lemma until_comma_before_comma pre rest :
  Gui.until_comma (pre ++ 44 :: rest) = Gui.until_comma pre.
Proof.
  induction pre as [|c pre IH]; [done|].
  cbn [app Gui.until_comma]. by rewrite IH.
Qed.

Lemma until_comma_without_comma s :
  Forall (fun c => c <> 44) s -> Gui.until_comma s = s.
Proof.
  induction 1 as [|c s Hc _ IH]; [done|].
  cbn [Gui.until_comma]. destruct (Z.eqb_spec c 44); [done|]. by rewrite IH.
Qed.

Lemma search_you_are_at_the_start rest :
  Gui.until_comma rest <> [] ->
  Gui.search_you_are (txt "You are " ++ rest) = Some (Gui.until_comma rest).
Proof.
  intros Hgroup.
  assert (exists c s, txt "You are " ++ rest = c :: s) as (c & s & Hcons).
  { by eexists _, _. }
  assert (Gui.search_you_are (txt "You are " ++ rest)
          = match strip_prefix (txt "You are ") (txt "You are " ++ rest) with
            | Some rest' =>
                match Gui.until_comma rest' with
                | [] => Gui.search_you_are s
                | group => Some group
                end
            | None => Gui.search_you_are s
            end) as ->.
  { rewrite Hcons at 1. cbn [Gui.search_you_are]. by rewrite <- Hcons. }
  rewrite strip_prefix_app. by destruct (Gui.until_comma rest).
Qed.

Lemma current_persona_name_steps env pyd path (fs : filesystem) preamble :
  Persona.load_system_message env pyd path fs = (Ok preamble, fs) ->
  Gui.current_persona_name env pyd path fs
  = match _load_memory env "chat_memory.json" fs with
    | (Ok _, fs') =>
        (Ok match Gui.search_you_are preamble with
            | Some group => strip group
            | None => txt "AI"
            end, fs')
    | (Raise _, fs') => (Ok (txt "AI"), fs')
    | (Hang, fs') => (Hang, fs')
    end.
Proof.
  intros Hload. unfold Gui.current_persona_name, try_except.
  unfold bind at 1. rewrite Hload. unfold bind at 1.
  destruct (_load_memory env "chat_memory.json" fs) as [[m|e|] fs']; try done.
  by destruct (Gui.search_you_are preamble).
Qed.

(** X20.  The window is named after the persona.  When the window is made,
    the name it shows is taken from the preamble that [load_system_message]
    returns: for the preamble of a persona it is the name of the persona up
    to its first comma, without the white space around it, provided this
    part is not empty (so the whole name, stripped, when the name has no
    comma); for the fallback preamble it is ["Grok"].  This is so when the
    memory file loads; when loading the memory raises, the name is
    ["AI"]. *)
Theorem X20_the_window_is_named_after_the_persona
    env pyd path (fs : filesystem) preamble :
  Persona.load_system_message env pyd path fs = (Ok preamble, fs) ->
  (forall m fs', _load_memory env "chat_memory.json" fs = (Ok m, fs') ->
     (preamble = Persona.FALLBACK ->
      Gui.current_persona_name env pyd path fs = (Ok (txt "Grok"), fs'))
     /\ (forall p user place needs,
           preamble = Persona.system_message p user place needs ->
           Gui.until_comma (Persona.name p) <> [] ->
           Gui.current_persona_name env pyd path fs
           = (Ok (strip (Gui.until_comma (Persona.name p))), fs')
           /\ (Forall (fun c => c <> 44) (Persona.name p) ->
               Gui.current_persona_name env pyd path fs
               = (Ok (strip (Persona.name p)), fs'))))
  /\ (forall e fs', _load_memory env "chat_memory.json" fs = (Raise e, fs') ->
        Gui.current_persona_name env pyd path fs = (Ok (txt "AI"), fs')).
Proof.
  intros Hload.
  rewrite (current_persona_name_steps env pyd path fs preamble Hload).
  split.
  - intros m fs' ->. split.
    + intros ->. vm_compute. reflexivity.
    + intros p user place needs -> Hgroup.
      assert (Gui.search_you_are (Persona.system_message p user place needs)
              = Some (Gui.until_comma (Persona.name p))) as ->.
      { unfold Persona.system_message.
        change (txt ", ") with (44 :: [32]).
        rewrite <- (until_comma_before_comma (Persona.name p)
                      ([32] ++ Persona.base_description p ++ [10; 10]
                       ++ txt "Personality Traits:" ++ [10]
                       ++ join [10] (map Persona.bullet (Persona.personality_traits p))
                       ++ [10; 10]
                       ++ txt "Context: Chatting with " ++ user ++ txt " (" ++ place
                       ++ txt ") who needs " ++ needs ++ txt "." ++ [10; 10]
                       ++ txt "You should:" ++ [10]
                       ++ join [10] (imap Persona.numbered
                                       (Persona.interaction_guidelines p))
                       ++ [10; 10] ++ txt "Remember: " ++ Persona.reminder p)) in Hgroup |- *.
        by rewrite <- (search_you_are_at_the_start _ Hgroup). }
      split; [done|].
      intros Hname. by rewrite (until_comma_without_comma _ Hname).
  - by intros e fs' ->.
Qed.

(** The theorem at [sample_persona], with no memory file: the name is
    ["Ava"]. *)
Lemma X20_the_window_is_named_after_the_persona_witness :
  Gui.current_persona_name (installation false []) Persona.strict "ai_persona.json"
    {[ "ai_persona.json" := Persona.sample_persona ]}
  = (Ok (txt "Ava"), {[ "ai_persona.json" := Persona.sample_persona ]}).
Proof.
  refine (proj2 (proj2 (proj1 (X20_the_window_is_named_after_the_persona
            (installation false []) Persona.strict "ai_persona.json"
            {[ "ai_persona.json" := Persona.sample_persona ]}
            (Persona.system_message
               {| Persona.name := txt "Ava"; Persona.age := 30;
                  Persona.base_description := txt "a calm guide";
                  Persona.personality_traits := [txt "kind"; txt "curious"];
                  Persona.user_context :=
                    [(txt "name", txt "Sam"); (txt "location", txt "Oslo");
                     (txt "needs", txt "focus")];
                  Persona.interaction_guidelines :=
                    [txt "Listen"; txt "Be brief"; txt "Ask"];
                  Persona.reminder := txt "Stay kind." |}
               (txt "Sam") (txt "Oslo") (txt "focus")) _)
            empty_memory {[ "ai_persona.json" := Persona.sample_persona ]} _)
            _ (txt "Sam") (txt "Oslo") (txt "focus") eq_refl _) _).
  - vm_compute. reflexivity.
  - vm_compute. reflexivity.
  - vm_compute. discriminate.
  - vm_compute. repeat constructor; discriminate.
Defined.
